(** * Lock-free resizable RCU hash table (rculfhash.c): a sequential model

    The development embeds the split-ordered list of [rculfhash.c] on a
    64-bit machine: [unsigned long] values and tagged pointers are integers
    in [0, 2^64), node memory is a finite map from addresses to nodes, and
    every unbounded loop of the source takes a fuel argument. *)

From Stdlib Require Import ZArith Lia List Bool Permutation.
From stdpp Require Import base option gmap list.

Local Open Scope Z_scope.

(** ** Machine words *)

Module Word.

Definition BITS_PER_LONG : Z := 64.
Definition ulong_max : Z := 2 ^ 64.

(** Conversion of an integer to [unsigned long], [uint32_t], [uint8_t]. *)
Definition ulong (x : Z) : Z := x mod 2 ^ 64.
Definition u32 (x : Z) : Z := x mod 2 ^ 32.
Definition u8 (x : Z) : Z := x mod 2 ^ 8.

Definition is_ulong (x : Z) : Prop := 0 <= x < 2 ^ 64.

(** [~x] on an [unsigned long]. *)
Definition ulong_not (x : Z) : Z := ulong (Z.lnot x).

(** [x << n] on an [unsigned long]. *)
Definition shl (x n : Z) : Z := ulong (Z.shiftl x n).

End Word.
Import Word.

(** ** Bit utilities *)

Module Bits.

(** [BitReverseTable256], generated as the source does with the macros
    [R2], [R4] and [R6]. *)
Definition R2 (n : Z) : list Z := [n; n + 2 * 64; n + 1 * 64; n + 3 * 64].
Definition R4 (n : Z) : list Z :=
  R2 n ++ R2 (n + 2 * 16) ++ R2 (n + 1 * 16) ++ R2 (n + 3 * 16).
Definition R6 (n : Z) : list Z :=
  R4 n ++ R4 (n + 2 * 4) ++ R4 (n + 1 * 4) ++ R4 (n + 3 * 4).
Definition BitReverseTable256 : list Z :=
  Eval vm_compute in R6 0 ++ R6 2 ++ R6 1 ++ R6 3.

Definition bit_reverse_u8 (v : Z) : Z :=
  nth (Z.to_nat (u8 v)) BitReverseTable256 0.

Definition bit_reverse_u32 (v : Z) : Z :=
  Z.lor (Z.lor (Z.lor
    (u32 (Z.shiftl (bit_reverse_u8 v) 24))
    (u32 (Z.shiftl (bit_reverse_u8 (Z.shiftr v 8)) 16)))
    (u32 (Z.shiftl (bit_reverse_u8 (Z.shiftr v 16)) 8)))
    (bit_reverse_u8 (Z.shiftr v 24)).

Definition bit_reverse_u64 (v : Z) : Z :=
  Z.lor (Z.lor (Z.lor (Z.lor (Z.lor (Z.lor (Z.lor
    (shl (bit_reverse_u8 v) 56)
    (shl (bit_reverse_u8 (Z.shiftr v 8)) 48))
    (shl (bit_reverse_u8 (Z.shiftr v 16)) 40))
    (shl (bit_reverse_u8 (Z.shiftr v 24)) 32))
    (shl (bit_reverse_u8 (Z.shiftr v 32)) 24))
    (shl (bit_reverse_u8 (Z.shiftr v 40)) 16))
    (shl (bit_reverse_u8 (Z.shiftr v 48)) 8))
    (bit_reverse_u8 (Z.shiftr v 56)).

(** [CAA_BITS_PER_LONG] is 64 here. *)
Definition bit_reverse_ulong (v : Z) : Z := bit_reverse_u64 v.

(** The portable [fls_u64]: one conditional shift per line of the source. *)
Definition fls_u64 (x : Z) : Z :=
  if x =? 0 then 0 else
  let r := 64 in
  let '(x, r) :=
    if Z.land x 0xFFFFFFFF00000000 =? 0 then (shl x 32, r - 32) else (x, r) in
  let '(x, r) :=
    if Z.land x 0xFFFF000000000000 =? 0 then (shl x 16, r - 16) else (x, r) in
  let '(x, r) :=
    if Z.land x 0xFF00000000000000 =? 0 then (shl x 8, r - 8) else (x, r) in
  let '(x, r) :=
    if Z.land x 0xF000000000000000 =? 0 then (shl x 4, r - 4) else (x, r) in
  let '(x, r) :=
    if Z.land x 0xC000000000000000 =? 0 then (shl x 2, r - 2) else (x, r) in
  let '(x, r) :=
    if Z.land x 0x8000000000000000 =? 0 then (shl x 1, r - 1) else (x, r) in
  r.

Definition fls_u32 (x : Z) : Z :=
  if x =? 0 then 0 else
  let r := 32 in
  let '(x, r) :=
    if Z.land x 0xFFFF0000 =? 0 then (u32 (Z.shiftl x 16), r - 16) else (x, r) in
  let '(x, r) :=
    if Z.land x 0xFF000000 =? 0 then (u32 (Z.shiftl x 8), r - 8) else (x, r) in
  let '(x, r) :=
    if Z.land x 0xF0000000 =? 0 then (u32 (Z.shiftl x 4), r - 4) else (x, r) in
  let '(x, r) :=
    if Z.land x 0xC0000000 =? 0 then (u32 (Z.shiftl x 2), r - 2) else (x, r) in
  let '(x, r) :=
    if Z.land x 0x80000000 =? 0 then (u32 (Z.shiftl x 1), r - 1) else (x, r) in
  r.

(** The guard of [fls_ulong] tests the misspelt macro [CAA_BITS_PER_lONG],
    which the preprocessor reads as 0: the 64-bit branch is always taken. *)
Definition fls_ulong (x : Z) : Z := fls_u64 x.

Definition get_count_order_u32 (x : Z) : Z :=
  if x =? 0 then -1 else fls_u32 (u32 (x - 1)).

Definition get_count_order_ulong (x : Z) : Z :=
  if x =? 0 then -1 else fls_ulong (ulong (x - 1)).

End Bits.
Import Bits.

(** ** Results of running the C code

    [Abort] stands for a failed [assert] or an access to memory that is not
    allocated, [OutOfFuel] for a loop that did not finish within its fuel. *)

Inductive result (A : Type) : Type :=
| Ok (a : A)
| Abort
| OutOfFuel.
Arguments Ok {A} a.
Arguments Abort {A}.
Arguments OutOfFuel {A}.

Definition bind {A B : Type} (m : result A) (k : A -> result B) : result B :=
  match m with
  | Ok a => k a
  | Abort => Abort
  | OutOfFuel => OutOfFuel
  end.

Notation "x <- m ;; k" := (bind m (fun x => k))
  (at level 100, m at next level, right associativity).

(** A load through a pointer: unallocated memory aborts. *)
Definition load {A : Type} (o : option A) : result A :=
  match o with
  | Some a => Ok a
  | None => Abort
  end.

(** ** Constants of rculfhash.c *)

Definition COUNT_COMMIT_ORDER : Z := 10.
Definition CHAIN_LEN_TARGET : Z := 1.
Definition CHAIN_LEN_RESIZE_THRESHOLD : Z := 3.
Definition MIN_TABLE_SIZE : Z := 1.
Definition MAX_TABLE_ORDER : Z := 64.
Definition MIN_PARTITION_PER_THREAD_ORDER : Z := 12.
Definition MIN_PARTITION_PER_THREAD : Z := shl 1 MIN_PARTITION_PER_THREAD_ORDER.

Definition REMOVED_FLAG : Z := shl 1 0.
Definition DUMMY_FLAG : Z := shl 1 1.
Definition FLAGS_MASK : Z := shl 1 2 - 1.
Definition END_VALUE : Z := 0.

(** [ENOENT] of errno.h. *)
Definition ENOENT : Z := 2.

(** Modelled from the spec: [struct _cds_lfht_node] is declared in
    urcu/rculfhash.h, which is not part of the sources at hand; it holds the
    tagged [next] pointer and the [reverse_hash] word, so that one element of
    a level array takes two machine words. *)
Definition sizeof_node : Z := 16.

(** ** Tagged pointers *)

Definition clear_flag (node : Z) : Z := Z.land node (ulong_not FLAGS_MASK).
Definition is_removed (node : Z) : bool := negb (Z.land node REMOVED_FLAG =? 0).
Definition flag_removed (node : Z) : Z := Z.lor node REMOVED_FLAG.
Definition is_dummy (node : Z) : bool := negb (Z.land node DUMMY_FLAG =? 0).
Definition flag_dummy (node : Z) : Z := Z.lor node DUMMY_FLAG.
Definition get_end : Z := END_VALUE.
Definition is_end (node : Z) : bool := clear_flag node =? END_VALUE.

(** ** Memory and table state *)

Record _cds_lfht_node : Type := mk_node {
  next : Z;
  reverse_hash : Z
}.

Record ht_items_count : Type := mk_items_count {
  add : Z;
  del : Z
}.

(** The whole state seen by a sequential run: the fields of [struct cds_lfht]
    and of its [struct rcu_table t], the file-scope [nr_cpus_mask], the node
    memory, and what the environment answers.

    - [mem] holds the [p] part ([next], [reverse_hash]) of every allocated
      node, user node or element of a level array, by address;
    - [node_keys] holds the [key] and [key_len] fields of the user nodes;
    - [rcu_callbacks] counts the [do_resize_cb] callbacks handed to
      [call_rcu] and not run yet;
    - [ht_hash_fct] and [ht_compare_fct] are the caller's hash and comparison
      functions, applied to a key pointer and its length;
    - [env_nprocs] is what [sysconf(_SC_NPROCESSORS_CONF)] returns and
      [env_cpu] what [sched_getcpu()] returns. *)
Record state : Type := mk_state {
  t_size : Z;
  t_resize_target : Z;
  t_resize_initiated : Z;
  t_tbl : gmap Z Z;
  ht_hash_fct : Z -> Z -> Z -> Z;
  ht_compare_fct : Z -> Z -> Z -> Z -> Z;
  ht_hash_seed : Z;
  ht_flags : Z;
  ht_in_progress_resize : Z;
  ht_in_progress_destroy : Z;
  ht_count : Z;
  ht_percpu_count : option (list ht_items_count);
  nr_cpus_mask : Z;
  mem : gmap Z _cds_lfht_node;
  node_keys : gmap Z (Z * Z);
  rcu_callbacks : nat;
  env_nprocs : Z;
  env_cpu : Z
}.

Definition set_size (v : Z) (s : state) : state :=
  mk_state v (t_resize_target s) (t_resize_initiated s) (t_tbl s)
    (ht_hash_fct s) (ht_compare_fct s) (ht_hash_seed s) (ht_flags s)
    (ht_in_progress_resize s) (ht_in_progress_destroy s) (ht_count s)
    (ht_percpu_count s) (nr_cpus_mask s) (mem s) (node_keys s)
    (rcu_callbacks s) (env_nprocs s) (env_cpu s).

Definition set_resize_target (v : Z) (s : state) : state :=
  mk_state (t_size s) v (t_resize_initiated s) (t_tbl s) (ht_hash_fct s)
    (ht_compare_fct s) (ht_hash_seed s) (ht_flags s)
    (ht_in_progress_resize s) (ht_in_progress_destroy s) (ht_count s)
    (ht_percpu_count s) (nr_cpus_mask s) (mem s) (node_keys s)
    (rcu_callbacks s) (env_nprocs s) (env_cpu s).

Definition set_resize_initiated (v : Z) (s : state) : state :=
  mk_state (t_size s) (t_resize_target s) v (t_tbl s) (ht_hash_fct s)
    (ht_compare_fct s) (ht_hash_seed s) (ht_flags s)
    (ht_in_progress_resize s) (ht_in_progress_destroy s) (ht_count s)
    (ht_percpu_count s) (nr_cpus_mask s) (mem s) (node_keys s)
    (rcu_callbacks s) (env_nprocs s) (env_cpu s).

Definition set_tbl (v : gmap Z Z) (s : state) : state :=
  mk_state (t_size s) (t_resize_target s) (t_resize_initiated s) v
    (ht_hash_fct s) (ht_compare_fct s) (ht_hash_seed s) (ht_flags s)
    (ht_in_progress_resize s) (ht_in_progress_destroy s) (ht_count s)
    (ht_percpu_count s) (nr_cpus_mask s) (mem s) (node_keys s)
    (rcu_callbacks s) (env_nprocs s) (env_cpu s).

Definition set_in_progress_resize (v : Z) (s : state) : state :=
  mk_state (t_size s) (t_resize_target s) (t_resize_initiated s) (t_tbl s)
    (ht_hash_fct s) (ht_compare_fct s) (ht_hash_seed s) (ht_flags s) v
    (ht_in_progress_destroy s) (ht_count s) (ht_percpu_count s)
    (nr_cpus_mask s) (mem s) (node_keys s) (rcu_callbacks s) (env_nprocs s)
    (env_cpu s).

Definition set_count (v : Z) (s : state) : state :=
  mk_state (t_size s) (t_resize_target s) (t_resize_initiated s) (t_tbl s)
    (ht_hash_fct s) (ht_compare_fct s) (ht_hash_seed s) (ht_flags s)
    (ht_in_progress_resize s) (ht_in_progress_destroy s) v
    (ht_percpu_count s) (nr_cpus_mask s) (mem s) (node_keys s)
    (rcu_callbacks s) (env_nprocs s) (env_cpu s).

Definition set_percpu_count (v : option (list ht_items_count)) (s : state) : state :=
  mk_state (t_size s) (t_resize_target s) (t_resize_initiated s) (t_tbl s)
    (ht_hash_fct s) (ht_compare_fct s) (ht_hash_seed s) (ht_flags s)
    (ht_in_progress_resize s) (ht_in_progress_destroy s) (ht_count s) v
    (nr_cpus_mask s) (mem s) (node_keys s) (rcu_callbacks s) (env_nprocs s)
    (env_cpu s).

Definition set_nr_cpus_mask (v : Z) (s : state) : state :=
  mk_state (t_size s) (t_resize_target s) (t_resize_initiated s) (t_tbl s)
    (ht_hash_fct s) (ht_compare_fct s) (ht_hash_seed s) (ht_flags s)
    (ht_in_progress_resize s) (ht_in_progress_destroy s) (ht_count s)
    (ht_percpu_count s) v (mem s) (node_keys s) (rcu_callbacks s)
    (env_nprocs s) (env_cpu s).

Definition set_mem (v : gmap Z _cds_lfht_node) (s : state) : state :=
  mk_state (t_size s) (t_resize_target s) (t_resize_initiated s) (t_tbl s)
    (ht_hash_fct s) (ht_compare_fct s) (ht_hash_seed s) (ht_flags s)
    (ht_in_progress_resize s) (ht_in_progress_destroy s) (ht_count s)
    (ht_percpu_count s) (nr_cpus_mask s) v (node_keys s) (rcu_callbacks s)
    (env_nprocs s) (env_cpu s).

Definition set_node_keys (v : gmap Z (Z * Z)) (s : state) : state :=
  mk_state (t_size s) (t_resize_target s) (t_resize_initiated s) (t_tbl s)
    (ht_hash_fct s) (ht_compare_fct s) (ht_hash_seed s) (ht_flags s)
    (ht_in_progress_resize s) (ht_in_progress_destroy s) (ht_count s)
    (ht_percpu_count s) (nr_cpus_mask s) (mem s) v (rcu_callbacks s)
    (env_nprocs s) (env_cpu s).

Definition set_rcu_callbacks (v : nat) (s : state) : state :=
  mk_state (t_size s) (t_resize_target s) (t_resize_initiated s) (t_tbl s)
    (ht_hash_fct s) (ht_compare_fct s) (ht_hash_seed s) (ht_flags s)
    (ht_in_progress_resize s) (ht_in_progress_destroy s) (ht_count s)
    (ht_percpu_count s) (nr_cpus_mask s) (mem s) (node_keys s) v
    (env_nprocs s) (env_cpu s).

Definition set_env_cpu (v : Z) (s : state) : state :=
  mk_state (t_size s) (t_resize_target s) (t_resize_initiated s) (t_tbl s)
    (ht_hash_fct s) (ht_compare_fct s) (ht_hash_seed s) (ht_flags s)
    (ht_in_progress_resize s) (ht_in_progress_destroy s) (ht_count s)
    (ht_percpu_count s) (nr_cpus_mask s) (mem s) (node_keys s)
    (rcu_callbacks s) (env_nprocs s) v.

(** Stores to the fields of the node at address [a]. *)
Definition store_next (a v : Z) (s : state) : result state :=
  n <- load (mem s !! a);;
  Ok (set_mem (<[a := mk_node v (reverse_hash n)]> (mem s)) s).

Definition store_reverse_hash (a v : Z) (s : state) : result state :=
  n <- load (mem s !! a);;
  Ok (set_mem (<[a := mk_node (next n) v]> (mem s)) s).

(** [uatomic_cmpxchg(&a->p.next, old, new)], run with no other thread: the
    word is replaced when it holds [old], and its former value is returned. *)
Definition uatomic_cmpxchg_next (a old new : Z) (s : state) : result (state * Z) :=
  n <- load (mem s !! a);;
  if next n =? old
  then s' <- store_next a new s;; Ok (s', next n)
  else Ok (s, next n).

(** [&level->nodes[j]] for a level array at address [level]. *)
Definition node_at (level j : Z) : Z := ulong (level + sizeof_node * j).

(** [calloc(1, len * sizeof(struct _cds_lfht_node))] returning [base]: the
    byte count wraps as an [unsigned long] product does, and the block holds
    as many zeroed nodes as fit in it. *)
Fixpoint zero_fill (base : Z) (n : nat) (m : gmap Z _cds_lfht_node)
  : gmap Z _cds_lfht_node :=
  match n with
  | O => m
  | S k => <[node_at base (Z.of_nat k) := mk_node 0 0]> (zero_fill base k m)
  end.

Definition calloc_level (base len : Z) (s : state) : state :=
  let nbytes := ulong (len * sizeof_node) in
  set_mem (zero_fill base (Z.to_nat (nbytes / sizeof_node)) (mem s)) s.

(** [free] of a level array allocated with [len] nodes. *)
Fixpoint unmap (base : Z) (n : nat) (m : gmap Z _cds_lfht_node)
  : gmap Z _cds_lfht_node :=
  match n with
  | O => m
  | S k => delete (node_at base (Z.of_nat k)) (unmap base k m)
  end.

Definition free_level (base len : Z) (s : state) : state :=
  let nbytes := ulong (len * sizeof_node) in
  set_mem (unmap base (Z.to_nat (nbytes / sizeof_node)) (mem s)) s.

(** [for (j = start; j < start + n; j++) body(j)]. *)
Fixpoint for_range (n : nat) (j : Z) (body : Z -> state -> result state)
  (s : state) : result state :=
  match n with
  | O => Ok s
  | S n' => s' <- body j s;; for_range n' (j + 1) body s'
  end.

(** Conversion of an integer to [long]. *)
Definition slong (x : Z) : Z := (x + 2 ^ 63) mod 2 ^ 64 - 2 ^ 63.

Inductive add_mode : Type :=
| ADD_DEFAULT
| ADD_UNIQUE
| ADD_REPLACE.

Definition add_mode_eqb (a b : add_mode) : bool :=
  match a, b with
  | ADD_DEFAULT, ADD_DEFAULT => true
  | ADD_UNIQUE, ADD_UNIQUE => true
  | ADD_REPLACE, ADD_REPLACE => true
  | _, _ => false
  end.

(** [struct cds_lfht_iter]. *)
Record cds_lfht_iter : Type := mk_iter {
  iter_node : Z;
  iter_next : Z
}.

(** Where the inner loop of [_cds_lfht_add] leaves to. *)
Inductive add_exit : Type :=
| goto_insert (iter_prev iter : Z)
| goto_replace (iter next : Z)
| goto_gc_node (iter_prev iter next : Z)
| return_unique (found : Z).

(** Where the inner loop of [_cds_lfht_gc_bucket] leaves to. *)
Inductive gc_exit : Type :=
| gc_return
| gc_break (iter_prev iter next : Z).

(** ** The functions of rculfhash.c

    How the file is built is a parameter: [NDEBUG] tells whether [assert] is
    compiled out, and [CDS_LFHT_AUTO_RESIZE] is the flag bit of
    urcu/rculfhash.h, a header that is not part of the sources at hand.

    The model follows one thread: a compare-and-swap meets the value that the
    same thread last stored, memory barriers, the resize mutex and the
    read-side lock have no effect, [synchronize_rcu] returns at once since no
    reader is running, and the worker threads of a partitioned resize run one
    after the other. *)

Record build : Type := mk_build {
  NDEBUG : bool;
  CDS_LFHT_AUTO_RESIZE : Z
}.

Section Model.

Variable cfg : build.

Definition c_assert (b : bool) : result unit :=
  if NDEBUG cfg then Ok tt else if b then Ok tt else Abort.

(** *** Split counters and resize requests *)

Definition _uatomic_max_resize_target (s : state) (v : Z) : state * Z :=
  let old := t_resize_target s in
  if old >=? v then (s, old) else (set_resize_target v s, v).

Definition resize_target_update (s : state) (size growth_order : Z) : state * Z :=
  _uatomic_max_resize_target s (shl size growth_order).

Definition resize_target_update_count (s : state) (count : Z) : state :=
  set_resize_target (Z.max count MIN_TABLE_SIZE) s.

(** The tail shared by [cds_lfht_resize_lazy] and
    [cds_lfht_resize_lazy_count]: account for the resize, give up when the
    table is being destroyed, else hand [do_resize_cb] to [call_rcu]. *)
Definition queue_resize_work (s : state) : state :=
  let s := set_in_progress_resize (u32 (ht_in_progress_resize s + 1)) s in
  if negb (ht_in_progress_destroy s =? 0)
  then set_in_progress_resize (u32 (ht_in_progress_resize s - 1)) s
  else set_resize_initiated 1 (set_rcu_callbacks (S (rcu_callbacks s)) s).

Definition cds_lfht_resize_lazy (s : state) (size growth : Z) : state :=
  let '(s, target_size) := resize_target_update s size growth in
  if (t_resize_initiated s =? 0) && (size <? target_size)
  then queue_resize_work s
  else s.

Definition cds_lfht_resize_lazy_count (s : state) (size count : Z) : state :=
  if Z.land (ht_flags s) (CDS_LFHT_AUTO_RESIZE cfg) =? 0 then s else
  let s := resize_target_update_count s count in
  if t_resize_initiated s =? 0
  then queue_resize_work s
  else s.

Definition alloc_per_cpu_items_count (s : state)
  : state * option (list ht_items_count) :=
  if nr_cpus_mask s =? -2 then (s, None) else
  if nr_cpus_mask s =? -1 then
    let maxcpus := env_nprocs s in
    if maxcpus <=? 0 then (set_nr_cpus_mask (-2) s, None) else
    let maxcpus := slong (shl 1 (get_count_order_ulong (ulong maxcpus))) in
    let s := set_nr_cpus_mask (maxcpus - 1) s in
    (s, Some (repeat (mk_items_count 0 0) (Z.to_nat (nr_cpus_mask s + 1))))
  else
    (s, Some (repeat (mk_items_count 0 0) (Z.to_nat (nr_cpus_mask s + 1)))).

Definition ht_get_cpu (s : state) : result Z :=
  _ <- c_assert (nr_cpus_mask s >=? 0);;
  let cpu := env_cpu s in
  if cpu <? 0 then Ok cpu else Ok (Z.land cpu (nr_cpus_mask s)).

Definition ht_count_add (s : state) (size : Z) : result state :=
  match ht_percpu_count s with
  | None => Ok s
  | Some cells =>
    cpu <- ht_get_cpu s;;
    if cpu <? 0 then Ok s else
    cell <- load (cells !! Z.to_nat cpu);;
    let percpu_count := ulong (add cell + 1) in
    let s := set_percpu_count
      (Some (<[Z.to_nat cpu := mk_items_count percpu_count (del cell)]> cells)) s in
    if Z.land percpu_count (shl 1 COUNT_COMMIT_ORDER - 1) =? 0 then
      let count := slong (ht_count s + shl 1 COUNT_COMMIT_ORDER) in
      let s := set_count count s in
      if Z.land count (slong (count - 1)) =? 0 then
        if ulong (Z.shiftr count CHAIN_LEN_RESIZE_THRESHOLD) <? size then Ok s
        else Ok (cds_lfht_resize_lazy_count s size
                   (ulong (Z.shiftr count (CHAIN_LEN_TARGET - 1))))
      else Ok s
    else Ok s
  end.

Definition ht_count_del (s : state) (size : Z) : result state :=
  match ht_percpu_count s with
  | None => Ok s
  | Some cells =>
    cpu <- ht_get_cpu s;;
    if cpu <? 0 then Ok s else
    cell <- load (cells !! Z.to_nat cpu);;
    let percpu_count := ulong (del cell + 1) in
    let s := set_percpu_count
      (Some (<[Z.to_nat cpu := mk_items_count (add cell) percpu_count]> cells)) s in
    if Z.land percpu_count (shl 1 COUNT_COMMIT_ORDER - 1) =? 0 then
      let count := slong (ht_count s - shl 1 COUNT_COMMIT_ORDER) in
      let s := set_count count s in
      if Z.land count (slong (count - 1)) =? 0 then
        if ulong (Z.shiftr count CHAIN_LEN_RESIZE_THRESHOLD) >=? size then Ok s
        else if ulong count <? ulong (shl 1 COUNT_COMMIT_ORDER * (nr_cpus_mask s + 1))
        then Ok s
        else Ok (cds_lfht_resize_lazy_count s size
                   (ulong (Z.shiftr count (CHAIN_LEN_TARGET - 1))))
      else Ok s
    else Ok s
  end.

Definition check_resize (s : state) (size chain_len : Z) : state :=
  if Z.land (ht_flags s) (CDS_LFHT_AUTO_RESIZE cfg) =? 0 then s else
  let count := ulong (ht_count s) in
  if count >=? shl 1 COUNT_COMMIT_ORDER then s else
  if chain_len >=? CHAIN_LEN_RESIZE_THRESHOLD
  then cds_lfht_resize_lazy s size
         (get_count_order_u32 (u32 (chain_len - (CHAIN_LEN_TARGET - 1))))
  else s.

(** *** Bucket index *)

Definition lookup_bucket (s : state) (size hash : Z) : result Z :=
  _ <- c_assert (size >? 0);;
  let index := Z.land hash (ulong (size - 1)) in
  let order := fls_ulong index in
  level <- load (t_tbl s !! order);;
  Ok (node_at level
        (Z.land index (if order =? 0 then 0 else ulong (shl 1 (order - 1) - 1)))).

(** *** Bucket garbage collection *)

Fixpoint gc_bucket_walk (n : nat) (s : state) (node iter_prev iter : Z)
  : result gc_exit :=
  match n with
  | O => OutOfFuel
  | S n' =>
    if is_end iter then Ok gc_return else
    it <- load (mem s !! clear_flag iter);;
    nd <- load (mem s !! node);;
    if reverse_hash it >? reverse_hash nd then Ok gc_return else
    let next_ := next it in
    if is_removed next_ then Ok (gc_break iter_prev iter next_) else
    gc_bucket_walk n' s node (clear_flag iter) next_
  end.

Fixpoint gc_bucket_retry (n fuel : nat) (s : state) (dummy node : Z)
  : result state :=
  match n with
  | O => OutOfFuel
  | S n' =>
    d <- load (mem s !! dummy);;
    nd <- load (mem s !! node);;
    let iter := next d in
    _ <- c_assert (reverse_hash d <=? reverse_hash nd);;
    _ <- c_assert (negb (dummy =? node));;
    e <- gc_bucket_walk fuel s node dummy iter;;
    match e with
    | gc_return => Ok s
    | gc_break iter_prev iter next_ =>
      _ <- c_assert (negb (is_removed iter));;
      let new_next :=
        if is_dummy iter then flag_dummy (clear_flag next_)
        else clear_flag next_ in
      let new_next :=
        if is_removed iter then flag_removed new_next else new_next in
      r <- uatomic_cmpxchg_next iter_prev iter new_next s;;
      gc_bucket_retry n' fuel (fst r) dummy node
    end
  end.

Definition _cds_lfht_gc_bucket (fuel : nat) (s : state) (dummy node : Z)
  : result state :=
  _ <- c_assert (negb (is_dummy dummy));;
  _ <- c_assert (negb (is_removed dummy));;
  _ <- c_assert (negb (is_dummy node));;
  _ <- c_assert (negb (is_removed node));;
  gc_bucket_retry fuel fuel s dummy node.

(** *** Replace *)

(** The compare-and-swap loop of [_cds_lfht_replace]; the boolean is the
    final value of [flagged]. *)
Fixpoint replace_retry (n : nat) (s : state) (old_node old_next new_node : Z)
  : result (state * bool) :=
  match n with
  | O => OutOfFuel
  | S n' =>
    if is_removed old_next then Ok (s, false) else
    _ <- c_assert (negb (is_dummy old_next));;
    _ <- c_assert (negb (new_node =? clear_flag old_next));;
    s <- store_next new_node (clear_flag old_next) s;;
    r <- uatomic_cmpxchg_next old_node old_next (flag_removed new_node) s;;
    let '(s, ret_next) := r in
    if ret_next =? old_next then Ok (s, true)
    else replace_retry n' s old_node ret_next new_node
  end.

Definition _cds_lfht_replace (fuel : nat) (s : state)
  (size old_node old_next new_node : Z) : result (state * Z) :=
  if old_node =? 0 then Ok (s, - ENOENT) else
  _ <- c_assert (negb (is_removed old_node));;
  _ <- c_assert (negb (is_dummy old_node));;
  _ <- c_assert (negb (is_removed new_node));;
  _ <- c_assert (negb (is_dummy new_node));;
  _ <- c_assert (negb (new_node =? old_node));;
  r <- replace_retry fuel s old_node old_next new_node;;
  let '(s, flagged) := r in
  if flagged then
    old <- load (mem s !! old_node);;
    dummy <- lookup_bucket s size (bit_reverse_ulong (reverse_hash old));;
    s <- _cds_lfht_gc_bucket fuel s dummy new_node;;
    old <- load (mem s !! old_node);;
    _ <- c_assert (is_removed (next old));;
    Ok (s, 0)
  else Ok (s, - ENOENT).

(** *** Add *)

(** [ht->compare_fct] on the keys of the nodes at [a] and [b]. *)
Definition compare_nodes (s : state) (a b : Z) : result Z :=
  ka <- load (node_keys s !! a);;
  kb <- load (node_keys s !! b);;
  Ok (ht_compare_fct s (fst ka) (snd ka) (fst kb) (snd kb)).

Fixpoint add_walk (n : nat) (s : state) (size node : Z) (mode : add_mode)
  (dummy : bool) (chain_len iter_prev iter : Z) : result (state * add_exit) :=
  match n with
  | O => OutOfFuel
  | S n' =>
    if is_end iter then Ok (s, goto_insert iter_prev iter) else
    it <- load (mem s !! clear_flag iter);;
    nd <- load (mem s !! node);;
    if reverse_hash it >? reverse_hash nd
    then Ok (s, goto_insert iter_prev iter) else
    if dummy && (reverse_hash it =? reverse_hash nd)
    then Ok (s, goto_insert iter_prev iter) else
    let next_ := next it in
    if is_removed next_ then Ok (s, goto_gc_node iter_prev iter next_) else
    same <-
      (if (add_mode_eqb mode ADD_UNIQUE || add_mode_eqb mode ADD_REPLACE)
          && negb (is_dummy next_)
          && (reverse_hash it =? reverse_hash nd)
       then c <- compare_nodes s node (clear_flag iter);; Ok (c =? 0)
       else Ok false);;
    if same then
      if add_mode_eqb mode ADD_UNIQUE
      then Ok (s, return_unique (clear_flag iter))
      else Ok (s, goto_replace iter next_)
    else
      ip <- load (mem s !! iter_prev);;
      let '(s, chain_len) :=
        if negb (reverse_hash ip =? reverse_hash it) && negb (is_dummy next_)
        then (check_resize s size (u32 (chain_len + 1)), u32 (chain_len + 1))
        else (s, chain_len) in
      add_walk n' s size node mode dummy chain_len (clear_flag iter) next_
  end.

Fixpoint add_retry (n fuel : nat) (s : state) (size node : Z) (mode : add_mode)
  (dummy : bool) (lookup : Z) : result (state * Z) :=
  match n with
  | O => OutOfFuel
  | S n' =>
    lk <- load (mem s !! lookup);;
    nd <- load (mem s !! node);;
    _ <- c_assert (reverse_hash lk <=? reverse_hash nd);;
    r <- add_walk fuel s size node mode dummy 0 lookup (next lk);;
    let '(s, exit) := r in
    match exit with
    | goto_insert iter_prev iter =>
      _ <- c_assert (negb (node =? clear_flag iter));;
      _ <- c_assert (negb (is_removed iter_prev));;
      _ <- c_assert (negb (is_removed iter));;
      _ <- c_assert (negb (iter_prev =? node));;
      s <- store_next node
             (if dummy then flag_dummy (clear_flag iter) else clear_flag iter) s;;
      let new_node := if is_dummy iter then flag_dummy node else node in
      r <- uatomic_cmpxchg_next iter_prev iter new_node s;;
      let '(s, old) := r in
      if negb (old =? iter)
      then add_retry n' fuel s size node mode dummy lookup
      else Ok (s, if add_mode_eqb mode ADD_REPLACE then 0 else node)
    | goto_replace iter next_ =>
      r <- _cds_lfht_replace fuel s size (clear_flag iter) next_ node;;
      let '(s, ret) := r in
      if ret =? 0 then Ok (s, clear_flag iter)
      else add_retry n' fuel s size node mode dummy lookup
    | goto_gc_node iter_prev iter next_ =>
      _ <- c_assert (negb (is_removed iter));;
      let new_next :=
        if is_dummy iter then flag_dummy (clear_flag next_)
        else clear_flag next_ in
      r <- uatomic_cmpxchg_next iter_prev iter new_next s;;
      add_retry n' fuel (fst r) size node mode dummy lookup
    | return_unique found => Ok (s, found)
    end
  end.

Definition _cds_lfht_add (fuel : nat) (s : state) (size node : Z)
  (mode : add_mode) (dummy : bool) : result (state * Z) :=
  _ <- c_assert (negb (is_dummy node));;
  _ <- c_assert (negb (is_removed node));;
  if size =? 0 then
    _ <- c_assert dummy;;
    s <- store_next node (flag_dummy get_end) s;;
    Ok (s, node)
  else
    nd <- load (mem s !! node);;
    lookup <- lookup_bucket s size (bit_reverse_ulong (reverse_hash nd));;
    add_retry fuel fuel s size node mode dummy lookup.

(** *** Delete *)

(** The [do ... while] of [_cds_lfht_del]; the boolean is [flagged]. *)
Fixpoint del_retry (n : nat) (s : state) (node : Z) (dummy_removal : bool)
  (old : Z) : result (state * bool) :=
  match n with
  | O => OutOfFuel
  | S n' =>
    let next_ := old in
    if is_removed next_ then Ok (s, false) else
    _ <- c_assert (eqb (is_dummy next_) dummy_removal);;
    let new_next := flag_removed next_ in
    r <- uatomic_cmpxchg_next node next_ new_next s;;
    let '(s, old) := r in
    if negb (old =? next_) then del_retry n' s node dummy_removal old
    else Ok (s, true)
  end.

Definition _cds_lfht_del (fuel : nat) (s : state) (size node : Z)
  (dummy_removal : bool) : result (state * Z) :=
  if node =? 0 then Ok (s, - ENOENT) else
  _ <- c_assert (negb (is_dummy node));;
  _ <- c_assert (negb (is_removed node));;
  nd <- load (mem s !! node);;
  r <- del_retry fuel s node dummy_removal (next nd);;
  let '(s, flagged) := r in
  if flagged then
    nd <- load (mem s !! node);;
    dummy <- lookup_bucket s size (bit_reverse_ulong (reverse_hash nd));;
    s <- _cds_lfht_gc_bucket fuel s dummy node;;
    nd <- load (mem s !! node);;
    _ <- c_assert (is_removed (next nd));;
    Ok (s, 0)
  else Ok (s, - ENOENT).

(** *** Populating and removing a level of dummy nodes *)

(** [!i ? 0 : (1UL << (i - 1)) + j] and [!i ? 0 : (1UL << (i - 1))]. *)
Definition level_hash (i j : Z) : Z :=
  if i =? 0 then 0 else ulong (shl 1 (i - 1) + j).
Definition level_size (i : Z) : Z :=
  if i =? 0 then 0 else shl 1 (i - 1).

Definition init_table_populate_partition (fuel : nat) (i start len : Z)
  (s : state) : result state :=
  for_range (Z.to_nat len) start (fun j s =>
    level <- load (t_tbl s !! i);;
    let new_node := node_at level j in
    s <- store_reverse_hash new_node (bit_reverse_ulong (level_hash i j)) s;;
    r <- _cds_lfht_add fuel s (level_size i) new_node ADD_DEFAULT true;;
    Ok (fst r)) s.

Definition remove_table_partition (fuel : nat) (i start len : Z)
  (s : state) : result state :=
  for_range (Z.to_nat len) start (fun j s =>
    level <- load (t_tbl s !! i);;
    let fini_node := node_at level j in
    s <- store_reverse_hash fini_node (bit_reverse_ulong (level_hash i j)) s;;
    r <- _cds_lfht_del fuel s (level_size i) fini_node true;;
    Ok (fst r)) s.

(** The worker threads are run in turn, thread 0 first. *)
Definition partition_resize_helper (s : state) (i len : Z)
  (fct : Z -> Z -> Z -> state -> result state) : result state :=
  let nr_threads :=
    if nr_cpus_mask s >? 0
    then Z.min (ulong (nr_cpus_mask s + 1))
               (Z.shiftr len MIN_PARTITION_PER_THREAD_ORDER)
    else 1 in
  let partition_len := Z.shiftr len (get_count_order_ulong nr_threads) in
  for_range (Z.to_nat nr_threads) 0 (fun thread s =>
    fct i (ulong (thread * partition_len)) partition_len s) s.

Definition init_table_populate (fuel : nat) (s : state) (i len : Z)
  : result state :=
  _ <- c_assert (negb (nr_cpus_mask s =? -1));;
  if (nr_cpus_mask s <? 0) || (len <? 2 * MIN_PARTITION_PER_THREAD)
  then init_table_populate_partition fuel i 0 len s
  else partition_resize_helper s i len (init_table_populate_partition fuel).

Definition remove_table (fuel : nat) (s : state) (i len : Z) : result state :=
  _ <- c_assert (negb (nr_cpus_mask s =? -1));;
  if (nr_cpus_mask s <? 0) || (len <? 2 * MIN_PARTITION_PER_THREAD)
  then remove_table_partition fuel i 0 len s
  else partition_resize_helper s i len (remove_table_partition fuel).

(** [alloc i] is the address that [calloc] returns for the level array of
    order [i]; 0 stands for a failed allocation. A store to [tbl[i]] past
    the [MAX_TABLE_ORDER] slots of the array aborts. *)
Fixpoint init_table_loop (n : nat) (fuel : nat) (alloc : Z -> Z) (i : Z)
  (s : state) : result state :=
  match n with
  | O => Ok s
  | S n' =>
    let len := if i =? 0 then 1 else shl 1 (i - 1) in
    if t_resize_target s <? (if i =? 0 then 1 else shl 1 i) then Ok s else
    if negb (i <? MAX_TABLE_ORDER) then Abort else
    let s := set_tbl (<[i := alloc i]> (t_tbl s)) s in
    let s := if alloc i =? 0 then s else calloc_level (alloc i) len s in
    _ <- c_assert (negb (alloc i =? 0));;
    s <- init_table_populate fuel s i len;;
    let s := set_size (if i =? 0 then 1 else shl 1 i) s in
    if negb (ht_in_progress_destroy s =? 0) then Ok s
    else init_table_loop n' fuel alloc (i + 1) s
  end.

Definition init_table (fuel : nat) (alloc : Z -> Z) (s : state)
  (first_order len_order : Z) : result state :=
  init_table_loop (Z.to_nat len_order) fuel alloc first_order s.

(** [free_by_rcu] carries the array to free together with its length. *)
Definition free_by_rcu_opt (free_by_rcu : option (Z * Z)) (s : state) : state :=
  match free_by_rcu with
  | Some (level, len) => free_level level len s
  | None => s
  end.

Fixpoint fini_table_loop (n : nat) (fuel : nat) (i : Z)
  (free_by_rcu : option (Z * Z)) (s : state)
  : result (state * option (Z * Z)) :=
  match n with
  | O => Ok (s, free_by_rcu)
  | S n' =>
    let len := if i =? 0 then 1 else shl 1 (i - 1) in
    if t_resize_target s >? shl 1 (i - 1) then Ok (s, free_by_rcu) else
    let s := set_size (shl 1 (i - 1)) s in
    let s := free_by_rcu_opt free_by_rcu s in
    s <- remove_table fuel s i len;;
    level <- load (t_tbl s !! i);;
    let free_by_rcu := Some (level, len) in
    if negb (ht_in_progress_destroy s =? 0) then Ok (s, free_by_rcu)
    else fini_table_loop n' fuel (i - 1) free_by_rcu s
  end.

Definition fini_table (fuel : nat) (s : state) (first_order len_order : Z)
  : result state :=
  let end_order := ulong (first_order + len_order) in
  _ <- c_assert (first_order >? 0);;
  r <- fini_table_loop (Z.to_nat (end_order - first_order)) fuel
         (end_order - 1) None s;;
  Ok (free_by_rcu_opt (snd r) (fst r)).

(** *** Resize *)

Definition _do_cds_lfht_grow (fuel : nat) (alloc : Z -> Z) (s : state)
  (old_size new_size : Z) : result state :=
  let old_order := ulong (get_count_order_ulong old_size + 1) in
  let new_order := ulong (get_count_order_ulong new_size + 1) in
  _ <- c_assert (new_size >? old_size);;
  init_table fuel alloc s old_order (ulong (new_order - old_order)).

Definition _do_cds_lfht_shrink (fuel : nat) (s : state)
  (old_size new_size : Z) : result state :=
  let new_size := Z.max new_size MIN_TABLE_SIZE in
  let old_order := ulong (get_count_order_ulong old_size + 1) in
  let new_order := ulong (get_count_order_ulong new_size + 1) in
  _ <- c_assert (new_size <? old_size);;
  fini_table fuel s new_order (ulong (old_order - new_order)).

Fixpoint _do_cds_lfht_resize (n : nat) (fuel : nat) (alloc : Z -> Z)
  (s : state) : result state :=
  match n with
  | O => OutOfFuel
  | S n' =>
    _ <- c_assert (negb (ht_in_progress_resize s =? 0));;
    if negb (ht_in_progress_destroy s =? 0) then Ok s else
    let s := set_resize_initiated 1 s in
    let old_size := t_size s in
    let new_size := t_resize_target s in
    s <- (if old_size <? new_size
          then _do_cds_lfht_grow fuel alloc s old_size new_size
          else if old_size >? new_size
          then _do_cds_lfht_shrink fuel s old_size new_size
          else Ok s);;
    let s := set_resize_initiated 0 s in
    if negb (t_size s =? t_resize_target s)
    then _do_cds_lfht_resize n' fuel alloc s
    else Ok s
  end.

Definition cds_lfht_resize (fuel : nat) (alloc : Z -> Z) (s : state)
  (new_size : Z) : result state :=
  let s := resize_target_update_count s new_size in
  let s := set_resize_initiated 1 s in
  _do_cds_lfht_resize fuel fuel alloc s.

(** [do_resize_cb], run by the [call_rcu] worker for a queued callback. *)
Definition do_resize_cb (fuel : nat) (alloc : Z -> Z) (s : state)
  : result state :=
  match rcu_callbacks s with
  | O => Ok s
  | S k =>
    let s := set_rcu_callbacks k s in
    s <- _do_cds_lfht_resize fuel fuel alloc s;;
    Ok (set_in_progress_resize (u32 (ht_in_progress_resize s - 1)) s)
  end.

(** *** Creation *)

(** [calloc(1, sizeof(struct cds_lfht))] followed by the assignments of
    [_cds_lfht_new]; a fresh process has no node allocated yet. *)
Definition calloc_ht (hash_fct : Z -> Z -> Z -> Z)
  (compare_fct : Z -> Z -> Z -> Z -> Z) (hash_seed : Z)
  (mask nprocs cpu : Z) : state :=
  mk_state 0 0 0 ∅ hash_fct compare_fct hash_seed 0 0 0 0 None
    mask ∅ ∅ O nprocs cpu.

Definition set_flags (v : Z) (s : state) : state :=
  mk_state (t_size s) (t_resize_target s) (t_resize_initiated s) (t_tbl s)
    (ht_hash_fct s) (ht_compare_fct s) (ht_hash_seed s) v
    (ht_in_progress_resize s) (ht_in_progress_destroy s) (ht_count s)
    (ht_percpu_count s) (nr_cpus_mask s) (mem s) (node_keys s)
    (rcu_callbacks s) (env_nprocs s) (env_cpu s).

(** [None] is the [NULL] handle. [mask] is the value of [nr_cpus_mask] when
    the call is made, [nprocs] and [cpu] what the system answers. *)
Definition _cds_lfht_new (fuel : nat) (alloc : Z -> Z)
  (hash_fct : Z -> Z -> Z -> Z) (compare_fct : Z -> Z -> Z -> Z -> Z)
  (hash_seed init_size flags : Z) (mask nprocs cpu : Z)
  : result (option state) :=
  if negb (init_size =? 0) && negb (Z.land init_size (ulong (init_size - 1)) =? 0)
  then Ok None
  else
    let s := calloc_ht hash_fct compare_fct hash_seed mask nprocs cpu in
    let '(s, cells) := alloc_per_cpu_items_count s in
    let s := set_percpu_count cells s in
    let order := ulong (get_count_order_ulong (Z.max init_size MIN_TABLE_SIZE) + 1) in
    let s := set_flags flags s in
    let s := set_resize_target (shl 1 (order - 1)) s in
    s <- init_table fuel alloc s 0 order;;
    Ok (Some s).

(** *** Lookup and traversal *)

Fixpoint lookup_walk (n : nat) (s : state) (key key_len reverse_hash_ node : Z)
  : result cds_lfht_iter :=
  match n with
  | O => OutOfFuel
  | S n' =>
    if is_end node then Ok (mk_iter 0 0) else
    nd <- load (mem s !! node);;
    if reverse_hash nd >? reverse_hash_ then Ok (mk_iter 0 0) else
    let next_ := next nd in
    same <-
      (if negb (is_removed next_) && negb (is_dummy next_)
       then cn <- load (mem s !! clear_flag node);;
            if reverse_hash cn =? reverse_hash_
            then k <- load (node_keys s !! node);;
                 Ok (ht_compare_fct s (fst k) (snd k) key key_len =? 0)
            else Ok false
       else Ok false);;
    if same then Ok (mk_iter node next_)
    else lookup_walk n' s key key_len reverse_hash_ (clear_flag next_)
  end.

Definition cds_lfht_lookup (fuel : nat) (s : state) (key key_len : Z)
  : result cds_lfht_iter :=
  let hash := ulong (ht_hash_fct s key key_len (ht_hash_seed s)) in
  let reverse_hash_ := bit_reverse_ulong hash in
  let size := t_size s in
  dummy_node <- lookup_bucket s size hash;;
  dn <- load (mem s !! dummy_node);;
  let node := clear_flag (next dn) in
  it <- lookup_walk fuel s key key_len reverse_hash_ node;;
  _ <- (if iter_node it =? 0 then Ok tt
        else nd <- load (mem s !! iter_node it);;
             c_assert (negb (is_dummy (next nd))));;
  Ok it.

(** [cds_lfht_count_nodes]: the pair of its [count] and [removed] results;
    the [do ... while] starts at the first dummy node. *)
Fixpoint count_nodes_walk (n : nat) (s : state) (node count removed : Z)
  : result (Z * Z) :=
  match n with
  | O => OutOfFuel
  | S n' =>
    nd <- load (mem s !! node);;
    let next_ := next nd in
    let '(count, removed) :=
      if is_removed next_
      then (if negb (is_dummy next_) then (count, ulong (removed + 1))
            else (count, removed))
      else (if negb (is_dummy next_) then (ulong (count + 1), removed)
            else (count, removed)) in
    let node := clear_flag next_ in
    if negb (is_end node) then count_nodes_walk n' s node count removed
    else Ok (count, removed)
  end.

Definition cds_lfht_count_nodes (fuel : nat) (s : state) : result (Z * Z) :=
  level <- load (t_tbl s !! 0);;
  count_nodes_walk fuel s (node_at level 0) 0 0.

(** *** The public update operations *)

Definition node_hash (s : state) (node : Z) : result Z :=
  k <- load (node_keys s !! node);;
  Ok (ulong (ht_hash_fct s (fst k) (snd k) (ht_hash_seed s))).

Definition cds_lfht_add (fuel : nat) (s : state) (node : Z) : result state :=
  hash <- node_hash s node;;
  s <- store_reverse_hash node (bit_reverse_ulong hash) s;;
  let size := t_size s in
  r <- _cds_lfht_add fuel s size node ADD_DEFAULT false;;
  ht_count_add (fst r) size.

Definition cds_lfht_add_unique (fuel : nat) (s : state) (node : Z)
  : result (state * Z) :=
  hash <- node_hash s node;;
  s <- store_reverse_hash node (bit_reverse_ulong hash) s;;
  let size := t_size s in
  r <- _cds_lfht_add fuel s size node ADD_UNIQUE false;;
  let '(s, ret) := r in
  if ret =? node
  then s <- ht_count_add s size;; Ok (s, ret)
  else Ok (s, ret).

Definition cds_lfht_add_replace (fuel : nat) (s : state) (node : Z)
  : result (state * Z) :=
  hash <- node_hash s node;;
  s <- store_reverse_hash node (bit_reverse_ulong hash) s;;
  let size := t_size s in
  r <- _cds_lfht_add fuel s size node ADD_REPLACE false;;
  let '(s, ret) := r in
  if ret =? 0
  then s <- ht_count_add s size;; Ok (s, ret)
  else Ok (s, ret).

Definition cds_lfht_replace (fuel : nat) (s : state) (old_iter : cds_lfht_iter)
  (new_node : Z) : result (state * Z) :=
  let size := t_size s in
  _cds_lfht_replace fuel s size (iter_node old_iter) (iter_next old_iter) new_node.

Definition cds_lfht_del (fuel : nat) (s : state) (iter : cds_lfht_iter)
  : result (state * Z) :=
  let size := t_size s in
  r <- _cds_lfht_del fuel s size (iter_node iter) false;;
  let '(s, ret) := r in
  if ret =? 0
  then s <- ht_count_del s size;; Ok (s, ret)
  else Ok (s, ret).

End Model.

(** * Specification vocabulary *)

(** One conditional shift of [fls_u64] or [fls_u32], at width [w]. *)
Definition fls_step (w k : Z) (p : Z * Z) : Z * Z :=
  if Z.land (fst p) (2 ^ w - 2 ^ (w - k)) =? 0
  then (Z.shiftl (fst p) k mod 2 ^ w, snd p - k)
  else p.

(** A node address: a non-null word whose two flag bits are clear. *)
Definition aligned (a : Z) : Prop := 0 < a < 2 ^ 64 /\ a mod 4 = 0.

(** [msb_index] of the specification: the position of the most significant
    set bit, counted from 1, and 0 for 0. *)
Definition msb_index (x : Z) : Z := if x =? 0 then 0 else Z.log2 x + 1.

(** The position inside its level array of the dummy node of a bucket, as
    [lookup_bucket] computes it. *)
Definition bucket_pos (index : Z) : Z :=
  Z.land index
    (if fls_ulong index =? 0 then 0 else ulong (shl 1 (fls_ulong index - 1) - 1)).

(** The address of the dummy node of bucket [index]; 0 when its level array
    is not there. *)
Definition daddr (s : state) (index : Z) : Z :=
  match t_tbl s !! fls_ulong index with
  | Some level => node_at level (bucket_pos index)
  | None => 0
  end.

(** ** The list as the table holds it *)

(** Fields of the node at [a], read as 0 when nothing is allocated there. *)
Definition nxt (s : state) (a : Z) : Z :=
  match mem s !! a with
  | Some n => next n
  | None => 0
  end.

Definition rh (s : state) (a : Z) : Z :=
  match mem s !! a with
  | Some n => reverse_hash n
  | None => 0
  end.

(** [list_node s a]: the node at [a] is reached from the first dummy node
    [&ht->t.tbl[0]->nodes[0]] by following [next] pointers. *)
Inductive list_node (s : state) : Z -> Prop :=
| list_node_head level :
    t_tbl s !! 0 = Some level -> list_node s (node_at level 0)
| list_node_next a n :
    list_node s a -> mem s !! a = Some n -> is_end (next n) = false ->
    list_node s (clear_flag (next n)).

(** A user node of the list: linked, neither a dummy nor logically removed. *)
Definition user_node (s : state) (a : Z) : Prop :=
  list_node s a /\ is_dummy (nxt s a) = false.

(** [lseg m a l e]: in memory [m], the nodes of [l] are linked in that order,
    starting at address [a], and the last of them points to [e]. *)
Fixpoint lseg (m : gmap Z _cds_lfht_node) (a : Z) (l : list Z) (e : Z) : Prop :=
  match l with
  | [] => a = e
  | x :: l' =>
    a = x /\ exists n, m !! x = Some n /\ lseg m (clear_flag (next n)) l' e
  end.

(** The split order: reverse hash first, and at equal reverse hash a dummy
    node before the user nodes. *)
Definition skey (s : state) (a : Z) : Z :=
  2 * rh s a + (if is_dummy (nxt s a) then 0 else 1).

Fixpoint sorted_by (f : Z -> Z) (l : list Z) : Prop :=
  match l with
  | [] => True
  | a :: l' => (forall b, In b l' -> f a <= f b) /\ sorted_by f l'
  end.

Definition node_hash_of (s : state) (k : Z * Z) : Z :=
  ulong (ht_hash_fct s (fst k) (snd k) (ht_hash_seed s)).

(** What the split counters and the destroy flag satisfy throughout. *)
Definition counters_ok (s : state) : Prop :=
  ht_in_progress_destroy s = 0 /\
  (nr_cpus_mask s = -2 \/ exists k, 0 <= k < 62 /\ nr_cpus_mask s = 2 ^ k - 1) /\
  forall cells, ht_percpu_count s = Some cells ->
    0 <= nr_cpus_mask s /\ Z.of_nat (length cells) = nr_cpus_mask s + 1.

(** The published size is a power of two, and the buckets below it have
    their dummy node. *)
Definition size_ok (D : Z -> Prop) (s : state) : Prop :=
  (exists k, 0 <= k < 64 /\ t_size s = 2 ^ k) /\
  forall idx, 0 <= idx < t_size s -> D idx.

(** The invariant of the table between two steps of an operation. [L] is
    the list of the linked nodes, [D] tells which buckets have their dummy
    node linked, and [R] which linked nodes are flagged as removed. *)
Record table_inv (D R : Z -> Prop) (s : state) (L : list Z) : Prop := {
  inv_head : exists L', L = daddr s 0 :: L';
  inv_lseg : lseg (mem s) (daddr s 0) L 0;
  inv_nodup : List.NoDup L;
  inv_aligned : forall a, In a L -> aligned a;
  inv_rh_range : forall a, In a L -> 0 <= rh s a < 2 ^ 64;
  inv_sorted : sorted_by (skey s) L;
  inv_removed : forall a, In a L -> (is_removed (nxt s a) = true <-> R a);
  inv_dummy : forall a, In a L -> is_dummy (nxt s a) = true ->
    exists idx, D idx /\ a = daddr s idx;
  inv_bucket : forall idx, D idx ->
    0 <= idx < 2 ^ 63 /\ is_Some (t_tbl s !! fls_ulong idx) /\
    In (daddr s idx) L /\ is_dummy (nxt s (daddr s idx)) = true /\
    rh s (daddr s idx) = bit_reverse_ulong idx;
  inv_user : forall a, In a L -> is_dummy (nxt s a) = false ->
    exists k, node_keys s !! a = Some k /\
              rh s a = bit_reverse_ulong (node_hash_of s k);
  inv_size : size_ok D s;
  inv_counters : counters_ok s
}.

(** The invariant of a table at rest: the dummy nodes of the published
    buckets are linked, and no linked node is flagged. *)
Definition table_ok (s : state) (L : list Z) : Prop :=
  table_inv (fun idx => 0 <= idx < t_size s) (fun _ => False) s L.

(** Two states that differ at most by a pending resize request. *)
Definition same_table (s s' : state) : Prop :=
  t_size s' = t_size s /\ t_tbl s' = t_tbl s /\
  ht_hash_fct s' = ht_hash_fct s /\ ht_compare_fct s' = ht_compare_fct s /\
  ht_hash_seed s' = ht_hash_seed s /\ ht_flags s' = ht_flags s /\
  ht_in_progress_destroy s' = ht_in_progress_destroy s /\
  ht_count s' = ht_count s /\ ht_percpu_count s' = ht_percpu_count s /\
  nr_cpus_mask s' = nr_cpus_mask s /\ mem s' = mem s /\
  node_keys s' = node_keys s /\ env_nprocs s' = env_nprocs s /\
  env_cpu s' = env_cpu s.

(** [same_table], with a resize target that was not lowered. *)
Definition same_table_up (s s' : state) : Prop :=
  same_table s s' /\ t_resize_target s <= t_resize_target s'.

(** ** What a traversal does at a node *)

(** The keys of two nodes compared by the caller's function; 1 stands for
    "different" where a node has no key. *)
Definition cmp_nodes (s : state) (a b : Z) : Z :=
  match node_keys s !! a, node_keys s !! b with
  | Some ka, Some kb => ht_compare_fct s (fst ka) (snd ka) (fst kb) (snd kb)
  | _, _ => 1
  end.

Definition cmp_key (s : state) (a key key_len : Z) : Z :=
  match node_keys s !! a with
  | Some ka => ht_compare_fct s (fst ka) (snd ka) key key_len
  | None => 1
  end.

Inductive walk_class : Type :=
| W_stop    (* the traversal ends before this node *)
| W_hit     (* the node is the one looked for *)
| W_gc      (* the node is flagged as removed *)
| W_next.   (* the traversal passes the node *)

(** The inner loop of [_cds_lfht_add] at node [x]. *)
Definition add_class (s : state) (node : Z) (mode : add_mode) (dummy : bool)
  (x : Z) : walk_class :=
  if rh s x >? rh s node then W_stop else
  if dummy && (rh s x =? rh s node) then W_stop else
  if is_removed (nxt s x) then W_gc else
  if (add_mode_eqb mode ADD_UNIQUE || add_mode_eqb mode ADD_REPLACE)
     && negb (is_dummy (nxt s x))
     && (rh s x =? rh s node)
     && (cmp_nodes s node x =? 0)
  then W_hit else W_next.

(** The inner loop of [_cds_lfht_gc_bucket] at node [x]. *)
Definition gc_class (s : state) (node : Z) (x : Z) : walk_class :=
  if rh s x >? rh s node then W_stop else
  if is_removed (nxt s x) then W_gc else W_next.

(** The loop of [cds_lfht_lookup] at node [x]. *)
Definition lookup_class (s : state) (key key_len reverse_hash_ : Z) (x : Z)
  : walk_class :=
  if rh s x >? reverse_hash_ then W_stop else
  if negb (is_removed (nxt s x)) && negb (is_dummy (nxt s x))
     && (rh s x =? reverse_hash_) && (cmp_key s x key key_len =? 0)
  then W_hit else W_next.

(** How the inner loop of [_cds_lfht_add] leaves when it stops with
    [iter_prev = ip] in front of the nodes [tail]. *)
Definition add_exit_of (s : state) (node : Z) (mode : add_mode) (dummy : bool)
  (ip : Z) (tail : list Z) : add_exit :=
  match tail with
  | [] => goto_insert ip (nxt s ip)
  | y :: _ =>
    match add_class s node mode dummy y with
    | W_hit =>
      if add_mode_eqb mode ADD_UNIQUE then return_unique y
      else goto_replace (nxt s ip) (nxt s y)
    | W_gc => goto_gc_node ip (nxt s ip) (nxt s y)
    | _ => goto_insert ip (nxt s ip)
    end
  end.

Definition gc_exit_of (s : state) (node : Z) (ip : Z) (tail : list Z) : gc_exit :=
  match tail with
  | [] => gc_return
  | y :: _ =>
    match gc_class s node y with
    | W_gc => gc_break ip (nxt s ip) (nxt s y)
    | _ => gc_return
    end
  end.

Definition lookup_result_of (s : state) (key key_len reverse_hash_ : Z)
  (tail : list Z) : cds_lfht_iter :=
  match tail with
  | [] => mk_iter 0 0
  | y :: _ =>
    match lookup_class s key key_len reverse_hash_ y with
    | W_hit => mk_iter y (nxt s y)
    | _ => mk_iter 0 0
    end
  end.

(** A traversal that starts in front of [rest] passes [mid] and stops in
    front of [tail]. *)
Definition walk_split (class : Z -> walk_class) (rest mid tail : list Z) : Prop :=
  rest = mid ++ tail /\
  (forall x, In x mid -> class x = W_next) /\
  match tail with
  | [] => True
  | y :: _ => class y <> W_next
  end.

(** ** Comparing two states *)

(** The node at [a] has the same reverse hash, flags and key in both, and
    is allocated in both or in neither. *)
Definition attrs_eq (s s' : state) (a : Z) : Prop :=
  rh s' a = rh s a /\
  is_dummy (nxt s' a) = is_dummy (nxt s a) /\
  is_removed (nxt s' a) = is_removed (nxt s a) /\
  node_keys s' !! a = node_keys s !! a /\
  (is_Some (mem s' !! a) <-> is_Some (mem s !! a)).

(** Same index, same caller functions, and the same attributes for the
    nodes that satisfy [P]. *)
Definition same_nodes (P : Z -> Prop) (s s' : state) : Prop :=
  t_size s' = t_size s /\ t_tbl s' = t_tbl s /\
  ht_hash_fct s' = ht_hash_fct s /\ ht_compare_fct s' = ht_compare_fct s /\
  ht_hash_seed s' = ht_hash_seed s /\ ht_flags s' = ht_flags s /\
  forall a, P a -> attrs_eq s s' a.

(** Two states that differ at most by the split counters, the approximate
    count and a pending resize request. *)
Definition same_content (s s' : state) : Prop :=
  t_size s' = t_size s /\ t_tbl s' = t_tbl s /\
  ht_hash_fct s' = ht_hash_fct s /\ ht_compare_fct s' = ht_compare_fct s /\
  ht_hash_seed s' = ht_hash_seed s /\ ht_flags s' = ht_flags s /\
  ht_in_progress_destroy s' = ht_in_progress_destroy s /\
  nr_cpus_mask s' = nr_cpus_mask s /\ mem s' = mem s /\
  node_keys s' = node_keys s /\ env_nprocs s' = env_nprocs s /\
  env_cpu s' = env_cpu s.

(** The number of user nodes among [l]. *)
Fixpoint count_users (s : state) (l : list Z) : Z :=
  match l with
  | [] => 0
  | a :: l' => (if is_dummy (nxt s a) then 0 else 1) + count_users s l'
  end.

(** The class of a node for a plain insertion at reverse hash [r]: the walk
    passes the nodes whose reverse hash is at most [r]. *)
Definition rh_class (s : state) (r : Z) (x : Z) : walk_class :=
  if rh s x >? r then W_stop else W_next.

(** A node that the caller has allocated and initialised with a key, and
    that is not linked in the table. *)
Definition caller_owned (s : state) (node : Z) (k : Z * Z) : Prop :=
  aligned node /\ is_Some (mem s !! node) /\ node_keys s !! node = Some k /\
  ~ list_node s node.

(** The table as a reader sees it is the same in [s'] as in [s]: same
    index, same linked nodes with the same fields and keys, and same count. *)
Definition table_unchanged (s s' : state) : Prop :=
  t_size s' = t_size s /\ t_tbl s' = t_tbl s /\
  node_keys s' = node_keys s /\
  ht_count s' = ht_count s /\ ht_percpu_count s' = ht_percpu_count s /\
  (forall a, list_node s a -> mem s' !! a = mem s !! a) /\
  (forall a, list_node s' a <-> list_node s a).

(** The class of a node for an insertion of [node] at reverse hash [r] that
    looks for a node with the same key. *)
Definition uniq_class (s : state) (r node : Z) (x : Z) : walk_class :=
  if rh s x >? r then W_stop else
  if negb (is_dummy (nxt s x)) && (rh s x =? r) && (cmp_nodes s node x =? 0)
  then W_hit else W_next.

Definition ins_class (s : state) (r node : Z) (mode : add_mode) (x : Z)
  : walk_class :=
  match mode with
  | ADD_DEFAULT => rh_class s r x
  | _ => uniq_class s r node x
  end.

(** What an insertion of [node] with reverse hash [r] leaves of [s]. *)
Definition node_added (s s' : state) (node r : Z) : Prop :=
  same_nodes (fun a => a <> node) s s' /\
  rh s' node = r /\ is_dummy (nxt s' node) = false /\
  is_removed (nxt s' node) = false /\
  (forall a, is_Some (mem s' !! a) <-> is_Some (mem s !! a)) /\
  node_keys s' = node_keys s.

(** What the replacement of [old] by [node] leaves of [s]: the [next] word
    of [old] holds the address of [node] with the REMOVED flag. *)
Definition node_replaced (s s' : state) (old node r : Z) : Prop :=
  nxt s' old = flag_removed node /\
  same_nodes (fun a => a <> old /\ a <> node) s s' /\
  rh s' node = r /\ is_dummy (nxt s' node) = false /\
  is_removed (nxt s' node) = false /\
  (forall a, is_Some (mem s' !! a) <-> is_Some (mem s !! a)) /\
  node_keys s' = node_keys s.

(** What the removal of [x] leaves of [s]. *)
Definition node_deleted (s s' : state) (x : Z) : Prop :=
  same_nodes (fun a => a <> x) s s' /\
  is_removed (nxt s' x) = true /\ rh s' x = rh s x /\
  is_dummy (nxt s' x) = is_dummy (nxt s x) /\
  (forall a, is_Some (mem s' !! a) <-> is_Some (mem s !! a)) /\
  node_keys s' = node_keys s.

(** * Callers, allocation, and the states that a run goes through *)

(** The number of nodes of the level array of order [i]. *)
Definition level_len (i : Z) : Z := if i =? 0 then 1 else shl 1 (i - 1).

(** What [calloc] promises of the block at [base] that it returns for [len]
    nodes: it is not null, it is aligned, it ends within the address space,
    and it overlaps no node that is allocated. *)
Definition block_ok (s : state) (base len : Z) : Prop :=
  0 < base /\ base mod 4 = 0 /\ base + sizeof_node * len <= 2 ^ 64 /\
  map_Forall (fun a _ => a + sizeof_node <= base \/ base + sizeof_node * len <= a)
    (mem s).

Definition blocks_apart (alloc : Z -> Z) (i i' : Z) : Prop :=
  alloc i' + sizeof_node * level_len i' <= alloc i \/
  alloc i + sizeof_node * level_len i <= alloc i'.

(** The allocation of the level array of each order from [lo] up to, and
    not including, [hi] either fails, which [calloc] tells by returning
    null, or yields a block that is apart from the blocks of the orders
    before it. *)
Definition alloc_ok (alloc : Z -> Z) (s : state) (lo hi : Z) : Prop :=
  Forall (fun i =>
            alloc i = 0 \/
            (block_ok s (alloc i) (level_len i) /\
             Forall (fun i' => alloc i' = 0 \/ blocks_apart alloc i i')
                    (seqZ lo (i - lo))))
         (seqZ lo (hi - lo)).

#[global] Instance alloc_ok_dec alloc s lo hi : Decision (alloc_ok alloc s lo hi).
Proof. unfold alloc_ok, block_ok, blocks_apart. apply _. Defined.

(** None of these allocations fails. *)
Definition alloc_succeeds (alloc : Z -> Z) (lo hi : Z) : Prop :=
  Forall (fun i => alloc i <> 0) (seqZ lo (hi - lo)).

#[global] Instance alloc_succeeds_dec alloc lo hi : Decision (alloc_succeeds alloc lo hi).
Proof. unfold alloc_succeeds. apply _. Defined.

(** Modelled from the spec: [cds_lfht_node_init] is defined in
    urcu/rculfhash.h, which is not part of the sources at hand. The caller
    creates a user node: it allocates the node at [node], where [init] is
    what that memory holds, and records the key and its length in it. *)
Definition caller_node_init (s : state) (node : Z) (init : _cds_lfht_node)
  (key key_len : Z) : state :=
  set_node_keys (<[node := (key, key_len)]> (node_keys s))
    (set_mem (<[node := init]> (mem s)) s).

(** The addresses of the linked nodes, in the order of the list. *)
Fixpoint linked_walk (n : nat) (s : state) (a : Z) : result (list Z) :=
  match n with
  | O => OutOfFuel
  | S n' =>
    nd <- load (mem s !! a);;
    if is_end (next nd) then Ok [a]
    else l <- linked_walk n' s (clear_flag (next nd));; Ok (a :: l)
  end.

Definition linked_nodes (fuel : nat) (s : state) : result (list Z) :=
  level <- load (t_tbl s !! 0);;
  linked_walk fuel s (node_at level 0).

(** An iterator that a caller may hand to [cds_lfht_del]: nil, or on a
    user node that is linked. *)
Definition valid_iter (s : state) (it : cds_lfht_iter) : Prop :=
  iter_node it = 0 \/ user_node s (iter_node it).

(** The order of the level array that holds the last bucket of a table of
    [size] buckets, plus one. *)
Definition order_of_size (size : Z) : Z := get_count_order_ulong size + 1.

(** The states of a table that one thread creates and then updates. *)
Inductive reachable (cfg : build) : state -> Prop :=
| reach_new fuel alloc hash_fct compare_fct hash_seed init_size flags nprocs cpu s :
    0 <= init_size < 2 ^ 64 -> nprocs <= 2 ^ 61 ->
    alloc_ok alloc (calloc_ht hash_fct compare_fct hash_seed (-1) nprocs cpu) 0
      MAX_TABLE_ORDER ->
    _cds_lfht_new cfg fuel alloc hash_fct compare_fct hash_seed init_size flags
      (-1) nprocs cpu = Ok (Some s) ->
    reachable cfg s
| reach_node_init s node init key key_len :
    reachable cfg s -> aligned node -> mem s !! node = None ->
    reachable cfg (caller_node_init s node init key key_len)
| reach_migrate s cpu :
    reachable cfg s -> reachable cfg (set_env_cpu cpu s)
| reach_add s fuel node k s' :
    reachable cfg s -> caller_owned s node k ->
    cds_lfht_add cfg fuel s node = Ok s' ->
    reachable cfg s'
| reach_add_unique s fuel node k s' ret :
    reachable cfg s -> caller_owned s node k ->
    cds_lfht_add_unique cfg fuel s node = Ok (s', ret) ->
    reachable cfg s'
| reach_add_replace s fuel node k s' ret :
    reachable cfg s -> caller_owned s node k ->
    cds_lfht_add_replace cfg fuel s node = Ok (s', ret) ->
    reachable cfg s'
| reach_del s fuel it s' ret :
    reachable cfg s -> valid_iter s it ->
    cds_lfht_del cfg fuel s it = Ok (s', ret) ->
    reachable cfg s'
| reach_resize s fuel alloc new_size s' :
    reachable cfg s -> 0 <= new_size < 2 ^ 64 ->
    alloc_ok alloc s (order_of_size (t_size s)) MAX_TABLE_ORDER ->
    cds_lfht_resize cfg fuel alloc s new_size = Ok s' ->
    reachable cfg s'
| reach_resize_cb s fuel alloc s' :
    reachable cfg s ->
    alloc_ok alloc s (order_of_size (t_size s)) MAX_TABLE_ORDER ->
    do_resize_cb cfg fuel alloc s = Ok s' ->
    reachable cfg s'
| reach_gc_bucket s fuel node s' :
    reachable cfg s -> user_node s node ->
    _cds_lfht_gc_bucket cfg fuel s
      (daddr s (bit_reverse_ulong (rh s node) mod t_size s)) node = Ok s' ->
    reachable cfg s'.

(** [ok_le r r']: the result [r'], of a run with at least as much fuel as
    the run that gave [r], is [r] whenever [r] is a value. *)
Definition ok_le {A : Type} (r r' : result A) : Prop :=
  forall v, r = Ok v -> r' = Ok v.

(** * A small table, for the examples *)

Module Demo.

(** The two builds: assertions compiled in, and [NDEBUG]; the value of
    [CDS_LFHT_AUTO_RESIZE] is that of [urcu/rculfhash.h]. *)
Definition cfg : build := mk_build false 1.
Definition cfg_ndebug : build := mk_build true 1.

(** [calloc] hands out the level arrays at fixed addresses, and fails from
    order 8 on. *)
Definition alloc (i : Z) : Z := if i <? 8 then 4096 + 16 * 2 ^ i else 0.

(** Keys are numbers, hashed to themselves and compared with their length. *)
Definition hash (key key_len seed : Z) : Z := key.
Definition compare (k1 l1 k2 l2 : Z) : Z :=
  if (k1 =? k2) && (l1 =? l2) then 0 else 1.

(** The zeroed handle that [_cds_lfht_new] starts from. *)
Definition blank : state := calloc_ht hash compare 0 (-1) 1 0.

(** The state that a run leaves. *)
Definition created (r : result (option state)) : state :=
  match r with Ok (Some s) => s | _ => blank end.
Definition after (r : result state) : state :=
  match r with Ok s => s | _ => blank end.
Definition after_ret (r : result (state * Z)) : state :=
  match r with Ok (s, _) => s | _ => blank end.
Definition found (r : result cds_lfht_iter) : cds_lfht_iter :=
  match r with Ok it => it | _ => mk_iter 0 0 end.

(** [cds_lfht_new(init_size, 1, 0, CDS_LFHT_AUTO_RESIZE, NULL)] on one CPU. *)
Definition new (c : build) (init_size : Z) : result (option state) :=
  _cds_lfht_new c 8 alloc hash compare 0 init_size 1 (-1) 1 0.

(** A table of two buckets, and three nodes of the caller, all of key 5. *)
Definition table2 : state := created (new cfg 2).
Definition nodeA : Z := 8192.
Definition nodeB : Z := 8208.
Definition nodeC : Z := 8224.

(** [nodeA] initialised; then added. *)
Definition withA : state := caller_node_init table2 nodeA (mk_node 0 0) 5 1.
Definition hasA : state := after (cds_lfht_add cfg 8 withA nodeA).

(** [nodeB] and [nodeC] initialised beside the table that holds [nodeA];
    [nodeC] carries the reverse hash of key 5, as a node handed to
    [cds_lfht_replace] must. *)
Definition hasA_withB : state := caller_node_init hasA nodeB (mk_node 0 0) 5 1.
Definition hasA_withBC : state :=
  caller_node_init hasA_withB nodeC (mk_node 0 (bit_reverse_ulong 5)) 5 1.



(** [nodeB], of the same key as [nodeA], added behind it; the iterator of a
    lookup of the key, and the table after the removal at this iterator. *)
Definition hasAB : state := after (cds_lfht_add cfg 8 hasA_withB nodeB).
Definition iterAB : cds_lfht_iter := found (cds_lfht_lookup cfg 8 hasAB 5 1).
Definition hasB : state := after_ret (cds_lfht_del cfg 8 hasAB iterAB).

(** [cds_lfht_node_init] and [cds_lfht_add] of a node with a one-byte key. *)
Definition add_key (s : state) (node key : Z) : state :=
  after (cds_lfht_add cfg 8 (caller_node_init s node (mk_node 0 0) key 1) node).

(** A table of one bucket in the [NDEBUG] build, the request that
    [cds_lfht_resize] records for 5 buckets, and the table once the levels
    of orders 1 and 2 are populated. *)
Definition table1 : state := created (new cfg_ndebug 1).
Definition table1_asserts : state := created (new cfg 1).
Definition resize5_begin : state :=
  set_resize_initiated 1 (set_resize_initiated 1 (resize_target_update_count table1 5)).
Definition resize5_grown : state :=
  after (_do_cds_lfht_grow cfg_ndebug 1 alloc resize5_begin 1 5).

(** One bucket with the keys 2, 1 and 3, whose reverse hashes are distinct
    and increasing in this order; then key 7, which goes behind them. *)
Definition chain3 : state :=
  add_key (add_key (add_key table1_asserts 8192 2) 8208 1) 8224 3.
Definition chain4 : state := add_key chain3 8240 7.

(** A table of two buckets created without [CDS_LFHT_AUTO_RESIZE], in the
    [NDEBUG] build, and [nodeA] added to it. *)
Definition plain2 : state :=
  created (_cds_lfht_new cfg_ndebug 8 alloc hash compare 0 2 0 (-1) 1 0).
Definition plain2_withA : state := caller_node_init plain2 nodeA (mk_node 0 0) 5 1.
Definition plain2_hasA : state := after (cds_lfht_add cfg_ndebug 8 plain2_withA nodeA).

(** One bucket with the keys 7, 3, 1 and 2, each added in front of the
    others, so that no add walks past a user node; then a second node of
    key 7, for [cds_lfht_add_unique]. *)
Definition front1 : state := add_key table1_asserts 8240 7.
Definition front2 : state := add_key front1 8224 3.
Definition front3 : state := add_key front2 8208 1.
Definition front4 : state := add_key front3 8192 2.
Definition nodeD : Z := 8256.
Definition front4_withD : state := caller_node_init front4 nodeD (mk_node 0 0) 7 1.
Definition front4_unique : state :=
  after_ret (cds_lfht_add_unique cfg 8 front4_withD nodeD).

End Demo.

(** * Traversal, destruction and the approximate count *)

(** [EPERM] of errno.h. *)
Definition EPERM : Z := 1.

Definition set_in_progress_destroy (v : Z) (s : state) : state :=
  mk_state (t_size s) (t_resize_target s) (t_resize_initiated s) (t_tbl s)
    (ht_hash_fct s) (ht_compare_fct s) (ht_hash_seed s) (ht_flags s)
    (ht_in_progress_resize s) v (ht_count s) (ht_percpu_count s)
    (nr_cpus_mask s) (mem s) (node_keys s) (rcu_callbacks s) (env_nprocs s)
    (env_cpu s).

(** The closing [assert(!node || !is_dummy(rcu_dereference(node->p.next)))]
    of the lookup and traversal functions. *)
Definition iter_assert (cfg : build) (s : state) (it : cds_lfht_iter)
  : result unit :=
  if iter_node it =? 0 then Ok tt
  else nd <- load (mem s !! iter_node it);;
       c_assert cfg (negb (is_dummy (next nd))).

(** The loop of [cds_lfht_next]. *)
Fixpoint next_walk (n : nat) (s : state) (node : Z) : result cds_lfht_iter :=
  match n with
  | O => OutOfFuel
  | S n' =>
    if is_end node then Ok (mk_iter 0 0) else
    nd <- load (mem s !! node);;
    let next_ := next nd in
    if negb (is_removed next_) && negb (is_dummy next_)
    then Ok (mk_iter node next_)
    else next_walk n' s (clear_flag next_)
  end.

Definition cds_lfht_next (cfg : build) (fuel : nat) (s : state)
  (iter : cds_lfht_iter) : result cds_lfht_iter :=
  it <- next_walk fuel s (clear_flag (iter_next iter));;
  _ <- iter_assert cfg s it;;
  Ok it.

(** [cds_lfht_first] stores the [next] of the first dummy node in the
    iterator and goes on as [cds_lfht_next]. *)
Definition cds_lfht_first (cfg : build) (fuel : nat) (s : state)
  (iter : cds_lfht_iter) : result cds_lfht_iter :=
  level <- load (t_tbl s !! 0);;
  lookup <- load (mem s !! node_at level 0);;
  cds_lfht_next cfg fuel s (mk_iter (iter_node iter) (next lookup)).

(** The loop of [cds_lfht_next_duplicate]. *)
Fixpoint next_duplicate_walk (n : nat) (s : state)
  (key key_len reverse_hash_ node : Z) : result cds_lfht_iter :=
  match n with
  | O => OutOfFuel
  | S n' =>
    if is_end node then Ok (mk_iter 0 0) else
    nd <- load (mem s !! node);;
    if reverse_hash nd >? reverse_hash_ then Ok (mk_iter 0 0) else
    let next_ := next nd in
    same <-
      (if negb (is_removed next_) && negb (is_dummy next_)
       then k <- load (node_keys s !! node);;
            Ok (ht_compare_fct s (fst k) (snd k) key key_len =? 0)
       else Ok false);;
    if same then Ok (mk_iter node next_)
    else next_duplicate_walk n' s key key_len reverse_hash_ (clear_flag next_)
  end.

(** [cds_lfht_next_duplicate] reads the reverse hash and the key of
    [iter->node] before anything else. *)
Definition cds_lfht_next_duplicate (cfg : build) (fuel : nat) (s : state)
  (iter : cds_lfht_iter) : result cds_lfht_iter :=
  nd <- load (mem s !! iter_node iter);;
  k <- load (node_keys s !! iter_node iter);;
  it <- next_duplicate_walk fuel s (fst k) (snd k) (reverse_hash nd)
          (clear_flag (iter_next iter));;
  _ <- iter_assert cfg s it;;
  Ok it.

(** The [do ... while] of [cds_lfht_delete_dummy] that checks that the table
    is empty; [node] is the value of the variable [node] when the body
    starts, and the boolean tells whether only dummy nodes were met. *)
Fixpoint delete_dummy_walk (cfg : build) (n : nat) (s : state) (node : Z)
  : result bool :=
  match n with
  | O => OutOfFuel
  | S n' =>
    nd <- load (mem s !! clear_flag node);;
    let node := next nd in
    if negb (is_dummy node) then Ok false else
    _ <- c_assert cfg (negb (is_removed node));;
    if negb (is_end node) then delete_dummy_walk cfg n' s node
    else Ok true
  end.

(** One turn of the loop over the orders: the sanity check of the nodes of
    the level array, then its [poison_free]. *)
Definition delete_dummy_level (cfg : build) (order : Z) (s : state)
  : result state :=
  let len := if order =? 0 then 1 else shl 1 (order - 1) in
  level <- load (t_tbl s !! order);;
  s <- for_range (Z.to_nat len) 0
         (fun i s =>
            nd <- load (mem s !! node_at level i);;
            _ <- c_assert cfg (is_dummy (next nd));;
            Ok s) s;;
  Ok (free_level level len s).

Definition cds_lfht_delete_dummy (cfg : build) (fuel : nat) (s : state)
  : result (state * Z) :=
  level <- load (t_tbl s !! 0);;
  empty <- delete_dummy_walk cfg fuel s (node_at level 0);;
  if negb empty then Ok (s, - EPERM) else
  let size := t_size s in
  s <- for_range (Z.to_nat (ulong (get_count_order_ulong size + 1))) 0
         (delete_dummy_level cfg) s;;
  Ok (s, 0).

(** [while (uatomic_read(&ht->in_progress_resize)) poll(NULL, 0, 100)]: no
    other thread runs, so that the counter stays what it is. *)
Fixpoint destroy_wait (n : nat) (s : state) : result unit :=
  match n with
  | O => OutOfFuel
  | S n' =>
    if negb (ht_in_progress_resize s =? 0) then destroy_wait n' s else Ok tt
  end.

(** [cds_lfht_destroy]; [None] stands for the handle once it is freed. The
    [attr] output is left out: the state does not hold [resize_attr]. *)
Definition cds_lfht_destroy (cfg : build) (fuel : nat) (s : state)
  : result (option state * Z) :=
  let s := set_in_progress_destroy 1 s in
  _ <- destroy_wait fuel s;;
  r <- cds_lfht_delete_dummy cfg fuel s;;
  let '(s, ret) := r in
  if negb (ret =? 0) then Ok (Some s, ret)
  else Ok (None, ret).

(** The sums [*approx += add; *approx -= del] of [cds_lfht_count_nodes] over
    the cells of the split counter. *)
Fixpoint approx_loop (cells : list ht_items_count) (n i : nat) (acc : Z)
  : result Z :=
  match n with
  | O => Ok acc
  | S n' =>
    c <- load (cells !! i);;
    approx_loop cells n' (S i) (slong (slong (acc + add c) - del c))
  end.

Definition approx_count (s : state) : result Z :=
  if nr_cpus_mask s >=? 0 then
    match ht_percpu_count s with
    | Some cells => approx_loop cells (Z.to_nat (nr_cpus_mask s + 1)) 0 0
    | None => Abort
    end
  else Ok 0.

(** [cds_lfht_count_nodes] with its four results: [approx_before], [count],
    [removed] and [approx_after]. *)
Definition cds_lfht_count_nodes_full (fuel : nat) (s : state)
  : result (Z * Z * Z * Z) :=
  before <- approx_count s;;
  r <- cds_lfht_count_nodes fuel s;;
  after <- approx_count s;;
  Ok (before, fst r, snd r, after).

(** ** Vocabulary *)

(** The additions less the deletions that the cells of a split counter
    hold. *)
Definition items_total (cells : list ht_items_count) : Z :=
  fold_right (fun c t => add c - del c + t) 0 cells.

(** The user nodes among [l], in the order of [l]. *)
Definition user_list (s : state) (l : list Z) : list Z :=
  List.filter (fun a => negb (is_dummy (nxt s a))) l.

(** The table was created without the [CDS_LFHT_AUTO_RESIZE] flag. *)
Definition auto_off (cfg : build) (s : state) : Prop :=
  Z.land (ht_flags s) (CDS_LFHT_AUTO_RESIZE cfg) = 0.

(** Same resize target and same flags. *)
Definition same_target (s s' : state) : Prop :=
  t_resize_target s' = t_resize_target s /\ ht_flags s' = ht_flags s.

(** What a resize keeps of the table [s] with list [L]: the user nodes, in
    their order, with their reverse hash, flags and key. *)
Definition keeps_users (s s' : state) (L L' : list Z) : Prop :=
  user_list s' L' = user_list s L /\
  forall a, In a (user_list s L) -> attrs_eq s s' a.

(** The linked nodes that a search for [key] stops on: user nodes with the
    reverse hash of the key whose key compares equal to it. *)
Definition key_match (s : state) (key key_len : Z) (x : Z) : bool :=
  negb (is_dummy (nxt s x)) &&
  (rh s x =? bit_reverse_ulong (ulong (ht_hash_fct s key key_len (ht_hash_seed s)))) &&
  (cmp_key s x key key_len =? 0).

(** [s'] is [s] but for the memory of the nodes. *)
Definition mem_only (s s' : state) : Prop := s' = set_mem (mem s') s.

(** * The registry of reader threads (urcu.c) *)

Module Urcu.

Definition INIT_NUM_THREADS : Z := 4.

(** Conversion of an integer to [int]. *)
Definition sint (x : Z) : Z := (x + 2 ^ 31) mod 2 ^ 32 - 2 ^ 31.

(** [struct reader_registry]: a thread id and the address of the
    [urcu_active_readers] counter of that thread; 16 bytes. *)
Record reader_registry : Type := mk_reader {
  tid : Z;
  urcu_active_readers : Z
}.

Definition sizeof_reader_registry : Z := 16.

(** The file-scope [registry], [num_readers] and [alloc_readers]. The
    registry is the null pointer ([None]) or an array; a cell of the array
    holds nothing ([None]) until it is written, as [malloc] leaves it. *)
Record urcu_state : Type := mk_urcu {
  registry : option (list (option reader_registry));
  num_readers : Z;
  alloc_readers : Z
}.

(** [malloc(sizeof(struct reader_registry) * n)]: the byte count is an
    unsigned product, and the block holds as many cells as fit in it. *)
Definition malloc_registry (n : Z) : list (option reader_registry) :=
  repeat None
    (Z.to_nat (ulong (sizeof_reader_registry * n) / sizeof_reader_registry)).

(** [memcpy(dst, src, sizeof(struct reader_registry) * n)] on arrays. *)
Definition memcpy_cells (dst src : list (option reader_registry)) (n : Z)
  : result (list (option reader_registry)) :=
  let k := Z.to_nat (ulong (sizeof_reader_registry * n) / sizeof_reader_registry) in
  if (k <=? length src)%nat && (k <=? length dst)%nat
  then Ok (firstn k src ++ skipn k dst)
  else Abort.

(** A store to [registry[i]]; outside of the array it aborts. *)
Definition store_cell (cells : list (option reader_registry)) (i : Z)
  (v : reader_registry) : result (list (option reader_registry)) :=
  if (0 <=? i) && (i <? Z.of_nat (length cells))
  then Ok (<[Z.to_nat i := Some v]> cells)
  else Abort.

(** A load of [registry[i]]: outside of the array, or from a cell that was
    never written, it aborts. *)
Definition load_cell (cells : list (option reader_registry)) (i : Z)
  : result reader_registry :=
  if 0 <=? i then
    match cells !! Z.to_nat i with
    | Some (Some v) => Ok v
    | _ => Abort
    end
  else Abort.

(** [urcu_add_reader(id)], run by the thread whose [urcu_active_readers]
    counter is at address [tls]. *)
Definition urcu_add_reader (id tls : Z) (st : urcu_state) : result urcu_state :=
  let st :=
    match registry st with
    | None =>
      mk_urcu (Some (malloc_registry INIT_NUM_THREADS)) 0 INIT_NUM_THREADS
    | Some _ => st
    end in
  st <-
    (if alloc_readers st <? sint (num_readers st + 1) then
       oldarray <- load (registry st);;
       let fresh := malloc_registry (sint (Z.shiftl (alloc_readers st) 1)) in
       cells <- memcpy_cells fresh oldarray (alloc_readers st);;
       Ok (mk_urcu (Some cells) (num_readers st)
             (sint (Z.shiftl (alloc_readers st) 1)))
     else Ok st);;
  cells <- load (registry st);;
  cells <- store_cell cells (num_readers st) (mk_reader id tls);;
  Ok (mk_urcu (Some cells) (sint (num_readers st + 1)) (alloc_readers st)).

(** The loop of [urcu_remove_reader] from [index] on, [n] being the number
    of cells left to look at; [None] when no cell holds [id]. *)
Fixpoint remove_reader_loop (n : nat) (index : Z) (id : Z) (st : urcu_state)
  (cells : list (option reader_registry)) : result (option urcu_state) :=
  match n with
  | O => Ok None
  | S n' =>
    r <- load_cell cells index;;
    if tid r =? id then
      last <- load_cell cells (num_readers st - 1);;
      cells <- store_cell cells index last;;
      cells <- store_cell cells (num_readers st - 1) (mk_reader 0 0);;
      Ok (Some (mk_urcu (Some cells) (sint (num_readers st - 1)) (alloc_readers st)))
    else remove_reader_loop n' (index + 1) id st cells
  end.

Definition urcu_remove_reader (cfg : build) (id : Z) (st : urcu_state)
  : result urcu_state :=
  _ <- c_assert cfg (match registry st with Some _ => true | None => false end);;
  r <- (match registry st with
        | Some cells =>
          remove_reader_loop (Z.to_nat (num_readers st)) 0 id st cells
        | None => if num_readers st <=? 0 then Ok None else Abort
        end);;
  match r with
  | Some st' => Ok st'
  | None => _ <- c_assert cfg false;; Ok st
  end.

(** The registered readers: the cells below [num_readers]. *)
Definition readers (st : urcu_state) : list reader_registry :=
  match registry st with
  | Some cells => omap id (firstn (Z.to_nat (num_readers st)) cells)
  | None => []
  end.

(** The registry as the code keeps it: an array of [alloc_readers] cells of
    which the first [num_readers] are written. *)
Definition registry_ok (st : urcu_state) : Prop :=
  match registry st with
  | Some cells =>
    Z.of_nat (length cells) = alloc_readers st /\
    0 <= num_readers st <= alloc_readers st /\ 0 < alloc_readers st /\
    forall i, (i < Z.to_nat (num_readers st))%nat ->
      exists r, cells !! i = Some (Some r)
  | None => True
  end.

(** A registry of four cells that holds the readers 11, 12 and 13. *)
Definition three_readers : urcu_state :=
  mk_urcu (Some [Some (mk_reader 11 100); Some (mk_reader 12 200);
                 Some (mk_reader 13 300); None]) 3 4.

End Urcu.

(** * Facts about the bit utilities *)

Lemma ulong_range x : 0 <= ulong x < 2 ^ 64.
Proof. unfold ulong. apply Z.mod_pos_bound. lia. Qed.

Lemma ulong_small x : 0 <= x < 2 ^ 64 -> ulong x = x.
Proof. intros H. unfold ulong. apply Z.mod_small. exact H. Qed.


Lemma shl_1_small k : 0 <= k < 64 -> shl 1 k = 2 ^ k.
Proof.
  intros H. unfold shl. rewrite Z.shiftl_1_l. apply ulong_small.
  split; [apply Z.pow_nonneg; lia | apply Z.pow_lt_mono_r; lia].
Qed.

(** A mask made of the high [64 - k] bits vanishes on [x] exactly when [x]
    fits in [k] bits. *)
Lemma land_high_mask_zero w k x :
  0 <= k <= w -> 0 <= x < 2 ^ w ->
  (Z.land x (2 ^ w - 2 ^ k) =? 0) = (x <? 2 ^ k).
Proof.
  intros Hk Hx.
  assert (Hm : 2 ^ w - 2 ^ k = Z.shiftl (Z.ones (w - k)) k).
  { rewrite Z.ones_equiv, Z.shiftl_mul_pow2 by lia.
    assert (Hw : 2 ^ w = 2 ^ (w - k) * 2 ^ k).
    { rewrite <- Z.pow_add_r by lia. f_equal. lia. }
    rewrite Hw, <- Z.sub_1_r. ring. }
  assert (Hl : Z.land x (2 ^ w - 2 ^ k) = Z.shiftl (Z.shiftr x k) k).
  { rewrite Hm. apply Z.bits_inj'. intros i Hi.
    rewrite Z.land_spec.
    destruct (Z.ltb_spec i k) as [Hik | Hik].
    - rewrite !Z.shiftl_spec_low by lia. apply andb_false_r.
    - rewrite !Z.shiftl_spec by lia. rewrite Z.shiftr_spec by lia.
      replace (i - k + k) with i by lia.
      destruct (Z.ltb_spec i w) as [Hiw | Hiw].
      + rewrite Z.ones_spec_low by lia. apply andb_true_r.
      + rewrite Z.ones_spec_high by lia. rewrite andb_false_r.
        symmetry.
        destruct (Z.eq_dec x 0) as [-> | Hx0]; [apply Z.bits_0 |].
        apply Z.bits_above_log2; [lia |].
        apply Z.log2_lt_pow2; [lia |].
        apply Z.lt_le_trans with (2 ^ w); [lia |].
        apply Z.pow_le_mono_r; lia. }
  rewrite Hl, Z.shiftl_mul_pow2, Z.shiftr_div_pow2 by lia.
  assert (Hp : 0 < 2 ^ k) by (apply Z.pow_pos_nonneg; lia).
  destruct (Z.ltb_spec x (2 ^ k)) as [Hlt | Hge].
  - rewrite Z.div_small by lia. reflexivity.
  - apply Z.eqb_neq. assert (1 <= x / 2 ^ k).
    { apply Z.div_le_lower_bound; lia. }
    nia.
Qed.

Lemma fls_step_inv w k x0 x r :
  0 < k -> 2 * k <= w ->
  0 < x0 ->
  2 ^ (w - 2 * k) <= x < 2 ^ w -> x = x0 * 2 ^ (w - r) -> 0 <= w - r ->
  let p := fls_step w k (x, r) in
  2 ^ (w - k) <= fst p < 2 ^ w /\ fst p = x0 * 2 ^ (w - snd p) /\ 0 <= w - snd p.
Proof.
  intros Hk Hkw Hx0 Hx Hr Hwr. unfold fls_step. cbn [fst snd].
  assert (Hpos : 0 < 2 ^ (w - 2 * k)) by (apply Z.pow_pos_nonneg; lia).
  rewrite land_high_mask_zero by lia.
  destruct (Z.ltb_spec x (2 ^ (w - k))) as [Hlt | Hge]; cbn [fst snd].
  - rewrite Z.shiftl_mul_pow2 by lia.
    assert (Hb : x * 2 ^ k < 2 ^ w).
    { replace w with ((w - k) + k) at 1 by lia. rewrite Z.pow_add_r by lia.
      apply Z.mul_lt_mono_pos_r; [apply Z.pow_pos_nonneg; lia | lia]. }
    assert (Hpk : 0 < 2 ^ k) by (apply Z.pow_pos_nonneg; lia).
    rewrite Z.mod_small by nia.
    split; [split; [| lia] |].
    + replace (w - k) with ((w - 2 * k) + k) by lia. rewrite Z.pow_add_r by lia.
      apply Z.mul_le_mono_nonneg_r; lia.
    + split; [| lia]. rewrite Hr, <- Z.mul_assoc, <- Z.pow_add_r by lia.
      f_equal. f_equal. lia.
  - split; [lia |]. split; [exact Hr | lia].
Qed.

Lemma fls_done w x0 x r :
  0 < w -> 0 < x0 -> 2 ^ (w - 1) <= x < 2 ^ w -> x = x0 * 2 ^ (w - r) ->
  0 <= w - r -> r = Z.log2 x0 + 1.
Proof.
  intros Hw Hx0 Hx Hr Hwr.
  assert (Hl : Z.log2 x = w - 1).
  { apply Z.log2_unique; [lia |]. replace (Z.succ (w - 1)) with w by lia. lia. }
  rewrite Hr, Z.log2_mul_pow2 in Hl by lia. lia.
Qed.

Ltac split_ifs :=
  repeat match goal with
  | |- context [if ?b then _ else _] => destruct b; cbn [fst snd]
  end.

Lemma fls_u64_steps x :
  x <> 0 ->
  fls_u64 x =
  snd (fls_step 64 1 (fls_step 64 2 (fls_step 64 4 (fls_step 64 8
        (fls_step 64 16 (fls_step 64 32 (x, 64))))))).
Proof.
  intros Hx. unfold fls_u64. rewrite (proj2 (Z.eqb_neq x 0) Hx).
  unfold fls_step, shl, ulong. cbn [fst snd].
  change (2 ^ 64 - 2 ^ (64 - 32)) with 0xFFFFFFFF00000000.
  change (2 ^ 64 - 2 ^ (64 - 16)) with 0xFFFF000000000000.
  change (2 ^ 64 - 2 ^ (64 - 8)) with 0xFF00000000000000.
  change (2 ^ 64 - 2 ^ (64 - 4)) with 0xF000000000000000.
  change (2 ^ 64 - 2 ^ (64 - 2)) with 0xC000000000000000.
  change (2 ^ 64 - 2 ^ (64 - 1)) with 0x8000000000000000.
  destruct (Z.land x 0xFFFFFFFF00000000 =? 0); cbn [fst snd];
  destruct (Z.land _ 0xFFFF000000000000 =? 0); cbn [fst snd];
  destruct (Z.land _ 0xFF00000000000000 =? 0); cbn [fst snd];
  destruct (Z.land _ 0xF000000000000000 =? 0); cbn [fst snd];
  destruct (Z.land _ 0xC000000000000000 =? 0); cbn [fst snd];
  destruct (Z.land _ 0x8000000000000000 =? 0); cbn [fst snd];
  reflexivity.
Qed.

Lemma fls_u64_spec x :
  0 <= x < 2 ^ 64 -> fls_u64 x = if x =? 0 then 0 else Z.log2 x + 1.
Proof.
  intros Hx. destruct (Z.eqb_spec x 0) as [-> | Hx0]; [reflexivity |].
  rewrite fls_u64_steps by assumption.
  pose proof (fls_step_inv 64 32 x x 64 ltac:(lia) ltac:(lia) ltac:(lia)
    ltac:(simpl; lia) ltac:(simpl; lia) ltac:(lia)) as H1.
  destruct (fls_step 64 32 (x, 64)) as [x1 r1]. cbn [fst snd] in H1.
  destruct H1 as (B1 & I1 & R1).
  pose proof (fls_step_inv 64 16 x x1 r1 ltac:(lia) ltac:(lia) ltac:(lia)
    ltac:(simpl in *; lia) I1 R1) as H2.
  destruct (fls_step 64 16 (x1, r1)) as [x2 r2]. cbn [fst snd] in H2.
  destruct H2 as (B2 & I2 & R2).
  pose proof (fls_step_inv 64 8 x x2 r2 ltac:(lia) ltac:(lia) ltac:(lia)
    ltac:(simpl in *; lia) I2 R2) as H3.
  destruct (fls_step 64 8 (x2, r2)) as [x3 r3]. cbn [fst snd] in H3.
  destruct H3 as (B3 & I3 & R3).
  pose proof (fls_step_inv 64 4 x x3 r3 ltac:(lia) ltac:(lia) ltac:(lia)
    ltac:(simpl in *; lia) I3 R3) as H4.
  destruct (fls_step 64 4 (x3, r3)) as [x4 r4]. cbn [fst snd] in H4.
  destruct H4 as (B4 & I4 & R4).
  pose proof (fls_step_inv 64 2 x x4 r4 ltac:(lia) ltac:(lia) ltac:(lia)
    ltac:(simpl in *; lia) I4 R4) as H5.
  destruct (fls_step 64 2 (x4, r4)) as [x5 r5]. cbn [fst snd] in H5.
  destruct H5 as (B5 & I5 & R5).
  pose proof (fls_step_inv 64 1 x x5 r5 ltac:(lia) ltac:(lia) ltac:(lia)
    ltac:(simpl in *; lia) I5 R5) as H6.
  destruct (fls_step 64 1 (x5, r5)) as [x6 r6]. cbn [fst snd] in H6.
  destruct H6 as (B6 & I6 & R6). cbn [snd].
  apply (fls_done 64 x x6 r6); try assumption; try lia.
Qed.

Lemma fls_u32_steps x :
  x <> 0 ->
  fls_u32 x =
  snd (fls_step 32 1 (fls_step 32 2 (fls_step 32 4 (fls_step 32 8
        (fls_step 32 16 (x, 32)))))).
Proof.
  intros Hx. unfold fls_u32. rewrite (proj2 (Z.eqb_neq x 0) Hx).
  unfold fls_step, u32. cbn [fst snd].
  change (2 ^ 32 - 2 ^ (32 - 16)) with 0xFFFF0000.
  change (2 ^ 32 - 2 ^ (32 - 8)) with 0xFF000000.
  change (2 ^ 32 - 2 ^ (32 - 4)) with 0xF0000000.
  change (2 ^ 32 - 2 ^ (32 - 2)) with 0xC0000000.
  change (2 ^ 32 - 2 ^ (32 - 1)) with 0x80000000.
  destruct (Z.land x 0xFFFF0000 =? 0); cbn [fst snd];
  destruct (Z.land _ 0xFF000000 =? 0); cbn [fst snd];
  destruct (Z.land _ 0xF0000000 =? 0); cbn [fst snd];
  destruct (Z.land _ 0xC0000000 =? 0); cbn [fst snd];
  destruct (Z.land _ 0x80000000 =? 0); cbn [fst snd];
  reflexivity.
Qed.

Lemma fls_u32_spec x :
  0 <= x < 2 ^ 32 -> fls_u32 x = if x =? 0 then 0 else Z.log2 x + 1.
Proof.
  intros Hx. destruct (Z.eqb_spec x 0) as [-> | Hx0]; [reflexivity |].
  rewrite fls_u32_steps by assumption.
  pose proof (fls_step_inv 32 16 x x 32 ltac:(lia) ltac:(lia) ltac:(lia)
    ltac:(simpl; lia) ltac:(simpl; lia) ltac:(lia)) as H2.
  destruct (fls_step 32 16 (x, 32)) as [x2 r2]. cbn [fst snd] in H2.
  destruct H2 as (B2 & I2 & R2).
  pose proof (fls_step_inv 32 8 x x2 r2 ltac:(lia) ltac:(lia) ltac:(lia)
    ltac:(simpl in *; lia) I2 R2) as H3.
  destruct (fls_step 32 8 (x2, r2)) as [x3 r3]. cbn [fst snd] in H3.
  destruct H3 as (B3 & I3 & R3).
  pose proof (fls_step_inv 32 4 x x3 r3 ltac:(lia) ltac:(lia) ltac:(lia)
    ltac:(simpl in *; lia) I3 R3) as H4.
  destruct (fls_step 32 4 (x3, r3)) as [x4 r4]. cbn [fst snd] in H4.
  destruct H4 as (B4 & I4 & R4).
  pose proof (fls_step_inv 32 2 x x4 r4 ltac:(lia) ltac:(lia) ltac:(lia)
    ltac:(simpl in *; lia) I4 R4) as H5.
  destruct (fls_step 32 2 (x4, r4)) as [x5 r5]. cbn [fst snd] in H5.
  destruct H5 as (B5 & I5 & R5).
  pose proof (fls_step_inv 32 1 x x5 r5 ltac:(lia) ltac:(lia) ltac:(lia)
    ltac:(simpl in *; lia) I5 R5) as H6.
  destruct (fls_step 32 1 (x5, r5)) as [x6 r6]. cbn [fst snd] in H6.
  destruct H6 as (B6 & I6 & R6). cbn [snd].
  apply (fls_done 32 x x6 r6); try assumption; try lia.
Qed.

Lemma fls_ulong_spec x :
  0 <= x < 2 ^ 64 -> fls_ulong x = if x =? 0 then 0 else Z.log2 x + 1.
Proof. apply fls_u64_spec. Qed.

(** [fls] of a number in [[2^(k-1), 2^k)] is [k]. *)
Lemma fls_ulong_bounds x k :
  1 <= k <= 64 -> 2 ^ (k - 1) <= x < 2 ^ k -> fls_ulong x = k.
Proof.
  intros Hk Hx.
  assert (0 < 2 ^ (k - 1)) by (apply Z.pow_pos_nonneg; lia).
  assert (2 ^ k <= 2 ^ 64) by (apply Z.pow_le_mono_r; lia).
  rewrite fls_ulong_spec by lia.
  destruct (Z.eqb_spec x 0); [lia |].
  assert (Z.log2 x = k - 1); [| lia].
  apply Z.log2_unique; [lia |]. replace (Z.succ (k - 1)) with k by lia. lia.
Qed.

Lemma log2_ceil_le x j :
  1 < x -> 0 <= j -> x <= 2 ^ j -> Z.log2 (x - 1) + 1 <= j.
Proof.
  intros Hx Hj Hle.
  assert (Z.log2 (x - 1) < j); [| lia].
  apply Z.log2_lt_pow2; lia.
Qed.

Lemma log2_ceil_ge x : 1 < x -> x <= 2 ^ (Z.log2 (x - 1) + 1).
Proof.
  intros Hx. pose proof (Z.log2_spec (x - 1) ltac:(lia)) as [_ H].
  replace (Z.succ (Z.log2 (x - 1))) with (Z.log2 (x - 1) + 1) in H by lia. lia.
Qed.

(** [get_count_order_ulong x] is the least order whose power of two
    reaches [x]. *)
Lemma get_count_order_ulong_spec x :
  0 < x < 2 ^ 64 ->
  let k := get_count_order_ulong x in
  0 <= k <= 64 /\ x <= 2 ^ k /\ forall j, 0 <= j -> x <= 2 ^ j -> k <= j.
Proof.
  intros Hx. unfold get_count_order_ulong.
  destruct (Z.eqb_spec x 0); [lia |].
  rewrite ulong_small by lia. rewrite fls_ulong_spec by lia.
  destruct (Z.eqb_spec (x - 1) 0) as [E | E].
  - assert (x = 1) by lia. subst x. cbn zeta. split; [lia |]. split; [simpl; lia |].
    intros; lia.
  - cbn zeta. pose proof (Z.log2_nonneg (x - 1)).
    assert (Z.log2 (x - 1) < 64) by (apply Z.log2_lt_pow2; lia).
    split; [lia |]. split; [apply log2_ceil_ge; lia |].
    intros j Hj Hle. apply log2_ceil_le; lia.
Qed.

Lemma get_count_order_ulong_pow2 k :
  0 <= k < 64 -> get_count_order_ulong (2 ^ k) = k.
Proof.
  intros Hk.
  assert (0 < 2 ^ k) by (apply Z.pow_pos_nonneg; lia).
  assert (2 ^ k < 2 ^ 64) by (apply Z.pow_lt_mono_r; lia).
  pose proof (get_count_order_ulong_spec (2 ^ k) ltac:(lia)) as (Hr & Hle & Hmin).
  cbn zeta in *. set (o := get_count_order_ulong (2 ^ k)) in *.
  assert (o <= k) by (apply Hmin; lia).
  assert (k <= o) by (apply (Z.pow_le_mono_r_iff 2); lia).
  lia.
Qed.


(** ** Bit reversal *)

Lemma bit_reverse_u8_table :
  forallb (fun v =>
    let r := bit_reverse_u8 (Z.of_nat v) in
    (0 <=? r) && (r <? 256) &&
    forallb (fun i =>
      Bool.eqb (Z.testbit r (Z.of_nat i)) (Z.testbit (Z.of_nat v) (7 - Z.of_nat i)))
      (seq 0 8)) (seq 0 256) = true.
Proof. vm_compute. reflexivity. Qed.

Lemma bit_reverse_u8_small v :
  0 <= v < 256 ->
  0 <= bit_reverse_u8 v < 256 /\
  forall i, 0 <= i < 8 ->
    Z.testbit (bit_reverse_u8 v) i = Z.testbit v (7 - i).
Proof.
  intros Hv. pose proof bit_reverse_u8_table as H.
  rewrite forallb_forall in H.
  specialize (H (Z.to_nat v)). rewrite Z2Nat.id in H by lia.
  assert (Hin : In (Z.to_nat v) (seq 0 256)) by (apply in_seq; lia).
  specialize (H Hin). cbn zeta in H.
  apply andb_true_iff in H as [H1 H2]. apply andb_true_iff in H1 as [H0 H1].
  split; [lia |]. intros i Hi. rewrite forallb_forall in H2.
  specialize (H2 (Z.to_nat i)). rewrite Z2Nat.id in H2 by lia.
  apply Bool.eqb_prop, H2, in_seq. lia.
Qed.

Lemma bit_reverse_u8_range v : 0 <= bit_reverse_u8 v < 256.
Proof.
  assert (H : 0 <= u8 v < 256) by (unfold u8; apply Z.mod_pos_bound; lia).
  assert (E : bit_reverse_u8 v = bit_reverse_u8 (u8 v)).
  { unfold bit_reverse_u8. f_equal. f_equal. unfold u8. symmetry.
    apply Z.mod_small. apply Z.mod_pos_bound. lia. }
  rewrite E. apply bit_reverse_u8_small, H.
Qed.

Lemma bit_reverse_u8_bits v i :
  0 <= i < 8 -> Z.testbit (bit_reverse_u8 v) i = Z.testbit v (7 - i).
Proof.
  intros Hi.
  assert (H : 0 <= u8 v < 256) by (unfold u8; apply Z.mod_pos_bound; lia).
  assert (E : bit_reverse_u8 v = bit_reverse_u8 (u8 v)).
  { unfold bit_reverse_u8. f_equal. f_equal. unfold u8. symmetry.
    apply Z.mod_small. apply Z.mod_pos_bound. lia. }
  rewrite E. destruct (bit_reverse_u8_small (u8 v) H) as [_ Hb].
  rewrite Hb by lia. unfold u8. change 256 with (2 ^ 8).
  apply Z.mod_pow2_bits_low. lia.
Qed.

Lemma bit_reverse_u8_high v i : 8 <= i -> Z.testbit (bit_reverse_u8 v) i = false.
Proof.
  intros Hi. pose proof (bit_reverse_u8_range v) as H.
  destruct (Z.eq_dec (bit_reverse_u8 v) 0) as [-> | Hn]; [apply Z.bits_0 |].
  apply Z.bits_above_log2; [lia |].
  apply Z.lt_le_trans with 8; [| lia]. apply Z.log2_lt_pow2; [lia |].
  change (2 ^ 8) with 256. lia.
Qed.

(** A reversed byte moved [n] bits up. *)
Lemma shl_bit_reverse_u8_bits x n i :
  0 <= n <= 56 -> 0 <= i ->
  Z.testbit (shl (bit_reverse_u8 x) n) i =
  (n <=? i) && (i <? n + 8) && Z.testbit x (7 - (i - n)).
Proof.
  intros Hn Hi. unfold shl, ulong.
  set (b := bit_reverse_u8 x).
  pose proof (bit_reverse_u8_range x) as Hb. fold b in Hb.
  assert (Hs : 0 <= Z.shiftl b n < 2 ^ 64).
  { rewrite Z.shiftl_mul_pow2 by lia.
    assert (0 < 2 ^ n) by (apply Z.pow_pos_nonneg; lia).
    split; [nia |].
    apply Z.lt_le_trans with (2 ^ 8 * 2 ^ n).
    - apply Z.mul_lt_mono_pos_r; [lia |]. change (2 ^ 8) with 256. lia.
    - rewrite <- Z.pow_add_r by lia. apply Z.pow_le_mono_r; lia. }
  rewrite Z.mod_small by exact Hs.
  destruct (Z.leb_spec n i) as [Hlo | Hlo]; cbn [andb].
  - rewrite Z.shiftl_spec by lia.
    destruct (Z.ltb_spec i (n + 8)) as [Hhi | Hhi]; cbn [andb].
    + unfold b. rewrite bit_reverse_u8_bits by lia. reflexivity.
    + apply bit_reverse_u8_high. lia.
  - apply Z.shiftl_spec_low. lia.
Qed.

Ltac decide_cmp :=
  repeat match goal with
  | |- context [?a <=? ?b] =>
    first [rewrite (proj2 (Z.leb_le a b)) by lia
          | rewrite (proj2 (Z.leb_gt a b)) by lia]
  | |- context [?a <? ?b] =>
    first [rewrite (proj2 (Z.ltb_lt a b)) by lia
          | rewrite (proj2 (Z.ltb_ge a b)) by lia]
  end.

Lemma bit_reverse_u64_bits v i :
  0 <= i < 64 -> Z.testbit (bit_reverse_u64 v) i = Z.testbit v (63 - i).
Proof.
  intros Hi. unfold bit_reverse_u64. rewrite !Z.lor_spec.
  rewrite !shl_bit_reverse_u8_bits by lia.
  assert (Hc : i < 8 \/ 8 <= i < 16 \/ 16 <= i < 24 \/ 24 <= i < 32 \/
               32 <= i < 40 \/ 40 <= i < 48 \/ 48 <= i < 56 \/ 56 <= i) by lia.
  destruct Hc as [H | [H | [H | [H | [H | [H | [H | H]]]]]]];
    [rewrite bit_reverse_u8_bits by lia | rewrite bit_reverse_u8_high by lia ..];
    decide_cmp; cbn [andb orb]; rewrite ?orb_false_r;
    try (rewrite Z.shiftr_spec by lia); f_equal; lia.
Qed.

Lemma bit_reverse_u64_high v i :
  64 <= i -> Z.testbit (bit_reverse_u64 v) i = false.
Proof.
  intros Hi. unfold bit_reverse_u64. rewrite !Z.lor_spec.
  rewrite !shl_bit_reverse_u8_bits by lia.
  rewrite bit_reverse_u8_high by lia.
  decide_cmp. reflexivity.
Qed.

Lemma bits_range_64 x :
  0 <= x -> (forall i, 64 <= i -> Z.testbit x i = false) -> x < 2 ^ 64.
Proof.
  intros Hx Hb.
  destruct (Z.eq_dec x 0) as [-> | Hn]; [reflexivity |].
  apply Z.log2_lt_pow2; [lia |].
  destruct (Z.lt_ge_cases (Z.log2 x) 64) as [Hl | Hl]; [exact Hl |].
  specialize (Hb (Z.log2 x) Hl). rewrite Z.bit_log2 in Hb by lia. discriminate.
Qed.

Lemma bit_reverse_u8_nonneg v : 0 <= bit_reverse_u8 v.
Proof. apply bit_reverse_u8_range. Qed.

Lemma bit_reverse_ulong_range v : 0 <= bit_reverse_ulong v < 2 ^ 64.
Proof.
  assert (Hn : 0 <= bit_reverse_ulong v).
  { unfold bit_reverse_ulong, bit_reverse_u64.
    repeat (apply Z.lor_nonneg; split); try apply ulong_range;
      apply bit_reverse_u8_nonneg. }
  split; [exact Hn |]. apply bits_range_64; [exact Hn |].
  intros i Hi. apply bit_reverse_u64_high, Hi.
Qed.

Lemma bit_reverse_ulong_bits v i :
  0 <= i < 64 -> Z.testbit (bit_reverse_ulong v) i = Z.testbit v (63 - i).
Proof. apply bit_reverse_u64_bits. Qed.

Lemma testbit_high_64 x i : 0 <= x < 2 ^ 64 -> 64 <= i -> Z.testbit x i = false.
Proof.
  intros Hx Hi. destruct (Z.eq_dec x 0) as [-> | Hn]; [apply Z.bits_0 |].
  apply Z.bits_above_log2; [lia |].
  apply Z.lt_le_trans with 64; [| lia]. apply Z.log2_lt_pow2; lia.
Qed.

Lemma bit_reverse_ulong_involutive x :
  0 <= x < 2 ^ 64 -> bit_reverse_ulong (bit_reverse_ulong x) = x.
Proof.
  intros Hx. apply Z.bits_inj'. intros i Hi.
  destruct (Z.lt_ge_cases i 64) as [Hl | Hl].
  - rewrite !bit_reverse_ulong_bits by lia. f_equal. lia.
  - rewrite testbit_high_64 by (lia || apply bit_reverse_ulong_range).
    symmetry. apply testbit_high_64; lia.
Qed.

Lemma bit_reverse_ulong_inj x y :
  0 <= x < 2 ^ 64 -> 0 <= y < 2 ^ 64 ->
  bit_reverse_ulong x = bit_reverse_ulong y -> x = y.
Proof.
  intros Hx Hy E.
  rewrite <- (bit_reverse_ulong_involutive x Hx), <- (bit_reverse_ulong_involutive y Hy).
  f_equal. exact E.
Qed.

(** Reversal is monotone for the inclusion of bit sets, which is what makes a
    bucket's dummy node precede the nodes that hash into the bucket. *)
Lemma bit_reverse_ulong_submask a b :
  0 <= b < 2 ^ 64 -> Z.land a b = a ->
  bit_reverse_ulong a <= bit_reverse_ulong b.
Proof.
  intros Hb Hab.
  apply (Z.ldiff_le (bit_reverse_ulong a) (bit_reverse_ulong b)).
  - apply bit_reverse_ulong_range.
  - apply Z.bits_inj'. intros i Hi. rewrite Z.ldiff_spec, Z.bits_0.
    destruct (Z.lt_ge_cases i 64) as [Hl | Hl].
    + rewrite !bit_reverse_ulong_bits by lia.
      rewrite <- Hab at 1. rewrite Z.land_spec.
      destruct (Z.testbit a (63 - i)), (Z.testbit b (63 - i)); reflexivity.
    + rewrite (testbit_high_64 (bit_reverse_ulong a)) by (lia || apply bit_reverse_ulong_range).
      reflexivity.
Qed.

Lemma land_mask_pow2 h k : 0 <= k -> Z.land h (2 ^ k - 1) = h mod 2 ^ k.
Proof.
  intros Hk. rewrite <- Z.land_ones by lia. f_equal.
  rewrite Z.ones_equiv. lia.
Qed.

Lemma bit_reverse_bucket_le h k :
  0 <= h < 2 ^ 64 -> 0 <= k ->
  bit_reverse_ulong (Z.land h (2 ^ k - 1)) <= bit_reverse_ulong h.
Proof.
  intros Hh Hk. apply bit_reverse_ulong_submask; [exact Hh |].
  rewrite <- Z.land_assoc. rewrite (Z.land_comm (2 ^ k - 1) h).
  rewrite Z.land_assoc, Z.land_diag. reflexivity.
Qed.

(** ** Tagged pointers *)

Lemma REMOVED_FLAG_val : REMOVED_FLAG = 1.
Proof. reflexivity. Qed.
Lemma DUMMY_FLAG_val : DUMMY_FLAG = 2.
Proof. reflexivity. Qed.
Lemma clear_mask_val : ulong_not FLAGS_MASK = Z.shiftl (Z.ones 62) 2.
Proof. reflexivity. Qed.

Lemma is_removed_bit p : is_removed p = Z.testbit p 0.
Proof.
  unfold is_removed. rewrite REMOVED_FLAG_val.
  change 1 with (Z.ones 1). rewrite Z.land_ones by lia.
  change (2 ^ 1) with 2. rewrite <- Z.bit0_mod.
  destruct (Z.testbit p 0); reflexivity.
Qed.

Lemma testbit_2 i : 0 <= i -> Z.testbit 2 i = (i =? 1).
Proof.
  intros Hi. change 2 with (2 ^ 1). rewrite Z.pow2_bits_eqb by lia.
  apply Z.eqb_sym.
Qed.

Lemma is_dummy_bit p : is_dummy p = Z.testbit p 1.
Proof.
  unfold is_dummy. rewrite DUMMY_FLAG_val.
  assert (E : Z.land p 2 = if Z.testbit p 1 then 2 else 0).
  { apply Z.bits_inj'. intros i Hi. rewrite Z.land_spec, testbit_2 by lia.
    destruct (Z.eqb_spec i 1) as [-> | Hn].
    - rewrite andb_true_r. destruct (Z.testbit p 1); reflexivity.
    - rewrite andb_false_r. destruct (Z.testbit p 1).
      + rewrite testbit_2 by lia. symmetry. apply Z.eqb_neq. exact Hn.
      + symmetry. apply Z.bits_0. }
  rewrite E. destruct (Z.testbit p 1); reflexivity.
Qed.

Lemma clear_flag_bits p i :
  0 <= i -> Z.testbit (clear_flag p) i = Z.testbit p i && (2 <=? i) && (i <? 64).
Proof.
  intros Hi. unfold clear_flag. rewrite clear_mask_val, Z.land_spec.
  destruct (Z.leb_spec 2 i) as [H2 | H2].
  - rewrite Z.shiftl_spec by lia.
    destruct (Z.ltb_spec i 64) as [H64 | H64].
    + rewrite Z.ones_spec_low by lia. rewrite !andb_true_r. reflexivity.
    + rewrite Z.ones_spec_high by lia. rewrite !andb_false_r. reflexivity.
  - rewrite Z.shiftl_spec_low by lia. rewrite andb_false_r. reflexivity.
Qed.

Lemma flag_removed_bits p i :
  0 <= i -> Z.testbit (flag_removed p) i = Z.testbit p i || (i =? 0).
Proof.
  intros Hi. unfold flag_removed. rewrite REMOVED_FLAG_val, Z.lor_spec.
  destruct (Z.eqb_spec i 0) as [-> | Hn]; [rewrite !orb_true_r; reflexivity |].
  f_equal. change 1 with (2 ^ 0). rewrite Z.pow2_bits_eqb by lia.
  apply Z.eqb_neq. lia.
Qed.

Lemma flag_dummy_bits p i :
  0 <= i -> Z.testbit (flag_dummy p) i = Z.testbit p i || (i =? 1).
Proof.
  intros Hi. unfold flag_dummy. rewrite DUMMY_FLAG_val, Z.lor_spec.
  f_equal. apply testbit_2, Hi.
Qed.

Ltac flag_bits :=
  apply Z.bits_inj'; intros ?i ?Hi;
  rewrite ?clear_flag_bits, ?flag_removed_bits, ?flag_dummy_bits,
          ?clear_flag_bits by lia;
  repeat match goal with
  | |- context [?a <=? ?b] => destruct (Z.leb_spec a b)
  | |- context [?a <? ?b] => destruct (Z.ltb_spec a b)
  | |- context [?a =? ?b] => destruct (Z.eqb_spec a b)
  end; try lia;
  rewrite ?andb_true_r, ?andb_false_r, ?orb_true_r, ?orb_false_r; try reflexivity.

Lemma clear_flag_flag_dummy p : clear_flag (flag_dummy p) = clear_flag p.
Proof. flag_bits. Qed.

Lemma clear_flag_flag_removed p : clear_flag (flag_removed p) = clear_flag p.
Proof. flag_bits. Qed.

Lemma clear_flag_idem p : clear_flag (clear_flag p) = clear_flag p.
Proof. flag_bits. Qed.

Lemma is_dummy_flag_dummy p : is_dummy (flag_dummy p) = true.
Proof. rewrite is_dummy_bit, flag_dummy_bits by lia. apply orb_true_r. Qed.

Lemma is_removed_flag_dummy p : is_removed (flag_dummy p) = is_removed p.
Proof. rewrite !is_removed_bit, flag_dummy_bits by lia. apply orb_false_r. Qed.

Lemma is_removed_flag_removed p : is_removed (flag_removed p) = true.
Proof. rewrite is_removed_bit, flag_removed_bits by lia. apply orb_true_r. Qed.

Lemma is_dummy_flag_removed p : is_dummy (flag_removed p) = is_dummy p.
Proof. rewrite !is_dummy_bit, flag_removed_bits by lia. apply orb_false_r. Qed.

Lemma is_dummy_clear_flag p : is_dummy (clear_flag p) = false.
Proof. rewrite is_dummy_bit, clear_flag_bits by lia. rewrite andb_false_r. reflexivity. Qed.

Lemma is_removed_clear_flag p : is_removed (clear_flag p) = false.
Proof. rewrite is_removed_bit, clear_flag_bits by lia. rewrite andb_false_r. reflexivity. Qed.

Lemma clear_flag_range p : 0 <= clear_flag p < 2 ^ 64.
Proof.
  unfold clear_flag. rewrite clear_mask_val.
  assert (Hm : 0 <= Z.shiftl (Z.ones 62) 2 < 2 ^ 64) by (vm_compute; split; congruence).
  split.
  - apply Z.land_nonneg. right. lia.
  - apply bits_range_64.
    + apply Z.land_nonneg. right. lia.
    + intros i Hi. rewrite Z.land_spec.
      rewrite (testbit_high_64 _ i Hm Hi). apply andb_false_r.
Qed.

Lemma clear_flag_mod4 p : clear_flag p mod 4 = 0.
Proof.
  change 4 with (2 ^ 2). rewrite <- Z.land_ones by lia.
  apply Z.bits_inj'. intros i Hi.
  rewrite Z.land_spec, clear_flag_bits, Z.bits_0 by lia.
  destruct (Z.leb_spec 2 i).
  - rewrite Z.ones_spec_high by lia. apply andb_false_r.
  - rewrite andb_false_r. reflexivity.
Qed.

Lemma aligned_bits a i : aligned a -> 0 <= i -> i < 2 \/ 64 <= i -> Z.testbit a i = false.
Proof.
  intros [Hr Hm] Hi [Hlo | Hhi].
  - assert (E : a = a / 4 * 2 ^ 2).
    { change (2 ^ 2) with 4. pose proof (Z.div_mod a 4 ltac:(lia)). lia. }
    rewrite E. apply Z.mul_pow2_bits_low. lia.
  - apply testbit_high_64; lia.
Qed.

Lemma clear_flag_aligned a : aligned a -> clear_flag a = a.
Proof.
  intros Ha. apply Z.bits_inj'. intros i Hi. rewrite clear_flag_bits by lia.
  destruct (Z.leb_spec 2 i); [destruct (Z.ltb_spec i 64) |];
    rewrite ?andb_true_r, ?andb_false_r; try reflexivity;
    symmetry; apply aligned_bits; auto; lia.
Qed.

Lemma is_removed_aligned a : aligned a -> is_removed a = false.
Proof. intros Ha. rewrite is_removed_bit. apply aligned_bits; auto; lia. Qed.

Lemma is_dummy_aligned a : aligned a -> is_dummy a = false.
Proof. intros Ha. rewrite is_dummy_bit. apply aligned_bits; auto; lia. Qed.

Lemma is_end_aligned a : aligned a -> is_end a = false.
Proof.
  intros Ha. unfold is_end. rewrite clear_flag_aligned by assumption.
  apply Z.eqb_neq. destruct Ha. unfold END_VALUE. lia.
Qed.

Lemma clear_flag_0 : clear_flag 0 = 0.
Proof. reflexivity. Qed.

Lemma is_end_clear_flag p : is_end (clear_flag p) = is_end p.
Proof. unfold is_end. rewrite clear_flag_idem. reflexivity. Qed.

Lemma clear_flag_cases p : clear_flag p = 0 \/ aligned (clear_flag p).
Proof.
  pose proof (clear_flag_range p). pose proof (clear_flag_mod4 p).
  destruct (Z.eq_dec (clear_flag p) 0); [left; assumption | right].
  split; [lia | assumption].
Qed.

Lemma is_end_false_aligned p : is_end p = false -> aligned (clear_flag p).
Proof.
  unfold is_end, END_VALUE. intros H. apply Z.eqb_neq in H.
  destruct (clear_flag_cases p); [contradiction | assumption].
Qed.

(** ** Bucket index arithmetic *)

Lemma pow2_pos k : 0 <= k -> 0 < 2 ^ k.
Proof. intros. apply Z.pow_pos_nonneg; lia. Qed.

Lemma pow2_lt_64 k : 0 <= k < 64 -> 0 < 2 ^ k < 2 ^ 64.
Proof.
  intros Hk. split; [apply pow2_pos; lia | apply Z.pow_lt_mono_r; lia].
Qed.

Lemma size_mask k : 0 <= k < 64 -> ulong (2 ^ k - 1) = 2 ^ k - 1.
Proof. intros Hk. pose proof (pow2_lt_64 k Hk). apply ulong_small. lia. Qed.

Lemma bucket_index_mod h k :
  0 <= k < 64 -> Z.land h (ulong (2 ^ k - 1)) = h mod 2 ^ k.
Proof. intros Hk. rewrite size_mask by lia. apply land_mask_pow2. lia. Qed.

Lemma bucket_index_range h k :
  0 <= k < 64 -> 0 <= Z.land h (ulong (2 ^ k - 1)) < 2 ^ k.
Proof.
  intros Hk. rewrite bucket_index_mod by lia.
  apply Z.mod_pos_bound, pow2_pos. lia.
Qed.

Lemma fls_ulong_msb_index x : 0 <= x < 2 ^ 64 -> fls_ulong x = msb_index x.
Proof. apply fls_ulong_spec. Qed.

Lemma fls_ulong_range x : 0 <= x < 2 ^ 64 -> 0 <= fls_ulong x <= 64.
Proof.
  intros Hx. rewrite fls_ulong_spec by lia.
  destruct (Z.eqb_spec x 0); [lia |].
  pose proof (Z.log2_nonneg x).
  assert (Z.log2 x < 64) by (apply Z.log2_lt_pow2; lia). lia.
Qed.

Lemma fls_ulong_lt_pow2 x k :
  0 <= k <= 64 -> 0 <= x < 2 ^ k -> fls_ulong x <= k.
Proof.
  intros Hk Hx.
  assert (2 ^ k <= 2 ^ 64) by (apply Z.pow_le_mono_r; lia).
  rewrite fls_ulong_spec by lia.
  destruct (Z.eqb_spec x 0); [lia |].
  assert (Z.log2 x < k) by (apply Z.log2_lt_pow2; lia). lia.
Qed.

(** Within its level, a bucket sits at its index minus the level's base. *)
Lemma bucket_pos_spec idx :
  0 <= idx < 2 ^ 64 ->
  bucket_pos idx =
  if fls_ulong idx =? 0 then 0 else idx - 2 ^ (fls_ulong idx - 1).
Proof.
  intros Hx. unfold bucket_pos.
  destruct (Z.eqb_spec (fls_ulong idx) 0) as [E | E]; [apply Z.land_0_r |].
  pose proof (fls_ulong_range idx Hx) as Hr.
  rewrite fls_ulong_spec in * by lia.
  destruct (Z.eqb_spec idx 0) as [| Hn]; [lia |].
  replace (Z.log2 idx + 1 - 1) with (Z.log2 idx) by lia.
  pose proof (Z.log2_nonneg idx) as Hl0.
  rewrite shl_1_small by lia. rewrite size_mask by lia.
  rewrite land_mask_pow2 by lia.
  pose proof (Z.log2_spec idx ltac:(lia)) as [Hlo Hhi].
  replace (Z.succ (Z.log2 idx)) with (Z.log2 idx + 1) in Hhi by lia.
  rewrite Z.pow_add_r in Hhi by lia. change (2 ^ 1) with 2 in Hhi.
  symmetry. apply Z.mod_unique with 1; lia.
Qed.

Lemma pow2_double i : 1 <= i -> 2 ^ i = 2 * 2 ^ (i - 1).
Proof.
  intros Hi. replace i with (1 + (i - 1)) at 1 by lia.
  rewrite Z.pow_add_r by lia. reflexivity.
Qed.

(** The [j]-th node of the level array of order [i] is the dummy node of
    bucket [2^(i-1) + j]. *)
Lemma level_index_fls i j :
  1 <= i <= 64 -> 0 <= j < 2 ^ (i - 1) -> fls_ulong (2 ^ (i - 1) + j) = i.
Proof.
  intros Hi Hj. apply fls_ulong_bounds; [lia |].
  rewrite (pow2_double i) by lia. lia.
Qed.

Lemma level_index_pos i j :
  1 <= i <= 64 -> 0 <= j < 2 ^ (i - 1) -> bucket_pos (2 ^ (i - 1) + j) = j.
Proof.
  intros Hi Hj.
  assert (Hp : 2 ^ (i - 1) + j < 2 ^ i).
  { rewrite (pow2_double i) by lia. lia. }
  assert (2 ^ i <= 2 ^ 64) by (apply Z.pow_le_mono_r; lia).
  rewrite bucket_pos_spec by lia.
  rewrite level_index_fls by lia.
  destruct (Z.eqb_spec i 0); lia.
Qed.

Lemma daddr_level s i j level :
  1 <= i <= 64 -> 0 <= j < 2 ^ (i - 1) -> t_tbl s !! i = Some level ->
  daddr s (2 ^ (i - 1) + j) = node_at level j.
Proof.
  intros Hi Hj Ht. unfold daddr.
  rewrite level_index_fls, Ht, level_index_pos by lia. reflexivity.
Qed.

Lemma daddr_0 s level : t_tbl s !! 0 = Some level -> daddr s 0 = node_at level 0.
Proof. intros Ht. unfold daddr. change (fls_ulong 0) with 0. rewrite Ht. reflexivity. Qed.

Lemma level_hash_val i j :
  1 <= i < 64 -> 0 <= j < 2 ^ (i - 1) -> level_hash i j = 2 ^ (i - 1) + j.
Proof.
  intros Hi Hj. unfold level_hash. destruct (Z.eqb_spec i 0); [lia |].
  rewrite shl_1_small by lia. apply ulong_small.
  assert (2 ^ (i - 1) + j < 2 ^ i).
  { rewrite (pow2_double i) by lia. lia. }
  assert (2 ^ i <= 2 ^ 64) by (apply Z.pow_le_mono_r; lia).
  lia.
Qed.

Lemma level_size_val i : 1 <= i < 64 -> level_size i = 2 ^ (i - 1).
Proof.
  intros Hi. unfold level_size. destruct (Z.eqb_spec i 0); [lia |].
  apply shl_1_small. lia.
Qed.

(** The new dummy node of bucket [2^(i-1) + j] hashes, in the table of
    [2^(i-1)] buckets, into bucket [j], whose dummy node comes strictly
    before it in the split order. *)
Lemma level_parent_index i j :
  1 <= i < 64 -> 0 <= j < 2 ^ (i - 1) ->
  Z.land (2 ^ (i - 1) + j) (ulong (2 ^ (i - 1) - 1)) = j.
Proof.
  intros Hi Hj. rewrite bucket_index_mod by lia.
  rewrite Z.add_comm, <- (Z.mul_1_l (2 ^ (i - 1))) at 1.
  rewrite Z.mod_add by lia. apply Z.mod_small. lia.
Qed.

Lemma level_parent_lt i j :
  1 <= i < 64 -> 0 <= j < 2 ^ (i - 1) ->
  bit_reverse_ulong j < bit_reverse_ulong (2 ^ (i - 1) + j).
Proof.
  intros Hi Hj.
  assert (Hp : 2 ^ (i - 1) + j < 2 ^ i).
  { rewrite (pow2_double i) by lia. lia. }
  assert (2 ^ i <= 2 ^ 64) by (apply Z.pow_le_mono_r; lia).
  assert (Hle : bit_reverse_ulong j <= bit_reverse_ulong (2 ^ (i - 1) + j)).
  { rewrite <- (level_parent_index i j Hi Hj) at 1.
    rewrite size_mask by lia. apply bit_reverse_bucket_le; lia. }
  assert (Hne : bit_reverse_ulong j <> bit_reverse_ulong (2 ^ (i - 1) + j)).
  { intros E. apply bit_reverse_ulong_inj in E; lia. }
  lia.
Qed.

(** * Linked segments and the split order *)

Lemma lseg_app m a l1 l2 e :
  lseg m a (l1 ++ l2) e <-> exists mid, lseg m a l1 mid /\ lseg m mid l2 e.
Proof.
  revert a. induction l1 as [| x l1 IH]; intros a; cbn [app lseg].
  - split.
    + intros H. exists a. split; [reflexivity | exact H].
    + intros (mid & -> & H). exact H.
  - split.
    + intros (-> & n & Hn & H). apply IH in H as (mid & H1 & H2).
      exists mid. split; [| exact H2]. split; [reflexivity |].
      exists n. split; assumption.
    + intros (mid & (-> & n & Hn & H1) & H2). split; [reflexivity |].
      exists n. split; [exact Hn |]. apply IH. exists mid. split; assumption.
Qed.

Lemma lseg_in_mem m a l e x : lseg m a l e -> In x l -> is_Some (m !! x).
Proof.
  revert a. induction l as [| y l IH]; intros a H Hin; [destruct Hin |].
  destruct H as (-> & n & Hn & H). destruct Hin as [<- | Hin].
  - exists n. exact Hn.
  - eapply IH; eassumption.
Qed.

(** A segment only depends on where the [next] words of its nodes point. *)
Lemma lseg_frame m m' a l e :
  (forall x, In x l -> exists n n', m !! x = Some n /\ m' !! x = Some n' /\
     clear_flag (next n') = clear_flag (next n)) ->
  lseg m a l e -> lseg m' a l e.
Proof.
  revert a. induction l as [| y l IH]; intros a Hf H; [exact H |].
  destruct H as (-> & n & Hn & H). split; [reflexivity |].
  destruct (Hf y (or_introl eq_refl)) as (n0 & n' & Hn0 & Hn' & E).
  rewrite Hn in Hn0. inversion Hn0; subst n0.
  exists n'. split; [exact Hn' |]. rewrite E. apply IH; [| exact H].
  intros x Hx. apply Hf. right. exact Hx.
Qed.

Lemma lseg_same m m' a l e :
  (forall x, In x l -> m' !! x = m !! x) -> lseg m a l e -> lseg m' a l e.
Proof.
  intros Hs H. apply (lseg_frame m); [| exact H].
  intros x Hx. destruct (lseg_in_mem _ _ _ _ x H Hx) as [n Hn].
  exists n, n. rewrite (Hs x Hx). auto.
Qed.

Lemma lseg_cons_inv m a x l e :
  lseg m a (x :: l) e ->
  a = x /\ exists n, m !! x = Some n /\ lseg m (clear_flag (next n)) l e.
Proof. intros H. exact H. Qed.

(** The segment that starts at an address is determined by the memory. *)
Lemma lseg_functional m a l l' :
  (forall x, In x l -> x <> 0) -> (forall x, In x l' -> x <> 0) ->
  lseg m a l 0 -> lseg m a l' 0 -> l = l'.
Proof.
  revert a l'. induction l as [| x l IH]; intros a l' Hl Hl' H H'.
  - cbn in H. subst a. destruct l' as [| y l']; [reflexivity |].
    destruct H' as (<- & _). exfalso. apply (Hl' 0); [left |]; reflexivity.
  - destruct H as (-> & n & Hn & H). destruct l' as [| y l'].
    + cbn in H'. exfalso. apply (Hl x); [left; reflexivity | exact H'].
    + destruct H' as (<- & n' & Hn' & H'). rewrite Hn in Hn'. inversion Hn'; subst n'.
      f_equal. eapply IH; try eassumption.
      * intros z Hz. apply Hl. right. exact Hz.
      * intros z Hz. apply Hl'. right. exact Hz.
Qed.

(** ** Sortedness *)

Lemma sorted_by_app f l1 l2 :
  sorted_by f (l1 ++ l2) <->
  sorted_by f l1 /\ sorted_by f l2 /\
  forall a b, In a l1 -> In b l2 -> f a <= f b.
Proof.
  induction l1 as [| x l1 IH]; cbn [app sorted_by].
  - split; [intros H; repeat split; [exact H | intros a b []] | intros (_ & H & _); exact H].
  - rewrite IH. split.
    + intros (Hx & H1 & H2 & H12). split; [split |]; [| exact H1 |].
      * intros b Hb. apply Hx, in_or_app. left. exact Hb.
      * split; [exact H2 |]. intros a b [<- | Ha] Hb.
        -- apply Hx, in_or_app. right. exact Hb.
        -- apply H12; assumption.
    + intros ((Hx & H1) & H2 & H12). split; [| split; [exact H1 | split; [exact H2 |]]].
      * intros b Hb. apply in_app_or in Hb as [Hb | Hb]; [apply Hx, Hb |].
        apply H12; [left; reflexivity | exact Hb].
      * intros a b Ha Hb. apply H12; [right |]; assumption.
Qed.

Lemma sorted_by_ext f g l :
  (forall a, In a l -> f a = g a) -> sorted_by f l -> sorted_by g l.
Proof.
  induction l as [| x l IH]; intros He H; [exact I |].
  destruct H as [Hx H]. split.
  - intros b Hb. rewrite <- (He x), <- (He b); [apply Hx, Hb | right; exact Hb | left; reflexivity].
  - apply IH; [| exact H]. intros a Ha. apply He. right. exact Ha.
Qed.

Lemma sorted_by_cons_inv f x l :
  sorted_by f (x :: l) -> (forall b, In b l -> f x <= f b) /\ sorted_by f l.
Proof. intros H. exact H. Qed.

(** In a duplicate-free sorted list, a node with a strictly smaller key comes
    first. *)
Lemma sorted_by_before f l1 x l2 y :
  sorted_by f (l1 ++ x :: l2) -> In y (l1 ++ x :: l2) -> f x < f y -> In y l2.
Proof.
  intros Hs Hin Hlt. apply sorted_by_app in Hs as (_ & _ & H12).
  apply in_app_or in Hin as [Hin | [<- | Hin]].
  - specialize (H12 y x Hin (or_introl eq_refl)). lia.
  - lia.
  - exact Hin.
Qed.

(** ** Reading the fields of a state *)

Lemma nxt_lookup s a n : mem s !! a = Some n -> nxt s a = next n.
Proof. intros H. unfold nxt. rewrite H. reflexivity. Qed.

Lemma rh_lookup s a n : mem s !! a = Some n -> rh s a = reverse_hash n.
Proof. intros H. unfold rh. rewrite H. reflexivity. Qed.

Lemma mem_lookup_fields s a n :
  mem s !! a = Some n -> n = mk_node (nxt s a) (rh s a).
Proof.
  intros H. rewrite (nxt_lookup s a n H), (rh_lookup s a n H). destruct n; reflexivity.
Qed.

Lemma skey_bounds s a : 2 * rh s a <= skey s a <= 2 * rh s a + 1.
Proof. unfold skey. destruct (is_dummy (nxt s a)); lia. Qed.

Lemma skey_le_rh s a b : skey s a <= skey s b -> rh s a <= rh s b.
Proof. pose proof (skey_bounds s a). pose proof (skey_bounds s b). lia. Qed.

(** * The invariant under elementary changes of the state *)

Section Invariant.

Variables (D R : Z -> Prop) (s : state) (L : list Z).
Hypothesis Inv : table_inv D R s L.

Lemma inv_in_mem a : In a L -> exists n, mem s !! a = Some n.
Proof. intros Ha. eapply lseg_in_mem; [apply (inv_lseg _ _ _ _ Inv) | exact Ha]. Qed.

Lemma inv_node a : In a L -> mem s !! a = Some (mk_node (nxt s a) (rh s a)).
Proof.
  intros Ha. destruct (inv_in_mem a Ha) as [n Hn].
  rewrite Hn. f_equal. apply mem_lookup_fields, Hn.
Qed.

Lemma inv_size_pos : 0 < t_size s < 2 ^ 64.
Proof.
  destruct (inv_size _ _ _ _ Inv) as [(k & Hk & ->) _]. apply pow2_lt_64, Hk.
Qed.

Lemma inv_D0 : D 0.
Proof.
  destruct (inv_size _ _ _ _ Inv) as [_ H]. apply H.
  pose proof inv_size_pos. lia.
Qed.

Lemma inv_head_in : In (daddr s 0) L.
Proof. destruct (inv_head _ _ _ _ Inv) as [L' ->]. left. reflexivity. Qed.

(** Splitting the list at a node tells where the node points to. *)
Lemma inv_split l1 a l2 :
  L = l1 ++ a :: l2 ->
  lseg (mem s) (daddr s 0) l1 a /\ lseg (mem s) (clear_flag (nxt s a)) l2 0.
Proof.
  intros E. pose proof (inv_lseg _ _ _ _ Inv) as H. rewrite E in H.
  apply lseg_app in H as (mid & H1 & H2).
  destruct H2 as (-> & n & Hn & H2). split; [exact H1 |].
  rewrite (nxt_lookup _ _ _ Hn). exact H2.
Qed.

Lemma inv_next_cons l1 a b l2 :
  L = l1 ++ a :: b :: l2 -> clear_flag (nxt s a) = b.
Proof. intros E. destruct (inv_split _ _ _ E) as [_ (H & _)]. exact H. Qed.

Lemma inv_next_nil l1 a : L = l1 ++ [a] -> clear_flag (nxt s a) = 0.
Proof. intros E. destruct (inv_split _ _ _ E) as [_ H]. exact H. Qed.

Lemma inv_daddr_inj i j : D i -> D j -> daddr s i = daddr s j -> i = j.
Proof.
  intros Hi Hj E.
  destruct (inv_bucket _ _ _ _ Inv i Hi) as (Ri & _ & _ & _ & Hri).
  destruct (inv_bucket _ _ _ _ Inv j Hj) as (Rj & _ & _ & _ & Hrj).
  rewrite E in Hri. rewrite Hri in Hrj.
  assert (2 ^ 63 < 2 ^ 64) by (apply Z.pow_lt_mono_r; lia).
  apply bit_reverse_ulong_inj in Hrj; lia.
Qed.

End Invariant.

Lemma table_inv_ext D D' R R' s L :
  (forall i, D i <-> D' i) -> (forall a, R a <-> R' a) ->
  table_inv D R s L -> table_inv D' R' s L.
Proof.
  intros HD HR Inv.
  destruct Inv as [Hhead Hlseg Hnd Hal Hrr Hso Hrm Hdm Hbk Hus Hsz Hct].
  split; try assumption.
  - intros a Ha. rewrite <- HR. auto.
  - intros a Ha Hd. destruct (Hdm a Ha Hd) as (idx & Hi & E).
    exists idx. split; [apply HD, Hi | exact E].
  - intros idx Hi. apply Hbk, HD, Hi.
  - destruct Hsz as [Hk Hs]. split; [exact Hk |].
    intros idx Hi. apply HD, Hs, Hi.
Qed.

(** Changes that leave the linked nodes and the buckets alone. *)
Lemma table_inv_frame D R s s' L :
  table_inv D R s L ->
  (forall a, In a L -> mem s' !! a = mem s !! a) ->
  (forall a, In a L -> node_keys s' !! a = node_keys s !! a) ->
  (forall idx, D idx -> t_tbl s' !! fls_ulong idx = t_tbl s !! fls_ulong idx) ->
  ht_hash_fct s' = ht_hash_fct s -> ht_hash_seed s' = ht_hash_seed s ->
  size_ok D s' -> counters_ok s' ->
  table_inv D R s' L.
Proof.
  intros Inv Hm Hk Ht Hh Hseed Hsz Hc.
  assert (Hnxt : forall a, In a L -> nxt s' a = nxt s a).
  { intros a Ha. unfold nxt. rewrite (Hm a Ha). reflexivity. }
  assert (Hrh : forall a, In a L -> rh s' a = rh s a).
  { intros a Ha. unfold rh. rewrite (Hm a Ha). reflexivity. }
  assert (Hd : forall idx, D idx -> daddr s' idx = daddr s idx).
  { intros idx Hi. unfold daddr. rewrite (Ht idx Hi). reflexivity. }
  assert (HD0 : D 0) by (apply (inv_D0 _ _ _ _ Inv)).
  destruct Inv as [Hhead Hlseg Hnd Hal Hrr Hso Hrm Hdm Hbk Hus _ _].
  split.
  - rewrite (Hd 0 HD0). assumption.
  - rewrite (Hd 0 HD0). apply (lseg_same (mem s)); assumption.
  - assumption.
  - assumption.
  - intros a Ha. rewrite (Hrh a Ha). auto.
  - apply (sorted_by_ext (skey s)); [| assumption].
    intros a Ha. unfold skey. rewrite (Hrh a Ha), (Hnxt a Ha). reflexivity.
  - intros a Ha. rewrite (Hnxt a Ha). auto.
  - intros a Ha Hdm'. rewrite (Hnxt a Ha) in Hdm'.
    destruct (Hdm a Ha Hdm') as (idx & Hi & E).
    exists idx. split; [exact Hi |]. rewrite (Hd idx Hi). exact E.
  - intros idx Hi. destruct (Hbk idx Hi) as (Hr & Hs & Hin & Hdm' & Hrv).
    rewrite (Hd idx Hi), (Ht idx Hi). repeat split; try assumption; try lia.
    + rewrite (Hnxt _ Hin). exact Hdm'.
    + rewrite (Hrh _ Hin). exact Hrv.
  - intros a Ha Hdm'. rewrite (Hnxt a Ha) in Hdm'.
    destruct (Hus a Ha Hdm') as (k & Hkk & Hrv).
    exists k. split; [rewrite (Hk a Ha); exact Hkk |].
    rewrite (Hrh a Ha). unfold node_hash_of. rewrite Hh, Hseed. exact Hrv.
  - assumption.
  - assumption.
Qed.

Lemma same_table_refl s : same_table s s.
Proof. repeat split. Qed.

Lemma same_table_trans s1 s2 s3 :
  same_table s1 s2 -> same_table s2 s3 -> same_table s1 s3.
Proof.
  unfold same_table. intros H1 H2.
  decompose [and] H1. decompose [and] H2. repeat split; congruence.
Qed.

Lemma counters_ok_same s s' : same_table s s' -> counters_ok s -> counters_ok s'.
Proof.
  unfold same_table, counters_ok. intros H (H1 & H2 & H3).
  destruct H as (_ & _ & _ & _ & _ & _ & Hd & _ & Hp & Hm & _).
  rewrite Hd, Hp, Hm. auto.
Qed.

Lemma table_inv_same D R s s' L :
  same_table s s' -> table_inv D R s L -> table_inv D R s' L.
Proof.
  intros Hs Inv. pose proof (counters_ok_same _ _ Hs (inv_counters _ _ _ _ Inv)) as Hc.
  destruct Hs as (Hsz & Htb & Hhf & _ & Hseed & _ & _ & _ & _ & _ & Hm & Hk & _).
  apply (table_inv_frame D R s); try assumption.
  - intros a _. rewrite Hm. reflexivity.
  - intros a _. rewrite Hk. reflexivity.
  - intros idx _. rewrite Htb. reflexivity.
  - destruct (inv_size _ _ _ _ Inv) as [Hk0 Hsz0]. split; rewrite Hsz; assumption.
Qed.

(** * Linking, flagging and unlinking a node *)

Lemma NoDup_insert_middle (l1 l2 : list Z) (n : Z) :
  List.NoDup (l1 ++ l2) -> ~ In n (l1 ++ l2) -> List.NoDup (l1 ++ n :: l2).
Proof.
  intros Hnd Hn. apply (Permutation_NoDup (l := n :: l1 ++ l2)).
  - apply Permutation_middle.
  - constructor; assumption.
Qed.

Lemma NoDup_remove_middle (l1 l2 : list Z) (x : Z) :
  List.NoDup (l1 ++ x :: l2) -> List.NoDup (l1 ++ l2) /\ ~ In x (l1 ++ l2).
Proof. apply NoDup_remove. Qed.

Lemma in_middle (l1 l2 : list Z) (x a : Z) :
  In a (l1 ++ x :: l2) <-> a = x \/ In a (l1 ++ l2).
Proof.
  rewrite !in_app_iff. cbn [In]. split.
  - intros [H | [H | H]]; auto.
  - intros [H | [H | H]]; auto.
Qed.

(** Linking the node [n] after [ip]: [n] gets the pointer [pn] to the
    successor of [ip], and [ip] the pointer [pip] to [n]. *)
Lemma table_inv_insert D D' R s l1 ip l2 n pn rn pip :
  table_inv D R s (l1 ++ ip :: l2) ->
  ~ In n (l1 ++ ip :: l2) -> aligned n ->
  clear_flag pip = n -> is_dummy pip = is_dummy (nxt s ip) ->
  is_removed pip = is_removed (nxt s ip) ->
  clear_flag pn = clear_flag (nxt s ip) -> is_removed pn = false ->
  0 <= rn < 2 ^ 64 ->
  skey s ip <= 2 * rn + (if is_dummy pn then 0 else 1) ->
  (forall y, In y l2 -> 2 * rn + (if is_dummy pn then 0 else 1) <= skey s y) ->
  ~ R n ->
  (forall idx, D idx -> D' idx) ->
  (is_dummy pn = true -> exists idx, D' idx /\ n = daddr s idx) ->
  (forall idx, D' idx -> D idx \/
     (0 <= idx < 2 ^ 63 /\ is_Some (t_tbl s !! fls_ulong idx) /\
      daddr s idx = n /\ is_dummy pn = true /\ rn = bit_reverse_ulong idx)) ->
  (is_dummy pn = false -> exists k, node_keys s !! n = Some k /\
     rn = bit_reverse_ulong (node_hash_of s k)) ->
  table_inv D' R
    (set_mem (<[ip := mk_node pip (rh s ip)]> (<[n := mk_node pn rn]> (mem s))) s)
    (l1 ++ ip :: n :: l2).
Proof.
  intros Inv Hn Han Hpip Hpipd Hpipr Hpn Hpnr Hrn Hlo Hhi HRn HDD' Hnd' Hbk' Hus'.
  set (s' := set_mem _ s).
  pose proof (inv_nodup _ _ _ _ Inv) as Hnd.
  assert (Hipn : ip <> n).
  { intros <-. apply Hn, in_elt. }
  assert (Hmem_n : mem s' !! n = Some (mk_node pn rn)).
  { unfold s'. cbn. rewrite lookup_insert_ne by exact Hipn. apply lookup_insert_eq. }
  assert (Hmem_ip : mem s' !! ip = Some (mk_node pip (rh s ip))).
  { unfold s'. cbn. apply lookup_insert_eq. }
  assert (Hmem_o : forall a, a <> ip -> a <> n -> mem s' !! a = mem s !! a).
  { intros a H1 H2. unfold s'. cbn. rewrite !lookup_insert_ne by congruence. reflexivity. }
  assert (Hnxt_o : forall a, In a (l1 ++ ip :: l2) -> a <> ip -> nxt s' a = nxt s a).
  { intros a Ha H1. unfold nxt. rewrite Hmem_o; [reflexivity | exact H1 |].
    intros ->. contradiction. }
  assert (Hrh_o : forall a, In a (l1 ++ ip :: l2) -> rh s' a = rh s a).
  { intros a Ha. destruct (Z.eq_dec a ip) as [-> | H1].
    - unfold rh at 1. rewrite Hmem_ip. reflexivity.
    - unfold rh. rewrite Hmem_o; [reflexivity | exact H1 |].
      intros ->. contradiction. }
  assert (Hnxt_ip : nxt s' ip = pip) by (unfold nxt; rewrite Hmem_ip; reflexivity).
  assert (Hnxt_n : nxt s' n = pn) by (unfold nxt; rewrite Hmem_n; reflexivity).
  assert (Hrh_n : rh s' n = rn) by (unfold rh; rewrite Hmem_n; reflexivity).
  assert (Hdum_o : forall a, In a (l1 ++ ip :: l2) ->
            is_dummy (nxt s' a) = is_dummy (nxt s a)).
  { intros a Ha. destruct (Z.eq_dec a ip) as [-> | H1].
    - rewrite Hnxt_ip. exact Hpipd.
    - rewrite Hnxt_o by assumption. reflexivity. }
  assert (Hrem_o : forall a, In a (l1 ++ ip :: l2) ->
            is_removed (nxt s' a) = is_removed (nxt s a)).
  { intros a Ha. destruct (Z.eq_dec a ip) as [-> | H1].
    - rewrite Hnxt_ip. exact Hpipr.
    - rewrite Hnxt_o by assumption. reflexivity. }
  assert (Hskey_o : forall a, In a (l1 ++ ip :: l2) -> skey s' a = skey s a).
  { intros a Ha. unfold skey. rewrite Hrh_o, Hdum_o by assumption. reflexivity. }
  assert (Hskey_n : skey s' n = 2 * rn + (if is_dummy pn then 0 else 1)).
  { unfold skey. rewrite Hrh_n, Hnxt_n. reflexivity. }
  assert (Hin' : forall a, In a (l1 ++ ip :: n :: l2) <->
            a = n \/ In a (l1 ++ ip :: l2)).
  { intros a. replace (l1 ++ ip :: n :: l2) with ((l1 ++ [ip]) ++ n :: l2)
      by (rewrite <- app_assoc; reflexivity).
    rewrite in_middle. rewrite <- app_assoc. reflexivity. }
  assert (Hdaddr : forall idx, daddr s' idx = daddr s idx) by reflexivity.
  destruct (inv_split _ _ _ _ Inv l1 ip l2 eq_refl) as [Hseg1 Hseg2].
  apply NoDup_remove_middle in Hnd as Hnd12. destruct Hnd12 as [Hnd12 Hip12].
  split.
  - destruct (inv_head _ _ _ _ Inv) as [L' E]. rewrite Hdaddr.
    destruct l1 as [| h t]; cbn in E |- *; inversion E; eauto.
  - rewrite Hdaddr. apply lseg_app. exists ip. split.
    + apply (lseg_same (mem s)); [| exact Hseg1].
      intros x Hx. apply Hmem_o.
      * intros ->. apply Hip12, in_or_app. left. exact Hx.
      * intros ->. apply Hn, in_or_app. left. exact Hx.
    + split; [reflexivity |]. eexists. split; [exact Hmem_ip |]. cbn [next].
      rewrite Hpip. split; [reflexivity |]. eexists. split; [exact Hmem_n |].
      cbn [next]. rewrite Hpn. apply (lseg_same (mem s)); [| exact Hseg2].
      intros x Hx. apply Hmem_o.
      * intros ->. apply Hip12, in_or_app. right. exact Hx.
      * intros ->. apply Hn, in_or_app. right. right. exact Hx.
  - replace (l1 ++ ip :: n :: l2) with ((l1 ++ [ip]) ++ n :: l2)
      by (rewrite <- app_assoc; reflexivity).
    apply NoDup_insert_middle; rewrite <- app_assoc; assumption.
  - intros a Ha. apply Hin' in Ha as [-> | Ha]; [exact Han |].
    apply (inv_aligned _ _ _ _ Inv), Ha.
  - intros a Ha. apply Hin' in Ha as [-> | Ha]; [rewrite Hrh_n; exact Hrn |].
    rewrite Hrh_o by exact Ha. apply (inv_rh_range _ _ _ _ Inv), Ha.
  - pose proof (inv_sorted _ _ _ _ Inv) as Hso.
    apply sorted_by_app in Hso as (Hso1 & Hso2 & Hso12).
    destruct Hso2 as [Hip2 Hso2].
    apply sorted_by_app. split; [| split].
    + apply (sorted_by_ext (skey s)); [| exact Hso1].
      intros a Ha. symmetry. apply Hskey_o, in_or_app. left. exact Ha.
    + cbn [sorted_by]. split; [| split].
      * intros b [<- | Hb].
        -- rewrite Hskey_n, Hskey_o by apply in_elt. exact Hlo.
        -- rewrite !Hskey_o by (try apply in_elt; apply in_or_app; right; right; exact Hb).
           apply Hip2, Hb.
      * intros b Hb. rewrite Hskey_n.
        rewrite Hskey_o by (apply in_or_app; right; right; exact Hb).
        apply Hhi, Hb.
      * apply (sorted_by_ext (skey s)); [| exact Hso2].
        intros a Ha. symmetry. apply Hskey_o, in_or_app. right. right. exact Ha.
    + intros a b Ha Hb.
      assert (Hale : skey s a <= skey s ip) by (apply Hso12; [exact Ha | left; reflexivity]).
      rewrite (Hskey_o a) by (apply in_or_app; left; exact Ha).
      destruct Hb as [<- | [<- | Hb]].
      * rewrite Hskey_o by apply in_elt. exact Hale.
      * rewrite Hskey_n. lia.
      * rewrite Hskey_o by (apply in_or_app; right; right; exact Hb).
        apply Hso12; [exact Ha | right; exact Hb].
  - intros a Ha. apply Hin' in Ha as [-> | Ha].
    + rewrite Hnxt_n, Hpnr. split; [discriminate | contradiction].
    + rewrite Hrem_o by exact Ha. apply (inv_removed _ _ _ _ Inv), Ha.
  - intros a Ha Hd. apply Hin' in Ha as [-> | Ha].
    + rewrite Hnxt_n in Hd. apply Hnd', Hd.
    + rewrite Hdum_o in Hd by exact Ha.
      destruct (inv_dummy _ _ _ _ Inv a Ha Hd) as (idx & Hi & E).
      exists idx. split; [apply HDD', Hi | exact E].
  - intros idx Hi. rewrite Hdaddr. destruct (Hbk' idx Hi) as [Hold | Hnew].
    + destruct (inv_bucket _ _ _ _ Inv idx Hold) as (Hr & Hs & Hin & Hdm & Hrv).
      split; [exact Hr |]. split; [exact Hs |]. split; [| split].
      * apply Hin'. right. exact Hin.
      * rewrite Hdum_o by exact Hin. exact Hdm.
      * rewrite Hrh_o by exact Hin. exact Hrv.
    + destruct Hnew as (Hr & Hs & E & Hdm & Hrv). rewrite E.
      split; [exact Hr |]. split; [exact Hs |]. split; [| split].
      * apply Hin'. left. reflexivity.
      * rewrite Hnxt_n. exact Hdm.
      * rewrite Hrh_n. exact Hrv.
  - intros a Ha Hd. apply Hin' in Ha as [-> | Ha].
    + rewrite Hnxt_n in Hd. rewrite Hrh_n. apply Hus', Hd.
    + rewrite Hdum_o in Hd by exact Ha. rewrite Hrh_o by exact Ha.
      apply (inv_user _ _ _ _ Inv a Ha Hd).
  - destruct (inv_size _ _ _ _ Inv) as [Hk Hsz]. split; [exact Hk |].
    intros idx Hi. apply HDD', Hsz, Hi.
  - exact (inv_counters _ _ _ _ Inv).
Qed.

(** Changing the [next] word of one linked node [x] into [p], a pointer to
    the same successor that carries the same dummy flag. *)
Lemma table_inv_retag D R R' s L x p :
  table_inv D R s L -> In x L ->
  clear_flag p = clear_flag (nxt s x) -> is_dummy p = is_dummy (nxt s x) ->
  (forall a, In a L -> a <> x -> (R' a <-> R a)) ->
  (is_removed p = true <-> R' x) ->
  table_inv D R' (set_mem (<[x := mk_node p (rh s x)]> (mem s)) s) L.
Proof.
  intros Inv Hx Hp Hpd HR HRx. set (s' := set_mem _ s).
  assert (Hmem_x : mem s' !! x = Some (mk_node p (rh s x))).
  { unfold s'. cbn. apply lookup_insert_eq. }
  assert (Hmem_o : forall a, a <> x -> mem s' !! a = mem s !! a).
  { intros a H1. unfold s'. cbn. rewrite lookup_insert_ne by congruence. reflexivity. }
  assert (Hnxt_x : nxt s' x = p) by (unfold nxt; rewrite Hmem_x; reflexivity).
  assert (Hnxt_o : forall a, a <> x -> nxt s' a = nxt s a).
  { intros a H1. unfold nxt. rewrite Hmem_o by exact H1. reflexivity. }
  assert (Hrh : forall a, rh s' a = rh s a).
  { intros a. destruct (Z.eq_dec a x) as [-> | H1].
    - unfold rh at 1. rewrite Hmem_x. reflexivity.
    - unfold rh. rewrite Hmem_o by exact H1. reflexivity. }
  assert (Hdum : forall a, is_dummy (nxt s' a) = is_dummy (nxt s a)).
  { intros a. destruct (Z.eq_dec a x) as [-> | H1].
    - rewrite Hnxt_x. exact Hpd.
    - rewrite Hnxt_o by exact H1. reflexivity. }
  assert (Hskey : forall a, skey s' a = skey s a).
  { intros a. unfold skey. rewrite Hrh, Hdum. reflexivity. }
  assert (Hdaddr : forall idx, daddr s' idx = daddr s idx) by reflexivity.
  split.
  - rewrite Hdaddr. exact (inv_head _ _ _ _ Inv).
  - rewrite Hdaddr. apply (lseg_frame (mem s)); [| exact (inv_lseg _ _ _ _ Inv)].
    intros a Ha. destruct (inv_in_mem _ _ _ _ Inv a Ha) as [n Hn].
    destruct (Z.eq_dec a x) as [-> | H1].
    + exists n. eexists. split; [exact Hn |]. split; [exact Hmem_x |].
      cbn [next]. rewrite Hp, (nxt_lookup _ _ _ Hn). reflexivity.
    + exists n, n. rewrite Hmem_o by exact H1. auto.
  - exact (inv_nodup _ _ _ _ Inv).
  - exact (inv_aligned _ _ _ _ Inv).
  - intros a Ha. rewrite Hrh. apply (inv_rh_range _ _ _ _ Inv), Ha.
  - apply (sorted_by_ext (skey s)); [| exact (inv_sorted _ _ _ _ Inv)].
    intros a _. symmetry. apply Hskey.
  - intros a Ha. destruct (Z.eq_dec a x) as [-> | H1].
    + rewrite Hnxt_x. exact HRx.
    + rewrite Hnxt_o by exact H1. rewrite (HR a Ha H1).
      apply (inv_removed _ _ _ _ Inv), Ha.
  - intros a Ha Hd. rewrite Hdum in Hd.
    apply (inv_dummy _ _ _ _ Inv a Ha Hd).
  - intros idx Hi. rewrite Hdaddr, Hdum, Hrh. apply (inv_bucket _ _ _ _ Inv idx Hi).
  - intros a Ha Hd. rewrite Hdum in Hd. rewrite Hrh.
    apply (inv_user _ _ _ _ Inv a Ha Hd).
  - exact (inv_size _ _ _ _ Inv).
  - exact (inv_counters _ _ _ _ Inv).
Qed.

(** Flagging the linked node [x] as removed. *)
Lemma table_inv_flag D R s L x :
  table_inv D R s L -> In x L ->
  table_inv D (fun a => R a \/ a = x)
    (set_mem (<[x := mk_node (flag_removed (nxt s x)) (rh s x)]> (mem s)) s) L.
Proof.
  intros Inv Hx. apply (table_inv_retag D R); try assumption.
  - apply clear_flag_flag_removed.
  - apply is_dummy_flag_removed.
  - intros a _ Hne. split; [intros [H | H]; [exact H | contradiction] | auto].
  - rewrite is_removed_flag_removed. split; auto.
Qed.

(** Unlinking the node [x] that follows [ip]: [ip] gets the pointer [pip] to
    the successor of [x]. *)
Lemma table_inv_unlink D R s l1 ip x l2 pip :
  table_inv D R s (l1 ++ ip :: x :: l2) ->
  clear_flag pip = clear_flag (nxt s x) ->
  is_dummy pip = is_dummy (nxt s ip) ->
  is_removed pip = is_removed (nxt s ip) ->
  (forall idx, 0 <= idx < t_size s -> daddr s idx <> x) ->
  table_inv (fun i => D i /\ daddr s i <> x) (fun a => R a /\ a <> x)
    (set_mem (<[ip := mk_node pip (rh s ip)]> (mem s)) s)
    (l1 ++ ip :: l2).
Proof.
  intros Inv Hpip Hpipd Hpipr Hsz. set (s' := set_mem _ s).
  pose proof (inv_nodup _ _ _ _ Inv) as Hnd.
  replace (l1 ++ ip :: x :: l2) with ((l1 ++ [ip]) ++ x :: l2) in Hnd
    by (rewrite <- app_assoc; reflexivity).
  apply NoDup_remove_middle in Hnd as [Hnd Hx]. rewrite <- app_assoc in Hnd, Hx.
  cbn [app] in Hnd, Hx.
  assert (Hsub : forall a, In a (l1 ++ ip :: l2) -> In a (l1 ++ ip :: x :: l2)).
  { intros a Ha. rewrite in_app_iff in *. cbn [In] in *. tauto. }
  assert (Hxne : forall a, In a (l1 ++ ip :: l2) -> a <> x).
  { intros a Ha ->. contradiction. }
  assert (Hmem_ip : mem s' !! ip = Some (mk_node pip (rh s ip))).
  { unfold s'. cbn. apply lookup_insert_eq. }
  assert (Hmem_o : forall a, a <> ip -> mem s' !! a = mem s !! a).
  { intros a H1. unfold s'. cbn. rewrite lookup_insert_ne by congruence. reflexivity. }
  assert (Hnxt_ip : nxt s' ip = pip) by (unfold nxt; rewrite Hmem_ip; reflexivity).
  assert (Hnxt_o : forall a, a <> ip -> nxt s' a = nxt s a).
  { intros a H1. unfold nxt. rewrite Hmem_o by exact H1. reflexivity. }
  assert (Hrh : forall a, rh s' a = rh s a).
  { intros a. destruct (Z.eq_dec a ip) as [-> | H1].
    - unfold rh at 1. rewrite Hmem_ip. reflexivity.
    - unfold rh. rewrite Hmem_o by exact H1. reflexivity. }
  assert (Hdum : forall a, is_dummy (nxt s' a) = is_dummy (nxt s a)).
  { intros a. destruct (Z.eq_dec a ip) as [-> | H1].
    - rewrite Hnxt_ip. exact Hpipd.
    - rewrite Hnxt_o by exact H1. reflexivity. }
  assert (Hrem : forall a, is_removed (nxt s' a) = is_removed (nxt s a)).
  { intros a. destruct (Z.eq_dec a ip) as [-> | H1].
    - rewrite Hnxt_ip. exact Hpipr.
    - rewrite Hnxt_o by exact H1. reflexivity. }
  assert (Hskey : forall a, skey s' a = skey s a).
  { intros a. unfold skey. rewrite Hrh, Hdum. reflexivity. }
  assert (Hdaddr : forall idx, daddr s' idx = daddr s idx) by reflexivity.
  destruct (inv_split _ _ _ _ Inv l1 ip (x :: l2) eq_refl) as [Hseg1 Hseg2].
  destruct Hseg2 as (Hipx & nx & Hnx & Hseg2).
  apply NoDup_remove_middle in Hnd as Hnd12. destruct Hnd12 as [Hnd12 Hip12].
  split.
  - destruct (inv_head _ _ _ _ Inv) as [L' E]. rewrite Hdaddr.
    destruct l1 as [| h t]; cbn in E |- *; inversion E; eauto.
  - rewrite Hdaddr. apply lseg_app. exists ip. split.
    + apply (lseg_same (mem s)); [| exact Hseg1].
      intros a Ha. apply Hmem_o.
      intros ->. apply Hip12, in_or_app. left. exact Ha.
    + split; [reflexivity |]. eexists. split; [exact Hmem_ip |]. cbn [next].
      rewrite Hpip, (nxt_lookup _ _ _ Hnx).
      apply (lseg_same (mem s)); [| exact Hseg2].
      intros a Ha. apply Hmem_o.
      intros ->. apply Hip12, in_or_app. right. exact Ha.
  - exact Hnd.
  - intros a Ha. apply (inv_aligned _ _ _ _ Inv), Hsub, Ha.
  - intros a Ha. rewrite Hrh. apply (inv_rh_range _ _ _ _ Inv), Hsub, Ha.
  - pose proof (inv_sorted _ _ _ _ Inv) as Hso.
    apply (sorted_by_ext (skey s)); [intros a _; symmetry; apply Hskey |].
    apply sorted_by_app in Hso as (Hso1 & Hso2 & Hso12).
    destruct Hso2 as [Hip2 [Hx2 Hso2]].
    apply sorted_by_app. split; [exact Hso1 | split].
    + split; [| exact Hso2]. intros b Hb. apply Hip2. right. exact Hb.
    + intros a b Ha Hb. apply Hso12; [exact Ha |].
      destruct Hb as [<- | Hb]; [left; reflexivity | right; right; exact Hb].
  - intros a Ha. rewrite Hrem.
    rewrite (inv_removed _ _ _ _ Inv a (Hsub a Ha)).
    pose proof (Hxne a Ha). tauto.
  - intros a Ha Hd. rewrite Hdum in Hd.
    destruct (inv_dummy _ _ _ _ Inv a (Hsub a Ha) Hd) as (idx & Hi & E).
    exists idx. split; [| exact E]. split; [exact Hi |].
    rewrite <- E. apply Hxne, Ha.
  - intros idx [Hi Hne]. rewrite Hdaddr, Hdum, Hrh.
    destruct (inv_bucket _ _ _ _ Inv idx Hi) as (Hr & Hs & Hin & Hdm & Hrv).
    split; [exact Hr |]. split; [exact Hs |]. split; [| split; assumption].
    rewrite in_app_iff in *. cbn [In] in *.
    destruct Hin as [H | [H | [H | H]]]; auto. congruence.
  - intros a Ha Hd. rewrite Hdum in Hd. rewrite Hrh.
    apply (inv_user _ _ _ _ Inv a (Hsub a Ha) Hd).
  - destruct (inv_size _ _ _ _ Inv) as [Hk Hs]. split; [exact Hk |].
    intros idx Hi. split; [apply Hs, Hi | apply Hsz, Hi].
  - exact (inv_counters _ _ _ _ Inv).
Qed.

(** * The traversals, node by node *)

Lemma walk_class_eq_dec (a b : walk_class) : {a = b} + {a <> b}.
Proof. decide equality. Qed.

Lemma walk_split_exists class rest : exists mid tail, walk_split class rest mid tail.
Proof.
  induction rest as [| x rest (mid & tail & E & Hm & Ht)].
  - exists [], []. repeat split. intros x [].
  - destruct (walk_class_eq_dec (class x) W_next) as [Hx | Hx].
    + exists (x :: mid), tail. split; [cbn; rewrite E; reflexivity |].
      split; [| exact Ht]. intros y [<- | Hy]; auto.
    + exists [], (x :: rest). split; [reflexivity |]. split; [intros y [] | exact Hx].
Qed.

Lemma last_cons (x : Z) mid ip : List.last (x :: mid) ip = List.last mid x.
Proof.
  revert x ip. induction mid as [| y mid IH]; intros x ip; [reflexivity |].
  change (List.last (x :: y :: mid) ip) with (List.last (y :: mid) ip).
  rewrite (IH y ip), (IH y x). reflexivity.
Qed.

(** The list split at the node in front of which a traversal stops. *)
Lemma last_split (l1 : list Z) ip mid :
  exists l1', forall tail,
    l1 ++ ip :: mid ++ tail = l1' ++ List.last mid ip :: tail.
Proof.
  revert l1 ip. induction mid as [| x mid IH]; intros l1 ip.
  - exists l1. intros tail. reflexivity.
  - destruct (IH (l1 ++ [ip]) x) as (l1' & E).
    exists l1'. intros tail. rewrite last_cons, <- E, <- app_assoc. reflexivity.
Qed.

(** ** Resize requests leave the table alone *)

Lemma queue_resize_work_same s : same_table s (queue_resize_work s).
Proof.
  unfold queue_resize_work. cbn.
  destruct (negb (ht_in_progress_destroy s =? 0)); repeat split.
Qed.

Lemma cds_lfht_resize_lazy_same s size growth :
  same_table s (cds_lfht_resize_lazy s size growth).
Proof.
  unfold cds_lfht_resize_lazy, resize_target_update, _uatomic_max_resize_target.
  destruct (t_resize_target s >=? shl size growth).
  - destruct ((t_resize_initiated s =? 0) && _); [apply queue_resize_work_same |].
    apply same_table_refl.
  - cbn. destruct ((t_resize_initiated s =? 0) && _).
    + eapply same_table_trans; [| apply queue_resize_work_same]. repeat split.
    + repeat split.
Qed.

Lemma check_resize_same cfg s size chain_len :
  same_table s (check_resize cfg s size chain_len).
Proof.
  unfold check_resize.
  destruct (Z.land _ _ =? 0); [apply same_table_refl |].
  destruct (_ >=? _); [apply same_table_refl |].
  destruct (_ >=? _); [apply cds_lfht_resize_lazy_same | apply same_table_refl].
Qed.

Lemma same_table_up_refl s : same_table_up s s.
Proof. split; [apply same_table_refl | lia]. Qed.

Lemma same_table_up_trans s1 s2 s3 :
  same_table_up s1 s2 -> same_table_up s2 s3 -> same_table_up s1 s3.
Proof.
  intros [H1 L1] [H2 L2]. split; [eapply same_table_trans; eassumption | lia].
Qed.

Lemma check_resize_up cfg s size chain_len :
  same_table_up s (check_resize cfg s size chain_len).
Proof.
  split; [apply check_resize_same |].
  unfold check_resize.
  destruct (Z.land _ _ =? 0); [lia |].
  destruct (_ >=? _); [lia |].
  destruct (_ >=? _); [| lia].
  unfold cds_lfht_resize_lazy, resize_target_update, _uatomic_max_resize_target.
  destruct (Z.geb_spec (t_resize_target s) (shl size (get_count_order_u32 (u32 (chain_len - (CHAIN_LEN_TARGET - 1)))))).
  - destruct ((t_resize_initiated s =? 0) && _); [| lia].
    unfold queue_resize_work. cbn. destruct (negb _); cbn; lia.
  - cbn. destruct (_ && _); [| cbn; lia].
    unfold queue_resize_work. cbn. destruct (negb _); cbn; lia.
Qed.

Lemma same_table_nxt s s' a : same_table s s' -> nxt s' a = nxt s a.
Proof.
  intros H. destruct H as (_ & _ & _ & _ & _ & _ & _ & _ & _ & _ & Hm & _).
  unfold nxt. rewrite Hm. reflexivity.
Qed.

Lemma same_table_mem s s' : same_table s s' -> mem s' = mem s.
Proof. intros H. apply H. Qed.

Lemma same_table_keys s s' : same_table s s' -> node_keys s' = node_keys s.
Proof. intros H. apply H. Qed.

Lemma same_table_cmp s s' : same_table s s' -> ht_compare_fct s' = ht_compare_fct s.
Proof. intros H. apply H. Qed.

Lemma c_assert_true cfg b : b = true -> c_assert cfg b = Ok tt.
Proof. intros ->. unfold c_assert. destruct (NDEBUG cfg); reflexivity. Qed.

Lemma lseg_cons_next s ip y tl :
  lseg (mem s) (clear_flag (nxt s ip)) (y :: tl) 0 -> aligned y ->
  clear_flag (nxt s ip) = y /\ is_end (nxt s ip) = false /\
  mem s !! y = Some (mk_node (nxt s y) (rh s y)) /\
  lseg (mem s) (clear_flag (nxt s y)) tl 0.
Proof.
  intros (E & n & Hn & H) Hy. split; [exact E |]. split.
  - unfold is_end, END_VALUE. rewrite E. apply Z.eqb_neq. destruct Hy. lia.
  - split.
    + rewrite Hn. f_equal. apply mem_lookup_fields, Hn.
    + rewrite (nxt_lookup _ _ _ Hn). exact H.
Qed.

Lemma lseg_nil_end s ip :
  lseg (mem s) (clear_flag (nxt s ip)) [] 0 -> is_end (nxt s ip) = true.
Proof. cbn. intros E. unfold is_end, END_VALUE. rewrite E. reflexivity. Qed.

Section AddWalk.

Variables (cfg : build) (s0 : state) (size node : Z) (mode : add_mode)
  (dummy : bool).
Hypothesis Hnode : mem s0 !! node = Some (mk_node (nxt s0 node) (rh s0 node)).
Hypothesis Hnode_key :
  mode <> ADD_DEFAULT -> is_Some (node_keys s0 !! node).

Lemma compare_nodes_run s y :
  same_table s0 s -> is_Some (node_keys s0 !! node) ->
  is_Some (node_keys s0 !! y) ->
  compare_nodes s node y = Ok (cmp_nodes s0 node y).
Proof.
  intros Hs [ka Ha] [kb Hb]. unfold compare_nodes, cmp_nodes.
  rewrite (same_table_keys _ _ Hs), (same_table_cmp _ _ Hs), Ha, Hb. reflexivity.
Qed.

Lemma add_mode_not_default :
  add_mode_eqb mode ADD_UNIQUE || add_mode_eqb mode ADD_REPLACE = true ->
  mode <> ADD_DEFAULT.
Proof. destruct mode; cbn; congruence. Qed.

Lemma add_walk_run tail : forall mid s ip chain_len fuel,
  same_table_up s0 s ->
  mem s0 !! ip = Some (mk_node (nxt s0 ip) (rh s0 ip)) ->
  lseg (mem s0) (clear_flag (nxt s0 ip)) (mid ++ tail) 0 ->
  (forall x, In x (mid ++ tail) -> aligned x) ->
  (forall x, In x (mid ++ tail) -> is_dummy (nxt s0 x) = false ->
     is_Some (node_keys s0 !! x)) ->
  (forall x, In x mid -> add_class s0 node mode dummy x = W_next) ->
  match tail with
  | [] => True
  | y :: _ => add_class s0 node mode dummy y <> W_next
  end ->
  (length mid < fuel)%nat ->
  exists s',
    add_walk cfg fuel s size node mode dummy chain_len ip (nxt s0 ip) =
      Ok (s', add_exit_of s0 node mode dummy (List.last mid ip) tail) /\
    same_table_up s0 s'.
Proof.
  induction mid as [| x mid IH]; intros s ip chain_len fuel Hs Hip Hseg Hal Hkey Hmid Htail Hfuel.
  - destruct fuel as [| fuel]; [cbn in Hfuel; lia |]. cbn [app] in *.
    cbn [add_walk List.last].
    destruct tail as [| y tl].
    + rewrite (lseg_nil_end _ _ Hseg). exists s. split; [reflexivity | exact Hs].
    + destruct (lseg_cons_next _ _ _ _ Hseg (Hal y (or_introl eq_refl)))
        as (E & Hend & Hy & _).
      rewrite Hend, E, (same_table_mem _ _ (proj1 Hs)), Hy, Hnode. cbn [load bind reverse_hash next].
      unfold add_exit_of. unfold add_class in Htail |- *.
      destruct (rh s0 y >? rh s0 node); [exists s; split; [reflexivity | exact Hs] |].
      destruct (dummy && (rh s0 y =? rh s0 node));
        [exists s; split; [reflexivity | exact Hs] |].
      destruct (is_removed (nxt s0 y)); [exists s; split; [reflexivity | exact Hs] |].
      destruct ((add_mode_eqb mode ADD_UNIQUE || add_mode_eqb mode ADD_REPLACE)
                && negb (is_dummy (nxt s0 y)) && (rh s0 y =? rh s0 node)) eqn:Ec.
      * apply andb_true_iff in Ec as [Ec _]. apply andb_true_iff in Ec as [Em Ed].
        rewrite compare_nodes_run;
          [| exact (proj1 Hs) | apply Hnode_key, add_mode_not_default, Em
           | apply Hkey; [left; reflexivity | destruct (is_dummy (nxt s0 y)); [discriminate | reflexivity]]].
        cbn [bind andb] in *.
        destruct (cmp_nodes s0 node y =? 0); [| contradiction].
        exists s. split; [| exact Hs].
        destruct (add_mode_eqb mode ADD_UNIQUE); reflexivity.
      * cbn [bind andb] in *. contradiction.
  - destruct fuel as [| fuel]; [cbn in Hfuel; lia |]. cbn [app] in *.
    cbn [add_walk].
    destruct (lseg_cons_next _ _ _ _ Hseg (Hal x (or_introl eq_refl)))
      as (E & Hend & Hx & Hseg').
    rewrite Hend, E, (same_table_mem _ _ (proj1 Hs)), Hx, Hnode. cbn [load bind reverse_hash next].
    pose proof (Hmid x (or_introl eq_refl)) as Hcx. unfold add_class in Hcx.
    destruct (rh s0 x >? rh s0 node); [discriminate |].
    destruct (dummy && (rh s0 x =? rh s0 node)); [discriminate |].
    destruct (is_removed (nxt s0 x)); [discriminate |].
    assert (Hrec : forall s1 cl, same_table_up s0 s1 ->
      exists s',
        add_walk cfg fuel s1 size node mode dummy cl x (nxt s0 x) =
          Ok (s', add_exit_of s0 node mode dummy (List.last (x :: mid) ip) tail) /\
        same_table_up s0 s').
    { intros s1 cl Hs1. rewrite last_cons. apply IH; try assumption.
      - intros z Hz. apply Hal. right. exact Hz.
      - intros z Hz. apply Hkey. right. exact Hz.
      - intros z Hz. apply Hmid. right. exact Hz.
      - cbn in Hfuel. lia. }
    destruct ((add_mode_eqb mode ADD_UNIQUE || add_mode_eqb mode ADD_REPLACE)
              && negb (is_dummy (nxt s0 x)) && (rh s0 x =? rh s0 node)) eqn:Ec.
    + apply andb_true_iff in Ec as [Ec _]. apply andb_true_iff in Ec as [Em Ed].
      rewrite compare_nodes_run;
        [| exact (proj1 Hs) | apply Hnode_key, add_mode_not_default, Em
         | apply Hkey; [left; reflexivity | destruct (is_dummy (nxt s0 x)); [discriminate | reflexivity]]].
      cbn [bind andb] in *.
      destruct (cmp_nodes s0 node x =? 0); [discriminate |].
      rewrite Hip. cbn [load bind reverse_hash].
      destruct (negb (rh s0 ip =? rh s0 x) && negb (is_dummy (nxt s0 x))).
      * apply Hrec. eapply same_table_up_trans; [exact Hs | apply check_resize_up].
      * apply Hrec. exact Hs.
    + cbn [bind andb] in *.
      rewrite Hip. cbn [load bind reverse_hash].
      destruct (negb (rh s0 ip =? rh s0 x) && negb (is_dummy (nxt s0 x))).
      * apply Hrec. eapply same_table_up_trans; [exact Hs | apply check_resize_up].
      * apply Hrec. exact Hs.
Qed.

End AddWalk.

Lemma gc_bucket_walk_run s node tail : forall mid ip fuel,
  mem s !! node = Some (mk_node (nxt s node) (rh s node)) ->
  lseg (mem s) (clear_flag (nxt s ip)) (mid ++ tail) 0 ->
  (forall x, In x (mid ++ tail) -> aligned x) ->
  (forall x, In x mid -> gc_class s node x = W_next) ->
  match tail with
  | [] => True
  | y :: _ => gc_class s node y <> W_next
  end ->
  (length mid < fuel)%nat ->
  gc_bucket_walk fuel s node ip (nxt s ip) =
    Ok (gc_exit_of s node (List.last mid ip) tail).
Proof.
  induction mid as [| x mid IH]; intros ip fuel Hnode Hseg Hal Hmid Htail Hfuel.
  - destruct fuel as [| fuel]; [cbn in Hfuel; lia |]. cbn [app] in *.
    cbn [gc_bucket_walk List.last].
    destruct tail as [| y tl].
    + rewrite (lseg_nil_end _ _ Hseg). reflexivity.
    + destruct (lseg_cons_next _ _ _ _ Hseg (Hal y (or_introl eq_refl)))
        as (E & Hend & Hy & _).
      rewrite Hend, E, Hy, Hnode. cbn [load bind reverse_hash next].
      unfold gc_exit_of. unfold gc_class in Htail |- *.
      destruct (rh s y >? rh s node); [reflexivity |].
      destruct (is_removed (nxt s y)); [reflexivity | contradiction].
  - destruct fuel as [| fuel]; [cbn in Hfuel; lia |]. cbn [app] in *.
    cbn [gc_bucket_walk].
    destruct (lseg_cons_next _ _ _ _ Hseg (Hal x (or_introl eq_refl)))
      as (E & Hend & Hx & Hseg').
    rewrite Hend, E, Hx, Hnode. cbn [load bind reverse_hash next].
    pose proof (Hmid x (or_introl eq_refl)) as Hcx. unfold gc_class in Hcx.
    destruct (rh s x >? rh s node); [discriminate |].
    destruct (is_removed (nxt s x)); [discriminate |].
    rewrite last_cons. apply IH; try assumption.
    + intros z Hz. apply Hal. right. exact Hz.
    + intros z Hz. apply Hmid. right. exact Hz.
    + cbn in Hfuel. lia.
Qed.

Lemma cmp_key_run s y key key_len :
  is_Some (node_keys s !! y) ->
  (k <- load (node_keys s !! y);;
   Ok (ht_compare_fct s (fst k) (snd k) key key_len =? 0)) =
  Ok (cmp_key s y key key_len =? 0).
Proof. intros [k Hk]. unfold cmp_key. rewrite Hk. reflexivity. Qed.

Lemma lookup_walk_run s key key_len r tail : forall mid p fuel,
  lseg (mem s) (clear_flag p) (mid ++ tail) 0 ->
  (forall x, In x (mid ++ tail) -> aligned x) ->
  (forall x, In x (mid ++ tail) -> is_dummy (nxt s x) = false ->
     is_Some (node_keys s !! x)) ->
  (forall x, In x mid -> lookup_class s key key_len r x = W_next) ->
  match tail with
  | [] => True
  | y :: _ => lookup_class s key key_len r y <> W_next
  end ->
  (length mid < fuel)%nat ->
  lookup_walk fuel s key key_len r (clear_flag p) =
    Ok (lookup_result_of s key key_len r tail).
Proof.
  induction mid as [| x mid IH]; intros p fuel Hseg Hal Hkey Hmid Htail Hfuel.
  - destruct fuel as [| fuel]; [cbn in Hfuel; lia |]. cbn [app] in *.
    cbn [lookup_walk].
    destruct tail as [| y tl].
    + cbn in Hseg. rewrite Hseg. reflexivity.
    + destruct Hseg as (E & n & Hn & _).
      pose proof (Hal y (or_introl eq_refl)) as Hy.
      rewrite E, (is_end_aligned y Hy), Hn. cbn [load bind].
      unfold lookup_result_of. unfold lookup_class in Htail |- *.
      rewrite (rh_lookup _ _ _ Hn), (nxt_lookup _ _ _ Hn) in *.
      destruct (reverse_hash n >? r); [reflexivity |].
      rewrite (clear_flag_aligned y Hy), Hn. cbn [load bind].
      destruct (negb (is_removed (next n)) && negb (is_dummy (next n))) eqn:Ec;
        cbn [andb bind] in *; [| contradiction].
      destruct (reverse_hash n =? r); cbn [andb bind] in *; [| contradiction].
      rewrite cmp_key_run.
      * cbn [bind]. destruct (cmp_key s y key key_len =? 0); [reflexivity | contradiction].
      * apply Hkey; [left; reflexivity |]. rewrite (nxt_lookup _ _ _ Hn).
        apply andb_true_iff in Ec as [_ Ec]. destruct (is_dummy (next n)); [discriminate | reflexivity].
  - destruct fuel as [| fuel]; [cbn in Hfuel; lia |]. cbn [app] in *.
    cbn [lookup_walk].
    destruct Hseg as (E & n & Hn & Hseg).
    pose proof (Hal x (or_introl eq_refl)) as Hx.
    rewrite E, (is_end_aligned x Hx), Hn. cbn [load bind].
    pose proof (Hmid x (or_introl eq_refl)) as Hcx. unfold lookup_class in Hcx.
    rewrite (rh_lookup _ _ _ Hn), (nxt_lookup _ _ _ Hn) in Hcx.
    destruct (reverse_hash n >? r); [discriminate |].
    rewrite (clear_flag_aligned x Hx), Hn. cbn [load bind].
    assert (Hrec : lookup_walk fuel s key key_len r (clear_flag (next n)) =
                   Ok (lookup_result_of s key key_len r tail)).
    { apply IH; try assumption.
      - intros z Hz. apply Hal. right. exact Hz.
      - intros z Hz. apply Hkey. right. exact Hz.
      - intros z Hz. apply Hmid. right. exact Hz.
      - cbn in Hfuel. lia. }
    destruct (negb (is_removed (next n)) && negb (is_dummy (next n))) eqn:Ec;
      cbn [andb bind] in *; [| exact Hrec].
    destruct (reverse_hash n =? r); cbn [andb bind] in *; [| exact Hrec].
    rewrite cmp_key_run.
    + cbn [bind]. destruct (cmp_key s x key key_len =? 0); [discriminate | exact Hrec].
    + apply Hkey; [left; reflexivity |]. rewrite (nxt_lookup _ _ _ Hn).
      apply andb_true_iff in Ec as [_ Ec]. destruct (is_dummy (next n)); [discriminate | reflexivity].
Qed.

(** * The operations on a well-formed table *)

Lemma attrs_eq_refl s a : attrs_eq s s a.
Proof. unfold attrs_eq. tauto. Qed.

Lemma attrs_eq_trans s1 s2 s3 a :
  attrs_eq s1 s2 a -> attrs_eq s2 s3 a -> attrs_eq s1 s3 a.
Proof.
  intros (A1 & A2 & A3 & A4 & A5) (B1 & B2 & B3 & B4 & B5).
  unfold attrs_eq. rewrite B5, A5. repeat split; congruence.
Qed.

Lemma same_nodes_refl P s : same_nodes P s s.
Proof.
  unfold same_nodes. do 6 (split; [reflexivity |]). intros a _. apply attrs_eq_refl.
Qed.

Lemma same_nodes_trans (P Q : Z -> Prop) s1 s2 s3 :
  (forall a, Q a -> P a) ->
  same_nodes P s1 s2 -> same_nodes Q s2 s3 -> same_nodes Q s1 s3.
Proof.
  intros HQP (A1 & A2 & A3 & A4 & A5 & A6 & A7) (B1 & B2 & B3 & B4 & B5 & B6 & B7).
  unfold same_nodes. do 6 (split; [congruence |]).
  intros a Ha. eapply attrs_eq_trans; [apply A7, HQP, Ha | apply B7, Ha].
Qed.

Lemma same_nodes_weaken (P Q : Z -> Prop) s s' :
  (forall a, Q a -> P a) -> same_nodes P s s' -> same_nodes Q s s'.
Proof.
  intros HQP (A1 & A2 & A3 & A4 & A5 & A6 & A7).
  unfold same_nodes. do 6 (split; [assumption |]).
  intros a Ha. apply A7, HQP, Ha.
Qed.

Lemma same_table_same_nodes P s s' : same_table s s' -> same_nodes P s s'.
Proof.
  intros H. pose proof (same_table_mem _ _ H) as Hm.
  pose proof (same_table_keys _ _ H) as Hk.
  destruct H as (H1 & H2 & H3 & H4 & H5 & H6 & _).
  unfold same_nodes. do 6 (split; [assumption |]).
  intros a _. unfold attrs_eq, rh, nxt. rewrite Hm, Hk. repeat split; auto.
Qed.

(** A store outside [P] keeps the attributes of the nodes of [P]. *)
Lemma same_nodes_set_mem (P : Z -> Prop) s m :
  (forall a, P a -> m !! a = mem s !! a) -> same_nodes P s (set_mem m s).
Proof.
  intros H. unfold same_nodes. do 6 (split; [reflexivity |]).
  intros a Ha. unfold attrs_eq, rh, nxt. cbn. rewrite (H a Ha). repeat split; auto.
Qed.

Lemma size_mask_ulong k : 0 <= k < 64 -> ulong (2 ^ k - 1) = 2 ^ k - 1.
Proof. apply size_mask. Qed.

(** [lookup_bucket] on a table whose buckets below [2^k] are linked. *)
Lemma lookup_bucket_run cfg D R s L k h :
  table_inv D R s L -> 0 <= k < 64 ->
  (forall idx, 0 <= idx < 2 ^ k -> D idx) ->
  lookup_bucket cfg s (2 ^ k) h = Ok (daddr s (h mod 2 ^ k)) /\
  D (h mod 2 ^ k).
Proof.
  intros Inv Hk HD. pose proof (pow2_lt_64 k Hk) as Hp.
  assert (Hidx : 0 <= h mod 2 ^ k < 2 ^ k) by (apply Z.mod_pos_bound; lia).
  split; [| apply HD, Hidx].
  unfold lookup_bucket. rewrite c_assert_true by (apply Z.gtb_lt; lia).
  cbn [bind]. rewrite bucket_index_mod by lia.
  destruct (inv_bucket _ _ _ _ Inv _ (HD _ Hidx)) as (_ & [level Hl] & _).
  rewrite Hl. cbn [load bind]. unfold daddr. rewrite Hl. reflexivity.
Qed.

Lemma store_next_run s a v :
  is_Some (mem s !! a) ->
  store_next a v s = Ok (set_mem (<[a := mk_node v (rh s a)]> (mem s)) s).
Proof.
  intros [n Hn]. unfold store_next. rewrite Hn. cbn [load bind].
  rewrite (rh_lookup _ _ _ Hn). reflexivity.
Qed.

Lemma store_reverse_hash_run s a v :
  is_Some (mem s !! a) ->
  store_reverse_hash a v s = Ok (set_mem (<[a := mk_node (nxt s a) v]> (mem s)) s).
Proof.
  intros [n Hn]. unfold store_reverse_hash. rewrite Hn. cbn [load bind].
  rewrite (nxt_lookup _ _ _ Hn). reflexivity.
Qed.

(** A compare-and-swap that meets the value it expects. *)
Lemma uatomic_cmpxchg_next_hit s a v :
  is_Some (mem s !! a) ->
  uatomic_cmpxchg_next a (nxt s a) v s =
    Ok (set_mem (<[a := mk_node v (rh s a)]> (mem s)) s, nxt s a).
Proof.
  intros Ha. pose proof Ha as [n Hn]. unfold uatomic_cmpxchg_next.
  rewrite Hn. cbn [load bind]. rewrite <- (nxt_lookup _ _ _ Hn), Z.eqb_refl.
  rewrite store_next_run by exact Ha. reflexivity.
Qed.

Lemma uatomic_cmpxchg_next_hit_eq s a old v :
  is_Some (mem s !! a) -> nxt s a = old ->
  uatomic_cmpxchg_next a old v s =
    Ok (set_mem (<[a := mk_node v (rh s a)]> (mem s)) s, old).
Proof. intros Ha <-. apply uatomic_cmpxchg_next_hit, Ha. Qed.

Lemma uatomic_cmpxchg_next_miss s a old v :
  is_Some (mem s !! a) -> nxt s a <> old ->
  uatomic_cmpxchg_next a old v s = Ok (s, nxt s a).
Proof.
  intros [n Hn] Hne. unfold uatomic_cmpxchg_next.
  rewrite Hn. cbn [load bind]. rewrite <- (nxt_lookup _ _ _ Hn).
  rewrite (proj2 (Z.eqb_neq _ _) Hne). reflexivity.
Qed.

(** ** Bucket garbage collection *)

Lemma length_pos_middle (l1 l2 : list Z) x : (0 < length (l1 ++ x :: l2))%nat.
Proof. rewrite length_app. cbn. lia. Qed.

(** The pointer that replaces the one to an unlinked node. *)
Lemma unlink_pointer it nx :
  is_removed it = false ->
  let p := if is_dummy it then flag_dummy (clear_flag nx) else clear_flag nx in
  clear_flag p = clear_flag nx /\ is_dummy p = is_dummy it /\
  is_removed p = is_removed it.
Proof.
  intros Hr. destruct (is_dummy it) eqn:Ed; cbn zeta.
  - rewrite clear_flag_flag_dummy, clear_flag_idem, is_dummy_flag_dummy,
      is_removed_flag_dummy, is_removed_clear_flag. auto.
  - rewrite clear_flag_idem, is_dummy_clear_flag, is_removed_clear_flag. auto.
Qed.

(** On a list without flagged node, the collection changes nothing. *)
Lemma gc_bucket_retry_clean cfg D s l1 d rest node n fuel :
  table_inv D (fun _ => False) s (l1 ++ d :: rest) ->
  is_Some (mem s !! node) -> aligned node ->
  (NDEBUG cfg = false -> rh s d <= rh s node /\ d <> node) ->
  (length rest < fuel)%nat ->
  gc_bucket_retry cfg (S n) fuel s d node = Ok s.
Proof.
  intros Inv [nn Hnn] Han Hdn Hfuel. cbn [gc_bucket_retry].
  assert (Hd : In d (l1 ++ d :: rest)) by apply in_elt.
  rewrite (inv_node _ _ _ _ Inv d Hd), Hnn. cbn [load bind reverse_hash next].
  rewrite <- (rh_lookup _ _ _ Hnn).
  assert (Ha1 : c_assert cfg (rh s d <=? rh s node) = Ok tt).
  { unfold c_assert. destruct (NDEBUG cfg) eqn:E; [reflexivity |].
    destruct (Hdn eq_refl) as [H _]. rewrite (proj2 (Z.leb_le _ _) H). reflexivity. }
  assert (Ha2 : c_assert cfg (negb (d =? node)) = Ok tt).
  { unfold c_assert. destruct (NDEBUG cfg) eqn:E; [reflexivity |].
    destruct (Hdn eq_refl) as [_ H]. rewrite (proj2 (Z.eqb_neq _ _) H). reflexivity. }
  rewrite Ha1, Ha2. cbn [bind].
  destruct (walk_split_exists (gc_class s node) rest) as (mid & tail & E & Hmid & Htail).
  destruct (inv_split _ _ _ _ Inv l1 d rest eq_refl) as [_ Hseg].
  rewrite E in Hseg.
  rewrite (gc_bucket_walk_run s node tail mid d fuel).
  - cbn [bind]. unfold gc_exit_of. destruct tail as [| y tl]; [reflexivity |].
    unfold gc_class in *. destruct (rh s y >? rh s node); [reflexivity |].
    destruct (is_removed (nxt s y)) eqn:Er; [| reflexivity].
    apply (inv_removed _ _ _ _ Inv) in Er; [destruct Er |].
    rewrite E. apply in_or_app. right. right. apply in_or_app. right. left. reflexivity.
  - rewrite Hnn. f_equal. apply mem_lookup_fields, Hnn.
  - exact Hseg.
  - intros x Hx. apply (inv_aligned _ _ _ _ Inv). rewrite E.
    apply in_or_app. right. right. exact Hx.
  - exact Hmid.
  - exact Htail.
  - rewrite E, length_app in Hfuel. lia.
Qed.

(** With the node [x] flagged, and reachable from the bucket's dummy node
    [d] through nodes that the bound [node] lets pass, the collection unlinks
    [x] and nothing else. *)
Lemma gc_bucket_unlink cfg D s l1 d mid x l2 node fuel :
  table_inv D (fun a => a = x) s (l1 ++ d :: mid ++ x :: l2) ->
  (forall y, In y mid -> rh s y <= rh s node) ->
  rh s x <= rh s node -> rh s d <= rh s node ->
  is_Some (mem s !! node) -> aligned node -> d <> node ->
  (forall idx, 0 <= idx < t_size s -> daddr s idx <> x) ->
  (length (l1 ++ d :: mid ++ x :: l2) < fuel)%nat ->
  exists s',
    _cds_lfht_gc_bucket cfg fuel s d node = Ok s' /\
    table_inv (fun i => D i /\ daddr s i <> x) (fun _ => False) s'
      (l1 ++ d :: mid ++ l2) /\
    same_nodes (fun _ => True) s s' /\
    same_table (set_mem (mem s) s') s /\
    (forall a, a <> List.last mid d -> mem s' !! a = mem s !! a) /\
    s' = set_mem (mem s') s.
Proof.
  intros Inv Hmid Hx Hd [nn Hnn] Han Hdn Hsz Hfuel.
  set (L := l1 ++ d :: mid ++ x :: l2) in *.
  assert (Hind : In d L) by apply in_elt.
  assert (Hinx : In x L).
  { unfold L. apply in_or_app. right. right. apply in_elt. }
  assert (Hinmid : forall y, In y mid -> In y L).
  { intros y Hy. unfold L. apply in_or_app. right. right. apply in_or_app. left. exact Hy. }
  assert (Hxflag : is_removed (nxt s x) = true).
  { apply (inv_removed _ _ _ _ Inv); [exact Hinx | reflexivity]. }
  assert (Hnoflag : forall y, In y L -> y <> x -> is_removed (nxt s y) = false).
  { intros y Hy Hne. destruct (is_removed (nxt s y)) eqn:E; [| reflexivity].
    apply (inv_removed _ _ _ _ Inv) in E; [contradiction | exact Hy]. }
  pose proof (inv_nodup _ _ _ _ Inv) as Hnd. unfold L in Hnd.
  assert (Hmidx : forall y, In y mid -> y <> x).
  { intros y Hy ->. rewrite app_comm_cons, app_assoc in Hnd.
    apply NoDup_remove_2 in Hnd. apply Hnd. apply in_or_app. left.
    apply in_or_app. right. right. exact Hy. }
  assert (Hdx : d <> x).
  { intros ->. apply NoDup_remove_2 in Hnd. apply Hnd.
    apply in_or_app. right. apply in_elt. }
  unfold _cds_lfht_gc_bucket.
  rewrite !c_assert_true by
    (rewrite ?is_dummy_aligned, ?is_removed_aligned;
     [reflexivity | try exact Han; apply (inv_aligned _ _ _ _ Inv), Hind ..]).
  cbn [bind].
  destruct fuel as [| fuel']; [cbn in Hfuel; lia |].
  set (fuel := S fuel') in *.
  change (gc_bucket_retry cfg fuel fuel s d node) with
    (gc_bucket_retry cfg (S fuel') fuel s d node).
  cbn [gc_bucket_retry].
  rewrite (inv_node _ _ _ _ Inv d Hind), Hnn. cbn [load bind reverse_hash next].
  rewrite <- (rh_lookup _ _ _ Hnn).
  rewrite !c_assert_true by
    (first [apply Z.leb_le; exact Hd | apply negb_true_iff, Z.eqb_neq; exact Hdn]).
  cbn [bind].
  destruct (inv_split _ _ _ _ Inv l1 d (mid ++ x :: l2) eq_refl) as [_ Hseg].
  assert (Hclx : gc_class s node x = W_gc).
  { unfold gc_class. rewrite Z.gtb_ltb, (proj2 (Z.ltb_ge _ _) Hx).
    rewrite Hxflag. reflexivity. }
  rewrite (gc_bucket_walk_run s node (x :: l2) mid d fuel).
  2: { rewrite Hnn. f_equal. apply mem_lookup_fields, Hnn. }
  2: exact Hseg.
  2: { intros y Hy. apply (inv_aligned _ _ _ _ Inv). unfold L.
       apply in_or_app. right. right. exact Hy. }
  2: { intros y Hy. unfold gc_class.
       rewrite Z.gtb_ltb, (proj2 (Z.ltb_ge _ _) (Hmid y Hy)).
       rewrite (Hnoflag y (Hinmid y Hy) (Hmidx y Hy)). reflexivity. }
  2: { rewrite Hclx. discriminate. }
  2: { unfold L in Hfuel. rewrite length_app in Hfuel. cbn in Hfuel.
       rewrite length_app in Hfuel. unfold fuel. lia. }
  cbn [bind]. unfold gc_exit_of. rewrite Hclx.
  set (ip := List.last mid d).
  destruct (last_split l1 d mid) as (l1' & Hsplit).
  assert (HL : L = l1' ++ ip :: x :: l2) by apply Hsplit.
  assert (Hinip : In ip L) by (rewrite HL; apply in_elt).
  assert (Hipx : ip <> x).
  { intros E. pose proof (inv_nodup _ _ _ _ Inv) as Hnd2. rewrite HL, E in Hnd2.
    apply NoDup_remove_2 in Hnd2. apply Hnd2, in_or_app. right. left. reflexivity. }
  pose proof (Hnoflag ip Hinip Hipx) as Hipflag.
  rewrite c_assert_true by (rewrite Hipflag; reflexivity). cbn [bind].
  rewrite Hipflag.
  destruct (unlink_pointer (nxt s ip) (nxt s x) Hipflag) as (Hp1 & Hp2 & Hp3).
  set (pip := if is_dummy (nxt s ip) then flag_dummy (clear_flag (nxt s x))
              else clear_flag (nxt s x)) in *.
  rewrite uatomic_cmpxchg_next_hit by (apply (inv_in_mem _ _ _ _ Inv), Hinip).
  cbn [bind fst].
  set (s1 := set_mem (<[ip := mk_node pip (rh s ip)]> (mem s)) s).
  assert (Inv1 : table_inv (fun i => D i /\ daddr s i <> x) (fun a => a = x /\ a <> x)
                   s1 (l1' ++ ip :: l2)).
  { apply table_inv_unlink; try assumption. rewrite <- HL. exact Inv. }
  assert (Inv1' : table_inv (fun i => D i /\ daddr s i <> x) (fun _ => False)
                   s1 (l1 ++ d :: mid ++ l2)).
  { rewrite (Hsplit l2).
    apply (table_inv_ext _ _ _ _ _ _ (fun i => iff_refl _)
             (fun a => conj (fun H : a = x /\ a <> x => proj2 H (proj1 H))
                            (fun H : False => False_ind _ H)) Inv1). }
  assert (Hsame : same_nodes (fun _ => True) s s1).
  { unfold same_nodes. do 6 (split; [reflexivity |]). intros a _.
    unfold attrs_eq, rh, nxt, s1. cbn.
    destruct (Z.eq_dec a ip) as [-> | Hne].
    - rewrite lookup_insert_eq. cbn.
      destruct (inv_in_mem _ _ _ _ Inv ip Hinip) as [nip Hnip].
      fold (nxt s ip). fold (rh s ip). rewrite Hnip.
      repeat split; eauto.
    - rewrite lookup_insert_ne by congruence. repeat split; auto. }
  exists s1. split; [| split; [exact Inv1' | split; [exact Hsame | split; [repeat split |]]]].
  2: { split; [| reflexivity]. intros a Ha. unfold s1. cbn. fold ip in Ha.
       rewrite lookup_insert_ne by congruence. reflexivity. }
  destruct fuel' as [| fuel'']; [unfold L, fuel in Hfuel; rewrite length_app in Hfuel; cbn in Hfuel; lia |].
  apply (gc_bucket_retry_clean cfg _ s1 l1 d (mid ++ l2) node fuel'' fuel Inv1').
  - unfold s1. cbn. destruct (Z.eq_dec node ip) as [-> | Hne].
    + rewrite lookup_insert_eq. eauto.
    + rewrite lookup_insert_ne by congruence. eauto.
  - exact Han.
  - intros _. destruct Hsame as (_ & _ & _ & _ & _ & _ & Hat).
    destruct (Hat d I) as (-> & _). destruct (Hat node I) as (-> & _). auto.
  - unfold L, fuel in Hfuel. rewrite !length_app in *. cbn in *.
    rewrite !length_app in *. cbn in *. lia.
Qed.

(** ** Delete *)

Lemma split_two (f : Z -> Z) (L : list Z) d x :
  sorted_by f L -> In d L -> In x L -> f d < f x ->
  exists l1 mid l2, L = l1 ++ d :: mid ++ x :: l2.
Proof.
  intros Hs Hd Hx Hlt. apply in_split in Hd as (l1 & rest & ->).
  apply (sorted_by_before f l1 d rest x Hs) in Hx; [| exact Hlt].
  apply in_split in Hx as (mid & l2 & ->). exists l1, mid, l2. reflexivity.
Qed.

Lemma sorted_by_middle_le f l1 d mid x l2 y :
  sorted_by f (l1 ++ d :: mid ++ x :: l2) -> In y (d :: mid) -> f y <= f x.
Proof.
  intros Hs Hy. rewrite app_comm_cons, app_assoc in Hs.
  apply sorted_by_app in Hs as (_ & _ & H). apply H.
  - apply in_or_app. right. exact Hy.
  - left. reflexivity.
Qed.

Lemma del_run cfg D s L x k dummy_removal fuel :
  table_inv D (fun _ => False) s L -> In x L ->
  is_dummy (nxt s x) = dummy_removal ->
  0 <= k < 64 -> (forall idx, 0 <= idx < 2 ^ k -> D idx) ->
  skey s (daddr s (bit_reverse_ulong (rh s x) mod 2 ^ k)) < skey s x ->
  (forall idx, 0 <= idx < t_size s -> daddr s idx <> x) ->
  (length L < fuel)%nat ->
  exists s' l1 l2,
    _cds_lfht_del cfg fuel s (2 ^ k) x dummy_removal = Ok (s', 0) /\
    L = l1 ++ x :: l2 /\
    table_inv (fun i => D i /\ daddr s i <> x) (fun _ => False) s' (l1 ++ l2) /\
    same_nodes (fun a => a <> x) s s' /\
    is_removed (nxt s' x) = true /\ rh s' x = rh s x /\
    is_dummy (nxt s' x) = is_dummy (nxt s x) /\
    node_keys s' = node_keys s /\
    (forall a, is_Some (mem s' !! a) <-> is_Some (mem s !! a)) /\
    same_table (set_mem (mem s) s') s /\
    s' = set_mem (mem s') s.
Proof.
  intros Inv Hx Hdr Hk HD Hlt Hsz Hfuel.
  pose proof (inv_aligned _ _ _ _ Inv x Hx) as Hax.
  assert (Hx0 : x <> 0) by (destruct Hax; lia).
  assert (Hxflag : is_removed (nxt s x) = false).
  { destruct (is_removed (nxt s x)) eqn:E; [| reflexivity].
    apply (inv_removed _ _ _ _ Inv) in E; [destruct E | exact Hx]. }
  unfold _cds_lfht_del. rewrite (proj2 (Z.eqb_neq _ _) Hx0).
  rewrite !c_assert_true by
    (rewrite ?is_dummy_aligned, ?is_removed_aligned by exact Hax; reflexivity).
  cbn [bind]. rewrite (inv_node _ _ _ _ Inv x Hx). cbn [load bind next].
  destruct fuel as [| fuel']; [cbn in Hfuel; lia |]. set (fuel := S fuel') in *.
  change (del_retry cfg fuel s x dummy_removal (nxt s x)) with
    (del_retry cfg (S fuel') s x dummy_removal (nxt s x)).
  cbn [del_retry]. rewrite Hxflag.
  rewrite c_assert_true by (rewrite Hdr; apply eqb_reflx). cbn [bind].
  rewrite uatomic_cmpxchg_next_hit by (apply (inv_in_mem _ _ _ _ Inv), Hx).
  cbn [bind]. rewrite Z.eqb_refl. cbn [negb bind].
  set (s1 := set_mem (<[x := mk_node (flag_removed (nxt s x)) (rh s x)]> (mem s)) s).
  assert (Inv1 : table_inv D (fun a => a = x) s1 L).
  { apply (table_inv_ext D D (fun a => False \/ a = x)); [reflexivity | tauto |].
    apply table_inv_flag; assumption. }
  assert (Hrh1 : forall a, rh s1 a = rh s a).
  { intros a. destruct (Z.eq_dec a x) as [-> | Hne].
    - unfold rh at 1. unfold s1. cbn. rewrite lookup_insert_eq. reflexivity.
    - unfold rh, s1. cbn. rewrite lookup_insert_ne by congruence. reflexivity. }
  assert (Hnx1 : nxt s1 x = flag_removed (nxt s x)).
  { unfold nxt at 1, s1. cbn. rewrite lookup_insert_eq. reflexivity. }
  assert (Hnxo : forall a, a <> x -> nxt s1 a = nxt s a).
  { intros a Hne. unfold nxt, s1. cbn. rewrite lookup_insert_ne by congruence. reflexivity. }
  assert (Hdum1 : forall a, is_dummy (nxt s1 a) = is_dummy (nxt s a)).
  { intros a. destruct (Z.eq_dec a x) as [-> | Hne].
    - rewrite Hnx1. apply is_dummy_flag_removed.
    - rewrite Hnxo by exact Hne. reflexivity. }
  assert (Hskey1 : forall a, skey s1 a = skey s a).
  { intros a. unfold skey. rewrite Hrh1, Hdum1. reflexivity. }
  rewrite (inv_node _ _ _ _ Inv1 x Hx). cbn [load bind reverse_hash].
  destruct (lookup_bucket_run cfg _ _ _ _ k (bit_reverse_ulong (rh s1 x)) Inv1 Hk HD)
    as [Hlb HDd].
  rewrite Hlb. cbn [bind]. rewrite Hrh1 in *.
  set (d := daddr s1 (bit_reverse_ulong (rh s x) mod 2 ^ k)) in *.
  assert (Hdeq : d = daddr s (bit_reverse_ulong (rh s x) mod 2 ^ k)) by reflexivity.
  rewrite <- Hdeq in Hlt.
  destruct (inv_bucket _ _ _ _ Inv1 _ HDd) as (_ & _ & Hind & _).
  fold d in Hind.
  destruct (split_two (skey s1) L d x (inv_sorted _ _ _ _ Inv1) Hind Hx)
    as (l1 & mid & l2 & HL); [rewrite !Hskey1; exact Hlt |].
  subst L.
  assert (Hle : forall y, In y (d :: mid) -> rh s1 y <= rh s1 x).
  { intros y Hy. apply skey_le_rh.
    apply (sorted_by_middle_le _ _ _ _ _ _ _ (inv_sorted _ _ _ _ Inv1) Hy). }
  assert (Hdx : d <> x).
  { intros E. rewrite E in Hlt. lia. }
  assert (Hmidle : forall y, In y mid -> rh s1 y <= rh s1 x).
  { intros y Hy. apply Hle. right. exact Hy. }
  assert (Hdle : rh s1 d <= rh s1 x) by (apply Hle; left; reflexivity).
  assert (Hxm : is_Some (mem s1 !! x)) by (apply (inv_in_mem _ _ _ _ Inv1), Hx).
  destruct (gc_bucket_unlink cfg D s1 l1 d mid x l2 x fuel Inv1 Hmidle
              (Z.le_refl _) Hdle Hxm Hax Hdx Hsz Hfuel)
    as (s2 & Hgc & Inv2 & Hsame & Hst & _ & Heq).
  - rewrite Hgc. cbn [bind].
    destruct Hsame as (E1 & E2 & E3 & E4 & E5 & E6 & Hat).
    assert (Hx2 : is_removed (nxt s2 x) = true).
    { destruct (Hat x I) as (_ & _ & -> & _). rewrite Hnx1. apply is_removed_flag_removed. }
    assert (Hm2 : is_Some (mem s2 !! x)).
    { destruct (Hat x I) as (_ & _ & _ & _ & ->). apply (inv_in_mem _ _ _ _ Inv1), Hx. }
    destruct Hm2 as [n2 Hn2]. rewrite Hn2. cbn [load bind].
    rewrite <- (nxt_lookup _ _ _ Hn2), Hx2.
    rewrite c_assert_true by reflexivity. cbn [bind].
    exists s2, (l1 ++ d :: mid), l2.
    split; [reflexivity |]. split; [rewrite <- app_assoc; reflexivity |].
    split; [rewrite <- app_assoc; exact Inv2 |].
    split; [| split; [exact Hx2 |]].
    + unfold same_nodes. do 6 (split; [assumption |]). intros a Hne.
      destruct (Hat a I) as (A1 & A2 & A3 & A4 & A5). unfold attrs_eq.
      rewrite A1, A2, A3, A4, A5, Hrh1, Hdum1, (Hnxo a Hne).
      repeat split; auto; unfold s1; cbn; rewrite lookup_insert_ne by congruence; auto.
    + destruct (Hat x I) as (A1 & A2 & A3 & A4 & A5).
      split; [rewrite A1; apply Hrh1 |]. split; [rewrite A2; apply Hdum1 |].
      split; [| split].
      * destruct Hst as (_ & _ & _ & _ & _ & _ & _ & _ & _ & _ & _ & Hk2 & _).
        symmetry. exact Hk2.
      * intros a. destruct (Hat a I) as (_ & _ & _ & _ & ->). unfold s1. cbn.
        destruct (Z.eq_dec a x) as [-> | Hne].
        -- rewrite lookup_insert_eq. split; [intros _ | eauto].
           apply (inv_in_mem _ _ _ _ Inv), Hx.
        -- rewrite lookup_insert_ne by congruence. reflexivity.
      * split; [| rewrite Heq at 1; reflexivity].
        destruct Hst as (F1 & F2 & F3 & F4 & F5 & F6 & F7 & F8 & F9 & F10 & F11 & F12 & F13 & F14).
        unfold same_table. cbn in *. repeat split; assumption.
Qed.

(** ** Add *)

Lemma same_table_rh s s' a : same_table s s' -> rh s' a = rh s a.
Proof. intros H. unfold rh. rewrite (same_table_mem _ _ H). reflexivity. Qed.

Lemma same_table_skey s s' a : same_table s s' -> skey s' a = skey s a.
Proof.
  intros H. unfold skey. rewrite (same_table_rh _ _ _ H), (same_table_nxt _ _ _ H).
  reflexivity.
Qed.

Lemma same_table_daddr s s' idx : same_table s s' -> daddr s' idx = daddr s idx.
Proof.
  intros H. unfold daddr. destruct H as (_ & -> & _). reflexivity.
Qed.

Lemma same_table_hash s s' kk : same_table s s' -> node_hash_of s' kk = node_hash_of s kk.
Proof.
  intros H. unfold node_hash_of. destruct H as (_ & _ & -> & _ & -> & _). reflexivity.
Qed.

(** The pointers written when a node is linked. *)
Lemma insert_pointers it node (dummy : bool) :
  aligned node -> is_removed it = false ->
  let pn := if dummy then flag_dummy (clear_flag it) else clear_flag it in
  let pip := if is_dummy it then flag_dummy node else node in
  clear_flag pip = node /\ is_dummy pip = is_dummy it /\ is_removed pip = is_removed it /\
  clear_flag pn = clear_flag it /\ is_removed pn = false /\ is_dummy pn = dummy.
Proof.
  intros Hn Hr. cbn zeta. rewrite Hr.
  split; [| split; [| split; [| split; [| split]]]].
  - destruct (is_dummy it); rewrite ?clear_flag_flag_dummy; apply clear_flag_aligned, Hn.
  - destruct (is_dummy it); [apply is_dummy_flag_dummy | apply is_dummy_aligned, Hn].
  - destruct (is_dummy it); rewrite ?is_removed_flag_dummy; apply is_removed_aligned, Hn.
  - destruct dummy; rewrite ?clear_flag_flag_dummy; apply clear_flag_idem.
  - destruct dummy; rewrite ?is_removed_flag_dummy; apply is_removed_clear_flag.
  - destruct dummy; [apply is_dummy_flag_dummy | apply is_dummy_clear_flag].
Qed.

Lemma last_mid_in (d : Z) mid : In (List.last mid d) (d :: mid).
Proof.
  revert d. induction mid as [| x mid IH]; intros d; [left; reflexivity |].
  rewrite last_cons. right. apply IH.
Qed.

Lemma add_run_insert cfg D D' s l1 d mid tail node mode dummy k fuel :
  table_inv D (fun _ => False) s (l1 ++ d :: mid ++ tail) ->
  ~ In node (l1 ++ d :: mid ++ tail) -> aligned node ->
  is_Some (mem s !! node) -> 0 <= rh s node < 2 ^ 64 ->
  0 <= k < 64 -> (forall idx, 0 <= idx < 2 ^ k -> D idx) ->
  d = daddr s (bit_reverse_ulong (rh s node) mod 2 ^ k) ->
  rh s d <= rh s node ->
  (mode <> ADD_DEFAULT -> is_Some (node_keys s !! node)) ->
  (forall x, In x mid -> add_class s node mode dummy x = W_next) ->
  match tail with
  | [] => True
  | y :: _ => add_class s node mode dummy y = W_stop
  end ->
  (forall idx, D idx -> D' idx) ->
  (dummy = true -> exists idx, D' idx /\ node = daddr s idx) ->
  (forall idx, D' idx -> D idx \/
     (0 <= idx < 2 ^ 63 /\ is_Some (t_tbl s !! fls_ulong idx) /\
      daddr s idx = node /\ dummy = true /\ rh s node = bit_reverse_ulong idx)) ->
  (dummy = false -> exists kk, node_keys s !! node = Some kk /\
     rh s node = bit_reverse_ulong (node_hash_of s kk)) ->
  (length (l1 ++ d :: mid ++ tail) < fuel)%nat ->
  exists s',
    _cds_lfht_add cfg fuel s (2 ^ k) node mode dummy =
      Ok (s', if add_mode_eqb mode ADD_REPLACE then 0 else node) /\
    table_inv D' (fun _ => False) s' (l1 ++ d :: mid ++ node :: tail) /\
    same_nodes (fun a => a <> node) s s' /\
    rh s' node = rh s node /\ is_dummy (nxt s' node) = dummy /\
    is_removed (nxt s' node) = false /\
    (forall a, is_Some (mem s' !! a) <-> is_Some (mem s !! a)) /\
    node_keys s' = node_keys s /\
    t_resize_target s <= t_resize_target s'.
Proof.
  intros Inv Hnin Han Hnm Hrn Hk HD Hd Hdle Hkey Hmid Htail HDD' Hdum' Hbk' Hus' Hfuel.
  set (L := l1 ++ d :: mid ++ tail) in *.
  pose proof (pow2_lt_64 k Hk) as Hp.
  assert (Hind : In d L) by apply in_elt.
  assert (Hnode : mem s !! node = Some (mk_node (nxt s node) (rh s node))).
  { destruct Hnm as [n Hn]. rewrite Hn. f_equal. apply mem_lookup_fields, Hn. }
  unfold _cds_lfht_add.
  rewrite !c_assert_true by
    (rewrite ?is_dummy_aligned, ?is_removed_aligned by exact Han; reflexivity).
  cbn [bind]. rewrite (proj2 (Z.eqb_neq (2 ^ k) 0)) by lia.
  rewrite Hnode. cbn [load bind reverse_hash].
  destruct (lookup_bucket_run cfg _ _ _ _ k (bit_reverse_ulong (rh s node)) Inv Hk HD)
    as [Hlb _].
  rewrite Hlb, <- Hd. cbn [bind].
  destruct fuel as [| fuel']; [cbn in Hfuel; lia |]. set (fuel := S fuel') in *.
  change (add_retry cfg fuel fuel s (2 ^ k) node mode dummy d) with
    (add_retry cfg (S fuel') fuel s (2 ^ k) node mode dummy d).
  cbn [add_retry].
  rewrite (inv_node _ _ _ _ Inv d Hind), Hnode. cbn [load bind reverse_hash next].
  rewrite c_assert_true by (apply Z.leb_le; exact Hdle). cbn [bind].
  destruct (inv_split _ _ _ _ Inv l1 d (mid ++ tail) eq_refl) as [_ Hseg].
  destruct (add_walk_run cfg s (2 ^ k) node mode dummy Hnode Hkey tail mid s d 0 fuel)
    as (s1 & Hwalk & Hs1 & Htg).
  { apply same_table_up_refl. }
  { apply (inv_node _ _ _ _ Inv d Hind). }
  { exact Hseg. }
  { intros x Hx. apply (inv_aligned _ _ _ _ Inv). unfold L.
    apply in_or_app. right. right. exact Hx. }
  { intros x Hx Hdx. destruct (inv_user _ _ _ _ Inv x) as (kk & Hkk & _); eauto.
    unfold L. apply in_or_app. right. right. exact Hx. }
  { exact Hmid. }
  { destruct tail as [| y tl]; [exact I |]. rewrite Htail. discriminate. }
  { unfold L in Hfuel. rewrite length_app in Hfuel. cbn in Hfuel.
    rewrite length_app in Hfuel. unfold fuel. lia. }
  rewrite Hwalk. cbn [bind].
  set (ip := List.last mid d) in *.
  assert (Hexit : add_exit_of s node mode dummy ip tail = goto_insert ip (nxt s ip)).
  { unfold add_exit_of. destruct tail as [| y tl]; [reflexivity |]. rewrite Htail. reflexivity. }
  rewrite Hexit.
  destruct (last_split l1 d mid) as (l1' & Hsplit). fold ip in Hsplit.
  assert (HL : L = l1' ++ ip :: tail) by apply Hsplit.
  assert (Hinip : In ip L) by (rewrite HL; apply in_elt).
  assert (Hipn : ip <> node) by (intros E; apply Hnin; rewrite <- E; exact Hinip).
  assert (Hipflag : is_removed (nxt s ip) = false).
  { destruct (is_removed (nxt s ip)) eqn:E; [| reflexivity].
    apply (inv_removed _ _ _ _ Inv) in E; [destruct E | exact Hinip]. }
  pose proof (inv_aligned _ _ _ _ Inv ip Hinip) as Haip.
  destruct (inv_split _ _ _ _ Inv l1' ip tail HL) as [_ Hsegt].
  assert (Hnt : node <> clear_flag (nxt s ip)).
  { destruct tail as [| y tl].
    - cbn in Hsegt. rewrite Hsegt. destruct Han. lia.
    - destruct Hsegt as (-> & _). intros ->. apply Hnin. rewrite HL.
      apply in_or_app. right. right. left. reflexivity. }
  rewrite !c_assert_true by
    (first [ apply negb_true_iff, Z.eqb_neq; first [exact Hnt | exact Hipn]
           | rewrite is_removed_aligned by exact Haip; reflexivity
           | rewrite Hipflag; reflexivity ]).
  cbn [bind].
  assert (Inv1 : table_inv D (fun _ => False) s1 L) by (apply (table_inv_same _ _ s); assumption).
  assert (Hnm1 : is_Some (mem s1 !! node)) by (rewrite (same_table_mem _ _ Hs1); exact Hnm).
  rewrite store_next_run by exact Hnm1. cbn [bind].
  destruct (insert_pointers (nxt s ip) node dummy Han Hipflag)
    as (Hp1 & Hp2 & Hp3 & Hp4 & Hp5 & Hp6).
  set (pn := if dummy then flag_dummy (clear_flag (nxt s ip)) else clear_flag (nxt s ip)) in *.
  set (pip := if is_dummy (nxt s ip) then flag_dummy node else node) in *.
  set (s2 := set_mem (<[node := mk_node pn (rh s1 node)]> (mem s1)) s1).
  assert (Hnx2 : nxt s2 ip = nxt s ip).
  { unfold nxt at 1, s2. cbn. rewrite lookup_insert_ne by congruence.
    fold (nxt s1 ip). apply same_table_nxt, Hs1. }
  assert (Hm2 : is_Some (mem s2 !! ip)).
  { unfold s2. cbn. rewrite lookup_insert_ne by congruence.
    apply (inv_in_mem _ _ _ _ Inv1), Hinip. }
  rewrite <- Hnx2. rewrite uatomic_cmpxchg_next_hit by exact Hm2.
  cbn [bind]. rewrite Z.eqb_refl. cbn [negb].
  assert (Hrh2 : rh s2 ip = rh s1 ip).
  { unfold rh, s2. cbn. rewrite lookup_insert_ne by congruence. reflexivity. }
  rewrite Hrh2.
  set (s3 := set_mem _ s2).
  assert (Es3 : s3 = set_mem (<[ip := mk_node pip (rh s1 ip)]>
                        (<[node := mk_node pn (rh s1 node)]> (mem s1))) s1) by reflexivity.
  assert (Hskd : skey s d = 2 * rh s d).
  { destruct (inv_bucket _ _ _ _ Inv _ (HD _ (Z.mod_pos_bound (bit_reverse_ulong (rh s node)) (2 ^ k) ltac:(lia))))
      as (_ & _ & _ & Hdm & _).
    rewrite <- Hd in Hdm. unfold skey. rewrite Hdm. lia. }
  assert (Hso : sorted_by (skey s) L) by exact (inv_sorted _ _ _ _ Inv).
  assert (Hclass_le : forall x, In x mid ->
            skey s x <= 2 * rh s node + (if dummy then 0 else 1)).
  { intros x Hx. specialize (Hmid x Hx). unfold add_class in Hmid.
    pose proof (skey_bounds s x).
    destruct (Z.gtb_spec (rh s x) (rh s node)); [discriminate |].
    destruct dummy; cbn [andb] in Hmid; [| lia].
    destruct (Z.eqb_spec (rh s x) (rh s node)); [discriminate | lia]. }
  assert (Hlo : skey s ip <= 2 * rh s node + (if dummy then 0 else 1)).
  { destruct (last_mid_in d mid) as [E | Hin]; fold ip in E || fold ip in Hin.
    - rewrite <- E, Hskd. destruct dummy; lia.
    - apply Hclass_le, Hin. }
  assert (Hhi : forall y, In y tail ->
            2 * rh s node + (if dummy then 0 else 1) <= skey s y).
  { destruct tail as [| y0 tl]; [intros y [] |].
    assert (Hy0 : 2 * rh s node + (if dummy then 0 else 1) <= skey s y0).
    { unfold add_class in Htail. pose proof (skey_bounds s y0).
      destruct (Z.gtb_spec (rh s y0) (rh s node)); [destruct dummy; lia |].
      destruct dummy; cbn [andb] in Htail.
      - destruct (Z.eqb_spec (rh s y0) (rh s node)); [lia |].
        destruct (is_removed (nxt s y0)); [discriminate |].
        destruct (_ && _ && _ && _); discriminate.
      - destruct (is_removed (nxt s y0)); [discriminate |].
        destruct (_ && _ && _ && _); discriminate. }
    intros y [<- | Hy]; [exact Hy0 |].
    rewrite HL in Hso. apply sorted_by_app in Hso as (_ & Hso & _).
    destruct Hso as [_ [Hy0' _]]. specialize (Hy0' y Hy). lia. }
  exists s3. split; [reflexivity |].
  assert (Inv3 : table_inv D' (fun _ => False) s3 (l1' ++ ip :: node :: tail)).
  { rewrite Es3. apply (table_inv_insert D D' (fun _ => False) s1); try assumption.
    - rewrite <- HL. exact Inv1.
    - rewrite <- HL. exact Hnin.
    - rewrite (same_table_nxt _ _ _ Hs1). exact Hp2.
    - rewrite (same_table_nxt _ _ _ Hs1). exact Hp3.
    - rewrite (same_table_nxt _ _ _ Hs1). exact Hp4.
    - rewrite (same_table_rh _ _ _ Hs1). exact Hrn.
    - rewrite (same_table_skey _ _ _ Hs1), (same_table_rh _ _ _ Hs1), Hp6. exact Hlo.
    - intros y Hy. rewrite (same_table_skey _ _ _ Hs1), (same_table_rh _ _ _ Hs1), Hp6.
      apply Hhi, Hy.
    - tauto.
    - rewrite Hp6. intros Hdm. destruct (Hdum' Hdm) as (idx & Hi & E).
      exists idx. split; [exact Hi |]. rewrite (same_table_daddr _ _ _ Hs1). exact E.
    - intros idx Hi. destruct (Hbk' idx Hi) as [Hold | (H1 & H2 & H3 & H4 & H5)];
        [left; exact Hold | right].
      rewrite (same_table_daddr _ _ _ Hs1), (same_table_rh _ _ _ Hs1), Hp6.
      destruct Hs1 as (_ & -> & _). auto.
    - rewrite Hp6. intros Hdm. destruct (Hus' Hdm) as (kk & Hkk & E).
      exists kk. rewrite (same_table_keys _ _ Hs1), (same_table_rh _ _ _ Hs1),
        (same_table_hash _ _ _ Hs1). auto. }
  split; [rewrite (Hsplit (node :: tail)); exact Inv3 |].
  assert (Hm3n : mem s3 !! node = Some (mk_node pn (rh s1 node))).
  { rewrite Es3. cbn. rewrite lookup_insert_ne by congruence. apply lookup_insert_eq. }
  assert (Hm3ip : mem s3 !! ip = Some (mk_node pip (rh s1 ip))).
  { rewrite Es3. cbn. apply lookup_insert_eq. }
  assert (Hm3o : forall a, a <> ip -> a <> node -> mem s3 !! a = mem s !! a).
  { intros a H1 H2. rewrite Es3. cbn. rewrite !lookup_insert_ne by congruence.
    rewrite (same_table_mem _ _ Hs1). reflexivity. }
  assert (Hnx3ip : nxt s3 ip = pip) by (unfold nxt; rewrite Hm3ip; reflexivity).
  assert (Hrh3ip : rh s3 ip = rh s ip).
  { unfold rh at 1. rewrite Hm3ip. cbn. apply same_table_rh, Hs1. }
  assert (Hk3 : node_keys s3 = node_keys s).
  { rewrite Es3. cbn. apply same_table_keys, Hs1. }
  assert (Hdom3 : forall a, is_Some (mem s3 !! a) <-> is_Some (mem s !! a)).
  { intros a. destruct (Z.eq_dec a ip) as [-> | Hne2];
      [| destruct (Z.eq_dec a node) as [-> | Hne3]].
    - rewrite Hm3ip. split; [intros _; apply (inv_in_mem _ _ _ _ Inv), Hinip | eauto].
    - rewrite Hm3n. split; [intros _; exact Hnm | eauto].
    - rewrite Hm3o by assumption. reflexivity. }
  split; [| split; [| split; [| split; [| split]]]].
  - pose proof (same_table_same_nodes (fun _ => True) _ _ Hs1)
      as (E1 & E2 & E3 & E4 & E5 & E6 & _).
    unfold same_nodes. do 6 (split; [assumption |]).
    intros a Hne. unfold attrs_eq. rewrite Hk3.
    split; [| split; [| split; [| split; [reflexivity | apply Hdom3]]]].
    + destruct (Z.eq_dec a ip) as [-> | Hne2]; [exact Hrh3ip |].
      unfold rh. rewrite Hm3o by assumption. reflexivity.
    + destruct (Z.eq_dec a ip) as [-> | Hne2]; [rewrite Hnx3ip; exact Hp2 |].
      unfold nxt. rewrite Hm3o by assumption. reflexivity.
    + destruct (Z.eq_dec a ip) as [-> | Hne2]; [rewrite Hnx3ip; exact Hp3 |].
      unfold nxt. rewrite Hm3o by assumption. reflexivity.
  - unfold rh at 1. rewrite Hm3n. cbn. apply same_table_rh, Hs1.
  - unfold nxt. rewrite Hm3n. exact Hp6.
  - unfold nxt. rewrite Hm3n. exact Hp5.
  - exact Hdom3.
  - split; [exact Hk3 | exact Htg].
Qed.

(** The dummy node of the bucket a hash falls into does not come after the
    nodes with that hash. *)
Lemma bucket_rh_le D R s L k h :
  table_inv D R s L -> 0 <= k < 64 -> (forall idx, 0 <= idx < 2 ^ k -> D idx) ->
  0 <= h < 2 ^ 64 ->
  let d := daddr s (bit_reverse_ulong (bit_reverse_ulong h) mod 2 ^ k) in
  In d L /\ is_dummy (nxt s d) = true /\ rh s d <= bit_reverse_ulong h /\
  skey s d = 2 * rh s d.
Proof.
  intros Inv Hk HD Hh. cbn zeta. rewrite bit_reverse_ulong_involutive by exact Hh.
  pose proof (pow2_lt_64 k Hk) as Hp.
  assert (Hidx : 0 <= h mod 2 ^ k < 2 ^ k) by (apply Z.mod_pos_bound; lia).
  destruct (inv_bucket _ _ _ _ Inv _ (HD _ Hidx)) as (_ & _ & Hin & Hdm & Hrv).
  split; [exact Hin |]. split; [exact Hdm |]. split.
  - rewrite Hrv, <- land_mask_pow2 by lia. apply bit_reverse_bucket_le; lia.
  - unfold skey. rewrite Hdm. lia.
Qed.

Lemma node_hash_of_range s kk : 0 <= node_hash_of s kk < 2 ^ 64.
Proof. apply ulong_range. Qed.

Lemma user_bucket_before D R s L k y :
  table_inv D R s L -> 0 <= k < 64 -> (forall idx, 0 <= idx < 2 ^ k -> D idx) ->
  In y L -> is_dummy (nxt s y) = false ->
  let d := daddr s (bit_reverse_ulong (rh s y) mod 2 ^ k) in
  In d L /\ rh s d <= rh s y /\ skey s d < skey s y /\
  forall idx, D idx -> daddr s idx <> y.
Proof.
  intros Inv Hk HD Hy Hdm. cbn zeta.
  destruct (inv_user _ _ _ _ Inv y Hy Hdm) as (kk & _ & Hrv).
  destruct (bucket_rh_le D R s L k (node_hash_of s kk) Inv Hk HD (node_hash_of_range s kk))
    as (Hin & Hdd & Hle & Hsk).
  rewrite <- Hrv in *. split; [exact Hin |]. split; [exact Hle |]. split.
  - rewrite Hsk. unfold skey. rewrite Hdm. lia.
  - intros idx Hi E. destruct (inv_bucket _ _ _ _ Inv _ Hi) as (_ & _ & _ & Hdi & _).
    rewrite E in Hdi. congruence.
Qed.

(** ** Replace *)

(** The state that the compare-and-swap of [_cds_lfht_replace] leaves. *)
Lemma replace_retry_run cfg s y o node fuel :
  is_Some (mem s !! y) -> is_Some (mem s !! node) -> node <> y ->
  is_removed o = false -> is_removed (nxt s y) = false ->
  (NDEBUG cfg = false ->
     is_dummy o = false /\ node <> clear_flag o /\
     is_dummy (nxt s y) = false /\ node <> clear_flag (nxt s y)) ->
  (1 < fuel)%nat ->
  replace_retry cfg fuel s y o node =
    Ok (set_mem (<[y := mk_node (flag_removed node) (rh s y)]>
                   (<[node := mk_node (clear_flag (nxt s y)) (rh s node)]> (mem s))) s,
        true).
Proof.
  intros Hy Hn Hne Ho Hyr Hdbg Hfuel.
  assert (Hassert : forall b, (NDEBUG cfg = false -> b = true) -> c_assert cfg b = Ok tt).
  { intros b Hb. unfold c_assert. destruct (NDEBUG cfg); [reflexivity |].
    rewrite Hb by reflexivity. reflexivity. }
  destruct fuel as [| [| fuel]]; [lia | lia |].
  cbn [replace_retry]. rewrite Ho.
  rewrite !Hassert by
    (intros E; destruct (Hdbg E) as (H1 & H2 & _);
     first [rewrite H1; reflexivity | apply negb_true_iff, Z.eqb_neq; exact H2]).
  cbn [bind]. rewrite store_next_run by exact Hn. cbn [bind].
  set (s1 := set_mem (<[node := mk_node (clear_flag o) (rh s node)]> (mem s)) s).
  assert (Hy1 : is_Some (mem s1 !! y)).
  { unfold s1. cbn. rewrite lookup_insert_ne by congruence. exact Hy. }
  assert (Hnx1 : nxt s1 y = nxt s y).
  { unfold nxt, s1. cbn. rewrite lookup_insert_ne by congruence. reflexivity. }
  assert (Hrh1 : rh s1 y = rh s y).
  { unfold rh, s1. cbn. rewrite lookup_insert_ne by congruence. reflexivity. }
  destruct (Z.eq_dec (nxt s y) o) as [E | E].
  - rewrite uatomic_cmpxchg_next_hit_eq by (rewrite ?Hnx1; assumption).
    cbn [bind]. rewrite Z.eqb_refl, Hrh1, E. unfold s1. cbn. reflexivity.
  - rewrite uatomic_cmpxchg_next_miss by (rewrite ?Hnx1; assumption).
    cbn [bind]. rewrite Hnx1, (proj2 (Z.eqb_neq _ _) E).
    rewrite Hyr.
    rewrite !Hassert by
      (intros E'; destruct (Hdbg E') as (_ & _ & H1 & H2);
       first [rewrite H1; reflexivity | apply negb_true_iff, Z.eqb_neq; exact H2]).
    cbn [bind].
    assert (Hn1 : is_Some (mem s1 !! node)).
    { unfold s1. cbn. rewrite lookup_insert_eq. eauto. }
    rewrite store_next_run by exact Hn1. cbn [bind].
    set (s2 := set_mem _ s1).
    assert (Hy2 : is_Some (mem s2 !! y)).
    { unfold s2. cbn. rewrite lookup_insert_ne by congruence.
      rewrite lookup_insert_ne by congruence. exact Hy. }
    assert (Hnx2 : nxt s2 y = nxt s y).
    { unfold nxt, s2. cbn. rewrite !lookup_insert_ne by congruence. reflexivity. }
    assert (Hrh2 : rh s2 y = rh s y).
    { unfold rh, s2. cbn. rewrite !lookup_insert_ne by congruence. reflexivity. }
    rewrite uatomic_cmpxchg_next_hit_eq by assumption.
    cbn [bind]. rewrite Z.eqb_refl, Hrh2. unfold s2. cbn.
    assert (Ern : rh s1 node = rh s node).
    { unfold rh at 1, s1. cbn. rewrite lookup_insert_eq. reflexivity. }
    rewrite Ern. unfold s1. cbn. rewrite insert_insert_eq. reflexivity.
Qed.

Lemma no_flag_in D s L a :
  table_inv D (fun _ => False) s L -> In a L -> is_removed (nxt s a) = false.
Proof.
  intros Inv Ha. destruct (is_removed (nxt s a)) eqn:E; [| reflexivity].
  apply (inv_removed _ _ _ _ Inv) in E; [destruct E | exact Ha].
Qed.

(** The state in which [_cds_lfht_replace] calls the collection: the new
    node [n] follows the old node [x], whose [next] word points to it and
    carries the REMOVED flag. *)
Lemma table_inv_replace D s l1 x l2 n :
  table_inv D (fun _ => False) s (l1 ++ x :: l2) ->
  is_dummy (nxt s x) = false ->
  ~ In n (l1 ++ x :: l2) -> aligned n -> rh s n = rh s x ->
  (exists kk, node_keys s !! n = Some kk /\
     rh s n = bit_reverse_ulong (node_hash_of s kk)) ->
  table_inv D (fun a => a = x)
    (set_mem (<[x := mk_node (flag_removed n) (rh s x)]>
                (<[n := mk_node (clear_flag (nxt s x)) (rh s n)]> (mem s))) s)
    (l1 ++ x :: n :: l2).
Proof.
  intros Inv Hxd Hnin Han Hrn Hkey.
  assert (Hx : In x (l1 ++ x :: l2)) by apply in_elt.
  pose proof (no_flag_in _ _ _ _ Inv Hx) as Hxr.
  assert (Hpn_d : is_dummy (clear_flag (nxt s x)) = false) by apply is_dummy_clear_flag.
  assert (HA : table_inv D (fun _ => False)
            (set_mem (<[x := mk_node n (rh s x)]>
                        (<[n := mk_node (clear_flag (nxt s x)) (rh s n)]> (mem s))) s)
            (l1 ++ x :: n :: l2)).
  { apply (table_inv_insert D D (fun _ => False) s); try assumption.
    - apply clear_flag_aligned, Han.
    - rewrite Hxd. apply is_dummy_aligned, Han.
    - rewrite Hxr. apply is_removed_aligned, Han.
    - apply clear_flag_idem.
    - apply is_removed_clear_flag.
    - rewrite Hrn. apply (inv_rh_range _ _ _ _ Inv), Hx.
    - rewrite Hpn_d, Hrn. unfold skey. rewrite Hxd. lia.
    - intros y Hy. rewrite Hpn_d, Hrn.
      pose proof (inv_sorted _ _ _ _ Inv) as Hso.
      apply sorted_by_app in Hso as (_ & Hso & _). destruct Hso as [Hso _].
      specialize (Hso y Hy). unfold skey in Hso at 1. rewrite Hxd in Hso. exact Hso.
    - tauto.
    - tauto.
    - rewrite Hpn_d. discriminate.
    - intros idx Hi. left. exact Hi.
    - intros _. exact Hkey. }
  set (sA := set_mem _ s) in HA.
  assert (HxA : In x (l1 ++ x :: n :: l2)) by apply in_elt.
  pose proof (table_inv_flag _ _ _ _ x HA HxA) as HB.
  assert (EnA : nxt sA x = n).
  { unfold nxt, sA. cbn. rewrite lookup_insert_eq. reflexivity. }
  assert (ErA : rh sA x = rh s x).
  { unfold rh at 1, sA. cbn. rewrite lookup_insert_eq. reflexivity. }
  rewrite EnA, ErA in HB. unfold sA in HB. cbn in HB.
  rewrite insert_insert_eq in HB.
  apply (table_inv_ext D D (fun a => False \/ a = x)); [reflexivity | tauto | exact HB].
Qed.

Lemma c_assert_dbg cfg b : (NDEBUG cfg = false -> b = true) -> c_assert cfg b = Ok tt.
Proof.
  intros Hb. unfold c_assert. destruct (NDEBUG cfg); [reflexivity |].
  rewrite Hb by reflexivity. reflexivity.
Qed.

(** [_cds_lfht_replace] on a linked user node [x], whatever successor [o]
    the caller observed, as long as [o] does not carry the REMOVED flag. *)
Lemma replace_run cfg D s l1 x l2 n o k fuel :
  table_inv D (fun _ => False) s (l1 ++ x :: l2) ->
  is_dummy (nxt s x) = false ->
  ~ In n (l1 ++ x :: l2) -> aligned n -> is_Some (mem s !! n) ->
  rh s n = rh s x ->
  (exists kk, node_keys s !! n = Some kk /\
     rh s n = bit_reverse_ulong (node_hash_of s kk)) ->
  0 <= k < 64 -> (forall idx, 0 <= idx < 2 ^ k -> D idx) ->
  is_removed o = false ->
  (NDEBUG cfg = false -> is_dummy o = false /\ n <> clear_flag o) ->
  (S (length (l1 ++ x :: l2)) < fuel)%nat ->
  exists s',
    _cds_lfht_replace cfg fuel s (2 ^ k) x o n = Ok (s', 0) /\
    table_inv D (fun _ => False) s' (l1 ++ n :: l2) /\
    nxt s' x = flag_removed n /\
    same_nodes (fun a => a <> x /\ a <> n) s s' /\
    rh s' n = rh s n /\ is_dummy (nxt s' n) = false /\
    is_removed (nxt s' n) = false /\
    (forall a, is_Some (mem s' !! a) <-> is_Some (mem s !! a)) /\
    node_keys s' = node_keys s /\
    same_table (set_mem (mem s) s') s.
Proof.
  intros Inv Hxd Hnin Han Hnm Hrn Hkey Hk HD Ho Hdbg Hfuel.
  set (L := l1 ++ x :: l2) in *.
  assert (Hx : In x L) by apply in_elt.
  pose proof (inv_aligned _ _ _ _ Inv x Hx) as Hax.
  assert (Hx0 : x <> 0) by (destruct Hax; lia).
  pose proof (no_flag_in _ _ _ _ Inv Hx) as Hxr.
  assert (Hnx : n <> x) by (intros ->; apply Hnin, Hx).
  destruct (user_bucket_before D _ s L k x Inv Hk HD Hx Hxd) as (Hind & Hdle & Hdlt & HDx).
  set (d := daddr s (bit_reverse_ulong (rh s x) mod 2 ^ k)) in *.
  assert (Hnnext : n <> clear_flag (nxt s x)).
  { destruct (inv_split _ _ _ _ Inv l1 x l2 eq_refl) as [_ Hseg].
    destruct l2 as [| y l2'].
    - cbn in Hseg. rewrite Hseg. destruct Han. lia.
    - destruct Hseg as (-> & _). intros ->. apply Hnin. unfold L.
      apply in_or_app. right. right. left. reflexivity. }
  unfold _cds_lfht_replace. rewrite (proj2 (Z.eqb_neq _ _) Hx0).
  rewrite !c_assert_true by
    (first [ rewrite is_removed_aligned by assumption; reflexivity
           | rewrite is_dummy_aligned by assumption; reflexivity
           | apply negb_true_iff, Z.eqb_neq; exact Hnx ]).
  cbn [bind].
  rewrite (replace_retry_run cfg s x o n fuel); try assumption.
  2: { apply (inv_in_mem _ _ _ _ Inv), Hx. }
  2: { intros E. destruct (Hdbg E) as [H1 H2]. auto. }
  2: { lia. }
  cbn [bind].
  set (s1 := set_mem _ s).
  assert (Inv1 : table_inv D (fun a => a = x) s1 (l1 ++ x :: n :: l2)).
  { apply table_inv_replace; assumption. }
  assert (Hm1x : mem s1 !! x = Some (mk_node (flag_removed n) (rh s x))).
  { unfold s1. cbn. apply lookup_insert_eq. }
  assert (Hm1n : mem s1 !! n = Some (mk_node (clear_flag (nxt s x)) (rh s n))).
  { unfold s1. cbn. rewrite lookup_insert_ne by congruence. apply lookup_insert_eq. }
  assert (Hm1o : forall a, a <> x -> a <> n -> mem s1 !! a = mem s !! a).
  { intros a H1 H2. unfold s1. cbn. rewrite !lookup_insert_ne by congruence. reflexivity. }
  rewrite Hm1x. cbn [load bind reverse_hash].
  destruct (lookup_bucket_run cfg _ _ _ _ k (bit_reverse_ulong (rh s x)) Inv1 Hk HD)
    as [Hlb _].
  rewrite Hlb. cbn [bind].
  change (daddr s1 (bit_reverse_ulong (rh s x) mod 2 ^ k)) with d.
  assert (Hrh1 : forall a, rh s1 a = rh s a).
  { intros a. unfold rh at 1. destruct (Z.eq_dec a x) as [-> | H1];
      [rewrite Hm1x; reflexivity |].
    destruct (Z.eq_dec a n) as [-> | H2]; [rewrite Hm1n; reflexivity |].
    rewrite Hm1o by assumption. reflexivity. }
  destruct (split_two (skey s) L d x (inv_sorted _ _ _ _ Inv) Hind Hx Hdlt)
    as (l0 & mid & l2' & HL).
  assert (Hsplit : l1 = l0 ++ d :: mid /\ l2 = l2').
  { pose proof (inv_nodup _ _ _ _ Inv) as Hnd. unfold L in HL.
    replace (l0 ++ d :: mid ++ x :: l2') with ((l0 ++ d :: mid) ++ x :: l2') in HL
      by (rewrite <- app_assoc; reflexivity).
    fold L in Hnd. unfold L in Hnd.
    revert HL Hnd. generalize (l0 ++ d :: mid). clear. intros l1'. revert l1'.
    induction l1 as [| a l1 IH]; intros [| b l1'] HL Hnd; cbn in *.
    - inversion HL. auto.
    - inversion HL; subst. inversion Hnd; subst. exfalso. apply H1.
      apply in_or_app. right. left. reflexivity.
    - inversion HL; subst. inversion Hnd; subst. exfalso. apply H1.
      apply in_or_app. right. left. reflexivity.
    - inversion HL; subst. inversion Hnd; subst.
      destruct (IH l1' H1 H3) as [-> ->]. auto. }
  destruct Hsplit as [El1 El2]. subst l2'.
  assert (Inv1' : table_inv D (fun a => a = x) s1 (l0 ++ d :: mid ++ x :: n :: l2)).
  { rewrite El1 in Inv1. rewrite <- app_assoc in Inv1. exact Inv1. }
  assert (Hso : sorted_by (skey s) (l0 ++ d :: mid ++ x :: l2)).
  { rewrite <- HL. exact (inv_sorted _ _ _ _ Inv). }
  assert (Hdn : d <> n).
  { intros E. apply Hnin. rewrite <- E. exact Hind. }
  destruct (gc_bucket_unlink cfg D s1 l0 d mid x (n :: l2) n fuel Inv1')
    as (s2 & Hgc & Inv2 & Hsame & Hst & Hmem & _).
  { intros y Hy. rewrite !Hrh1, Hrn. apply skey_le_rh.
    apply (sorted_by_middle_le _ _ _ _ _ _ _ Hso). right. exact Hy. }
  { rewrite !Hrh1, Hrn. lia. }
  { rewrite !Hrh1, Hrn. exact Hdle. }
  { rewrite Hm1n. eauto. }
  { exact Han. }
  { exact Hdn. }
  { intros idx Hi. apply HDx. apply (inv_size _ _ _ _ Inv). exact Hi. }
  { unfold L in Hfuel. rewrite El1 in Hfuel.
    rewrite !length_app in *. cbn in *. rewrite !length_app in *. cbn in *. lia. }
  rewrite Hgc. cbn [bind].
  destruct Hsame as (E1 & E2 & E3 & E4 & E5 & E6 & Hat).
  assert (Hnx1 : nxt s1 x = flag_removed n) by (unfold nxt; rewrite Hm1x; reflexivity).
  assert (Hnn1 : nxt s1 n = clear_flag (nxt s x)) by (unfold nxt; rewrite Hm1n; reflexivity).
  assert (Hx2 : is_removed (nxt s2 x) = true).
  { destruct (Hat x I) as (_ & _ & -> & _). rewrite Hnx1. apply is_removed_flag_removed. }
  assert (Hm2 : is_Some (mem s2 !! x)).
  { destruct (Hat x I) as (_ & _ & _ & _ & ->). rewrite Hm1x. eauto. }
  destruct Hm2 as [n2 Hn2]. rewrite Hn2. cbn [load bind].
  rewrite <- (nxt_lookup _ _ _ Hn2), Hx2.
  rewrite c_assert_true by reflexivity. cbn [bind].
  exists s2. split; [reflexivity |].
  split.
  { rewrite El1, <- app_assoc. cbn [app].
    apply (table_inv_ext (fun i => D i /\ daddr s1 i <> x) D
             (fun _ => False) (fun _ => False)); [| reflexivity | exact Inv2].
    intros i. split; [tauto |]. intros Hi. split; [exact Hi |]. apply HDx, Hi. }
  destruct Hst as (F1 & F2 & F3 & F4 & F5 & F6 & F7 & F8 & F9 & F10 & F11 & F12 & F13 & F14).
  cbn in F1, F2, F3, F4, F5, F6, F7, F8, F9, F10, F11, F12, F13, F14.
  assert (Hlx : x <> List.last mid d).
  { intros E. pose proof (last_mid_in d mid) as Hin. rewrite <- E in Hin.
    pose proof (inv_nodup _ _ _ _ Inv) as Hnd. rewrite HL in Hnd.
    rewrite app_comm_cons, app_assoc in Hnd. apply NoDup_remove_2 in Hnd.
    apply Hnd. apply in_or_app. left. apply in_or_app. right. exact Hin. }
  assert (Hnx2 : nxt s2 x = flag_removed n).
  { unfold nxt at 1. rewrite (Hmem x Hlx), Hm1x. reflexivity. }
  split; [exact Hnx2 |].
  split.
  { unfold same_nodes. do 6 (split; [assumption |]). intros a [Hax' Han'].
    destruct (Hat a I) as (A1 & A2 & A3 & A4 & A5). unfold attrs_eq.
    rewrite A1, A2, A3, A4, A5, Hrh1.
    assert (En : nxt s1 a = nxt s a) by (unfold nxt; rewrite (Hm1o a Hax' Han'); reflexivity).
    rewrite En, (Hm1o a Hax' Han').
    split; [reflexivity |]. split; [reflexivity |]. split; [reflexivity |].
    split; reflexivity. }
  destruct (Hat n I) as (A1 & A2 & A3 & A4 & A5).
  split; [rewrite A1; apply Hrh1 |].
  split; [rewrite A2, Hnn1; apply is_dummy_clear_flag |].
  split; [rewrite A3, Hnn1; apply is_removed_clear_flag |].
  split.
  { intros a. destruct (Hat a I) as (_ & _ & _ & _ & ->).
    destruct (Z.eq_dec a x) as [-> | H1]; [| destruct (Z.eq_dec a n) as [-> | H2]].
    - rewrite Hm1x. split; [intros _; apply (inv_in_mem _ _ _ _ Inv), Hx | eauto].
    - rewrite Hm1n. split; [intros _; exact Hnm | eauto].
    - rewrite Hm1o by assumption. reflexivity. }
  split; [symmetry; exact F12 |].
  unfold same_table. cbn. repeat split; assumption.
Qed.

(** ** Add onto a node with the same key *)

Lemma add_class_hit s node mode dummy y :
  add_class s node mode dummy y = W_hit ->
  (add_mode_eqb mode ADD_UNIQUE || add_mode_eqb mode ADD_REPLACE = true) /\
  is_dummy (nxt s y) = false /\ rh s y = rh s node /\ cmp_nodes s node y = 0.
Proof.
  unfold add_class. intros H.
  destruct (rh s y >? rh s node); [discriminate |].
  destruct (dummy && _); [discriminate |].
  destruct (is_removed (nxt s y)); [discriminate |].
  destruct (add_mode_eqb mode ADD_UNIQUE || add_mode_eqb mode ADD_REPLACE);
    cbn [andb] in H; [| discriminate].
  destruct (is_dummy (nxt s y)); cbn [negb andb] in H; [discriminate |].
  destruct (Z.eqb_spec (rh s y) (rh s node)); cbn [andb] in H; [| discriminate].
  destruct (Z.eqb_spec (cmp_nodes s node y) 0); [| discriminate]. auto.
Qed.

(** The walk of [_cds_lfht_add] up to a node [y] that it takes for the key
    looked for. *)
Lemma add_run_hit_walk cfg D s l1 d mid y tl node mode k fuel :
  table_inv D (fun _ => False) s (l1 ++ d :: mid ++ y :: tl) ->
  aligned node -> is_Some (mem s !! node) ->
  0 <= k < 64 -> (forall idx, 0 <= idx < 2 ^ k -> D idx) ->
  d = daddr s (bit_reverse_ulong (rh s node) mod 2 ^ k) ->
  rh s d <= rh s node ->
  is_Some (node_keys s !! node) ->
  (forall x, In x mid -> add_class s node mode false x = W_next) ->
  add_class s node mode false y = W_hit ->
  (length (l1 ++ d :: mid ++ y :: tl) < S fuel)%nat ->
  exists s1,
    same_table s s1 /\
    forall n,
    _cds_lfht_add cfg (S fuel) s (2 ^ k) node mode false =
    (r <- Ok (s1, if add_mode_eqb mode ADD_UNIQUE then return_unique y
                  else goto_replace (nxt s (List.last mid d)) (nxt s y));;
     let '(s, exit) := r in
     match exit with
     | goto_replace iter next_ =>
       r <- _cds_lfht_replace cfg (S fuel) s (2 ^ k) (clear_flag iter) next_ node;;
       let '(s, ret) := r in
       if ret =? 0 then Ok (s, clear_flag iter)
       else add_retry cfg fuel (S fuel) s (2 ^ k) node mode false d
     | return_unique found => Ok (s, found)
     | _ => n
     end).
Proof.
  intros Inv Han Hnm Hk HD Hd Hdle Hkey Hmid Hy Hfuel.
  set (L := l1 ++ d :: mid ++ y :: tl) in *.
  assert (Hind : In d L) by apply in_elt.
  assert (Hnode : mem s !! node = Some (mk_node (nxt s node) (rh s node))).
  { destruct Hnm as [n Hn]. rewrite Hn. f_equal. apply mem_lookup_fields, Hn. }
  destruct (inv_split _ _ _ _ Inv l1 d (mid ++ y :: tl) eq_refl) as [_ Hseg].
  destruct (add_walk_run cfg s (2 ^ k) node mode false Hnode (fun _ => Hkey)
              (y :: tl) mid s d 0 (S fuel))
    as (s1 & Hwalk & Hs1 & _).
  { apply same_table_up_refl. }
  { apply (inv_node _ _ _ _ Inv d Hind). }
  { exact Hseg. }
  { intros x Hx. apply (inv_aligned _ _ _ _ Inv). unfold L.
    apply in_or_app. right. right. exact Hx. }
  { intros x Hx Hdx. destruct (inv_user _ _ _ _ Inv x) as (kk & Hkk & _); eauto.
    unfold L. apply in_or_app. right. right. exact Hx. }
  { exact Hmid. }
  { rewrite Hy. discriminate. }
  { unfold L in Hfuel. rewrite length_app in Hfuel. cbn in Hfuel.
    rewrite length_app in Hfuel. lia. }
  exists s1. split; [exact Hs1 |]. intros n0.
  unfold _cds_lfht_add.
  rewrite !c_assert_true by
    (rewrite ?is_dummy_aligned, ?is_removed_aligned by exact Han; reflexivity).
  cbn [bind]. pose proof (pow2_lt_64 k Hk) as Hp.
  rewrite (proj2 (Z.eqb_neq (2 ^ k) 0)) by lia.
  rewrite Hnode. cbn [load bind reverse_hash].
  destruct (lookup_bucket_run cfg _ _ _ _ k (bit_reverse_ulong (rh s node)) Inv Hk HD)
    as [Hlb _].
  rewrite Hlb, <- Hd. cbn [bind].
  cbn [add_retry].
  rewrite (inv_node _ _ _ _ Inv d Hind), Hnode. cbn [load bind reverse_hash next].
  rewrite c_assert_true by (apply Z.leb_le; exact Hdle). cbn [bind].
  rewrite Hwalk. cbn [bind]. unfold add_exit_of. rewrite Hy.
  destruct (add_mode_eqb mode ADD_UNIQUE); reflexivity.
Qed.

Lemma add_run_unique cfg D s l1 d mid y tl node k fuel :
  table_inv D (fun _ => False) s (l1 ++ d :: mid ++ y :: tl) ->
  aligned node -> is_Some (mem s !! node) ->
  0 <= k < 64 -> (forall idx, 0 <= idx < 2 ^ k -> D idx) ->
  d = daddr s (bit_reverse_ulong (rh s node) mod 2 ^ k) ->
  rh s d <= rh s node ->
  is_Some (node_keys s !! node) ->
  (forall x, In x mid -> add_class s node ADD_UNIQUE false x = W_next) ->
  add_class s node ADD_UNIQUE false y = W_hit ->
  (length (l1 ++ d :: mid ++ y :: tl) < fuel)%nat ->
  exists s',
    _cds_lfht_add cfg fuel s (2 ^ k) node ADD_UNIQUE false = Ok (s', y) /\
    same_table s s'.
Proof.
  intros Inv Han Hnm Hk HD Hd Hdle Hkey Hmid Hy Hfuel.
  destruct fuel as [| fuel]; [lia |].
  destruct (add_run_hit_walk cfg D s l1 d mid y tl node ADD_UNIQUE k fuel)
    as (s1 & Hs1 & Hrun); try assumption.
  exists s1. split; [| exact Hs1]. rewrite (Hrun Abort). reflexivity.
Qed.

Lemma add_run_replace cfg D s l1 d mid y tl node k fuel :
  table_inv D (fun _ => False) s (l1 ++ d :: mid ++ y :: tl) ->
  ~ In node (l1 ++ d :: mid ++ y :: tl) ->
  aligned node -> is_Some (mem s !! node) ->
  0 <= k < 64 -> (forall idx, 0 <= idx < 2 ^ k -> D idx) ->
  d = daddr s (bit_reverse_ulong (rh s node) mod 2 ^ k) ->
  rh s d <= rh s node ->
  (exists kk, node_keys s !! node = Some kk /\
     rh s node = bit_reverse_ulong (node_hash_of s kk)) ->
  (forall x, In x mid -> add_class s node ADD_REPLACE false x = W_next) ->
  add_class s node ADD_REPLACE false y = W_hit ->
  (S (length (l1 ++ d :: mid ++ y :: tl)) < fuel)%nat ->
  exists s',
    _cds_lfht_add cfg fuel s (2 ^ k) node ADD_REPLACE false = Ok (s', y) /\
    table_inv D (fun _ => False) s' (l1 ++ d :: mid ++ node :: tl) /\
    nxt s' y = flag_removed node /\
    same_nodes (fun a => a <> y /\ a <> node) s s' /\
    rh s' node = rh s node /\ is_dummy (nxt s' node) = false /\
    is_removed (nxt s' node) = false /\
    (forall a, is_Some (mem s' !! a) <-> is_Some (mem s !! a)) /\
    node_keys s' = node_keys s.
Proof.
  intros Inv Hnin Han Hnm Hk HD Hd Hdle Hkey Hmid Hy Hfuel.
  destruct fuel as [| fuel]; [lia |].
  destruct (add_run_hit_walk cfg D s l1 d mid y tl node ADD_REPLACE k fuel)
    as (s1 & Hs1 & Hrun); try assumption.
  { destruct Hkey as (kk & -> & _). eauto. }
  { lia. }
  rewrite (Hrun Abort). cbn [bind add_mode_eqb].
  destruct (add_class_hit _ _ _ _ _ Hy) as (_ & Hyd & Hyr & _).
  set (L := l1 ++ d :: mid ++ y :: tl) in *.
  destruct (last_split l1 d mid) as (l1' & Hsplit).
  assert (HL : L = l1' ++ List.last mid d :: y :: tl) by apply Hsplit.
  rewrite (inv_next_cons _ _ _ _ Inv _ _ _ _ HL).
  assert (Inv1 : table_inv D (fun _ => False) s1 L) by (apply (table_inv_same _ _ s); assumption).
  assert (HL2 : L = (l1 ++ d :: mid) ++ y :: tl).
  { unfold L. rewrite <- app_assoc. reflexivity. }
  rewrite HL2 in Inv1, Hnin, Hfuel.
  assert (Hyin : In y L) by (rewrite HL2; apply in_elt).
  destruct (replace_run cfg D s1 (l1 ++ d :: mid) y tl node (nxt s y) k (S fuel) Inv1)
    as (s2 & Hrep & Inv2 & Hnx2 & Hsame & B1 & B2 & B3 & B4 & B5 & B6).
  { rewrite (same_table_nxt _ _ _ Hs1). exact Hyd. }
  { exact Hnin. }
  { exact Han. }
  { rewrite (same_table_mem _ _ Hs1). exact Hnm. }
  { rewrite !(same_table_rh _ _ _ Hs1). symmetry. exact Hyr. }
  { destruct Hkey as (kk & H1 & H2). exists kk.
    rewrite (same_table_keys _ _ Hs1), (same_table_rh _ _ _ Hs1),
      (same_table_hash _ _ _ Hs1). auto. }
  { exact Hk. }
  { exact HD. }
  { apply (no_flag_in _ _ _ _ Inv), Hyin. }
  { intros _. split; [exact Hyd |].
    intros E. apply Hnin. rewrite <- HL2.
    destruct (inv_split _ _ _ _ Inv (l1 ++ d :: mid) y tl HL2) as [_ Hseg].
    destruct tl as [| z tl'].
    - cbn in Hseg. rewrite Hseg in E. destruct Han. lia.
    - destruct Hseg as (E2 & _). rewrite E2 in E. rewrite HL2, E.
      apply in_or_app. right. right. left. reflexivity. }
  { exact Hfuel. }
  rewrite Hrep. cbn [bind]. rewrite Z.eqb_refl.
  exists s2. split; [reflexivity |].
  split; [rewrite <- app_assoc in Inv2; exact Inv2 |].
  split; [exact Hnx2 |].
  pose proof (same_table_same_nodes (fun _ => True) _ _ Hs1) as Hsn.
  split.
  { apply (same_nodes_trans (fun _ => True) _ s s1 s2); [auto | exact Hsn | exact Hsame]. }
  split; [rewrite B1; apply same_table_rh, Hs1 |].
  split; [exact B2 |]. split; [exact B3 |].
  split; [intros a; rewrite B4, (same_table_mem _ _ Hs1); reflexivity |].
  rewrite B5. apply same_table_keys, Hs1.
Qed.

(** * The public operations on a table at rest *)

(** ** The linked nodes and the abstract list *)

Lemma table_ok_size s L : table_ok s L -> exists k, 0 <= k < 64 /\ t_size s = 2 ^ k.
Proof. intros Inv. exact (proj1 (inv_size _ _ _ _ Inv)). Qed.

Lemma lseg_next_in m a l x n :
  lseg m a l 0 -> (forall y, In y l -> y <> 0) -> In x l -> m !! x = Some n ->
  is_end (next n) = false -> In (clear_flag (next n)) l.
Proof.
  revert a. induction l as [| y l IH]; intros a Hseg Hnz Hx Hn He; [destruct Hx |].
  destruct Hseg as (-> & n' & Hn' & Hseg).
  destruct Hx as [<- | Hx].
  - rewrite Hn in Hn'. inversion Hn'; subst n'.
    destruct l as [| z l'].
    + cbn in Hseg. unfold is_end in He. rewrite Hseg in He. discriminate.
    + destruct Hseg as (-> & _). right. left. reflexivity.
  - right. apply (IH _ Hseg); auto. intros z Hz. apply Hnz. right. exact Hz.
Qed.

Lemma inv_nonzero D R s L y : table_inv D R s L -> In y L -> y <> 0.
Proof. intros Inv Hy. destruct (inv_aligned _ _ _ _ Inv y Hy). lia. Qed.

Lemma list_node_in D R s L a : table_inv D R s L -> list_node s a -> In a L.
Proof.
  intros Inv H. induction H as [level Hl | a n Ha IH Hn He].
  - rewrite <- (daddr_0 _ _ Hl). apply (inv_head_in _ _ _ _ Inv).
  - destruct (inv_head _ _ _ _ Inv) as [L' E].
    apply (lseg_next_in (mem s) (daddr s 0) L a n); auto.
    + apply (inv_lseg _ _ _ _ Inv).
    + intros y Hy. apply (inv_nonzero _ _ _ _ _ Inv Hy).
Qed.

Lemma in_list_node D R s L a : table_inv D R s L -> In a L -> list_node s a.
Proof.
  intros Inv Ha. apply in_split in Ha as (l1 & l2 & E).
  revert a l2 E. induction l1 as [| b l1 IH] using rev_ind; intros a l2 E.
  - cbn in E. destruct (inv_head _ _ _ _ Inv) as [L' E']. rewrite E in E'.
    inversion E'; subst.
    destruct (inv_bucket _ _ _ _ Inv 0 (inv_D0 _ _ _ _ Inv)) as (_ & [lv Hlv] & _).
    replace (fls_ulong 0) with 0 in Hlv by reflexivity.
    rewrite (daddr_0 _ _ Hlv). apply list_node_head, Hlv.
  - rewrite <- app_assoc in E. cbn in E.
    pose proof (IH b (a :: l2) E) as Hb.
    assert (Hbin : In b L) by (rewrite E; apply in_elt).
    pose proof (inv_node _ _ _ _ Inv b Hbin) as Hnb.
    pose proof (inv_next_cons _ _ _ _ Inv _ _ _ _ E) as Hnext.
    assert (Ha : In a L) by (rewrite E; apply in_or_app; right; right; left; reflexivity).
    rewrite <- Hnext.
    apply (list_node_next s b _ Hb Hnb). cbn [next].
    unfold is_end. rewrite Hnext. apply Z.eqb_neq.
    apply (inv_nonzero _ _ _ _ _ Inv Ha).
Qed.

Lemma list_node_iff D R s L a : table_inv D R s L -> (list_node s a <-> In a L).
Proof. intros Inv. split; [apply (list_node_in _ _ _ _ _ Inv) | apply (in_list_node _ _ _ _ _ Inv)]. Qed.

(** ** States that differ by their counters *)

Lemma same_content_refl s : same_content s s.
Proof. unfold same_content. repeat split. Qed.

Lemma same_content_trans s1 s2 s3 :
  same_content s1 s2 -> same_content s2 s3 -> same_content s1 s3.
Proof.
  unfold same_content. intros H1 H2.
  destruct H1 as (A1 & A2 & A3 & A4 & A5 & A6 & A7 & A8 & A9 & A10 & A11 & A12).
  destruct H2 as (B1 & B2 & B3 & B4 & B5 & B6 & B7 & B8 & B9 & B10 & B11 & B12).
  repeat split; congruence.
Qed.

Lemma same_table_content s s' : same_table s s' -> same_content s s'.
Proof.
  unfold same_table, same_content.
  intros (A1 & A2 & A3 & A4 & A5 & A6 & A7 & A8 & A9 & A10 & A11 & A12 & A13 & A14).
  repeat split; assumption.
Qed.

Lemma table_inv_content D R s s' L :
  same_content s s' -> counters_ok s' -> table_inv D R s L -> table_inv D R s' L.
Proof.
  intros (A1 & A2 & A3 & A4 & A5 & A6 & A7 & A8 & A9 & A10 & A11 & A12) Hc Inv.
  apply (table_inv_frame D R s s' L Inv); try assumption.
  - intros a _. rewrite A9. reflexivity.
  - intros a _. rewrite A10. reflexivity.
  - intros idx _. rewrite A2. reflexivity.
  - destruct (inv_size _ _ _ _ Inv) as [Hk HD]. split; rewrite A1; assumption.
Qed.

Lemma same_content_same_nodes P s s' : same_content s s' -> same_nodes P s s'.
Proof.
  intros (A1 & A2 & A3 & A4 & A5 & A6 & A7 & A8 & A9 & A10 & A11 & A12).
  unfold same_nodes. do 6 (split; [assumption |]). intros a _.
  unfold attrs_eq, rh, nxt. rewrite A9, A10. repeat split; auto.
Qed.

Lemma queue_resize_work_counters s : counters_ok s -> counters_ok (queue_resize_work s).
Proof. apply counters_ok_same, queue_resize_work_same. Qed.

Lemma cds_lfht_resize_lazy_count_same cfg s size count :
  same_table s (cds_lfht_resize_lazy_count cfg s size count).
Proof.
  unfold cds_lfht_resize_lazy_count.
  destruct (Z.land _ _ =? 0); [apply same_table_refl |].
  set (s1 := resize_target_update_count s count).
  assert (H1 : same_table s s1) by (unfold s1, resize_target_update_count, same_table; cbn; repeat split).
  destruct (t_resize_initiated s1 =? 0); [| exact H1].
  eapply same_table_trans; [exact H1 | apply queue_resize_work_same].
Qed.

Lemma ht_get_cpu_run cfg s cells :
  counters_ok s -> ht_percpu_count s = Some cells ->
  exists cpu, ht_get_cpu cfg s = Ok cpu /\
    (cpu < 0 \/ (0 <= cpu /\ (Z.to_nat cpu < length cells)%nat)).
Proof.
  intros (_ & Hm & Hc) Hcells. destruct (Hc _ Hcells) as [Hm0 Hlen].
  unfold ht_get_cpu. rewrite c_assert_true by (apply Z.geb_le; lia). cbn [bind].
  destruct (Z.ltb_spec (env_cpu s) 0) as [Hlt | Hge]; [eauto |].
  exists (Z.land (env_cpu s) (nr_cpus_mask s)). split; [reflexivity |]. right.
  destruct Hm as [Hm | (k & Hk & Hm)]; [lia |].
  rewrite Hm, land_mask_pow2 by lia.
  pose proof (Z.mod_pos_bound (env_cpu s) (2 ^ k) ltac:(lia)). split; [lia |].
  apply Nat2Z.inj_lt. rewrite Z2Nat.id by lia. lia.
Qed.

(** What the two counter updates keep. *)
Lemma ht_count_add_run cfg s size :
  counters_ok s ->
  exists s', ht_count_add cfg s size = Ok s' /\ same_content s s' /\ counters_ok s'.
Proof.
  intros Hc. unfold ht_count_add.
  destruct (ht_percpu_count s) as [cells |] eqn:Hcells;
    [| exists s; split; [reflexivity | split; [apply same_content_refl | exact Hc]]].
  destruct (ht_get_cpu_run cfg s cells Hc Hcells) as (cpu & -> & Hcpu). cbn [bind].
  destruct (Z.ltb_spec cpu 0) as [Hlt | Hge];
    [exists s; split; [reflexivity | split; [apply same_content_refl | exact Hc]] |].
  destruct Hcpu as [? | [_ Hlen]]; [lia |].
  destruct (lookup_lt_is_Some_2 cells (Z.to_nat cpu) Hlen) as [cell Hcell].
  rewrite Hcell. cbn [load bind].
  set (s1 := set_percpu_count _ s).
  assert (Hs1 : same_content s s1) by (unfold s1, same_content; cbn; repeat split).
  assert (Hc1 : counters_ok s1).
  { destruct Hc as (C1 & C2 & C3). unfold counters_ok, s1. cbn.
    split; [exact C1 |]. split; [exact C2 |]. intros cells' E. inversion E; subst cells'.
    rewrite length_insert. apply C3, Hcells. }
  destruct (Z.land _ _ =? 0); [| exists s1; auto].
  set (s2 := set_count _ s1).
  assert (Hs2 : same_content s s2) by (unfold s2, s1, same_content; cbn; repeat split).
  assert (Hc2 : counters_ok s2) by exact Hc1.
  destruct (Z.land _ _ =? 0); [| exists s2; auto].
  destruct (_ <? size); [exists s2; auto |].
  eexists. split; [reflexivity |]. split.
  - eapply same_content_trans; [exact Hs2 |].
    apply same_table_content, cds_lfht_resize_lazy_count_same.
  - eapply counters_ok_same; [apply cds_lfht_resize_lazy_count_same | exact Hc2].
Qed.

Lemma ht_count_del_run cfg s size :
  counters_ok s ->
  exists s', ht_count_del cfg s size = Ok s' /\ same_content s s' /\ counters_ok s'.
Proof.
  intros Hc. unfold ht_count_del.
  destruct (ht_percpu_count s) as [cells |] eqn:Hcells;
    [| exists s; split; [reflexivity | split; [apply same_content_refl | exact Hc]]].
  destruct (ht_get_cpu_run cfg s cells Hc Hcells) as (cpu & -> & Hcpu). cbn [bind].
  destruct (Z.ltb_spec cpu 0) as [Hlt | Hge];
    [exists s; split; [reflexivity | split; [apply same_content_refl | exact Hc]] |].
  destruct Hcpu as [? | [_ Hlen]]; [lia |].
  destruct (lookup_lt_is_Some_2 cells (Z.to_nat cpu) Hlen) as [cell Hcell].
  rewrite Hcell. cbn [load bind].
  set (s1 := set_percpu_count _ s).
  assert (Hs1 : same_content s s1) by (unfold s1, same_content; cbn; repeat split).
  assert (Hc1 : counters_ok s1).
  { destruct Hc as (C1 & C2 & C3). unfold counters_ok, s1. cbn.
    split; [exact C1 |]. split; [exact C2 |]. intros cells' E. inversion E; subst cells'.
    rewrite length_insert. apply C3, Hcells. }
  destruct (Z.land _ _ =? 0); [| exists s1; auto].
  set (s2 := set_count _ s1).
  assert (Hs2 : same_content s s2) by (unfold s2, s1, same_content; cbn; repeat split).
  assert (Hc2 : counters_ok s2) by exact Hc1.
  destruct (Z.land _ _ =? 0); [| exists s2; auto].
  destruct (_ >=? size); [exists s2; auto |].
  destruct (_ <? _); [exists s2; auto |].
  eexists. split; [reflexivity |]. split.
  - eapply same_content_trans; [exact Hs2 |].
    apply same_table_content, cds_lfht_resize_lazy_count_same.
  - eapply counters_ok_same; [apply cds_lfht_resize_lazy_count_same | exact Hc2].
Qed.

(** ** Lookup *)

Lemma table_ok_bucket cfg s L h :
  table_ok s L ->
  lookup_bucket cfg s (t_size s) h = Ok (daddr s (h mod t_size s)) /\
  0 <= h mod t_size s < t_size s.
Proof.
  intros Inv. destruct (table_ok_size _ _ Inv) as (k & Hk & Ek).
  assert (HD : forall idx, 0 <= idx < 2 ^ k -> 0 <= idx < t_size s)
    by (intros idx; rewrite Ek; auto).
  destruct (lookup_bucket_run cfg _ _ s L k h Inv Hk HD) as [H1 H2].
  cbv beta in H2. rewrite Ek in *. auto.
Qed.

Lemma lookup_run cfg s l1 mid tail key key_len fuel :
  let h := ulong (ht_hash_fct s key key_len (ht_hash_seed s)) in
  let r := bit_reverse_ulong h in
  table_ok s (l1 ++ daddr s (h mod t_size s) :: mid ++ tail) ->
  (forall x, In x mid -> lookup_class s key key_len r x = W_next) ->
  match tail with
  | [] => True
  | y :: _ => lookup_class s key key_len r y <> W_next
  end ->
  (length mid < fuel)%nat ->
  cds_lfht_lookup cfg fuel s key key_len = Ok (lookup_result_of s key key_len r tail).
Proof.
  intros h r Inv Hmid Htail Hfuel.
  set (d := daddr s (h mod t_size s)) in *.
  set (L := l1 ++ d :: mid ++ tail) in *.
  assert (Hind : In d L) by apply in_elt.
  unfold cds_lfht_lookup. fold h.
  rewrite (proj1 (table_ok_bucket cfg s L h Inv)). cbn [bind]. fold d.
  rewrite (inv_node _ _ _ _ Inv d Hind). cbn [load bind next]. fold r.
  destruct (inv_split _ _ _ _ Inv l1 d (mid ++ tail) eq_refl) as [_ Hseg].
  rewrite (lookup_walk_run s key key_len r tail mid (nxt s d) fuel); try assumption.
  - cbn [bind]. unfold lookup_result_of. destruct tail as [| y tl]; [reflexivity |].
    destruct (lookup_class s key key_len r y) eqn:Ec; try reflexivity.
    cbn [iter_node].
    assert (Hy : In y L).
    { unfold L. apply in_or_app. right. right. apply in_or_app. right. left. reflexivity. }
    rewrite (proj2 (Z.eqb_neq _ _) (inv_nonzero _ _ _ _ _ Inv Hy)).
    rewrite (inv_node _ _ _ _ Inv y Hy). cbn [load bind next].
    unfold lookup_class in Ec. destruct (rh s y >? r); [discriminate |].
    destruct (is_removed (nxt s y)); cbn [negb andb] in Ec; [discriminate |].
    destruct (is_dummy (nxt s y)); cbn [negb andb] in Ec; [discriminate |].
    rewrite c_assert_true by reflexivity. reflexivity.
  - intros x Hx. apply (inv_aligned _ _ _ _ Inv). unfold L.
    apply in_or_app. right. right. exact Hx.
  - intros x Hx Hdx. destruct (inv_user _ _ _ _ Inv x) as (kk & Hkk & _); eauto.
    unfold L. apply in_or_app. right. right. exact Hx.
Qed.

(** A lookup returns, whatever the table holds. *)
Lemma lookup_total cfg s L key key_len fuel :
  table_ok s L -> (length L < fuel)%nat ->
  exists it, cds_lfht_lookup cfg fuel s key key_len = Ok it /\
    (iter_node it = 0 \/
     (In (iter_node it) L /\ is_dummy (nxt s (iter_node it)) = false /\
      iter_next it = nxt s (iter_node it) /\
      rh s (iter_node it) =
        bit_reverse_ulong (ulong (ht_hash_fct s key key_len (ht_hash_seed s))) /\
      cmp_key s (iter_node it) key key_len = 0)).
Proof.
  intros Inv Hfuel.
  set (h := ulong (ht_hash_fct s key key_len (ht_hash_seed s))).
  set (r := bit_reverse_ulong h).
  destruct (table_ok_bucket cfg s L h Inv) as [_ Hidx].
  destruct (inv_bucket _ _ _ _ Inv _ Hidx) as (_ & _ & Hind & _).
  apply in_split in Hind as (l1 & rest & E).
  destruct (walk_split_exists (lookup_class s key key_len r) rest)
    as (mid & tail & Er & Hmid & Htail).
  subst rest. subst L.
  exists (lookup_result_of s key key_len r tail). split.
  - apply (lookup_run cfg s l1 mid tail key key_len fuel Inv Hmid Htail).
    rewrite !length_app in Hfuel. cbn in Hfuel. rewrite length_app in Hfuel. lia.
  - unfold lookup_result_of. destruct tail as [| y tl]; [left; reflexivity |].
    destruct (lookup_class s key key_len r y) eqn:Ec; try (left; reflexivity).
    right. cbn [iter_node iter_next].
    split; [apply in_or_app; right; right; apply in_or_app; right; left; reflexivity |].
    unfold lookup_class in Ec. destruct (rh s y >? r); [discriminate |].
    destruct (is_removed (nxt s y)); cbn [negb andb] in Ec; [discriminate |].
    destruct (is_dummy (nxt s y)); cbn [negb andb] in Ec; [discriminate |].
    destruct (Z.eqb_spec (rh s y) r); cbn [andb] in Ec; [| discriminate].
    destruct (Z.eqb_spec (cmp_key s y key key_len) 0); [| discriminate].
    auto.
Qed.

(** ** Writing the reverse hash of a node that is not linked *)

Lemma store_rh_frame s L node v :
  table_ok s L -> ~ In node L ->
  let s0 := set_mem (<[node := mk_node (nxt s node) v]> (mem s)) s in
  table_ok s0 L /\ rh s0 node = v /\ nxt s0 node = nxt s node /\
  (forall a, a <> node -> mem s0 !! a = mem s !! a) /\
  (forall a, In a L -> rh s0 a = rh s a /\ nxt s0 a = nxt s a).
Proof.
  intros Inv Hnin s0.
  assert (Ho : forall a, a <> node -> mem s0 !! a = mem s !! a).
  { intros a Ha. unfold s0. cbn. rewrite lookup_insert_ne by congruence. reflexivity. }
  assert (Hin : forall a, In a L -> a <> node) by (intros a Ha ->; auto).
  split; [| split; [| split; [| split]]].
  - apply (table_inv_frame _ _ s s0 L Inv); try reflexivity.
    + intros a Ha. apply Ho, Hin, Ha.
    + exact (inv_size _ _ _ _ Inv).
    + exact (inv_counters _ _ _ _ Inv).
  - unfold rh, s0. cbn. rewrite lookup_insert_eq. reflexivity.
  - unfold nxt at 1, s0. cbn. rewrite lookup_insert_eq. reflexivity.
  - exact Ho.
  - intros a Ha. unfold rh, nxt. rewrite (Ho a (Hin a Ha)). auto.
Qed.

Lemma table_ok_resize D s' L :
  (forall i, D i <-> 0 <= i < t_size s') ->
  table_inv D (fun _ => False) s' L -> table_ok s' L.
Proof.
  intros HD Inv. apply (table_inv_ext D _ (fun _ => False) (fun _ => False));
    [exact HD | reflexivity | exact Inv].
Qed.

Lemma rh_class_add s0 node x r :
  rh s0 node = r -> is_removed (nxt s0 x) = false ->
  add_class s0 node ADD_DEFAULT false x = rh_class s0 r x.
Proof.
  intros Hr Hx. unfold add_class, rh_class. rewrite Hr, Hx. cbn.
  destruct (rh s0 x >? r); reflexivity.
Qed.

Lemma uniq_class_add s0 node x r mode :
  rh s0 node = r -> is_removed (nxt s0 x) = false -> mode <> ADD_DEFAULT ->
  add_class s0 node mode false x = uniq_class s0 r node x.
Proof.
  intros Hr Hx Hm. unfold add_class, uniq_class. rewrite Hr, Hx. cbn [andb].
  destruct (rh s0 x >? r); [reflexivity |].
  destruct mode; [congruence | reflexivity | reflexivity].
Qed.

(** The bucket of the node to add, once its reverse hash is written. *)
Lemma add_bucket s0 L node kk :
  table_ok s0 L -> rh s0 node = bit_reverse_ulong (node_hash_of s0 kk) ->
  exists k, 0 <= k < 64 /\ t_size s0 = 2 ^ k /\
    daddr s0 (bit_reverse_ulong (rh s0 node) mod 2 ^ k) =
      daddr s0 (node_hash_of s0 kk mod t_size s0) /\
    rh s0 (daddr s0 (node_hash_of s0 kk mod t_size s0)) <= rh s0 node /\
    0 <= rh s0 node < 2 ^ 64.
Proof.
  intros Inv Hr. destruct (table_ok_size _ _ Inv) as (k & Hk & Ek).
  exists k. split; [exact Hk |]. split; [exact Ek |].
  pose proof (node_hash_of_range s0 kk) as Hh.
  rewrite Hr, bit_reverse_ulong_involutive by exact Hh. rewrite Ek.
  split; [reflexivity |]. split.
  - assert (HD : forall idx, 0 <= idx < 2 ^ k -> 0 <= idx < t_size s0)
      by (intros idx; rewrite Ek; auto).
    destruct (bucket_rh_le _ _ s0 L k (node_hash_of s0 kk) Inv Hk HD Hh) as (_ & _ & H & _).
    rewrite bit_reverse_ulong_involutive in H by exact Hh. exact H.
  - apply bit_reverse_ulong_range.
Qed.

Lemma ins_class_add s0 node x r mode :
  rh s0 node = r -> is_removed (nxt s0 x) = false ->
  add_class s0 node mode false x = ins_class s0 r node mode x.
Proof.
  intros Hr Hx. destruct mode; cbn [ins_class].
  - apply rh_class_add; assumption.
  - apply uniq_class_add; [assumption .. | discriminate].
  - apply uniq_class_add; [assumption .. | discriminate].
Qed.

Lemma ins_class_frame s s0 r node mode x :
  rh s0 x = rh s x -> nxt s0 x = nxt s x -> node_keys s0 = node_keys s ->
  ht_compare_fct s0 = ht_compare_fct s ->
  ins_class s0 r node mode x = ins_class s r node mode x.
Proof.
  intros H1 H2 H3 H4.
  unfold ins_class, rh_class, uniq_class, cmp_nodes. rewrite H1, H2, H3, H4.
  reflexivity.
Qed.

Section PublicAdd.

Variables (cfg : build) (s : state) (node : Z) (kk : Z * Z).

Let r := bit_reverse_ulong (node_hash_of s kk).
Let d := daddr s (node_hash_of s kk mod t_size s).
Let s0 := set_mem (<[node := mk_node (nxt s node) r]> (mem s)) s.

Hypothesis Hal : aligned node.
Hypothesis Hmem : is_Some (mem s !! node).
Hypothesis Hkey : node_keys s !! node = Some kk.

(** The first steps of the three add operations. *)
Lemma public_add_prefix :
  node_hash s node = Ok (node_hash_of s kk) /\
  store_reverse_hash node r s = Ok s0.
Proof.
  split.
  - unfold node_hash. rewrite Hkey. reflexivity.
  - apply store_reverse_hash_run, Hmem.
Qed.

Lemma add_insert_public l1 mid tail mode fuel :
  table_ok s (l1 ++ d :: mid ++ tail) ->
  ~ In node (l1 ++ d :: mid ++ tail) ->
  (forall x, In x mid -> ins_class s r node mode x = W_next) ->
  match tail with
  | [] => True
  | y :: _ => ins_class s r node mode y = W_stop
  end ->
  (length (l1 ++ d :: mid ++ tail) < fuel)%nat ->
  exists s1,
    _cds_lfht_add cfg fuel s0 (t_size s0) node mode false =
      Ok (s1, if add_mode_eqb mode ADD_REPLACE then 0 else node) /\
    table_ok s1 (l1 ++ d :: mid ++ node :: tail) /\
    same_nodes (fun a => a <> node) s s1 /\
    rh s1 node = r /\ is_dummy (nxt s1 node) = false /\
    is_removed (nxt s1 node) = false /\
    (forall a, is_Some (mem s1 !! a) <-> is_Some (mem s !! a)) /\
    node_keys s1 = node_keys s.
Proof.
  intros Inv Hnin Hmid Htail Hfuel.
  set (L := l1 ++ d :: mid ++ tail) in *.
  destruct (store_rh_frame s L node r Inv Hnin) as (Inv0 & Hr0 & Hn0 & Ho & Hin0).
  fold s0 in Inv0, Hr0, Hn0, Ho, Hin0.
  destruct (add_bucket s0 L node kk Inv0 Hr0) as (k & Hk & Ek & Hd & Hdle & Hrange).
  change (daddr s0 (node_hash_of s0 kk mod t_size s0)) with d in Hd, Hdle.
  assert (Hcl : forall x, In x L ->
            add_class s0 node mode false x = ins_class s r node mode x).
  { intros x Hx. rewrite (ins_class_add s0 node x r mode Hr0 (no_flag_in _ _ _ _ Inv0 Hx)).
    destruct (Hin0 x Hx) as [H1 H2]. apply ins_class_frame; auto. }
  assert (Hm0 : is_Some (mem s0 !! node)).
  { unfold s0. cbn. rewrite lookup_insert_eq. eauto. }
  destruct (add_run_insert cfg (fun idx => 0 <= idx < t_size s0)
              (fun idx => 0 <= idx < t_size s0) s0 l1 d mid tail node mode false k fuel
              Inv0 Hnin Hal Hm0 Hrange Hk)
    as (s1 & Hrun & Inv1 & Hsame & B1 & B2 & B3 & B4 & B5 & _); try assumption.
  { intros idx. rewrite Ek. auto. }
  { symmetry. exact Hd. }
  { intros _. unfold s0. cbn. rewrite Hkey. eauto. }
  { intros x Hx. rewrite Hcl; [apply Hmid, Hx |].
    unfold L. apply in_or_app. right. right. apply in_or_app. left. exact Hx. }
  { destruct tail as [| y tl]; [exact I |]. rewrite Hcl; [exact Htail |].
    unfold L. apply in_or_app. right. right. apply in_or_app. right. left. reflexivity. }
  { auto. }
  { discriminate. }
  { intros idx Hi. left. exact Hi. }
  { intros _. exists kk. split; [exact Hkey | exact Hr0]. }
  rewrite <- Ek in Hrun.
  exists s1. split; [exact Hrun |].
  destruct Hsame as (E1 & E2 & E3 & E4 & E5 & E6 & Hat).
  split.
  { apply (table_ok_resize (fun idx => 0 <= idx < t_size s0)); [| exact Inv1].
    intros i. rewrite E1. reflexivity. }
  split.
  { unfold same_nodes. do 6 (split; [assumption |]). intros a Ha.
    destruct (Hat a Ha) as (A1 & A2 & A3 & A4 & A5). unfold attrs_eq.
    rewrite A1, A2, A3, A4, A5. unfold rh, nxt. rewrite (Ho a Ha).
    split; [reflexivity |]. split; [reflexivity |]. split; [reflexivity |].
    split; reflexivity. }
  split; [rewrite B1; exact Hr0 |]. split; [exact B2 |]. split; [exact B3 |].
  split; [| exact B5].
  intros a. rewrite B4. destruct (Z.eq_dec a node) as [-> | Ha].
  - split; intros _; assumption.
  - rewrite (Ho a Ha). reflexivity.
Qed.


Lemma add_unique_hit_public l1 mid y tl fuel :
  table_ok s (l1 ++ d :: mid ++ y :: tl) ->
  ~ In node (l1 ++ d :: mid ++ y :: tl) ->
  (forall x, In x mid -> uniq_class s r node x = W_next) ->
  uniq_class s r node y = W_hit ->
  (length (l1 ++ d :: mid ++ y :: tl) < fuel)%nat ->
  exists s1,
    _cds_lfht_add cfg fuel s0 (t_size s0) node ADD_UNIQUE false = Ok (s1, y) /\
    same_table s0 s1.
Proof.
  intros Inv Hnin Hmid Hy Hfuel.
  set (L := l1 ++ d :: mid ++ y :: tl) in *.
  destruct (store_rh_frame s L node r Inv Hnin) as (Inv0 & Hr0 & Hn0 & Ho & Hin0).
  fold s0 in Inv0, Hr0, Hn0, Ho, Hin0.
  destruct (add_bucket s0 L node kk Inv0 Hr0) as (k & Hk & Ek & Hd & Hdle & Hrange).
  change (daddr s0 (node_hash_of s0 kk mod t_size s0)) with d in Hd, Hdle.
  assert (Hcl : forall x, In x L ->
            add_class s0 node ADD_UNIQUE false x = uniq_class s r node x).
  { intros x Hx.
    rewrite (ins_class_add s0 node x r ADD_UNIQUE Hr0 (no_flag_in _ _ _ _ Inv0 Hx)).
    destruct (Hin0 x Hx) as [H1 H2].
    apply (ins_class_frame s s0 r node ADD_UNIQUE); auto. }
  assert (Hm0 : is_Some (mem s0 !! node)).
  { unfold s0. cbn. rewrite lookup_insert_eq. eauto. }
  rewrite Ek.
  apply (add_run_unique cfg (fun idx => 0 <= idx < t_size s0) s0 l1 d mid y tl node k fuel
           Inv0 Hal Hm0 Hk); try assumption.
  - intros idx. rewrite Ek. auto.
  - symmetry. exact Hd.
  - unfold s0. cbn. rewrite Hkey. eauto.
  - intros x Hx. rewrite Hcl; [apply Hmid, Hx |].
    unfold L. apply in_or_app. right. right. apply in_or_app. left. exact Hx.
  - rewrite Hcl; [exact Hy |].
    unfold L. apply in_or_app. right. right. apply in_or_app. right. left. reflexivity.
Qed.

Lemma add_replace_hit_public l1 mid y tl fuel :
  table_ok s (l1 ++ d :: mid ++ y :: tl) ->
  ~ In node (l1 ++ d :: mid ++ y :: tl) ->
  (forall x, In x mid -> uniq_class s r node x = W_next) ->
  uniq_class s r node y = W_hit ->
  (S (length (l1 ++ d :: mid ++ y :: tl)) < fuel)%nat ->
  exists s1,
    _cds_lfht_add cfg fuel s0 (t_size s0) node ADD_REPLACE false = Ok (s1, y) /\
    table_ok s1 (l1 ++ d :: mid ++ node :: tl) /\
    nxt s1 y = flag_removed node /\
    same_nodes (fun a => a <> y /\ a <> node) s s1 /\
    rh s1 node = r /\ is_dummy (nxt s1 node) = false /\
    is_removed (nxt s1 node) = false /\
    (forall a, is_Some (mem s1 !! a) <-> is_Some (mem s !! a)) /\
    node_keys s1 = node_keys s.
Proof.
  intros Inv Hnin Hmid Hy Hfuel.
  set (L := l1 ++ d :: mid ++ y :: tl) in *.
  destruct (store_rh_frame s L node r Inv Hnin) as (Inv0 & Hr0 & Hn0 & Ho & Hin0).
  fold s0 in Inv0, Hr0, Hn0, Ho, Hin0.
  destruct (add_bucket s0 L node kk Inv0 Hr0) as (k & Hk & Ek & Hd & Hdle & Hrange).
  change (daddr s0 (node_hash_of s0 kk mod t_size s0)) with d in Hd, Hdle.
  assert (Hcl : forall x, In x L ->
            add_class s0 node ADD_REPLACE false x = uniq_class s r node x).
  { intros x Hx.
    rewrite (ins_class_add s0 node x r ADD_REPLACE Hr0 (no_flag_in _ _ _ _ Inv0 Hx)).
    destruct (Hin0 x Hx) as [H1 H2].
    apply (ins_class_frame s s0 r node ADD_REPLACE); auto. }
  assert (Hm0 : is_Some (mem s0 !! node)).
  { unfold s0. cbn. rewrite lookup_insert_eq. eauto. }
  destruct (add_run_replace cfg (fun idx => 0 <= idx < t_size s0) s0 l1 d mid y tl node k fuel
           Inv0 Hnin Hal Hm0 Hk)
    as (s1 & Hrun & Inv1 & Hnx & Hsame & B1 & B2 & B3 & B4 & B5); try assumption.
  { intros idx. rewrite Ek. auto. }
  { symmetry. exact Hd. }
  { exists kk. split; [exact Hkey | exact Hr0]. }
  { intros x Hx. rewrite Hcl; [apply Hmid, Hx |].
    unfold L. apply in_or_app. right. right. apply in_or_app. left. exact Hx. }
  { rewrite Hcl; [exact Hy |].
    unfold L. apply in_or_app. right. right. apply in_or_app. right. left. reflexivity. }
  rewrite <- Ek in Hrun.
  exists s1. split; [exact Hrun |].
  destruct Hsame as (E1 & E2 & E3 & E4 & E5 & E6 & Hat).
  split.
  { apply (table_ok_resize (fun idx => 0 <= idx < t_size s0)); [| exact Inv1].
    intros i. rewrite E1. reflexivity. }
  split; [exact Hnx |].
  split.
  { unfold same_nodes. do 6 (split; [assumption |]). intros a Ha.
    destruct (Hat a Ha) as (A1 & A2 & A3 & A4 & A5). unfold attrs_eq.
    rewrite A1, A2, A3, A4, A5. unfold rh, nxt. rewrite (Ho a (proj2 Ha)).
    split; [reflexivity |]. split; [reflexivity |]. split; [reflexivity |].
    split; reflexivity. }
  split; [rewrite B1; exact Hr0 |]. split; [exact B2 |]. split; [exact B3 |].
  split; [| exact B5].
  intros a. rewrite B4. destruct (Z.eq_dec a node) as [-> | Ha].
  - split; intros _; assumption.
  - rewrite (Ho a Ha). reflexivity.
Qed.

End PublicAdd.

(** ** The counters do not touch the nodes *)

Lemma same_content_rh s s' a : same_content s s' -> rh s' a = rh s a.
Proof. intros (_ & _ & _ & _ & _ & _ & _ & _ & E & _). unfold rh. rewrite E. reflexivity. Qed.

Lemma same_content_nxt s s' a : same_content s s' -> nxt s' a = nxt s a.
Proof. intros (_ & _ & _ & _ & _ & _ & _ & _ & E & _). unfold nxt. rewrite E. reflexivity. Qed.

Lemma same_content_mem s s' : same_content s s' -> mem s' = mem s.
Proof. intros (_ & _ & _ & _ & _ & _ & _ & _ & E & _). exact E. Qed.

Lemma same_content_keys s s' : same_content s s' -> node_keys s' = node_keys s.
Proof. intros (_ & _ & _ & _ & _ & _ & _ & _ & _ & E & _). exact E. Qed.

Lemma same_content_size s s' : same_content s s' -> t_size s' = t_size s.
Proof. intros (E & _). exact E. Qed.

Lemma table_ok_content s s' L :
  same_content s s' -> counters_ok s' -> table_ok s L -> table_ok s' L.
Proof.
  intros Hc Hk Inv. apply (table_ok_resize (fun idx => 0 <= idx < t_size s)).
  - intros i. rewrite (same_content_size _ _ Hc). reflexivity.
  - apply (table_inv_content _ _ s); assumption.
Qed.

Lemma node_added_content s s1 s2 node r :
  node_added s s1 node r -> same_content s1 s2 -> node_added s s2 node r.
Proof.
  intros (A1 & A2 & A3 & A4 & A5 & A6) Hc. unfold node_added.
  rewrite (same_content_rh _ _ _ Hc), (same_content_nxt _ _ _ Hc),
    (same_content_keys _ _ Hc), (same_content_mem _ _ Hc).
  split; [| auto].
  apply (same_nodes_trans (fun a => a <> node) _ s s1 s2); [auto | exact A1 |].
  apply same_content_same_nodes, Hc.
Qed.

Lemma node_replaced_content s s1 s2 old node r :
  node_replaced s s1 old node r -> same_content s1 s2 -> node_replaced s s2 old node r.
Proof.
  intros (A0 & A1 & A2 & A3 & A4 & A5 & A6) Hc. unfold node_replaced.
  rewrite (same_content_rh _ _ _ Hc), !(same_content_nxt _ _ _ Hc),
    (same_content_keys _ _ Hc), (same_content_mem _ _ Hc).
  split; [exact A0 |]. split; [| auto].
  apply (same_nodes_trans (fun a => a <> old /\ a <> node) _ s s1 s2); [auto | exact A1 |].
  apply same_content_same_nodes, Hc.
Qed.

Lemma node_deleted_content s s1 s2 x :
  node_deleted s s1 x -> same_content s1 s2 -> node_deleted s s2 x.
Proof.
  intros (A1 & A2 & A3 & A4 & A5 & A6) Hc. unfold node_deleted.
  rewrite (same_content_rh _ _ _ Hc), !(same_content_nxt _ _ _ Hc),
    (same_content_keys _ _ Hc), (same_content_mem _ _ Hc).
  split; [| auto].
  apply (same_nodes_trans (fun a => a <> x) _ s s1 s2); [auto | exact A1 |].
  apply same_content_same_nodes, Hc.
Qed.

(** ** The add operations *)

Section PublicOps.

Variables (cfg : build) (s : state) (node : Z) (kk : Z * Z).

Let r := bit_reverse_ulong (node_hash_of s kk).
Let d := daddr s (node_hash_of s kk mod t_size s).

Hypothesis Hal : aligned node.
Hypothesis Hmem : is_Some (mem s !! node).
Hypothesis Hkey : node_keys s !! node = Some kk.

Lemma cds_lfht_add_run l1 mid tail fuel :
  table_ok s (l1 ++ d :: mid ++ tail) ->
  ~ In node (l1 ++ d :: mid ++ tail) ->
  (forall x, In x mid -> rh_class s r x = W_next) ->
  match tail with
  | [] => True
  | y :: _ => rh_class s r y = W_stop
  end ->
  (length (l1 ++ d :: mid ++ tail) < fuel)%nat ->
  exists s',
    cds_lfht_add cfg fuel s node = Ok s' /\
    table_ok s' (l1 ++ d :: mid ++ node :: tail) /\
    node_added s s' node r.
Proof.
  intros Inv Hnin Hmid Htail Hfuel.
  destruct (public_add_prefix s node kk Hmem Hkey) as [Hh Hst].
  destruct (add_insert_public cfg s node kk Hal Hmem Hkey l1 mid tail ADD_DEFAULT fuel
              Inv Hnin Hmid Htail Hfuel) as (s1 & Hrun & Inv1 & Hadd).
  destruct (ht_count_add_run cfg s1 (t_size s) (inv_counters _ _ _ _ Inv1))
    as (s2 & Hcnt & Hc & Hk).
  exists s2. split.
  - unfold cds_lfht_add. rewrite Hh. cbn [bind]. rewrite Hst. cbn [bind].
    rewrite Hrun. cbn [bind fst]. exact Hcnt.
  - split; [apply (table_ok_content s1); assumption |].
    apply (node_added_content s s1); assumption.
Qed.

Lemma cds_lfht_add_unique_insert l1 mid tail fuel :
  table_ok s (l1 ++ d :: mid ++ tail) ->
  ~ In node (l1 ++ d :: mid ++ tail) ->
  (forall x, In x mid -> uniq_class s r node x = W_next) ->
  match tail with
  | [] => True
  | y :: _ => uniq_class s r node y = W_stop
  end ->
  (length (l1 ++ d :: mid ++ tail) < fuel)%nat ->
  exists s',
    cds_lfht_add_unique cfg fuel s node = Ok (s', node) /\
    table_ok s' (l1 ++ d :: mid ++ node :: tail) /\
    node_added s s' node r.
Proof.
  intros Inv Hnin Hmid Htail Hfuel.
  destruct (public_add_prefix s node kk Hmem Hkey) as [Hh Hst].
  destruct (add_insert_public cfg s node kk Hal Hmem Hkey l1 mid tail ADD_UNIQUE fuel
              Inv Hnin Hmid Htail Hfuel) as (s1 & Hrun & Inv1 & Hadd).
  destruct (ht_count_add_run cfg s1 (t_size s) (inv_counters _ _ _ _ Inv1))
    as (s2 & Hcnt & Hc & Hk).
  exists s2. split.
  - unfold cds_lfht_add_unique. rewrite Hh. cbn [bind]. rewrite Hst. cbn [bind].
    rewrite Hrun. cbn [bind add_mode_eqb]. rewrite Z.eqb_refl.
    cbn [set_mem t_size] in Hcnt |- *. rewrite Hcnt. reflexivity.
  - split; [apply (table_ok_content s1); assumption |].
    apply (node_added_content s s1); assumption.
Qed.

Lemma cds_lfht_add_unique_hit l1 mid y tl fuel :
  table_ok s (l1 ++ d :: mid ++ y :: tl) ->
  ~ In node (l1 ++ d :: mid ++ y :: tl) ->
  (forall x, In x mid -> uniq_class s r node x = W_next) ->
  uniq_class s r node y = W_hit ->
  (length (l1 ++ d :: mid ++ y :: tl) < fuel)%nat ->
  exists s',
    cds_lfht_add_unique cfg fuel s node = Ok (s', y) /\
    same_table (set_mem (<[node := mk_node (nxt s node) r]> (mem s)) s) s'.
Proof.
  intros Inv Hnin Hmid Hy Hfuel.
  destruct (public_add_prefix s node kk Hmem Hkey) as [Hh Hst].
  destruct (add_unique_hit_public cfg s node kk Hal Hkey l1 mid y tl fuel
              Inv Hnin Hmid Hy Hfuel) as (s1 & Hrun & Hs1).
  exists s1. split; [| exact Hs1].
  unfold cds_lfht_add_unique. rewrite Hh. cbn [bind]. rewrite Hst. cbn [bind].
  rewrite Hrun. cbn [bind].
  assert (Hne : y <> node).
  { intros ->. apply Hnin. apply in_or_app. right. right. apply in_or_app. right.
    left. reflexivity. }
  rewrite (proj2 (Z.eqb_neq _ _) Hne). reflexivity.
Qed.

Lemma cds_lfht_add_replace_insert l1 mid tail fuel :
  table_ok s (l1 ++ d :: mid ++ tail) ->
  ~ In node (l1 ++ d :: mid ++ tail) ->
  (forall x, In x mid -> uniq_class s r node x = W_next) ->
  match tail with
  | [] => True
  | y :: _ => uniq_class s r node y = W_stop
  end ->
  (length (l1 ++ d :: mid ++ tail) < fuel)%nat ->
  exists s',
    cds_lfht_add_replace cfg fuel s node = Ok (s', 0) /\
    table_ok s' (l1 ++ d :: mid ++ node :: tail) /\
    node_added s s' node r.
Proof.
  intros Inv Hnin Hmid Htail Hfuel.
  destruct (public_add_prefix s node kk Hmem Hkey) as [Hh Hst].
  destruct (add_insert_public cfg s node kk Hal Hmem Hkey l1 mid tail ADD_REPLACE fuel
              Inv Hnin Hmid Htail Hfuel) as (s1 & Hrun & Inv1 & Hadd).
  destruct (ht_count_add_run cfg s1 (t_size s) (inv_counters _ _ _ _ Inv1))
    as (s2 & Hcnt & Hc & Hk).
  exists s2. split.
  - unfold cds_lfht_add_replace. rewrite Hh. cbn [bind]. rewrite Hst. cbn [bind].
    rewrite Hrun. cbn [bind add_mode_eqb]. rewrite Z.eqb_refl.
    cbn [set_mem t_size] in Hcnt |- *. rewrite Hcnt. reflexivity.
  - split; [apply (table_ok_content s1); assumption |].
    apply (node_added_content s s1); assumption.
Qed.

Lemma cds_lfht_add_replace_hit l1 mid y tl fuel :
  table_ok s (l1 ++ d :: mid ++ y :: tl) ->
  ~ In node (l1 ++ d :: mid ++ y :: tl) ->
  (forall x, In x mid -> uniq_class s r node x = W_next) ->
  uniq_class s r node y = W_hit ->
  (S (length (l1 ++ d :: mid ++ y :: tl)) < fuel)%nat ->
  exists s',
    cds_lfht_add_replace cfg fuel s node = Ok (s', y) /\
    table_ok s' (l1 ++ d :: mid ++ node :: tl) /\
    node_replaced s s' y node r.
Proof.
  intros Inv Hnin Hmid Hy Hfuel.
  destruct (public_add_prefix s node kk Hmem Hkey) as [Hh Hst].
  destruct (add_replace_hit_public cfg s node kk Hal Hmem Hkey l1 mid y tl fuel
              Inv Hnin Hmid Hy Hfuel) as (s1 & Hrun & Inv1 & Hrep).
  exists s1. split; [| split; [exact Inv1 | exact Hrep]].
  unfold cds_lfht_add_replace. rewrite Hh. cbn [bind]. rewrite Hst. cbn [bind].
  rewrite Hrun. cbn [bind].
  assert (Hy0 : y <> 0).
  { apply (inv_nonzero _ _ _ _ y Inv). apply in_or_app. right. right.
    apply in_or_app. right. left. reflexivity. }
  rewrite (proj2 (Z.eqb_neq _ _) Hy0). reflexivity.
Qed.

End PublicOps.

(** ** Delete and replace *)

Lemma NoDup_split_eq (l1 l2 l1' l2' : list Z) x :
  List.NoDup (l1 ++ x :: l2) -> l1 ++ x :: l2 = l1' ++ x :: l2' ->
  l1 = l1' /\ l2 = l2'.
Proof.
  revert l1'. induction l1 as [| a l1 IH]; intros [| b l1'] Hnd HL; cbn in *.
  - inversion HL. auto.
  - inversion HL; subst. inversion Hnd; subst. exfalso. apply H1.
    apply in_or_app. right. left. reflexivity.
  - inversion HL; subst. inversion Hnd; subst. exfalso. apply H1.
    apply in_or_app. right. left. reflexivity.
  - inversion HL; subst. inversion Hnd; subst.
    destruct (IH l1' H3 H1) as [-> ->]. auto.
Qed.

Lemma cds_lfht_del_run cfg s l1 x l2 it fuel :
  table_ok s (l1 ++ x :: l2) -> is_dummy (nxt s x) = false ->
  iter_node it = x ->
  (length (l1 ++ x :: l2) < fuel)%nat ->
  exists s',
    cds_lfht_del cfg fuel s it = Ok (s', 0) /\
    table_ok s' (l1 ++ l2) /\
    node_deleted s s' x.
Proof.
  intros Inv Hxd Hit Hfuel.
  set (L := l1 ++ x :: l2) in *.
  assert (Hx : In x L) by apply in_elt.
  destruct (table_ok_size _ _ Inv) as (k & Hk & Ek).
  assert (HD : forall idx, 0 <= idx < 2 ^ k -> 0 <= idx < t_size s)
    by (intros idx; rewrite Ek; auto).
  destruct (user_bucket_before _ _ s L k x Inv Hk HD Hx Hxd) as (_ & _ & Hlt & HDx).
  destruct (del_run cfg _ s L x k false fuel Inv Hx Hxd Hk HD Hlt HDx Hfuel)
    as (s1 & l1' & l2' & Hrun & HL & Inv1 & B1 & B2 & B3 & B4 & B5 & B6 & B7).
  destruct (NoDup_split_eq l1 l2 l1' l2' x (inv_nodup _ _ _ _ Inv) HL) as [<- <-].
  assert (Inv1' : table_ok s1 (l1 ++ l2)).
  { apply (table_ok_resize (fun i => 0 <= i < t_size s /\ daddr s i <> x)); [| exact Inv1].
    destruct B1 as (E1 & _). rewrite E1. intros i. split; [tauto |].
    intros Hi. split; [exact Hi | apply HDx, Hi]. }
  destruct (ht_count_del_run cfg s1 (t_size s) (inv_counters _ _ _ _ Inv1'))
    as (s2 & Hcnt & Hc & Hco).
  exists s2. split.
  - unfold cds_lfht_del. rewrite Hit, Ek, Hrun. cbn [bind]. rewrite Z.eqb_refl.
    rewrite <- Ek, Hcnt. reflexivity.
  - split; [apply (table_ok_content s1); assumption |].
    apply (node_deleted_content s s1); [| exact Hc].
    exact (conj B1 (conj B2 (conj B3 (conj B4 (conj B6 B5))))).
Qed.


(** ** Counting the nodes *)

(** Distinct node addresses are fewer than [2^62]. *)
Lemma aligned_NoDup_length (l : list Z) :
  List.NoDup l -> (forall a, In a l -> aligned a) -> Z.of_nat (length l) < 2 ^ 62.
Proof.
  intros Hnd Hal.
  set (f := fun a : Z => Z.to_nat (a / 4)).
  assert (Hinj : forall x y, In x l -> In y l -> f x = f y -> x = y).
  { intros x y Hx Hy E. destruct (Hal x Hx) as [Hx1 Hx2]. destruct (Hal y Hy) as [Hy1 Hy2].
    unfold f in E. apply Z2Nat.inj in E; try (apply Z.div_pos; lia).
    rewrite (Z.div_mod x 4), (Z.div_mod y 4) by lia. rewrite E, Hx2, Hy2. reflexivity. }
  pose proof (@Finite.Injective_map_NoDup_in _ _ f l Hinj Hnd) as Hnd'.
  set (N := Z.to_nat (2 ^ 62 - 1)).
  assert (Hincl : List.incl (List.map f l) (List.seq 1 N)).
  { intros b Hb. apply List.in_map_iff in Hb as (a & <- & Ha).
    destruct (Hal a Ha) as [Ha1 Ha2]. apply List.in_seq. unfold f, N.
    assert (1 <= a / 4 < 2 ^ 62); [| lia].
    rewrite (Z.div_mod a 4) in Ha1 by lia. rewrite Ha2 in Ha1. lia. }
  pose proof (List.NoDup_incl_length Hnd' Hincl) as Hlen.
  rewrite List.length_map, List.length_seq in Hlen. unfold N in Hlen. lia.
Qed.

Lemma count_users_bounds s l : 0 <= count_users s l <= Z.of_nat (length l).
Proof.
  induction l as [| a l IH]; cbn [count_users length]; [lia |].
  destruct (is_dummy (nxt s a)); lia.
Qed.

Lemma count_users_app s l1 l2 :
  count_users s (l1 ++ l2) = count_users s l1 + count_users s l2.
Proof.
  induction l1 as [| a l1 IH]; cbn [count_users app]; [lia |]. rewrite IH. lia.
Qed.

Lemma count_users_ext s s' l :
  (forall a, In a l -> is_dummy (nxt s' a) = is_dummy (nxt s a)) ->
  count_users s' l = count_users s l.
Proof.
  induction l as [| a l IH]; intros H; cbn [count_users]; [reflexivity |].
  rewrite (H a (or_introl eq_refl)), IH; [reflexivity |].
  intros b Hb. apply H. right. exact Hb.
Qed.

Lemma count_nodes_walk_run s rm : forall l x c fuel,
  lseg (mem s) x (x :: l) 0 ->
  (forall a, In a (x :: l) -> aligned a /\ is_removed (nxt s a) = false) ->
  0 <= c -> c + count_users s (x :: l) < 2 ^ 64 ->
  (length l < fuel)%nat ->
  count_nodes_walk fuel s x c rm = Ok (c + count_users s (x :: l), rm).
Proof.
  induction l as [| y l IH]; intros x c fuel Hseg Hal Hc Hb Hfuel;
    (destruct fuel as [| fuel]; [cbn in Hfuel; lia |]);
    destruct Hseg as (_ & n & Hn & Hseg); cbn [count_nodes_walk];
    rewrite Hn; cbn [load bind];
    destruct (Hal x (or_introl eq_refl)) as [_ Hxr];
    rewrite (nxt_lookup _ _ _ Hn) in Hxr; rewrite Hxr;
    cbn [count_users] in *; rewrite (nxt_lookup _ _ _ Hn) in *;
    rewrite is_end_clear_flag.
  - cbn in Hseg.
    assert (He : is_end (next n) = true) by (unfold is_end; rewrite Hseg; reflexivity).
    rewrite He.
    destruct (is_dummy (next n)); cbn [negb]; f_equal; f_equal; rewrite ?ulong_small; lia.
  - pose proof (count_users_bounds s l) as Hcb.
    pose proof (count_users_bounds s (y :: l)) as Hcb'. cbn [count_users] in Hcb'.
    destruct Hseg as (Ey & Hseg').
    assert (Hne : is_end (next n) = false).
    { unfold is_end. rewrite Ey. apply Z.eqb_neq.
      destruct (Hal y (or_intror (or_introl eq_refl))) as [[H1 _] _].
      unfold END_VALUE. lia. }
    rewrite Hne, Ey.
    assert (Hys : lseg (mem s) y (y :: l) 0) by (split; [reflexivity | exact Hseg']).
    assert (Hal' : forall a, In a (y :: l) -> aligned a /\ is_removed (nxt s a) = false).
    { intros a Ha. apply Hal. right. exact Ha. }
    cbn [length] in Hfuel.
    destruct (is_dummy (next n)); cbn [negb]; cbv iota in Hb |- *.
    + rewrite (IH y c fuel Hys Hal' Hc); [f_equal; f_equal; cbn [count_users]; lia | | lia].
      cbn [count_users]. lia.
    + rewrite ulong_small by lia.
      rewrite (IH y (c + 1) fuel Hys Hal'); [f_equal; f_equal; cbn [count_users]; lia | lia | | lia].
      cbn [count_users]. lia.
Qed.

Lemma count_nodes_run s L fuel :
  table_ok s L -> (length L <= fuel)%nat ->
  cds_lfht_count_nodes fuel s = Ok (count_users s L, 0).
Proof.
  intros Inv Hfuel.
  destruct (inv_head _ _ _ _ Inv) as [L' EL].
  destruct (inv_bucket _ _ _ _ Inv 0 (inv_D0 _ _ _ _ Inv)) as (_ & [lv Hlv] & _).
  change (fls_ulong 0) with 0 in Hlv.
  unfold cds_lfht_count_nodes. rewrite Hlv. cbn [load bind].
  rewrite <- (daddr_0 _ _ Hlv).
  pose proof (inv_lseg _ _ _ _ Inv) as Hseg. rewrite EL in Hseg.
  pose proof (aligned_NoDup_length L (inv_nodup _ _ _ _ Inv) (inv_aligned _ _ _ _ Inv)) as Hlen.
  pose proof (count_users_bounds s L) as Hcb.
  rewrite (count_nodes_walk_run s 0 L' (daddr s 0) 0 fuel Hseg).
  - rewrite <- EL. reflexivity.
  - rewrite <- EL. intros a Ha. split; [apply (inv_aligned _ _ _ _ Inv), Ha |].
    apply (no_flag_in _ _ _ _ Inv), Ha.
  - lia.
  - rewrite <- EL. lia.
  - rewrite EL in Hfuel. cbn in Hfuel. lia.
Qed.

(** * Growing and shrinking the table *)

(** ** What a resize keeps *)

Lemma user_list_ext s s' l :
  (forall a, In a l -> is_dummy (nxt s' a) = is_dummy (nxt s a)) ->
  user_list s' l = user_list s l.
Proof.
  intros H. unfold user_list. apply List.filter_ext_in.
  intros a Ha. rewrite (H a Ha). reflexivity.
Qed.

Lemma user_list_in s l a :
  In a (user_list s l) <-> In a l /\ is_dummy (nxt s a) = false.
Proof.
  unfold user_list. rewrite List.filter_In, negb_true_iff. reflexivity.
Qed.

Lemma keeps_users_refl s L : keeps_users s s L L.
Proof. split; [reflexivity | intros a _; apply attrs_eq_refl]. Qed.

Lemma keeps_users_trans s1 s2 s3 L1 L2 L3 :
  keeps_users s1 s2 L1 L2 -> keeps_users s2 s3 L2 L3 -> keeps_users s1 s3 L1 L3.
Proof.
  intros [E1 A1] [E2 A2]. split; [congruence |].
  intros a Ha. apply (attrs_eq_trans s1 s2 s3); [apply A1, Ha |].
  apply A2. rewrite E1. exact Ha.
Qed.

Lemma keeps_users_frame s s' L :
  (forall a, In a L -> attrs_eq s s' a) -> keeps_users s s' L L.
Proof.
  intros H. split.
  - apply user_list_ext. intros a Ha. apply (H a Ha).
  - intros a Ha. apply H. apply user_list_in in Ha. tauto.
Qed.

(** Linking a dummy node keeps the user nodes. *)
Lemma keeps_users_insert_dummy s s' l1 l2 node :
  same_nodes (fun a => a <> node) s s' -> ~ In node (l1 ++ l2) ->
  is_dummy (nxt s' node) = true ->
  keeps_users s s' (l1 ++ l2) (l1 ++ node :: l2).
Proof.
  intros (_ & _ & _ & _ & _ & _ & Hat) Hnin Hd.
  assert (Hne : forall a, In a (l1 ++ l2) -> a <> node) by (intros a Ha ->; contradiction).
  split.
  - unfold user_list. rewrite !List.filter_app. cbn [List.filter]. rewrite Hd. cbn [negb].
    f_equal; apply List.filter_ext_in; intros a Ha.
    + destruct (Hat a) as (_ & E & _); [apply Hne, in_or_app; left; exact Ha |].
      rewrite E. reflexivity.
    + destruct (Hat a) as (_ & E & _); [apply Hne, in_or_app; right; exact Ha |].
      rewrite E. reflexivity.
  - intros a Ha. apply user_list_in in Ha as [Ha _]. apply Hat, Hne, Ha.
Qed.

(** Unlinking a dummy node keeps the user nodes. *)
Lemma keeps_users_remove_dummy s s' l1 l2 node :
  same_nodes (fun a => a <> node) s s' -> List.NoDup (l1 ++ node :: l2) ->
  is_dummy (nxt s node) = true ->
  keeps_users s s' (l1 ++ node :: l2) (l1 ++ l2).
Proof.
  intros (_ & _ & _ & _ & _ & _ & Hat) Hnd Hd.
  assert (Hne : forall a, In a (l1 ++ l2) -> a <> node).
  { intros a Ha ->. apply NoDup_remove_2 in Hnd. contradiction. }
  split.
  - unfold user_list. rewrite !List.filter_app. cbn [List.filter]. rewrite Hd. cbn [negb].
    f_equal; apply List.filter_ext_in; intros a Ha.
    + destruct (Hat a) as (_ & E & _); [apply Hne, in_or_app; left; exact Ha |].
      rewrite E. reflexivity.
    + destruct (Hat a) as (_ & E & _); [apply Hne, in_or_app; right; exact Ha |].
      rewrite E. reflexivity.
  - intros a Ha. apply user_list_in in Ha as [Ha Hda]. apply Hat.
    intros ->. rewrite Hd in Hda. discriminate.
Qed.

(** ** What the allocator promises *)

Lemma level_len_val i : 1 <= i < 64 -> level_len i = 2 ^ (i - 1).
Proof.
  intros Hi. unfold level_len. destruct (Z.eqb_spec i 0); [lia |].
  apply shl_1_small. lia.
Qed.

Lemma level_len_pos i : 0 <= i < 64 -> 0 < level_len i.
Proof.
  intros Hi. destruct (Z.eq_dec i 0) as [-> | Hne]; [reflexivity |].
  rewrite level_len_val by lia. apply pow2_pos. lia.
Qed.

Lemma alloc_ok_spec alloc s lo hi :
  alloc_ok alloc s lo hi <->
  forall i, lo <= i < hi ->
    alloc i = 0 \/
    (block_ok s (alloc i) (level_len i) /\
     forall i', lo <= i' < i -> alloc i' = 0 \/ blocks_apart alloc i i').
Proof.
  unfold alloc_ok. rewrite Forall_forall. split.
  - intros H i Hi. destruct (H i) as [H0 | [Hb Ha]]; [apply elem_of_seqZ; lia | auto |].
    right. split; [exact Hb |]. intros i' Hi'. rewrite Forall_forall in Ha.
    apply Ha. apply elem_of_seqZ. lia.
  - intros H i Hi. apply elem_of_seqZ in Hi.
    destruct (H i) as [H0 | [Hb Ha]]; [lia | auto |].
    right. split; [exact Hb |]. rewrite Forall_forall. intros i' Hi'.
    apply elem_of_seqZ in Hi'. apply Ha. lia.
Qed.

Lemma alloc_succeeds_spec alloc lo hi :
  alloc_succeeds alloc lo hi <-> forall i, lo <= i < hi -> alloc i <> 0.
Proof.
  unfold alloc_succeeds. rewrite Forall_forall. split.
  - intros H i Hi. apply H, elem_of_seqZ. lia.
  - intros H i Hi. apply elem_of_seqZ in Hi. apply H. lia.
Qed.

Lemma alloc_ok_from alloc s lo lo' hi :
  lo <= lo' -> alloc_ok alloc s lo hi -> alloc_ok alloc s lo' hi.
Proof.
  rewrite !alloc_ok_spec. intros Hlo H i Hi.
  destruct (H i ltac:(lia)) as [H0 | [Hb Ha]]; [auto |].
  right. split; [exact Hb |]. intros i' Hi'. apply Ha. lia.
Qed.

(** A block that fits has no wrap-around in the addresses of its nodes. *)
Lemma block_node_at s base len j :
  block_ok s base len -> 0 <= j < len ->
  node_at base j = base + sizeof_node * j /\ aligned (node_at base j) /\
  mem s !! node_at base j = None.
Proof.
  intros (Hb0 & Hb4 & Hfit & Hfresh) Hj. unfold sizeof_node in *.
  assert (E : node_at base j = base + 16 * j).
  { unfold node_at, sizeof_node. apply ulong_small. lia. }
  rewrite E. split; [reflexivity |]. split.
  - split; [lia |]. rewrite Z.add_mod, Hb4 by lia.
    replace (16 * j) with (4 * j * 4) by lia. rewrite Z.mod_mul by lia. reflexivity.
  - destruct (mem s !! (base + 16 * j)) as [n |] eqn:E'; [| reflexivity].
    specialize (Hfresh _ _ E'). cbv beta in Hfresh. lia.
Qed.

Lemma block_node_at_inj s base len j j' :
  block_ok s base len -> 0 <= j < len -> 0 <= j' < len ->
  node_at base j = node_at base j' -> j = j'.
Proof.
  intros Hb Hj Hj' E.
  destruct (block_node_at s base len j Hb Hj) as (E1 & _).
  destruct (block_node_at s base len j' Hb Hj') as (E2 & _).
  unfold sizeof_node in *. lia.
Qed.

(** ** Zeroed and freed blocks *)

Lemma zero_fill_other base n m a :
  (forall j, 0 <= j < Z.of_nat n -> a <> node_at base j) ->
  zero_fill base n m !! a = m !! a.
Proof.
  induction n as [| n IH]; intros H; cbn [zero_fill]; [reflexivity |].
  rewrite lookup_insert_ne.
  - apply IH. intros j Hj. apply H. lia.
  - intros E. apply (H (Z.of_nat n)); [lia | congruence].
Qed.

Lemma zero_fill_node base n m j :
  0 <= j < Z.of_nat n -> zero_fill base n m !! node_at base j = Some (mk_node 0 0).
Proof.
  induction n as [| n IH]; intros Hj; cbn [zero_fill]; [lia |].
  destruct (Z.eq_dec (node_at base (Z.of_nat n)) (node_at base j)) as [E | E].
  - rewrite E, lookup_insert_eq. reflexivity.
  - rewrite lookup_insert_ne by exact E. apply IH.
    assert (j <> Z.of_nat n) by congruence. lia.
Qed.

Lemma unmap_other base n m a :
  (forall j, 0 <= j < Z.of_nat n -> a <> node_at base j) ->
  unmap base n m !! a = m !! a.
Proof.
  induction n as [| n IH]; intros H; cbn [unmap]; [reflexivity |].
  rewrite lookup_delete_ne.
  - apply IH. intros j Hj. apply H. lia.
  - intros E. apply (H (Z.of_nat n)); [lia | congruence].
Qed.

Lemma unmap_node base n m j :
  0 <= j < Z.of_nat n -> unmap base n m !! node_at base j = None.
Proof.
  induction n as [| n IH]; intros Hj; cbn [unmap]; [lia |].
  destruct (Z.eq_dec (node_at base (Z.of_nat n)) (node_at base j)) as [E | E].
  - rewrite E, lookup_delete_eq. reflexivity.
  - rewrite lookup_delete_ne by exact E. apply IH.
    assert (j <> Z.of_nat n) by congruence. lia.
Qed.

(** Whether an address is that of a node of a block is decidable. *)
Lemma classic_node a base n :
  (exists j, 0 <= j < Z.of_nat n /\ a = node_at base j) \/
  (forall j, 0 <= j < Z.of_nat n -> a <> node_at base j).
Proof.
  induction n as [| n IH]; [right; intros j Hj; lia |].
  destruct IH as [(j & Hj & E) | Hno].
  - left. exists j. split; [lia | exact E].
  - destruct (Z.eq_dec a (node_at base (Z.of_nat n))) as [E | E].
    + left. exists (Z.of_nat n). split; [lia | exact E].
    + right. intros j Hj. destruct (Z.eq_dec j (Z.of_nat n)) as [-> | Hne]; [exact E |].
      apply Hno. lia.
Qed.

Lemma level_nbytes len :
  0 <= len -> sizeof_node * len < 2 ^ 64 ->
  Z.to_nat (ulong (len * sizeof_node) / sizeof_node) = Z.to_nat len.
Proof.
  intros H0 H. unfold sizeof_node in *. rewrite ulong_small by lia.
  rewrite Z.div_mul by lia. reflexivity.
Qed.

(** ** Loops over a range *)

Lemma for_range_app n1 n2 j body s :
  for_range (n1 + n2) j body s =
  (s' <- for_range n1 j body s;; for_range n2 (j + Z.of_nat n1) body s').
Proof.
  revert j s. induction n1 as [| n1 IH]; intros j s.
  - cbn. f_equal. lia.
  - cbn [Nat.add for_range]. destruct (body j s) as [s1 | |]; cbn [bind]; [| reflexivity ..].
    rewrite IH. replace (j + 1 + Z.of_nat n1) with (j + Z.of_nat (S n1)) by lia.
    reflexivity.
Qed.

Lemma for_range_inv (P : Z -> state -> Prop) body : forall n j s,
  P j s ->
  (forall j' s1, j <= j' < j + Z.of_nat n -> P j' s1 ->
     exists s2, body j' s1 = Ok s2 /\ P (j' + 1) s2) ->
  exists s', for_range n j body s = Ok s' /\ P (j + Z.of_nat n) s'.
Proof.
  induction n as [| n IH]; intros j s HP Hstep.
  - exists s. split; [reflexivity |]. replace (j + Z.of_nat 0) with j by lia. exact HP.
  - cbn [for_range]. destruct (Hstep j s ltac:(lia) HP) as (s1 & E1 & HP1).
    rewrite E1. cbn [bind].
    destruct (IH (j + 1) s1 HP1) as (s' & E' & HP').
    { intros j' s2 Hj'. apply Hstep. lia. }
    exists s'. split; [exact E' |].
    replace (j + Z.of_nat (S n)) with (j + 1 + Z.of_nat n) by lia. exact HP'.
Qed.

(** The partitions that [partition_resize_helper] hands to its threads
    make up the whole range. *)
Lemma for_range_partitions body plen : forall nthreads start s,
  0 <= start ->
  for_range nthreads start
    (fun thread s => for_range plen (thread * Z.of_nat plen) body s) s =
  for_range (nthreads * plen) (start * Z.of_nat plen) body s.
Proof.
  induction nthreads as [| n IH]; intros start s Hs; [reflexivity |].
  cbn [for_range Nat.mul]. rewrite for_range_app.
  destruct (for_range plen (start * Z.of_nat plen) body s) as [s1 | |]; cbn [bind];
    [| reflexivity ..].
  rewrite IH by lia. f_equal. lia.
Qed.

(** ** Linking the dummy node of one bucket *)

Lemma store_rh_frame_inv D R s L node v :
  table_inv D R s L -> ~ In node L ->
  let s0 := set_mem (<[node := mk_node (nxt s node) v]> (mem s)) s in
  table_inv D R s0 L /\ rh s0 node = v /\
  (forall a, a <> node -> mem s0 !! a = mem s !! a).
Proof.
  intros Inv Hnin s0.
  assert (Ho : forall a, a <> node -> mem s0 !! a = mem s !! a).
  { intros a Ha. unfold s0. cbn. rewrite lookup_insert_ne by congruence. reflexivity. }
  split; [| split; [| exact Ho]].
  - apply (table_inv_frame _ _ s s0 L Inv); try reflexivity.
    + intros a Ha. apply Ho. intros ->. auto.
    + exact (inv_size _ _ _ _ Inv).
    + exact (inv_counters _ _ _ _ Inv).
  - unfold rh, s0. cbn. rewrite lookup_insert_eq. reflexivity.
Qed.

Lemma add_class_default_dummy s node x :
  is_removed (nxt s x) = false ->
  add_class s node ADD_DEFAULT true x <> W_next ->
  add_class s node ADD_DEFAULT true x = W_stop.
Proof.
  unfold add_class. intros -> H.
  destruct (rh s x >? rh s node); [reflexivity |].
  destruct (true && _); [reflexivity |]. cbn in H |- *. contradiction.
Qed.

Lemma populate_step cfg s L i j base fuel :
  1 <= i < 61 -> 0 <= j < 2 ^ (i - 1) ->
  table_inv (fun idx => 0 <= idx < 2 ^ (i - 1) + j) (fun _ => False) s L ->
  t_tbl s !! i = Some base ->
  aligned (node_at base j) -> is_Some (mem s !! node_at base j) ->
  ~ In (node_at base j) L ->
  (length L < fuel)%nat ->
  exists s' l1 l2,
    (level <- load (t_tbl s !! i);;
     let new_node := node_at level j in
     s1 <- store_reverse_hash new_node (bit_reverse_ulong (level_hash i j)) s;;
     r <- _cds_lfht_add cfg fuel s1 (level_size i) new_node ADD_DEFAULT true;;
     Ok (fst r)) = Ok s' /\
    L = l1 ++ l2 /\
    table_inv (fun idx => 0 <= idx < 2 ^ (i - 1) + (j + 1)) (fun _ => False) s'
      (l1 ++ node_at base j :: l2) /\
    same_nodes (fun a => a <> node_at base j) s s' /\
    (forall a, is_Some (mem s' !! a) <-> is_Some (mem s !! a)) /\
    node_keys s' = node_keys s /\
    t_resize_target s <= t_resize_target s'.
Proof.
  intros Hi Hj Inv Htbl Han Hnm Hnin Hfuel.
  set (node := node_at base j) in *.
  set (D := fun idx => 0 <= idx < 2 ^ (i - 1) + j) in *.
  pose proof (pow2_pos (i - 1) ltac:(lia)) as Hp.
  assert (Hp60 : 2 ^ i <= 2 ^ 60) by (apply Z.pow_le_mono_r; lia).
  pose proof (pow2_double i ltac:(lia)) as Hdbl.
  rewrite Htbl. cbn [load bind]. fold node.
  rewrite store_reverse_hash_run by exact Hnm. cbn [bind].
  rewrite level_hash_val, level_size_val by lia.
  set (v := bit_reverse_ulong (2 ^ (i - 1) + j)).
  destruct (store_rh_frame_inv D _ s L node v Inv Hnin) as (Inv0 & Hr0 & Ho).
  set (s0 := set_mem _ s) in *.
  assert (Hm0 : is_Some (mem s0 !! node)).
  { unfold s0. cbn. rewrite lookup_insert_eq. eauto. }
  assert (HDj : D j) by (unfold D; lia).
  destruct (inv_bucket _ _ _ _ Inv0 j HDj) as (_ & _ & Hind & Hdd & Hdr).
  set (d := daddr s0 j) in *.
  apply in_split in Hind as (l1 & rest & EL).
  destruct (walk_split_exists (add_class s0 node ADD_DEFAULT true) rest)
    as (mid & tail & Er & Hmid & Htail).
  subst rest.
  assert (Hrange : 0 <= 2 ^ (i - 1) + j < 2 ^ 64).
  { assert (2 ^ 60 < 2 ^ 64) by (apply Z.pow_lt_mono_r; lia). lia. }
  assert (Hinv : bit_reverse_ulong (rh s0 node) = 2 ^ (i - 1) + j).
  { rewrite Hr0. unfold v. apply bit_reverse_ulong_involutive. exact Hrange. }
  assert (Hmod : (2 ^ (i - 1) + j) mod 2 ^ (i - 1) = j).
  { rewrite Z.add_comm, <- (Z.mul_1_l (2 ^ (i - 1))) at 1.
    rewrite Z.mod_add by lia. apply Z.mod_small. lia. }
  rewrite EL in Inv0, Hnin, Hfuel.
  destruct (add_run_insert cfg D (fun idx => 0 <= idx < 2 ^ (i - 1) + (j + 1))
              s0 l1 d mid tail node ADD_DEFAULT true (i - 1) fuel Inv0 Hnin Han Hm0)
    as (s1 & Hrun & Inv1 & Hsame & B1 & B2 & B3 & B4 & B5 & B6).
  { rewrite Hr0. apply bit_reverse_ulong_range. }
  { lia. }
  { intros idx Hidx. unfold D. lia. }
  { rewrite Hinv, Hmod. reflexivity. }
  { rewrite Hdr, Hr0. unfold v. apply Z.lt_le_incl, level_parent_lt; lia. }
  { congruence. }
  { exact Hmid. }
  { destruct tail as [| y tl]; [exact I |].
    apply add_class_default_dummy; [| exact Htail].
    apply (no_flag_in _ _ _ _ Inv0). apply in_or_app. right. right.
    apply in_or_app. right. left. reflexivity. }
  { intros idx Hidx. unfold D in Hidx. lia. }
  { intros _. exists (2 ^ (i - 1) + j). split; [lia |].
    symmetry. apply daddr_level; [lia | lia | exact Htbl]. }
  { intros idx Hidx. destruct (Z.eq_dec idx (2 ^ (i - 1) + j)) as [-> | Hne];
      [right | left; unfold D; lia].
    split; [lia |]. rewrite level_index_fls by lia.
    split; [unfold s0; cbn; rewrite Htbl; eauto |].
    split; [apply daddr_level; [lia | lia | exact Htbl] |].
    split; [reflexivity | exact Hr0]. }
  { discriminate. }
  { exact Hfuel. }
  exists s1, (l1 ++ d :: mid), tail.
  split; [rewrite Hrun; reflexivity |].
  split; [rewrite EL, <- app_assoc; reflexivity |].
  split; [rewrite <- app_assoc; exact Inv1 |].
  destruct Hsame as (E1 & E2 & E3 & E4 & E5 & E6 & Hat).
  split.
  { unfold same_nodes. do 6 (split; [assumption |]). intros a Ha.
    destruct (Hat a Ha) as (A1 & A2 & A3 & A4 & A5). unfold attrs_eq.
    rewrite A1, A2, A3, A4, A5. unfold rh, nxt. rewrite (Ho a Ha).
    split; [reflexivity |]. split; [reflexivity |]. split; [reflexivity |].
    split; reflexivity. }
  split.
  { intros a. rewrite B4. destruct (Z.eq_dec a node) as [-> | Ha].
    - split; intros _; assumption.
    - rewrite (Ho a Ha). reflexivity. }
  split; [exact B5 | exact B6].
Qed.

Lemma for_range_ext body body' : forall n j s,
  (forall j' s', j <= j' < j + Z.of_nat n -> body j' s' = body' j' s') ->
  for_range n j body s = for_range n j body' s.
Proof.
  induction n as [| n IH]; intros j s H; [reflexivity |].
  cbn [for_range]. rewrite H by lia.
  destruct (body' j s) as [s1 | |]; cbn [bind]; [| reflexivity ..].
  apply IH. intros j' s' Hj'. apply H. lia.
Qed.

Lemma shiftr_pow2 a b : 0 <= b <= a -> Z.shiftr (2 ^ a) b = 2 ^ (a - b).
Proof.
  intros H. rewrite Z.shiftr_div_pow2 by lia.
  replace a with ((a - b) + b) at 1 by lia. rewrite Z.pow_add_r by lia.
  apply Z.div_mul. apply Z.pow_nonzero; lia.
Qed.

(** With a number of processors that is a power of two, the threads of
    [partition_resize_helper] go together through the whole level. *)
Lemma partition_helper_whole s i e c fct (body : Z -> state -> result state) :
  (forall start len s0, fct i start len s0 = for_range (Z.to_nat len) start body s0) ->
  nr_cpus_mask s = 2 ^ c - 1 -> 0 <= c < 62 -> 13 <= e < 64 ->
  partition_resize_helper s i (2 ^ e) fct = for_range (Z.to_nat (2 ^ e)) 0 body s.
Proof.
  intros Hfct Hm Hc He. unfold partition_resize_helper. rewrite Hm.
  set (t := if 2 ^ c - 1 >? 0 then Z.min c (e - 12) else 0).
  assert (Ht : 0 <= t <= e - 12 /\
               (if 2 ^ c - 1 >? 0
                then Z.min (ulong (2 ^ c - 1 + 1))
                       (Z.shiftr (2 ^ e) MIN_PARTITION_PER_THREAD_ORDER)
                else 1) = 2 ^ t).
  { unfold t, MIN_PARTITION_PER_THREAD_ORDER.
    destruct (Z.gtb_spec (2 ^ c - 1) 0) as [Hgt | Hle]; [| split; [lia | reflexivity]].
    split; [lia |]. rewrite shiftr_pow2 by lia.
    replace (2 ^ c - 1 + 1) with (2 ^ c) by lia.
    rewrite ulong_small by (pose proof (pow2_lt_64 c ltac:(lia)); lia).
    destruct (Z.le_ge_cases c (e - 12)) as [H | H].
    - rewrite !Z.min_l; [reflexivity | lia | apply Z.pow_le_mono_r; lia].
    - rewrite !Z.min_r; [reflexivity | lia | apply Z.pow_le_mono_r; lia]. }
  destruct Ht as [Ht ->].
  rewrite get_count_order_ulong_pow2 by lia. rewrite shiftr_pow2 by lia.
  pose proof (pow2_pos t ltac:(lia)) as Hpt.
  pose proof (pow2_pos (e - t) ltac:(lia)) as Hpe.
  assert (Hprod : 2 ^ t * 2 ^ (e - t) = 2 ^ e).
  { rewrite <- Z.pow_add_r by lia. f_equal. lia. }
  rewrite (for_range_ext _
             (fun thread s => for_range (Z.to_nat (2 ^ (e - t)))
                                (thread * Z.of_nat (Z.to_nat (2 ^ (e - t)))) body s)).
  - rewrite for_range_partitions by lia.
    rewrite <- Z2Nat.inj_mul, Hprod by lia. reflexivity.
  - intros j' s' Hj'. rewrite Hfct. rewrite Z2Nat.id in * by lia. f_equal.
    apply ulong_small.
    assert (j' * 2 ^ (e - t) < 2 ^ t * 2 ^ (e - t)) by (apply Z.mul_lt_mono_pos_r; lia).
    assert (2 ^ e < 2 ^ 64) by (apply Z.pow_lt_mono_r; lia). lia.
Qed.

(** ** Populating a level *)

Lemma populate_partition_run cfg s L i base fuel :
  1 <= i < 61 ->
  table_inv (fun idx => 0 <= idx < 2 ^ (i - 1)) (fun _ => False) s L ->
  t_tbl s !! i = Some base ->
  (forall j, 0 <= j < 2 ^ (i - 1) ->
     aligned (node_at base j) /\ is_Some (mem s !! node_at base j) /\
     ~ In (node_at base j) L) ->
  (forall j j', 0 <= j < 2 ^ (i - 1) -> 0 <= j' < 2 ^ (i - 1) ->
     node_at base j = node_at base j' -> j = j') ->
  Z.of_nat (length L) + 2 ^ (i - 1) <= Z.of_nat fuel \/ 2 ^ 62 <= Z.of_nat fuel ->
  exists s' L',
    init_table_populate_partition cfg fuel i 0 (2 ^ (i - 1)) s = Ok s' /\
    table_inv (fun idx => 0 <= idx < 2 ^ i) (fun _ => False) s' L' /\
    Z.of_nat (length L') = Z.of_nat (length L) + 2 ^ (i - 1) /\
    same_nodes (fun a => forall j, 0 <= j < 2 ^ (i - 1) -> a <> node_at base j) s s' /\
    (forall a, is_Some (mem s' !! a) <-> is_Some (mem s !! a)) /\
    node_keys s' = node_keys s /\
    t_resize_target s <= t_resize_target s' /\
    keeps_users s s' L L'.
Proof.
  intros Hi Inv Htbl Hnodes Hinj Hfuel.
  pose proof (pow2_pos (i - 1) ltac:(lia)) as Hp.
  set (len := 2 ^ (i - 1)) in *.
  set (P := fun (j : Z) (s1 : state) =>
    exists L1,
      table_inv (fun idx => 0 <= idx < len + j) (fun _ => False) s1 L1 /\
      Z.of_nat (length L1) = Z.of_nat (length L) + j /\
      (forall j', j <= j' < len -> ~ In (node_at base j') L1) /\
      same_nodes (fun a => forall j, 0 <= j < len -> a <> node_at base j) s s1 /\
      (forall a, is_Some (mem s1 !! a) <-> is_Some (mem s !! a)) /\
      node_keys s1 = node_keys s /\
      t_resize_target s <= t_resize_target s1 /\
      keeps_users s s1 L L1).
  unfold init_table_populate_partition.
  destruct (for_range_inv P
    (fun j s0 =>
       level <- load (t_tbl s0 !! i);;
       let new_node := node_at level j in
       s1 <- store_reverse_hash new_node (bit_reverse_ulong (level_hash i j)) s0;;
       r <- _cds_lfht_add cfg fuel s1 (level_size i) new_node ADD_DEFAULT true;;
       Ok (fst r)) (Z.to_nat len) 0 s) as (s' & Hrun & HP).
  - exists L. split; [| split; [lia | split; [| split; [apply same_nodes_refl | split; [reflexivity | split; [reflexivity | split; [lia | apply keeps_users_refl]]]]]]].
    + apply (table_inv_ext (fun idx => 0 <= idx < len) _ (fun _ => False) (fun _ => False));
        [intros idx; lia | reflexivity | exact Inv].
    + intros j' Hj'. apply Hnodes. lia.
  - intros j s1 Hj (L1 & Inv1 & Hlen1 & Hfr1 & Hsame1 & Hdom1 & Hk1 & Htg1 & Hku1).
    rewrite Z2Nat.id in Hj by lia.
    destruct (Hnodes j ltac:(lia)) as (Haj & Hmj & _).
    assert (Htbl1 : t_tbl s1 !! i = Some base).
    { destruct Hsame1 as (_ & -> & _). exact Htbl. }
    destruct (populate_step cfg s1 L1 i j base fuel Hi ltac:(lia) Inv1 Htbl1 Haj)
      as (s2 & l1 & l2 & Hstep & EL & Inv2 & Hsame2 & Hdom2 & Hk2 & Htg2).
    { rewrite Hdom1. exact Hmj. }
    { apply Hfr1. lia. }
    { apply Nat2Z.inj_lt. destruct Hfuel as [Hfuel | Hfuel]; [lia |].
      pose proof (aligned_NoDup_length L1 (inv_nodup _ _ _ _ Inv1)
                    (inv_aligned _ _ _ _ Inv1)). lia. }
    exists s2. split; [exact Hstep |].
    exists (l1 ++ node_at base j :: l2).
    split.
    { apply (table_inv_ext (fun idx => 0 <= idx < 2 ^ (i - 1) + (j + 1)) _
               (fun _ => False) (fun _ => False)); [intros idx; unfold len; lia | reflexivity | exact Inv2]. }
    split.
    { rewrite length_app. cbn [length]. rewrite EL, length_app in Hlen1. lia. }
    split.
    { intros j' Hj' Hin. apply in_middle in Hin as [E | Hin].
      - apply Hinj in E; lia.
      - apply (Hfr1 j' ltac:(lia)). rewrite EL. exact Hin. }
    split.
    { apply (same_nodes_trans (fun a => forall j, 0 <= j < len -> a <> node_at base j)
               _ s s1 s2); [auto | exact Hsame1 |].
      apply (same_nodes_weaken (fun a => a <> node_at base j)); [| exact Hsame2].
      intros a Ha. apply Ha. lia. }
    split; [intros a; rewrite Hdom2; apply Hdom1 |].
    split; [congruence |]. split; [lia |].
    apply (keeps_users_trans s s1 s2 L L1 _ Hku1). rewrite EL.
    apply keeps_users_insert_dummy; [exact Hsame2 | rewrite <- EL; apply Hfr1; lia |].
    assert (HD : 0 <= 2 ^ (i - 1) + j < 2 ^ (i - 1) + (j + 1)) by lia.
    destruct (inv_bucket _ _ _ _ Inv2 _ HD) as (_ & _ & _ & Hd & _).
    assert (Htbl2 : t_tbl s2 !! i = Some base).
    { destruct Hsame2 as (_ & -> & _). exact Htbl1. }
    rewrite (daddr_level s2 i j base) in Hd by (lia || exact Htbl2). exact Hd.
  - destruct HP as (L' & Inv' & Hlen' & _ & Hsame' & Hdom' & Hk' & Htg' & Hku').
    rewrite Z2Nat.id in * by lia.
    exists s', L'. split; [exact Hrun |].
    split.
    { apply (table_inv_ext (fun idx => 0 <= idx < len + (0 + len)) _
               (fun _ => False) (fun _ => False)); [| reflexivity | exact Inv'].
      intros idx. unfold len. rewrite (pow2_double i) by lia. lia. }
    split; [lia |]. auto 10.
Qed.

(** [init_table_populate] runs its partitions one after the other, which
    comes to one pass over the level. *)
Lemma init_table_populate_whole cfg fuel s i e :
  counters_ok s -> 0 <= e < 64 ->
  init_table_populate cfg fuel s i (2 ^ e) =
  init_table_populate_partition cfg fuel i 0 (2 ^ e) s.
Proof.
  intros (_ & Hm & _) He. unfold init_table_populate.
  rewrite c_assert_true.
  2: { apply negb_true_iff, Z.eqb_neq. destruct Hm as [-> | (c & Hc & ->)]; [lia |].
       pose proof (pow2_pos c ltac:(lia)). lia. }
  cbn [bind].
  destruct ((nr_cpus_mask s <? 0) || (2 ^ e <? 2 * MIN_PARTITION_PER_THREAD)) eqn:E;
    [reflexivity |].
  apply orb_false_iff in E as [E1 E2].
  apply Z.ltb_ge in E1, E2.
  destruct Hm as [Hm | (c & Hc & Hm)]; [lia |].
  assert (He13 : 13 <= e).
  { destruct (Z.lt_ge_cases e 13) as [Hlt | Hge]; [| exact Hge].
    assert (2 ^ e <= 2 ^ 12) by (apply Z.pow_le_mono_r; lia).
    change (2 * MIN_PARTITION_PER_THREAD) with (2 * 2 ^ 12) in E2. lia. }
  apply (partition_helper_whole s i e c _ _ (fun _ _ _ => eq_refl) Hm Hc). lia.
Qed.

Lemma alloc_ok_next alloc s s' i hi :
  alloc_ok alloc s i hi -> alloc i <> 0 ->
  (forall a, is_Some (mem s' !! a) ->
     is_Some (mem s !! a) \/
     exists j, 0 <= j < level_len i /\ a = alloc i + sizeof_node * j) ->
  alloc_ok alloc s' (i + 1) hi.
Proof.
  rewrite !alloc_ok_spec. intros H Hi Hdom i2 Hi2.
  destruct (H i2 ltac:(lia)) as [H0 | [(B1 & B2 & B3 & B4) Ha]]; [auto |].
  right. split; [| intros i' Hi'; apply Ha; lia].
  split; [exact B1 |]. split; [exact B2 |]. split; [exact B3 |].
  apply map_Forall_lookup. intros a n Hn.
  destruct (Hdom a ltac:(eauto)) as [[n' Hn'] | (j & Hj & ->)].
  - apply (B4 a n' Hn').
  - destruct (Ha i ltac:(lia)) as [? | Hap]; [contradiction |].
    unfold blocks_apart, sizeof_node in *. lia.
Qed.

Lemma fls_below i idx : 1 <= i <= 64 -> 0 <= idx < 2 ^ (i - 1) -> fls_ulong idx <> i.
Proof.
  intros Hi Hidx. pose proof (fls_ulong_lt_pow2 idx (i - 1) ltac:(lia) Hidx). lia.
Qed.

(** One more level: the array is allocated, its dummy nodes are linked,
    and the size is doubled. *)
Lemma init_table_level cfg alloc s L i fuel :
  1 <= i < 64 -> table_ok s L -> t_size s = 2 ^ (i - 1) ->
  block_ok s (alloc i) (level_len i) ->
  Z.of_nat (length L) + 2 ^ (i - 1) <= Z.of_nat fuel \/ 2 ^ 62 <= Z.of_nat fuel ->
  exists s' L',
    init_table_populate cfg fuel
      (calloc_level (alloc i) (level_len i) (set_tbl (<[i := alloc i]> (t_tbl s)) s))
      i (level_len i) = Ok s' /\
    table_ok (set_size (2 ^ i) s') L' /\
    Z.of_nat (length L') = Z.of_nat (length L) + 2 ^ (i - 1) /\
    (forall a, is_Some (mem s' !! a) <->
       is_Some (mem s !! a) \/
       exists j, 0 <= j < level_len i /\ a = alloc i + sizeof_node * j) /\
    node_keys s' = node_keys s /\
    t_resize_target s <= t_resize_target s' /\
    ht_hash_fct s' = ht_hash_fct s /\ ht_compare_fct s' = ht_compare_fct s /\
    ht_hash_seed s' = ht_hash_seed s /\ ht_flags s' = ht_flags s /\
    keeps_users s s' L L'.
Proof.
  intros Hi Inv Hsz Hblock Hfuel.
  rewrite level_len_val in * by lia.
  pose proof (pow2_pos (i - 1) ltac:(lia)) as Hp.
  assert (Hi61 : i < 61).
  { destruct Hblock as (B1 & _ & B3 & _). unfold sizeof_node in B3.
    destruct (Z.lt_ge_cases i 61) as [H | H]; [exact H |].
    assert (2 ^ 60 <= 2 ^ (i - 1)) by (apply Z.pow_le_mono_r; lia).
    change (2 ^ 64) with (16 * 2 ^ 60) in B3. lia. }
  set (base := alloc i) in *. set (len := 2 ^ (i - 1)) in *.
  set (sa := calloc_level base len (set_tbl (<[i := base]> (t_tbl s)) s)).
  assert (Hn : Z.to_nat (ulong (len * sizeof_node) / sizeof_node) = Z.to_nat len).
  { apply level_nbytes; [lia |]. destruct Hblock as (B1 & _ & B3 & _). lia. }
  assert (Hma : mem sa = zero_fill base (Z.to_nat len) (mem s)).
  { unfold sa, calloc_level. cbn. rewrite Hn. reflexivity. }
  assert (Hnode : forall j, 0 <= j < len ->
            node_at base j = base + sizeof_node * j /\ aligned (node_at base j) /\
            mem s !! node_at base j = None /\
            mem sa !! node_at base j = Some (mk_node 0 0)).
  { intros j Hj. destruct (block_node_at s base len j Hblock Hj) as (E1 & E2 & E3).
    split; [exact E1 |]. split; [exact E2 |]. split; [exact E3 |].
    rewrite Hma. apply zero_fill_node. lia. }
  assert (Hold : forall a, is_Some (mem s !! a) -> mem sa !! a = mem s !! a).
  { intros a [n Ha]. rewrite Hma. apply zero_fill_other. intros j Hj E.
    destruct (Hnode j ltac:(lia)) as (_ & _ & E3 & _). rewrite <- E, Ha in E3.
    discriminate. }
  assert (HinL : forall a, In a L -> is_Some (mem s !! a)).
  { intros a Ha. apply (inv_in_mem _ _ _ _ Inv), Ha. }
  assert (Inva : table_inv (fun idx => 0 <= idx < 2 ^ (i - 1)) (fun _ => False) sa L).
  { apply (table_inv_frame _ _ s sa L).
    - apply (table_inv_ext (fun idx => 0 <= idx < t_size s) _
               (fun _ => False) (fun _ => False)); [| reflexivity | exact Inv].
      intros idx. rewrite Hsz. reflexivity.
    - intros a Ha. apply Hold, HinL, Ha.
    - reflexivity.
    - intros idx Hidx. unfold sa. cbn. apply lookup_insert_ne.
      intros E. apply (fls_below i idx); [lia | exact Hidx | congruence].
    - reflexivity.
    - reflexivity.
    - split; [exists (i - 1); split; [lia | exact Hsz] |].
      intros idx. unfold sa. cbn. rewrite Hsz. auto.
    - exact (inv_counters _ _ _ _ Inv). }
  assert (Htbl : t_tbl sa !! i = Some base).
  { unfold sa. cbn. apply lookup_insert_eq. }
  fold sa. unfold len at 1.
  rewrite (init_table_populate_whole cfg fuel sa i (i - 1) (inv_counters _ _ _ _ Inva))
    by lia.
  destruct (populate_partition_run cfg sa L i base fuel ltac:(lia) Inva Htbl)
    as (s' & L' & Hrun & Inv' & Hlen' & Hsame' & Hdom' & Hk' & Htg' & Hku').
  { intros j Hj. destruct (Hnode j Hj) as (_ & E2 & E3 & E4).
    split; [exact E2 |]. split; [rewrite E4; eauto |].
    intros Hin. apply HinL in Hin. rewrite E3 in Hin. destruct Hin; discriminate. }
  { intros j j' Hj Hj' E. apply (block_node_at_inj s base len j j' Hblock Hj Hj' E). }
  { exact Hfuel. }
  exists s', L'. split; [exact Hrun |].
  destruct Hsame' as (E1 & E2 & E3 & E4 & E5 & E6 & _).
  split.
  { apply (table_inv_frame _ _ s' (set_size (2 ^ i) s') L'); try reflexivity.
    - exact Inv'.
    - split; [exists i; split; [lia | reflexivity] |]. intros idx Hidx. exact Hidx.
    - exact (inv_counters _ _ _ _ Inv'). }
  split; [exact Hlen' |].
  split.
  { intros a. rewrite Hdom', Hma. split.
    - intros Ha. destruct (mem s !! a) as [n |] eqn:Es; [left; eauto | right].
      destruct (classic_node a base (Z.to_nat len)) as [(j & Hj & ->) | Hno].
      + exists j. split; [lia |]. apply (Hnode j ltac:(lia)).
      + rewrite zero_fill_other, Es in Ha by exact Hno. destruct Ha; discriminate.
    - intros [Ha | (j & Hj & ->)].
      + rewrite <- Hma, Hold by exact Ha. exact Ha.
      + destruct (Hnode j Hj) as (E & _ & _ & En). rewrite <- E, <- Hma, En. eauto. }
  split; [exact Hk' |]. split; [exact Htg' |].
  do 4 (split; [assumption |]).
  apply (keeps_users_trans s sa s' L L L'); [| exact Hku'].
  apply keeps_users_frame. intros a Ha.
  pose proof (Hold a (HinL a Ha)) as Em.
  unfold attrs_eq, rh, nxt. rewrite Em.
  split; [reflexivity |]. split; [reflexivity |]. split; [reflexivity |].
  split; [reflexivity |]. rewrite <- Em. reflexivity.
Qed.

(** With a null level array, the first store of a reverse hash faults. *)
Lemma populate_null cfg fuel s i :
  0 <= i < 64 -> counters_ok s -> t_tbl s !! i = Some 0 -> mem s !! 0 = None ->
  init_table_populate cfg fuel s i (level_len i) = Abort.
Proof.
  intros Hi Hc Htbl Hm0.
  assert (He : exists e, 0 <= e < 64 /\ level_len i = 2 ^ e).
  { destruct (Z.eq_dec i 0) as [-> | Hne]; [exists 0; split; [lia | reflexivity] |].
    exists (i - 1). split; [lia | apply level_len_val; lia]. }
  destruct He as (e & He & ->).
  rewrite (init_table_populate_whole cfg fuel s i e Hc He).
  unfold init_table_populate_partition.
  pose proof (pow2_pos e ltac:(lia)) as Hp.
  destruct (Z.to_nat (2 ^ e)) as [| n] eqn:En; [lia |].
  cbn [for_range]. rewrite Htbl. cbn [load bind].
  unfold store_reverse_hash. change (node_at 0 0) with 0. rewrite Hm0. reflexivity.
Qed.

Lemma init_table_loop_run cfg alloc fuel : forall n i s L,
  1 <= i -> table_ok s L -> t_size s = 2 ^ (i - 1) -> mem s !! 0 = None ->
  alloc_ok alloc s i MAX_TABLE_ORDER ->
  Z.of_nat (length L) + 2 ^ (i + Z.of_nat n - 1) - 2 ^ (i - 1) <= Z.of_nat fuel \/
  2 ^ 62 <= Z.of_nat fuel ->
  match init_table_loop cfg n fuel alloc i s with
  | Ok s' =>
    exists L' j,
      table_ok s' L' /\ i <= j <= i + Z.of_nat n /\ t_size s' = 2 ^ (j - 1) /\
      mem s' !! 0 = None /\ alloc_ok alloc s' j MAX_TABLE_ORDER /\
      t_resize_target s <= t_resize_target s' /\
      (j < i + Z.of_nat n -> t_resize_target s' < 2 ^ j) /\
      node_keys s' = node_keys s /\
      (forall a, is_Some (mem s !! a) -> is_Some (mem s' !! a)) /\
      ht_hash_fct s' = ht_hash_fct s /\ ht_compare_fct s' = ht_compare_fct s /\
      ht_hash_seed s' = ht_hash_seed s /\ ht_flags s' = ht_flags s /\
      keeps_users s s' L L'
  | Abort => exists j, i <= j < i + Z.of_nat n /\ (MAX_TABLE_ORDER <= j \/ alloc j = 0)
  | OutOfFuel => False
  end.
Proof.
  induction n as [| n IH]; intros i s L Hi Inv Hsz Hm0 Hal Hfuel.
  - cbn [init_table_loop]. exists L, i.
    split; [exact Inv |]. split; [lia |]. split; [exact Hsz |]. split; [exact Hm0 |].
    split; [exact Hal |]. split; [lia |]. split; [lia |].
    do 6 (split; [auto |]). apply keeps_users_refl.
  - cbn [init_table_loop].
    change (if i =? 0 then 1 else shl 1 (i - 1)) with (level_len i).
    rewrite (proj2 (Z.eqb_neq i 0)) by lia.
    destruct (Z.lt_ge_cases i 64) as [Hi64 | Hi64].
    2: { destruct (t_resize_target s <? shl 1 i) eqn:Eb.
         - exists L, i. apply Z.ltb_lt in Eb.
           assert (E0 : shl 1 i = 0).
           { unfold shl, ulong. rewrite Z.shiftl_1_l.
             replace i with ((i - 64) + 64) by lia. rewrite Z.pow_add_r by lia.
             apply Z.mod_mul. lia. }
           rewrite E0 in Eb. pose proof (pow2_pos i ltac:(lia)).
           split; [exact Inv |]. split; [lia |]. split; [exact Hsz |]. split; [exact Hm0 |].
           split; [exact Hal |]. split; [lia |]. split; [lia |].
           do 6 (split; [auto |]). apply keeps_users_refl.
         - rewrite (proj2 (Z.ltb_ge i MAX_TABLE_ORDER)) by (unfold MAX_TABLE_ORDER; lia).
           cbn [negb]. exists i. split; [lia |]. left. unfold MAX_TABLE_ORDER. lia. }
    rewrite (shl_1_small i) by lia.
    destruct (Z.ltb_spec (t_resize_target s) (2 ^ i)) as [Hbr | Hbr].
    { exists L, i. split; [exact Inv |]. split; [lia |]. split; [exact Hsz |].
      split; [exact Hm0 |]. split; [exact Hal |]. split; [lia |]. split; [auto |].
      do 6 (split; [auto |]). apply keeps_users_refl. }
    rewrite (proj2 (Z.ltb_lt i MAX_TABLE_ORDER)) by (unfold MAX_TABLE_ORDER; lia).
    cbn [negb].
    pose proof (proj1 (alloc_ok_spec _ _ _ _) Hal i ltac:(unfold MAX_TABLE_ORDER; lia))
      as [H0 | [Hblock Hapart]].
    { rewrite H0. cbn [Z.eqb negb].
      unfold c_assert. destruct (NDEBUG cfg); cbn [bind].
      - rewrite populate_null; [| lia | exact (inv_counters _ _ _ _ Inv) | apply lookup_insert_eq | exact Hm0].
        cbn [bind]. exists i. split; [lia | right; exact H0].
      - exists i. split; [lia | right; exact H0]. }
    assert (Hnz : alloc i <> 0) by (destruct Hblock; lia).
    rewrite (proj2 (Z.eqb_neq _ _) Hnz).
    rewrite c_assert_true by reflexivity. cbn [bind].
    assert (Hpow : 2 ^ (i - 1) <= 2 ^ (i + Z.of_nat (S n) - 1) - 2 ^ (i - 1)).
    { assert (2 ^ i <= 2 ^ (i + Z.of_nat (S n) - 1)) by (apply Z.pow_le_mono_r; lia).
      rewrite (pow2_double i) in H by lia. lia. }
    destruct (init_table_level cfg alloc s L i fuel ltac:(lia) Inv Hsz Hblock ltac:(lia))
      as (s1 & L1 & Hrun & Inv1 & Hlen1 & Hdom1 & Hk1 & Htg1 & F1 & F2 & F3 & F4 & Hku1).
    rewrite Hrun. cbn [bind].
    set (s2 := set_size (2 ^ i) s1) in *.
    assert (Hd : ht_in_progress_destroy s2 = 0) by apply (inv_counters _ _ _ _ Inv1).
    rewrite Hd. cbn [Z.eqb negb].
    assert (Hm2 : mem s2 !! 0 = None).
    { destruct (mem s2 !! 0) as [n0 |] eqn:E0; [| reflexivity].
      destruct (proj1 (Hdom1 0) ltac:(eauto)) as [H | (j & Hj & E)].
      - rewrite Hm0 in H. destruct H; discriminate.
      - destruct Hblock as (B1 & _). unfold sizeof_node in E. lia. }
    assert (Hal2 : alloc_ok alloc s2 (i + 1) MAX_TABLE_ORDER).
    { apply (alloc_ok_next alloc s s2 i); [exact Hal | exact Hnz |].
      intros a Ha. apply Hdom1. exact Ha. }
    specialize (IH (i + 1) s2 L1 ltac:(lia) Inv1).
    replace (i + 1 - 1) with i in IH by lia.
    specialize (IH eq_refl Hm2 Hal2).
    replace (i + 1 + Z.of_nat n) with (i + Z.of_nat (S n)) in IH by lia.
    rewrite (pow2_double i) in IH by lia.
    specialize (IH ltac:(lia)).
    destruct (init_table_loop cfg n fuel alloc (i + 1) s2) as [s' | |]; [| | exact IH].
    + destruct IH as (L' & j & I1 & I2 & I3 & I4 & I5 & I6 & I7 & I8 & I9 & I10 & I11 & I12 & I13 & I14).
      exists L', j. split; [exact I1 |]. split; [lia |]. split; [exact I3 |].
      split; [exact I4 |]. split; [exact I5 |].
      unfold s2 in I6, I10, I11, I12, I13.
      cbn [set_size t_resize_target ht_hash_fct ht_compare_fct ht_hash_seed ht_flags]
        in I6, I10, I11, I12, I13.
      split; [lia |].
      split; [exact I7 |].
      split; [rewrite I8; exact Hk1 |].
      split; [intros a Ha; apply I9, Hdom1; left; exact Ha |].
      do 4 (split; [congruence |]).
      apply (keeps_users_trans s s2 s' L L1 L'); [| exact I14].
      apply (keeps_users_trans s s1 s2 L L1 L1 Hku1).
      apply keeps_users_frame. intros a _. unfold attrs_eq, s2. cbn.
      repeat split; auto.
    + destruct IH as (j & Hj & Hcase). exists j. split; [lia | exact Hcase].
Qed.

(** ** Creating a table *)

Lemma land_pred_pow2 x :
  0 < x -> Z.land x (x - 1) = 0 -> exists k, 0 <= k /\ x = 2 ^ k.
Proof.
  intros Hx Hl. exists (Z.log2 x). split; [apply Z.log2_nonneg |].
  pose proof (Z.log2_spec x Hx) as [Hlo Hhi].
  destruct (Z.eq_dec x (2 ^ Z.log2 x)) as [E | Hne]; [exact E | exfalso].
  assert (Hb1 : Z.testbit x (Z.log2 x) = true) by (apply Z.bit_log2; lia).
  assert (Hl2 : Z.log2 (x - 1) = Z.log2 x).
  { apply Z.log2_unique; [apply Z.log2_nonneg | lia]. }
  assert (Hb2 : Z.testbit (x - 1) (Z.log2 x) = true).
  { rewrite <- Hl2. apply Z.bit_log2.
    pose proof (pow2_pos (Z.log2 x) (Z.log2_nonneg x)). lia. }
  assert (Hb : Z.testbit (Z.land x (x - 1)) (Z.log2 x) = true)
    by (rewrite Z.land_spec, Hb1, Hb2; reflexivity).
  rewrite Hl, Z.bits_0 in Hb. discriminate.
Qed.

Lemma land_pow2_pred k : 0 <= k -> Z.land (2 ^ k) (2 ^ k - 1) = 0.
Proof. intros Hk. rewrite land_mask_pow2 by lia. apply Z.mod_same. apply Z.pow_nonzero; lia. Qed.

Lemma slong_small x : - 2 ^ 63 <= x < 2 ^ 63 -> slong x = x.
Proof. intros H. unfold slong. rewrite Z.mod_small by lia. lia. Qed.

Lemma alloc_per_cpu_counters s :
  nr_cpus_mask s = -1 -> env_nprocs s <= 2 ^ 61 -> ht_in_progress_destroy s = 0 ->
  let r := alloc_per_cpu_items_count s in
  counters_ok (set_percpu_count (snd r) (fst r)) /\
  fst r = set_nr_cpus_mask (nr_cpus_mask (fst r)) s.
Proof.
  intros Hm Hn Hd. unfold alloc_per_cpu_items_count. rewrite Hm. cbn [Z.eqb].
  change (-1 =? -2) with false. change (-1 =? -1) with true. cbv iota.
  destruct (Z.leb_spec (env_nprocs s) 0) as [H0 | H0].
  - cbn. split; [| reflexivity]. unfold counters_ok. cbn.
    split; [exact Hd |]. split; [left; reflexivity |]. discriminate.
  - pose proof (get_count_order_ulong_spec (ulong (env_nprocs s))) as Hg.
    rewrite ulong_small in * by lia. specialize (Hg ltac:(lia)).
    cbv zeta in Hg. destruct Hg as (Hg1 & Hg2 & Hg3).
    set (c := get_count_order_ulong (env_nprocs s)) in *.
    assert (Hc : c <= 61) by (apply Hg3; lia).
    assert (Hshl : slong (shl 1 c) = 2 ^ c).
    { rewrite shl_1_small by lia. apply slong_small.
      assert (2 ^ c <= 2 ^ 61) by (apply Z.pow_le_mono_r; lia).
      pose proof (pow2_pos c ltac:(lia)). lia. }
    cbn. rewrite Hshl. split; [| reflexivity]. unfold counters_ok. cbn.
    split; [exact Hd |]. split; [right; exists c; split; [lia | reflexivity] |].
    intros cells E. inversion E; subst cells.
    pose proof (pow2_pos c ltac:(lia)).
    split; [lia |]. rewrite repeat_length. lia.
Qed.

(** The first level holds the first dummy node alone. *)
Lemma init_level0 cfg alloc fuel s :
  mem s = ∅ -> node_keys s = ∅ -> counters_ok s ->
  block_ok s (alloc 0) 1 ->
  exists s1,
    init_table_populate cfg fuel
      (calloc_level (alloc 0) 1 (set_tbl (<[0 := alloc 0]> (t_tbl s)) s)) 0 1 = Ok s1 /\
    table_ok (set_size 1 s1) [alloc 0] /\
    (forall a, is_Some (mem s1 !! a) <-> a = alloc 0) /\
    node_keys s1 = ∅ /\ t_resize_target s1 = t_resize_target s /\
    t_tbl s1 = <[0 := alloc 0]> (t_tbl s) /\
    ht_hash_fct s1 = ht_hash_fct s /\ ht_compare_fct s1 = ht_compare_fct s /\
    ht_hash_seed s1 = ht_hash_seed s /\ ht_flags s1 = ht_flags s.
Proof.
  intros Hm Hk Hc Hblock.
  destruct (block_node_at s (alloc 0) 1 0 Hblock ltac:(lia)) as (E0 & Ha0 & _).
  replace (alloc 0 + sizeof_node * 0) with (alloc 0) in E0 by lia.
  rewrite E0 in Ha0.
  set (a0 := alloc 0) in *.
  set (sa := calloc_level a0 1 (set_tbl (<[0 := a0]> (t_tbl s)) s)).
  assert (Hma : mem sa = <[a0 := mk_node 0 0]> ∅).
  { unfold sa, calloc_level. cbn [mem set_mem set_tbl].
    change (Z.to_nat (ulong (1 * sizeof_node) / sizeof_node)) with 1%nat.
    cbn [zero_fill]. change (Z.of_nat 0) with 0. rewrite E0, Hm. reflexivity. }
  fold sa.
  change (init_table_populate cfg fuel sa 0 1)
    with (init_table_populate cfg fuel sa 0 (2 ^ 0)).
  rewrite (init_table_populate_whole cfg fuel sa 0 0 Hc) by lia.
  unfold init_table_populate_partition. change (Z.to_nat (2 ^ 0)) with 1%nat.
  cbn [for_range].
  assert (Htbl : t_tbl sa !! 0 = Some a0) by (unfold sa; cbn; apply lookup_insert_eq).
  rewrite Htbl. cbn [load bind]. rewrite E0.
  rewrite store_reverse_hash_run by (rewrite Hma, lookup_insert_eq; eauto).
  cbn [bind].
  change (bit_reverse_ulong (level_hash 0 0)) with 0.
  change (level_size 0) with 0.
  unfold _cds_lfht_add.
  rewrite !c_assert_true by
    (rewrite ?is_dummy_aligned, ?is_removed_aligned by exact Ha0; reflexivity).
  cbn [bind Z.eqb].
  rewrite store_next_run by (cbn; rewrite lookup_insert_eq; eauto).
  cbn [bind fst].
  assert (En : nxt sa a0 = 0) by (unfold nxt; rewrite Hma, lookup_insert_eq; reflexivity).
  rewrite En.
  set (s1 := set_mem _ (set_mem _ sa)).
  assert (Hm1 : mem s1 = <[a0 := mk_node (flag_dummy get_end) 0]> ∅).
  { unfold s1. cbn [mem set_mem]. rewrite Hma.
    unfold rh. cbn [mem set_mem]. rewrite lookup_insert_eq. cbn [reverse_hash].
    rewrite !insert_insert_eq. reflexivity. }
  assert (Hl1 : mem s1 !! a0 = Some (mk_node (flag_dummy get_end) 0))
    by (rewrite Hm1; apply lookup_insert_eq).
  assert (Hn1 : nxt s1 a0 = flag_dummy get_end) by (unfold nxt; rewrite Hl1; reflexivity).
  assert (Hr1 : rh s1 a0 = 0) by (unfold rh; rewrite Hl1; reflexivity).
  assert (Hd0 : daddr (set_size 1 s1) 0 = a0).
  { rewrite (daddr_0 _ a0); [exact E0 |]. unfold s1, sa. cbn. apply lookup_insert_eq. }
  exists s1. split; [reflexivity |].
  split.
  { constructor.
    - exists []. rewrite Hd0. reflexivity.
    - rewrite Hd0. cbn [lseg]. split; [reflexivity |].
      exists (mk_node (flag_dummy get_end) 0). split; [exact Hl1 | reflexivity].
    - constructor; [intros [] | constructor].
    - intros a [<- | []]. exact Ha0.
    - intros a [<- | []]. change (rh (set_size 1 s1) a0) with (rh s1 a0). rewrite Hr1. lia.
    - cbn. split; [intros b [] | exact I].
    - intros a [<- | []]. change (nxt (set_size 1 s1) a0) with (nxt s1 a0).
      rewrite Hn1. split; [discriminate | intros []].
    - intros a [<- | []] _. exists 0. split; [cbn; lia | symmetry; exact Hd0].
    - intros idx Hidx. cbn [t_size set_size] in Hidx. assert (idx = 0) by lia. subst idx.
      split; [lia |]. split; [unfold s1, sa; cbn; rewrite lookup_insert_eq; eauto |].
      rewrite Hd0. split; [left; reflexivity |].
      change (nxt (set_size 1 s1) a0) with (nxt s1 a0).
      change (rh (set_size 1 s1) a0) with (rh s1 a0). rewrite Hn1, Hr1.
      split; reflexivity.
    - intros a [<- | []]. change (nxt (set_size 1 s1) a0) with (nxt s1 a0).
      rewrite Hn1. discriminate.
    - split; [exists 0; split; [lia | reflexivity] |]. intros idx Hidx. exact Hidx.
    - exact Hc. }
  split.
  { intros a. rewrite Hm1. destruct (Z.eq_dec a a0) as [-> | Hne].
    - rewrite lookup_insert_eq. split; eauto.
    - rewrite lookup_insert_ne, lookup_empty by congruence.
      split; [intros [? ?]; discriminate | contradiction]. }
  split; [exact Hk |]. repeat split.
Qed.

Lemma cds_lfht_new_run cfg fuel alloc hash_fct compare_fct hash_seed init_size flags
  nprocs cpu k :
  0 <= k < 64 -> Z.max init_size MIN_TABLE_SIZE = 2 ^ k ->
  init_size = 0 \/ init_size = 2 ^ k ->
  nprocs <= 2 ^ 61 ->
  alloc_ok alloc (calloc_ht hash_fct compare_fct hash_seed (-1) nprocs cpu) 0
    MAX_TABLE_ORDER ->
  2 ^ k <= Z.of_nat fuel ->
  match _cds_lfht_new cfg fuel alloc hash_fct compare_fct hash_seed init_size flags
          (-1) nprocs cpu with
  | Ok (Some s) =>
    exists L, table_ok s L /\ mem s !! 0 = None /\ t_size s = 2 ^ k /\
      node_keys s = ∅ /\ ht_hash_fct s = hash_fct /\ ht_compare_fct s = compare_fct /\
      ht_hash_seed s = hash_seed /\ ht_flags s = flags
  | Ok None => False
  | Abort => exists j, 0 <= j <= k /\ alloc j = 0
  | OutOfFuel => False
  end.
Proof.
  intros Hk Hmax Hinit Hnp Hal Hfuel.
  pose proof (pow2_lt_64 k Hk) as Hp.
  unfold _cds_lfht_new.
  assert (Hguard : andb (negb (init_size =? 0))
                     (negb (Z.land init_size (ulong (init_size - 1)) =? 0)) = false).
  { destruct Hinit as [-> | ->]; [reflexivity |].
    rewrite size_mask, land_pow2_pred by lia. apply andb_false_r. }
  rewrite Hguard, Hmax.
  set (sc := calloc_ht hash_fct compare_fct hash_seed (-1) nprocs cpu) in *.
  destruct (alloc_per_cpu_counters sc eq_refl Hnp eq_refl) as [Hc Hsp].
  destruct (alloc_per_cpu_items_count sc) as [sp cells]. cbn [fst snd] in Hc, Hsp.
  rewrite get_count_order_ulong_pow2 by lia.
  rewrite (ulong_small (k + 1)) by lia.
  replace (k + 1 - 1) with k by lia. rewrite shl_1_small by lia.
  set (si := set_resize_target (2 ^ k) (set_flags flags (set_percpu_count cells sp))).
  assert (Hci : counters_ok si) by exact Hc.
  assert (Hmi : mem si = ∅) by (unfold si; rewrite Hsp; reflexivity).
  assert (Hki : node_keys si = ∅) by (unfold si; rewrite Hsp; reflexivity).
  unfold init_table. replace (Z.to_nat (k + 1)) with (S (Z.to_nat k)) by lia.
  cbn [init_table_loop Z.eqb].
  assert (Htg : (t_resize_target si <? 1) = false) by (apply Z.ltb_ge; cbn; lia).
  rewrite Htg. change (negb (0 <? MAX_TABLE_ORDER)) with false. cbv iota.
  pose proof (proj1 (alloc_ok_spec _ _ _ _) Hal 0 ltac:(unfold MAX_TABLE_ORDER; lia))
    as [H0 | [Hblock _]].
  { rewrite H0. cbn [Z.eqb negb].
    unfold c_assert. destruct (NDEBUG cfg); cbn [bind].
    - rewrite (populate_null cfg fuel _ 0); [| lia | exact Hci | apply lookup_insert_eq | ].
      + cbn [bind]. exists 0. split; [lia | exact H0].
      + change (mem si !! 0 = None). rewrite Hmi. apply lookup_empty.
    - exists 0. split; [lia | exact H0]. }
  assert (Hnz : alloc 0 <> 0) by (destruct Hblock; lia).
  rewrite (proj2 (Z.eqb_neq _ _) Hnz).
  rewrite c_assert_true by reflexivity. cbn [bind].
  assert (Hblock' : block_ok si (alloc 0) 1).
  { unfold block_ok in *. rewrite Hmi. exact Hblock. }
  destruct (init_level0 cfg alloc fuel si Hmi Hki Hci Hblock')
    as (s1 & Hrun & Inv1 & Hdom1 & Hk1 & Htg1 & Htb1 & F1 & F2 & F3 & F4).
  rewrite Hrun. cbn [bind].
  set (s2 := set_size 1 s1) in *.
  assert (Hd : ht_in_progress_destroy s2 = 0) by exact (proj1 (inv_counters _ _ _ _ Inv1)).
  rewrite Hd. cbn [Z.eqb negb Z.add].
  assert (Hm2 : mem s2 !! 0 = None).
  { destruct (mem s2 !! 0) as [n0 |] eqn:E0; [| reflexivity].
    assert (0 = alloc 0) by (apply Hdom1; eauto). congruence. }
  assert (Hal2 : alloc_ok alloc s2 (0 + 1) MAX_TABLE_ORDER).
  { apply (alloc_ok_next alloc sc s2 0); [exact Hal | exact Hnz |].
    intros a Ha. right. exists 0. split; [change (level_len 0) with 1; lia |].
    apply Hdom1 in Ha. unfold sizeof_node. lia. }
  pose proof (init_table_loop_run cfg alloc fuel (Z.to_nat k) 1 s2 [alloc 0]
                ltac:(lia) Inv1 eq_refl Hm2 Hal2) as Hloop.
  rewrite Z2Nat.id in Hloop by lia.
  replace (1 + k - 1) with k in Hloop by lia.
  specialize (Hloop ltac:(left; cbn [length]; change (2 ^ (1 - 1)) with 1; lia)).
  change (0 + 1) with 1 in *.
  destruct (init_table_loop cfg (Z.to_nat k) fuel alloc 1 s2) as [s' | |];
    cbn [bind]; [| | exact Hloop].
  - destruct Hloop as (L' & j & I1 & I2 & I3 & I4 & I5 & I6 & I7 & I8 & I9 & I10 & I11 & I12 & I13 & _).
    unfold s2 in I6, I8, I10, I11, I12, I13.
    cbn [set_size t_resize_target node_keys ht_hash_fct ht_compare_fct ht_hash_seed ht_flags]
      in I6, I8, I10, I11, I12, I13.
    assert (Etg : t_resize_target s1 = 2 ^ k) by (rewrite Htg1; reflexivity).
    assert (Hj : j = 1 + k).
    { destruct (Z.eq_dec j (1 + k)) as [E | Hne]; [exact E | exfalso].
      specialize (I7 ltac:(lia)).
      assert (2 ^ j <= 2 ^ k) by (apply Z.pow_le_mono_r; lia). lia. }
    subst j. replace (1 + k - 1) with k in I3 by lia.
    exists L'. split; [exact I1 |]. split; [exact I4 |]. split; [exact I3 |].
    split; [rewrite I8; exact Hk1 |].
    rewrite I10, I11, I12, I13, F1, F2, F3, F4. unfold si. rewrite Hsp. cbn.
    repeat split.
  - destruct Hloop as (j & Hj & [Hc64 | Hc0]); [unfold MAX_TABLE_ORDER in Hc64; lia |].
    exists j. split; [lia | exact Hc0].
Qed.

(** ** Unlinking the dummy nodes of a level *)

Lemma set_mem_id s : set_mem (mem s) s = s.
Proof. destruct s. reflexivity. Qed.

Lemma remove_step cfg s L i j base fuel :
  1 <= i < 64 -> 0 <= j < 2 ^ (i - 1) ->
  table_inv (fun idx => 0 <= idx < 2 ^ (i - 1) \/ 2 ^ (i - 1) + j <= idx < 2 ^ i)
    (fun _ => False) s L ->
  t_size s = 2 ^ (i - 1) -> t_tbl s !! i = Some base ->
  (length L < fuel)%nat ->
  exists s' l1 l2,
    (level <- load (t_tbl s !! i);;
     let fini_node := node_at level j in
     s1 <- store_reverse_hash fini_node (bit_reverse_ulong (level_hash i j)) s;;
     r <- _cds_lfht_del cfg fuel s1 (level_size i) fini_node true;;
     Ok (fst r)) = Ok s' /\
    L = l1 ++ node_at base j :: l2 /\
    table_inv (fun idx => 0 <= idx < 2 ^ (i - 1) \/ 2 ^ (i - 1) + (j + 1) <= idx < 2 ^ i)
      (fun _ => False) s' (l1 ++ l2) /\
    s' = set_mem (mem s') s /\
    (forall a, is_Some (mem s' !! a) <-> is_Some (mem s !! a)) /\
    same_nodes (fun a => a <> node_at base j) s s'.
Proof.
  intros Hi Hj Inv Hsz Htbl Hfuel.
  set (D := fun idx => 0 <= idx < 2 ^ (i - 1) \/ 2 ^ (i - 1) + j <= idx < 2 ^ i) in *.
  pose proof (pow2_pos (i - 1) ltac:(lia)) as Hp.
  pose proof (pow2_double i ltac:(lia)) as Hdbl.
  set (x := node_at base j).
  assert (HDx : D (2 ^ (i - 1) + j)) by (unfold D; lia).
  assert (Edx : daddr s (2 ^ (i - 1) + j) = x) by (apply daddr_level; [lia | lia | exact Htbl]).
  destruct (inv_bucket _ _ _ _ Inv _ HDx) as (Hr63 & _ & Hinx & Hxd & Hxr).
  rewrite Edx in Hinx, Hxd, Hxr.
  rewrite Htbl. cbn [load bind]. fold x.
  rewrite store_reverse_hash_run by (apply (inv_in_mem _ _ _ _ Inv), Hinx).
  cbn [bind].
  rewrite level_hash_val, level_size_val by lia.
  assert (Es : set_mem (<[x := mk_node (nxt s x) (bit_reverse_ulong (2 ^ (i - 1) + j))]>
                          (mem s)) s = s).
  { rewrite <- Hxr, insert_id by (apply (inv_node _ _ _ _ Inv), Hinx).
    apply set_mem_id. }
  rewrite Es.
  assert (Hrange : 0 <= 2 ^ (i - 1) + j < 2 ^ 64).
  { pose proof (pow2_lt_64 (i - 1) ltac:(lia)).
    assert (2 ^ i <= 2 ^ 64) by (apply Z.pow_le_mono_r; lia). lia. }
  assert (Hmod : (2 ^ (i - 1) + j) mod 2 ^ (i - 1) = j).
  { rewrite Z.add_comm, <- (Z.mul_1_l (2 ^ (i - 1))) at 1.
    rewrite Z.mod_add by lia. apply Z.mod_small. lia. }
  assert (HDj : D j) by (unfold D; lia).
  destruct (inv_bucket _ _ _ _ Inv _ HDj) as (_ & _ & _ & Hdd & Hdr).
  destruct (del_run cfg D s L x (i - 1) true fuel Inv Hinx Hxd)
    as (s' & l1 & l2 & Hrun & EL & Inv' & Hsame & _ & _ & _ & _ & Hdom & _ & Heq).
  { lia. }
  { intros idx Hidx. unfold D. lia. }
  { rewrite Hxr, bit_reverse_ulong_involutive, Hmod by exact Hrange.
    unfold skey. rewrite Hdd, Hxd, Hdr, Hxr.
    pose proof (level_parent_lt i j ltac:(lia) Hj). lia. }
  { intros idx Hidx E. rewrite Hsz in Hidx.
    assert (Hc : idx = 2 ^ (i - 1) + j).
    { apply (inv_daddr_inj _ _ _ _ Inv); [unfold D; lia | exact HDx | congruence]. }
    lia. }
  { exact Hfuel. }
  exists s', l1, l2. split; [rewrite Hrun; reflexivity |].
  split; [exact EL |]. split; [| split; [exact Heq | split; [exact Hdom | exact Hsame]]].
  apply (table_inv_ext (fun i0 => D i0 /\ daddr s i0 <> x) _
           (fun _ => False) (fun _ => False)); [| reflexivity | exact Inv'].
  intros idx. unfold D. split.
  - intros [Hd Hne]. destruct (Z.eq_dec idx (2 ^ (i - 1) + j)) as [-> | Hn];
      [contradiction | lia].
  - intros Hd. split; [lia |]. intros E.
    assert (Hc : idx = 2 ^ (i - 1) + j).
    { apply (inv_daddr_inj _ _ _ _ Inv); [unfold D; lia | exact HDx | congruence]. }
    lia.
Qed.

Lemma remove_table_whole cfg fuel s i e :
  counters_ok s -> 0 <= e < 64 ->
  remove_table cfg fuel s i (2 ^ e) = remove_table_partition cfg fuel i 0 (2 ^ e) s.
Proof.
  intros (_ & Hm & _) He. unfold remove_table.
  rewrite c_assert_true.
  2: { apply negb_true_iff, Z.eqb_neq. destruct Hm as [-> | (c & Hc & ->)]; [lia |].
       pose proof (pow2_pos c ltac:(lia)). lia. }
  cbn [bind].
  destruct ((nr_cpus_mask s <? 0) || (2 ^ e <? 2 * MIN_PARTITION_PER_THREAD)) eqn:E;
    [reflexivity |].
  apply orb_false_iff in E as [E1 E2].
  apply Z.ltb_ge in E1, E2.
  destruct Hm as [Hm | (c & Hc & Hm)]; [lia |].
  assert (He13 : 13 <= e).
  { destruct (Z.lt_ge_cases e 13) as [Hlt | Hge]; [| exact Hge].
    assert (2 ^ e <= 2 ^ 12) by (apply Z.pow_le_mono_r; lia).
    change (2 * MIN_PARTITION_PER_THREAD) with (2 * 2 ^ 12) in E2. lia. }
  apply (partition_helper_whole s i e c _ _ (fun _ _ _ => eq_refl) Hm Hc). lia.
Qed.

Lemma remove_partition_run cfg s L i base fuel :
  1 <= i < 64 ->
  table_inv (fun idx => 0 <= idx < 2 ^ i) (fun _ => False) s L ->
  t_size s = 2 ^ (i - 1) -> t_tbl s !! i = Some base ->
  (length L < fuel)%nat ->
  exists s' L',
    remove_table_partition cfg fuel i 0 (2 ^ (i - 1)) s = Ok s' /\
    table_inv (fun idx => 0 <= idx < 2 ^ (i - 1)) (fun _ => False) s' L' /\
    s' = set_mem (mem s') s /\
    (forall a, is_Some (mem s' !! a) <-> is_Some (mem s !! a)) /\
    (forall a, In a L' -> In a L) /\ (length L' <= length L)%nat /\
    (forall j, 0 <= j < 2 ^ (i - 1) -> ~ In (node_at base j) L') /\
    keeps_users s s' L L'.
Proof.
  intros Hi Inv Hsz Htbl Hfuel.
  pose proof (pow2_pos (i - 1) ltac:(lia)) as Hp.
  pose proof (pow2_double i ltac:(lia)) as Hdbl.
  set (len := 2 ^ (i - 1)) in *.
  set (P := fun (j : Z) (s1 : state) =>
    exists L1,
      table_inv (fun idx => 0 <= idx < len \/ len + j <= idx < 2 ^ i) (fun _ => False) s1 L1 /\
      s1 = set_mem (mem s1) s /\
      (forall a, is_Some (mem s1 !! a) <-> is_Some (mem s !! a)) /\
      (forall a, In a L1 -> In a L) /\ (length L1 <= length L)%nat /\
      (forall j', 0 <= j' < j -> ~ In (node_at base j') L1) /\
      keeps_users s s1 L L1).
  unfold remove_table_partition.
  destruct (for_range_inv P
    (fun j s0 =>
       level <- load (t_tbl s0 !! i);;
       let fini_node := node_at level j in
       s1 <- store_reverse_hash fini_node (bit_reverse_ulong (level_hash i j)) s0;;
       r <- _cds_lfht_del cfg fuel s1 (level_size i) fini_node true;;
       Ok (fst r)) (Z.to_nat len) 0 s) as (s' & Hrun & HP).
  - exists L. split; [| split; [symmetry; apply set_mem_id | split; [reflexivity | split; [auto | split; [lia | split; [intros j' Hj'; lia | apply keeps_users_refl]]]]]].
    apply (table_inv_ext (fun idx => 0 <= idx < 2 ^ i) _ (fun _ => False) (fun _ => False));
      [intros idx; lia | reflexivity | exact Inv].
  - intros j s1 Hj (L1 & Inv1 & Heq1 & Hdom1 & Hsub1 & Hlen1 & Hout1 & Hku1).
    rewrite Z2Nat.id in Hj by lia.
    assert (Hsz1 : t_size s1 = 2 ^ (i - 1)) by (rewrite Heq1; exact Hsz).
    assert (Htbl1 : t_tbl s1 !! i = Some base) by (rewrite Heq1; exact Htbl).
    destruct (remove_step cfg s1 L1 i j base fuel Hi ltac:(lia) Inv1 Hsz1 Htbl1 ltac:(lia))
      as (s2 & l1 & l2 & Hstep & EL & Inv2 & Heq2 & Hdom2 & Hsame2).
    assert (Hdx : is_dummy (nxt s1 (node_at base j)) = true).
    { assert (HD : 0 <= len + j < len \/ len + j <= len + j < 2 ^ i) by lia.
      destruct (inv_bucket _ _ _ _ Inv1 _ HD) as (_ & _ & _ & Hd & _).
      unfold len in Hd. rewrite (daddr_level s1 i j base) in Hd by (lia || exact Htbl1).
      exact Hd. }
    pose proof (inv_nodup _ _ _ _ Inv1) as Hnd1. rewrite EL in Hnd1.
    exists s2. split; [exact Hstep |].
    exists (l1 ++ l2).
    pose proof (inv_nodup _ _ _ _ Inv1) as Hnd. rewrite EL in Hnd.
    apply NoDup_remove_middle in Hnd as [Hnd Hnx].
    split; [exact Inv2 |].
    split; [rewrite Heq2, Heq1; reflexivity |].
    split; [intros a; rewrite Hdom2; apply Hdom1 |].
    split.
    { intros a Ha. apply Hsub1. rewrite EL. apply in_middle. right. exact Ha. }
    split.
    { rewrite EL in Hlen1. rewrite length_app in *. cbn [length] in Hlen1. lia. }
    split.
    { intros j' Hj' Hin. destruct (Z.eq_dec j' j) as [-> | Hne]; [contradiction |].
      apply (Hout1 j' ltac:(lia)). rewrite EL. apply in_middle. right. exact Hin. }
    apply (keeps_users_trans s s1 s2 L L1 _ Hku1). rewrite EL.
    apply keeps_users_remove_dummy; assumption.
  - destruct HP as (L' & Inv' & Heq' & Hdom' & Hsub' & Hlen' & Hout' & Hku').
    rewrite Z2Nat.id in * by lia.
    exists s', L'. split; [exact Hrun |].
    split.
    { apply (table_inv_ext (fun idx => 0 <= idx < len \/ len + (0 + len) <= idx < 2 ^ i) _
               (fun _ => False) (fun _ => False)); [| reflexivity | exact Inv'].
      intros idx. unfold len. lia. }
    split; [exact Heq' |]. split; [exact Hdom' |]. split; [exact Hsub' |].
    split; [exact Hlen' |]. split; [intros j Hj; apply Hout'; lia | exact Hku'].
Qed.

(** ** Shrinking *)

Lemma pending_free_frame s L level len :
  table_ok s L -> 0 <= len ->
  (forall j, 0 <= j < len -> ~ In (node_at level j) L) ->
  table_ok (free_level level len s) L /\
  (forall a, is_Some (mem (free_level level len s) !! a) -> is_Some (mem s !! a)) /\
  free_level level len s = set_mem (mem (free_level level len s)) s /\
  (forall a, In a L -> mem (free_level level len s) !! a = mem s !! a).
Proof.
  intros Inv Hlen Hout.
  set (n := Z.to_nat (ulong (len * sizeof_node) / sizeof_node)).
  assert (Hn : Z.of_nat n <= len).
  { unfold n, sizeof_node. pose proof (ulong_range (len * 16)).
    rewrite Z2Nat.id by (apply Z.div_pos; lia).
    apply Z.div_le_upper_bound; [lia |].
    unfold ulong. pose proof (Z.mod_le (len * 16) (2 ^ 64) ltac:(lia) ltac:(lia)). lia. }
  assert (Hm : mem (free_level level len s) = unmap level n (mem s)) by reflexivity.
  assert (Hkeep : forall a, In a L -> mem (free_level level len s) !! a = mem s !! a).
  { intros a Ha. rewrite Hm. apply unmap_other. intros j Hj ->.
    apply (Hout j ltac:(lia)), Ha. }
  split; [| split; [| split; [reflexivity | exact Hkeep]]].
  - apply (table_inv_frame _ _ s (free_level level len s) L Inv); try reflexivity.
    + intros a Ha. rewrite Hm. apply unmap_other. intros j Hj ->.
      apply (Hout j ltac:(lia)), Ha.
    + exact (inv_size _ _ _ _ Inv).
    + exact (inv_counters _ _ _ _ Inv).
  - intros a. rewrite Hm.
    destruct (classic_node a level n) as [(j & Hj & ->) | Hno].
    + rewrite unmap_node by exact Hj. intros [? ?]. discriminate.
    + rewrite unmap_other by exact Hno. auto.
Qed.

Lemma pending_free_opt s L free :
  table_ok s L ->
  match free with
  | Some (lv, ln) => 0 <= ln /\ forall j, 0 <= j < ln -> ~ In (node_at lv j) L
  | None => True
  end ->
  table_ok (free_by_rcu_opt free s) L /\
  (forall a, is_Some (mem (free_by_rcu_opt free s) !! a) -> is_Some (mem s !! a)) /\
  free_by_rcu_opt free s = set_mem (mem (free_by_rcu_opt free s)) s /\
  (forall a, In a L -> mem (free_by_rcu_opt free s) !! a = mem s !! a).
Proof.
  intros Inv Hfree. destruct free as [[lv ln] |].
  - destruct Hfree as [H0 Hout]. apply pending_free_frame; assumption.
  - cbn. split; [exact Inv |]. split; [auto |].
    split; [symmetry; apply set_mem_id | reflexivity].
Qed.

Lemma set_size_frame D R s L v :
  table_inv D R s L -> size_ok D (set_size v s) -> table_inv D R (set_size v s) L.
Proof.
  intros Inv Hs. apply (table_inv_frame _ _ s _ L Inv); try reflexivity.
  - exact Hs.
  - exact (inv_counters _ _ _ _ Inv).
Qed.

Lemma pow2_inj a b : 0 <= a -> 0 <= b -> 2 ^ a = 2 ^ b -> a = b.
Proof. intros Ha Hb E. apply (Z.pow_inj_r 2); lia. Qed.

Lemma fini_table_loop_run cfg fuel : forall n i free s L,
  Z.of_nat n <= i -> table_ok s L -> t_size s = 2 ^ i ->
  match free with
  | Some (lv, ln) => 0 <= ln /\ forall j, 0 <= j < ln -> ~ In (node_at lv j) L
  | None => True
  end ->
  t_resize_target s <= 2 ^ i -> (length L < fuel)%nat ->
  match fini_table_loop cfg n fuel i free s with
  | Ok (s', free') =>
    exists L',
      table_ok s' L' /\
      match free' with
      | Some (lv, ln) => 0 <= ln /\ forall j, 0 <= j < ln -> ~ In (node_at lv j) L'
      | None => True
      end /\
      s' = set_mem (mem s') (set_size (t_size s') s) /\
      t_resize_target s' <= t_size s' /\
      (forall a, is_Some (mem s' !! a) -> is_Some (mem s !! a)) /\
      (t_size s' = 2 ^ (i - Z.of_nat n) \/ t_size s' < 2 * t_resize_target s') /\
      keeps_users s s' L L'
  | _ => False
  end.
Proof.
  induction n as [| n IH]; intros i free s L Hn Inv Hsz Hfree Htg Hfuel.
  - cbn [fini_table_loop]. exists L. split; [exact Inv |]. split; [exact Hfree |].
    split; [destruct s; reflexivity |]. split; [lia |]. split; [auto |].
    split; [left; rewrite Hsz; f_equal; lia | apply keeps_users_refl].
  - cbn [fini_table_loop].
    change (if i =? 0 then 1 else shl 1 (i - 1)) with (level_len i).
    destruct (table_ok_size _ _ Inv) as (k & Hk & Ek).
    assert (k = i) by (apply pow2_inj; [lia | lia | congruence]). subst k.
    assert (Hi : 1 <= i < 64) by lia.
    rewrite (shl_1_small (i - 1)) by lia. rewrite level_len_val by lia.
    pose proof (pow2_pos (i - 1) ltac:(lia)) as Hp.
    pose proof (pow2_double i ltac:(lia)) as Hdbl.
    destruct (Z.gtb_spec (t_resize_target s) (2 ^ (i - 1))) as [Hbr | Hbr].
    { exists L. split; [exact Inv |]. split; [exact Hfree |].
      split; [destruct s; reflexivity |]. split; [lia |]. split; [auto |].
      split; [right; lia | apply keeps_users_refl]. }
    destruct (pending_free_opt s L free Inv Hfree) as (Invf & Hdomf & Heqf & Hkeepf).
    set (sf := free_by_rcu_opt free s) in *.
    assert (Esb : free_by_rcu_opt free (set_size (2 ^ (i - 1)) s) = set_size (2 ^ (i - 1)) sf).
    { unfold sf. destruct free as [[lv ln] |]; reflexivity. }
    rewrite Esb.
    set (sb := set_size (2 ^ (i - 1)) sf).
    assert (Invb : table_inv (fun idx => 0 <= idx < 2 ^ i) (fun _ => False) sb L).
    { apply set_size_frame.
      - apply (table_inv_ext (fun idx => 0 <= idx < t_size sf) _
                 (fun _ => False) (fun _ => False)); [| reflexivity | exact Invf].
        intros idx. rewrite Heqf. cbn [t_size set_mem]. rewrite Hsz. reflexivity.
      - split; [exists (i - 1); split; [lia | reflexivity] |].
        intros idx. cbn [t_size set_size]. lia. }
    assert (HDtop : 0 <= 2 ^ (i - 1) < 2 ^ i) by lia.
    destruct (inv_bucket _ _ _ _ Invb (2 ^ (i - 1)) HDtop) as (_ & [base Hbase] & _).
    replace (2 ^ (i - 1)) with (2 ^ (i - 1) + 0) in Hbase at 1 by lia.
    rewrite level_index_fls in Hbase by lia.
    rewrite (remove_table_whole cfg fuel sb i (i - 1) (inv_counters _ _ _ _ Invb)) by lia.
    destruct (remove_partition_run cfg sb L i base fuel Hi Invb eq_refl Hbase Hfuel)
      as (s1 & L1 & Hrun & Inv1 & Heq1 & Hdom1 & Hsub1 & Hlen1 & Hout1 & Hku1).
    rewrite Hrun. cbn [bind].
    assert (Htbl1 : t_tbl s1 !! i = Some base) by (rewrite Heq1; exact Hbase).
    rewrite Htbl1. cbn [load bind].
    assert (Inv1' : table_ok s1 L1).
    { apply (table_ok_resize (fun idx => 0 <= idx < 2 ^ (i - 1))); [| exact Inv1].
      intros idx. rewrite Heq1. reflexivity. }
    assert (Hd : ht_in_progress_destroy s1 = 0) by exact (proj1 (inv_counters _ _ _ _ Inv1)).
    rewrite Hd. cbn [Z.eqb negb].
    assert (Hsz1 : t_size s1 = 2 ^ (i - 1)) by (rewrite Heq1; reflexivity).
    assert (Htg1 : t_resize_target s1 = t_resize_target s).
    { rewrite Heq1. unfold sb. cbn. rewrite Heqf. reflexivity. }
    specialize (IH (i - 1) (Some (base, 2 ^ (i - 1))) s1 L1 ltac:(lia) Inv1' Hsz1
                  (conj (Z.lt_le_incl _ _ Hp) Hout1) ltac:(lia) ltac:(lia)).
    destruct (fini_table_loop cfg n fuel (i - 1) (Some (base, 2 ^ (i - 1))) s1)
      as [[s' free'] | |]; [| exact IH ..].
    destruct IH as (L' & I1 & I2 & I3 & I4 & I5 & I6 & I7).
    exists L'. split; [exact I1 |]. split; [exact I2 |].
    split.
    { rewrite I3 at 1. rewrite Heq1. unfold sb. rewrite Heqf. reflexivity. }
    split; [exact I4 |].
    split; [intros a Ha; apply Hdomf; apply Hdom1; apply I5; exact Ha |].
    split.
    { destruct I6 as [I6 | I6]; [left | right; exact I6].
      rewrite I6. f_equal. lia. }
    apply (keeps_users_trans s s1 s' L L1 L'); [| exact I7].
    apply (keeps_users_trans s sb s1 L L L1); [| exact Hku1].
    apply keeps_users_frame. intros a Ha.
    assert (Em : mem sb !! a = mem s !! a) by (unfold sb; cbn; apply Hkeepf, Ha).
    assert (Eks : node_keys sb = node_keys s) by (unfold sb; cbn; rewrite Heqf; reflexivity).
    unfold attrs_eq, rh, nxt. rewrite Em, Eks. repeat split; auto.
Qed.

Lemma shrink_run cfg fuel s L :
  table_ok s L -> t_resize_target s < t_size s -> (length L < fuel)%nat ->
  match _do_cds_lfht_shrink cfg fuel s (t_size s) (t_resize_target s) with
  | Ok s' =>
    exists L',
      table_ok s' L' /\ s' = set_mem (mem s') (set_size (t_size s') s) /\
      t_resize_target s' <= t_size s' /\
      (forall a, is_Some (mem s' !! a) -> is_Some (mem s !! a))
  | Abort => True
  | OutOfFuel => False
  end.
Proof.
  intros Inv Hlt Hfuel.
  destruct (table_ok_size _ _ Inv) as (k & Hk & Ek).
  pose proof (pow2_lt_64 k Hk) as Hp.
  unfold _do_cds_lfht_shrink. rewrite Ek in *.
  set (new := Z.max (t_resize_target s) MIN_TABLE_SIZE).
  assert (Hnew : 1 <= new <= 2 ^ k) by (unfold new, MIN_TABLE_SIZE; lia).
  pose proof (get_count_order_ulong_spec new ltac:(lia)) as Hg. cbv zeta in Hg.
  set (g := get_count_order_ulong new) in *. destruct Hg as (Hg1 & Hg2 & Hg3).
  assert (Hgk : g <= k) by (apply Hg3; lia).
  rewrite get_count_order_ulong_pow2 by lia.
  rewrite !(ulong_small (_ + 1)) by lia.
  replace (k + 1 - (g + 1)) with (k - g) by lia.
  rewrite (ulong_small (k - g)) by lia.
  unfold c_assert at 1.
  destruct (NDEBUG cfg) eqn:En; [| destruct (new <? 2 ^ k); [| exact I]]; cbn [bind];
    unfold fini_table;
    replace (g + 1 + (k - g)) with (k + 1) by lia;
    rewrite (ulong_small (k + 1)) by lia;
    (rewrite c_assert_true by (apply Z.gtb_lt; lia)); cbn [bind];
    replace (k + 1 - (g + 1)) with (k - g) by lia;
    replace (k + 1 - 1) with k by lia;
    pose proof (fini_table_loop_run cfg fuel (Z.to_nat (k - g)) k None s L
                  ltac:(lia) Inv Ek I ltac:(lia) Hfuel) as Hloop;
    (destruct (fini_table_loop cfg (Z.to_nat (k - g)) fuel k None s)
       as [[s' free'] | |]; [| destruct Hloop ..]);
    cbn [bind fst snd];
    destruct Hloop as (L' & I1 & I2 & I3 & I4 & I5 & _);
    destruct (pending_free_opt s' L' free' I1 I2) as (J1 & J2 & J3 & _);
    set (sf := free_by_rcu_opt free' s') in *;
    assert (Esz : t_size sf = t_size s') by (rewrite J3; reflexivity);
    assert (Etg : t_resize_target sf = t_resize_target s') by (rewrite J3; reflexivity);
    exists L'; (split; [exact J1 |]);
    (split; [rewrite Esz; rewrite J3 at 1; rewrite I3 at 1; reflexivity |]);
    (split; [rewrite Esz, Etg; exact I4 |]);
    intros a Ha; apply I5, J2, Ha.
Qed.

(** ** The resize loop *)

Lemma order_of_size_pow2 k : 0 <= k < 64 -> order_of_size (2 ^ k) = k + 1.
Proof. intros Hk. unfold order_of_size. rewrite get_count_order_ulong_pow2 by lia. reflexivity. Qed.

Lemma grow_run cfg fuel alloc s L :
  table_ok s L -> mem s !! 0 = None ->
  alloc_ok alloc s (order_of_size (t_size s)) MAX_TABLE_ORDER ->
  2 ^ 62 <= Z.of_nat fuel ->
  match _do_cds_lfht_grow cfg fuel alloc s (t_size s) (t_resize_target s) with
  | Ok s' =>
    exists L',
      table_ok s' L' /\ mem s' !! 0 = None /\
      alloc_ok alloc s' (order_of_size (t_size s')) MAX_TABLE_ORDER
  | _ => True
  end.
Proof.
  intros Inv Hm0 Hal Hfuel.
  destruct (table_ok_size _ _ Inv) as (k & Hk & Ek).
  unfold _do_cds_lfht_grow. rewrite Ek in *.
  rewrite order_of_size_pow2 in Hal by lia.
  rewrite get_count_order_ulong_pow2 by lia.
  rewrite (ulong_small (k + 1)) by lia.
  destruct (c_assert cfg _); cbn [bind]; [| exact I ..].
  unfold init_table.
  match goal with |- context [init_table_loop cfg ?n fuel alloc (k + 1) s] =>
    pose proof (init_table_loop_run cfg alloc fuel n (k + 1) s L ltac:(lia) Inv) as Hloop;
    replace (k + 1 - 1) with k in Hloop by lia;
    specialize (Hloop Ek Hm0 Hal (or_intror Hfuel));
    destruct (init_table_loop cfg n fuel alloc (k + 1) s) as [s' | |]; [| exact I ..]
  end.
  destruct Hloop as (L' & j & I1 & I2 & I3 & I4 & I5 & _).
  exists L'. split; [exact I1 |]. split; [exact I4 |].
  destruct (table_ok_size _ _ I1) as (k' & Hk' & Ek').
  assert (j - 1 = k') by (apply pow2_inj; [lia | lia | congruence]).
  rewrite I3. replace (j - 1) with k' by lia.
  rewrite order_of_size_pow2 by lia. replace (k' + 1) with j by lia. exact I5.
Qed.

Lemma set_resize_initiated_ok v s L :
  table_ok s L -> table_ok (set_resize_initiated v s) L.
Proof. intros Inv. apply (table_inv_same _ _ s); [repeat split | exact Inv]. Qed.

Lemma do_resize_inv cfg alloc fuel :
  2 ^ 62 <= Z.of_nat fuel ->
  forall n s L,
  table_ok s L -> mem s !! 0 = None ->
  alloc_ok alloc s (order_of_size (t_size s)) MAX_TABLE_ORDER \/
    t_resize_target s <= t_size s ->
  match _do_cds_lfht_resize cfg n fuel alloc s with
  | Ok s' => exists L', table_ok s' L' /\ mem s' !! 0 = None
  | _ => True
  end.
Proof.
  intros Hfuel. induction n as [| n IH]; intros s L Inv Hm0 Hcase; [exact I |].
  cbn [_do_cds_lfht_resize].
  destruct (c_assert cfg _); cbn [bind]; [| exact I ..].
  rewrite (proj1 (inv_counters _ _ _ _ Inv)). cbn [Z.eqb negb].
  set (s1 := set_resize_initiated 1 s).
  pose proof (set_resize_initiated_ok 1 s L Inv) as Inv1. fold s1 in Inv1.
  change (t_size s1) with (t_size s). change (t_resize_target s1) with (t_resize_target s).
  assert (Hlen : (length L < fuel)%nat).
  { pose proof (aligned_NoDup_length L (inv_nodup _ _ _ _ Inv) (inv_aligned _ _ _ _ Inv)).
    lia. }
  destruct (Z.ltb_spec (t_size s) (t_resize_target s)) as [Hlt | Hge].
  - destruct Hcase as [Hal | Hle]; [| lia].
    pose proof (grow_run cfg fuel alloc s1 L Inv1 Hm0 Hal Hfuel) as Hg.
    change (t_size s1) with (t_size s) in Hg.
    change (t_resize_target s1) with (t_resize_target s) in Hg.
    destruct (_do_cds_lfht_grow cfg fuel alloc s1 (t_size s) (t_resize_target s))
      as [s2 | |]; cbn [bind]; [| exact I ..].
    destruct Hg as (L2 & I1 & I2 & I3).
    pose proof (set_resize_initiated_ok 0 s2 L2 I1) as Inv3.
    set (s3 := set_resize_initiated 0 s2) in *.
    destruct (negb (t_size s3 =? t_resize_target s3)).
    + apply (IH s3 L2 Inv3 I2). left. exact I3.
    + exists L2. split; [exact Inv3 | exact I2].
  - destruct (Z.gtb_spec (t_size s) (t_resize_target s)) as [Hgt | Hle].
    + pose proof (shrink_run cfg fuel s1 L Inv1 ltac:(cbn; lia) Hlen) as Hs.
      change (t_size s1) with (t_size s) in Hs.
      change (t_resize_target s1) with (t_resize_target s) in Hs.
      destruct (_do_cds_lfht_shrink cfg fuel s1 (t_size s) (t_resize_target s))
        as [s2 | |]; cbn [bind]; [| exact I ..].
      destruct Hs as (L2 & I1 & I2 & I3 & I4).
      pose proof (set_resize_initiated_ok 0 s2 L2 I1) as Inv3.
      set (s3 := set_resize_initiated 0 s2) in *.
      assert (Hm3 : mem s3 !! 0 = None).
      { destruct (mem s3 !! 0) as [n0 |] eqn:E0; [| reflexivity].
        assert (H : is_Some (mem s !! 0)) by (apply I4; eauto).
        rewrite Hm0 in H. destruct H; discriminate. }
      destruct (negb (t_size s3 =? t_resize_target s3)).
      * apply (IH s3 L2 Inv3 Hm3). right. exact I3.
      * exists L2. split; [exact Inv3 | exact Hm3].
    + cbn [bind].
      pose proof (set_resize_initiated_ok 0 s1 L Inv1) as Inv3.
      set (s3 := set_resize_initiated 0 s1) in *.
      destruct (negb (t_size s3 =? t_resize_target s3)).
      * apply (IH s3 L Inv3 Hm0). right. cbn. lia.
      * exists L. split; [exact Inv3 | exact Hm0].
Qed.

Lemma cds_lfht_resize_inv cfg alloc fuel s L new_size :
  2 ^ 62 <= Z.of_nat fuel ->
  table_ok s L -> mem s !! 0 = None ->
  alloc_ok alloc s (order_of_size (t_size s)) MAX_TABLE_ORDER ->
  match cds_lfht_resize cfg fuel alloc s new_size with
  | Ok s' => exists L', table_ok s' L' /\ mem s' !! 0 = None
  | _ => True
  end.
Proof.
  intros Hfuel Inv Hm0 Hal. unfold cds_lfht_resize.
  apply (do_resize_inv cfg alloc fuel Hfuel fuel _ L).
  - apply (table_inv_same _ _ s); [repeat split | exact Inv].
  - exact Hm0.
  - left. exact Hal.
Qed.

Lemma do_resize_cb_inv cfg alloc fuel s L :
  2 ^ 62 <= Z.of_nat fuel ->
  table_ok s L -> mem s !! 0 = None ->
  alloc_ok alloc s (order_of_size (t_size s)) MAX_TABLE_ORDER ->
  match do_resize_cb cfg fuel alloc s with
  | Ok s' => exists L', table_ok s' L' /\ mem s' !! 0 = None
  | _ => True
  end.
Proof.
  intros Hfuel Inv Hm0 Hal. unfold do_resize_cb.
  destruct (rcu_callbacks s) as [| c]; [exists L; auto |].
  pose proof (do_resize_inv cfg alloc fuel Hfuel fuel (set_rcu_callbacks c s) L) as H.
  destruct (_do_cds_lfht_resize cfg fuel fuel alloc (set_rcu_callbacks c s))
    as [s' | |]; cbn [bind]; [| exact I ..].
  destruct H as (L' & I1 & I2).
  - apply (table_inv_same _ _ s); [repeat split | exact Inv].
  - exact Hm0.
  - left. exact Hal.
  - exists L'. split; [| exact I2].
    apply (table_inv_same _ _ s'); [repeat split | exact I1].
Qed.

(** * More fuel does not change a result *)

Lemma ok_le_refl {A} (r : result A) : ok_le r r.
Proof. intros v H. exact H. Qed.

Lemma ok_le_fuel {A} (r : result A) : ok_le OutOfFuel r.
Proof. intros v H. discriminate. Qed.

Lemma ok_le_bind {A B} (m m' : result A) (k k' : A -> result B) :
  ok_le m m' -> (forall x, ok_le (k x) (k' x)) -> ok_le (bind m k) (bind m' k').
Proof.
  intros Hm Hk v. destruct m as [x | |]; cbn [bind]; try discriminate.
  rewrite (Hm x eq_refl). cbn [bind]. apply Hk.
Qed.

Ltac ok_le_step :=
  match goal with
  | |- ok_le ?r ?r => apply ok_le_refl
  | |- ok_le OutOfFuel _ => apply ok_le_fuel
  | |- ok_le (bind _ _) (bind _ _) => apply ok_le_bind; [| intros ?]
  | |- ok_le (match ?x with _ => _ end) (match ?x with _ => _ end) => destruct x
  | |- ok_le (if ?b then _ else _) (if ?b then _ else _) => destruct b
  end.

Ltac ok_le_with tac := repeat first [ok_le_step | solve [tac]].

Section Mono.

Variable cfg : build.

Lemma gc_bucket_walk_mono : forall n m, (n <= m)%nat ->
  forall s node iter_prev iter,
  ok_le (gc_bucket_walk n s node iter_prev iter) (gc_bucket_walk m s node iter_prev iter).
Proof.
  induction n as [| n IH]; intros m Hnm s node ip it; [apply ok_le_fuel |].
  destruct m as [| m]; [lia |]. cbn [gc_bucket_walk].
  ok_le_with ltac:(apply IH; lia).
Qed.

Lemma gc_bucket_retry_mono : forall n m fuel fuel', (n <= m)%nat -> (fuel <= fuel')%nat ->
  forall s dummy node,
  ok_le (gc_bucket_retry cfg n fuel s dummy node) (gc_bucket_retry cfg m fuel' s dummy node).
Proof.
  induction n as [| n IH]; intros m fuel fuel' Hnm Hf s dummy node; [apply ok_le_fuel |].
  destruct m as [| m]; [lia |]. cbn [gc_bucket_retry].
  ok_le_with ltac:(first [apply IH; lia | apply gc_bucket_walk_mono; lia]).
Qed.

Lemma gc_bucket_mono fuel fuel' s dummy node : (fuel <= fuel')%nat ->
  ok_le (_cds_lfht_gc_bucket cfg fuel s dummy node)
        (_cds_lfht_gc_bucket cfg fuel' s dummy node).
Proof.
  intros Hf. unfold _cds_lfht_gc_bucket.
  ok_le_with ltac:(apply gc_bucket_retry_mono; lia).
Qed.

Lemma replace_retry_mono : forall n m, (n <= m)%nat ->
  forall s old_node old_next new_node,
  ok_le (replace_retry cfg n s old_node old_next new_node)
        (replace_retry cfg m s old_node old_next new_node).
Proof.
  induction n as [| n IH]; intros m Hnm s o nx nn; [apply ok_le_fuel |].
  destruct m as [| m]; [lia |]. cbn [replace_retry].
  ok_le_with ltac:(apply IH; lia).
Qed.

Lemma replace_mono fuel fuel' s size old_node old_next new_node : (fuel <= fuel')%nat ->
  ok_le (_cds_lfht_replace cfg fuel s size old_node old_next new_node)
        (_cds_lfht_replace cfg fuel' s size old_node old_next new_node).
Proof.
  intros Hf. unfold _cds_lfht_replace.
  ok_le_with ltac:(first [apply replace_retry_mono; lia | apply gc_bucket_mono; lia]).
Qed.

Lemma add_walk_mono : forall n m, (n <= m)%nat ->
  forall s size node mode dummy chain_len iter_prev iter,
  ok_le (add_walk cfg n s size node mode dummy chain_len iter_prev iter)
        (add_walk cfg m s size node mode dummy chain_len iter_prev iter).
Proof.
  induction n as [| n IH]; intros m Hnm s size node mode dummy cl ip it; [apply ok_le_fuel |].
  destruct m as [| m]; [lia |]. cbn [add_walk].
  ok_le_with ltac:(apply IH; lia).
Qed.

Lemma add_retry_mono : forall n m fuel fuel', (n <= m)%nat -> (fuel <= fuel')%nat ->
  forall s size node mode dummy lookup,
  ok_le (add_retry cfg n fuel s size node mode dummy lookup)
        (add_retry cfg m fuel' s size node mode dummy lookup).
Proof.
  induction n as [| n IH]; intros m fuel fuel' Hnm Hf s size node mode dummy lk;
    [apply ok_le_fuel |].
  destruct m as [| m]; [lia |]. cbn [add_retry].
  ok_le_with ltac:(first [apply IH; lia | apply add_walk_mono; lia
                         | apply replace_mono; lia]).
Qed.

Lemma add_mono fuel fuel' s size node mode dummy : (fuel <= fuel')%nat ->
  ok_le (_cds_lfht_add cfg fuel s size node mode dummy)
        (_cds_lfht_add cfg fuel' s size node mode dummy).
Proof.
  intros Hf. unfold _cds_lfht_add.
  ok_le_with ltac:(apply add_retry_mono; lia).
Qed.

Lemma del_retry_mono : forall n m, (n <= m)%nat ->
  forall s node dummy_removal old,
  ok_le (del_retry cfg n s node dummy_removal old)
        (del_retry cfg m s node dummy_removal old).
Proof.
  induction n as [| n IH]; intros m Hnm s node dr old; [apply ok_le_fuel |].
  destruct m as [| m]; [lia |]. cbn [del_retry].
  ok_le_with ltac:(apply IH; lia).
Qed.

Lemma del_mono fuel fuel' s size node dummy_removal : (fuel <= fuel')%nat ->
  ok_le (_cds_lfht_del cfg fuel s size node dummy_removal)
        (_cds_lfht_del cfg fuel' s size node dummy_removal).
Proof.
  intros Hf. unfold _cds_lfht_del.
  ok_le_with ltac:(first [apply del_retry_mono; lia | apply gc_bucket_mono; lia]).
Qed.

(** *** The public operations *)

Lemma cds_lfht_add_mono fuel fuel' s node : (fuel <= fuel')%nat ->
  ok_le (cds_lfht_add cfg fuel s node) (cds_lfht_add cfg fuel' s node).
Proof.
  intros Hf. unfold cds_lfht_add. ok_le_with ltac:(apply add_mono; lia).
Qed.

Lemma cds_lfht_add_unique_mono fuel fuel' s node : (fuel <= fuel')%nat ->
  ok_le (cds_lfht_add_unique cfg fuel s node) (cds_lfht_add_unique cfg fuel' s node).
Proof.
  intros Hf. unfold cds_lfht_add_unique. ok_le_with ltac:(apply add_mono; lia).
Qed.

Lemma cds_lfht_add_replace_mono fuel fuel' s node : (fuel <= fuel')%nat ->
  ok_le (cds_lfht_add_replace cfg fuel s node) (cds_lfht_add_replace cfg fuel' s node).
Proof.
  intros Hf. unfold cds_lfht_add_replace. ok_le_with ltac:(apply add_mono; lia).
Qed.

Lemma cds_lfht_del_mono fuel fuel' s it : (fuel <= fuel')%nat ->
  ok_le (cds_lfht_del cfg fuel s it) (cds_lfht_del cfg fuel' s it).
Proof.
  intros Hf. unfold cds_lfht_del. ok_le_with ltac:(apply del_mono; lia).
Qed.

(** *** Resize *)

Lemma for_range_mono body body' :
  (forall j s, ok_le (body j s) (body' j s)) ->
  forall n j s, ok_le (for_range n j body s) (for_range n j body' s).
Proof.
  intros Hb. induction n as [| n IH]; intros j s; [apply ok_le_refl |].
  cbn [for_range]. apply ok_le_bind; [apply Hb | intros x; apply IH].
Qed.

Lemma populate_partition_mono fuel fuel' i start len s : (fuel <= fuel')%nat ->
  ok_le (init_table_populate_partition cfg fuel i start len s)
        (init_table_populate_partition cfg fuel' i start len s).
Proof.
  intros Hf. unfold init_table_populate_partition. apply for_range_mono.
  intros j s0. ok_le_with ltac:(apply add_mono; lia).
Qed.

Lemma remove_partition_mono fuel fuel' i start len s : (fuel <= fuel')%nat ->
  ok_le (remove_table_partition cfg fuel i start len s)
        (remove_table_partition cfg fuel' i start len s).
Proof.
  intros Hf. unfold remove_table_partition. apply for_range_mono.
  intros j s0. ok_le_with ltac:(apply del_mono; lia).
Qed.

Lemma partition_helper_mono fct fct' s i len :
  (forall i start len s, ok_le (fct i start len s) (fct' i start len s)) ->
  ok_le (partition_resize_helper s i len fct) (partition_resize_helper s i len fct').
Proof.
  intros H. unfold partition_resize_helper. apply for_range_mono.
  intros j s0. apply H.
Qed.

Lemma populate_mono fuel fuel' s i len : (fuel <= fuel')%nat ->
  ok_le (init_table_populate cfg fuel s i len) (init_table_populate cfg fuel' s i len).
Proof.
  intros Hf. unfold init_table_populate.
  ok_le_with ltac:(first [apply populate_partition_mono; lia
                         | apply partition_helper_mono; intros;
                           apply populate_partition_mono; lia]).
Qed.

Lemma remove_table_mono fuel fuel' s i len : (fuel <= fuel')%nat ->
  ok_le (remove_table cfg fuel s i len) (remove_table cfg fuel' s i len).
Proof.
  intros Hf. unfold remove_table.
  ok_le_with ltac:(first [apply remove_partition_mono; lia
                         | apply partition_helper_mono; intros;
                           apply remove_partition_mono; lia]).
Qed.

Lemma init_table_loop_mono alloc fuel fuel' : (fuel <= fuel')%nat ->
  forall n i s,
  ok_le (init_table_loop cfg n fuel alloc i s) (init_table_loop cfg n fuel' alloc i s).
Proof.
  intros Hf. induction n as [| n IH]; intros i s; [apply ok_le_refl |].
  cbn [init_table_loop].
  ok_le_with ltac:(first [apply IH | apply populate_mono; lia]).
Qed.

Lemma fini_table_loop_mono fuel fuel' : (fuel <= fuel')%nat ->
  forall n i free s,
  ok_le (fini_table_loop cfg n fuel i free s) (fini_table_loop cfg n fuel' i free s).
Proof.
  intros Hf. induction n as [| n IH]; intros i free s; [apply ok_le_refl |].
  cbn [fini_table_loop].
  ok_le_with ltac:(first [apply IH | apply remove_table_mono; lia]).
Qed.

Lemma grow_mono alloc fuel fuel' s old_size new_size : (fuel <= fuel')%nat ->
  ok_le (_do_cds_lfht_grow cfg fuel alloc s old_size new_size)
        (_do_cds_lfht_grow cfg fuel' alloc s old_size new_size).
Proof.
  intros Hf. unfold _do_cds_lfht_grow, init_table.
  ok_le_with ltac:(apply init_table_loop_mono; lia).
Qed.

Lemma shrink_mono fuel fuel' s old_size new_size : (fuel <= fuel')%nat ->
  ok_le (_do_cds_lfht_shrink cfg fuel s old_size new_size)
        (_do_cds_lfht_shrink cfg fuel' s old_size new_size).
Proof.
  intros Hf. unfold _do_cds_lfht_shrink, fini_table.
  ok_le_with ltac:(apply fini_table_loop_mono; lia).
Qed.

Lemma do_resize_mono alloc : forall n m fuel fuel', (n <= m)%nat -> (fuel <= fuel')%nat ->
  forall s,
  ok_le (_do_cds_lfht_resize cfg n fuel alloc s) (_do_cds_lfht_resize cfg m fuel' alloc s).
Proof.
  induction n as [| n IH]; intros m fuel fuel' Hnm Hf s; [apply ok_le_fuel |].
  destruct m as [| m]; [lia |]. cbn [_do_cds_lfht_resize].
  ok_le_with ltac:(first [apply IH; lia | apply grow_mono; lia | apply shrink_mono; lia]).
Qed.

Lemma cds_lfht_resize_mono alloc fuel fuel' s new_size : (fuel <= fuel')%nat ->
  ok_le (cds_lfht_resize cfg fuel alloc s new_size)
        (cds_lfht_resize cfg fuel' alloc s new_size).
Proof. intros Hf. unfold cds_lfht_resize. apply do_resize_mono; lia. Qed.

Lemma do_resize_cb_mono alloc fuel fuel' s : (fuel <= fuel')%nat ->
  ok_le (do_resize_cb cfg fuel alloc s) (do_resize_cb cfg fuel' alloc s).
Proof.
  intros Hf. unfold do_resize_cb.
  ok_le_with ltac:(apply do_resize_mono; lia).
Qed.

Lemma new_mono alloc fuel fuel' hash_fct compare_fct hash_seed init_size flags mask
  nprocs cpu : (fuel <= fuel')%nat ->
  ok_le (_cds_lfht_new cfg fuel alloc hash_fct compare_fct hash_seed init_size flags
           mask nprocs cpu)
        (_cds_lfht_new cfg fuel' alloc hash_fct compare_fct hash_seed init_size flags
           mask nprocs cpu).
Proof.
  intros Hf. unfold _cds_lfht_new, init_table.
  ok_le_with ltac:(apply init_table_loop_mono; lia).
Qed.

End Mono.

(** * Every state of a run satisfies the invariant *)

(** ** Where an insertion goes *)

Lemma rh_class_cases s r x : rh_class s r x = W_next \/ rh_class s r x = W_stop.
Proof. unfold rh_class. destruct (rh s x >? r); auto. Qed.

Lemma uniq_class_cases s r node x :
  uniq_class s r node x = W_next \/ uniq_class s r node x = W_stop \/
  uniq_class s r node x = W_hit.
Proof.
  unfold uniq_class. destruct (rh s x >? r); [auto |].
  destruct (_ && _ && _); auto.
Qed.

(** The list split at the dummy node of the bucket of hash [h], and then
    where the traversal described by [class] stops. *)
Lemma bucket_split (class : Z -> walk_class) s L h :
  table_ok s L ->
  exists l1 mid tail,
    L = l1 ++ daddr s (h mod t_size s) :: mid ++ tail /\
    (forall x, In x mid -> class x = W_next) /\
    match tail with
    | [] => True
    | y :: _ => class y <> W_next
    end.
Proof.
  intros Inv.
  destruct (table_ok_size _ _ Inv) as (k & Hk & Ek).
  pose proof (pow2_pos k ltac:(lia)) as Hp.
  assert (Hidx : 0 <= h mod t_size s < t_size s) by (apply Z.mod_pos_bound; lia).
  destruct (inv_bucket _ _ _ _ Inv _ Hidx) as (_ & _ & Hind & _).
  apply in_split in Hind as (l1 & rest & EL).
  destruct (walk_split_exists class rest) as (mid & tail & Er & Hmid & Htail).
  exists l1, mid, tail. subst rest. auto.
Qed.

Lemma caller_owned_not_in s L node k :
  table_ok s L -> caller_owned s node k -> ~ In node L.
Proof.
  intros Inv (_ & _ & _ & Hn) Hin. apply Hn. apply (in_list_node _ _ _ _ _ Inv Hin).
Qed.

(** ** The operations return, with enough fuel *)

Section Totals.

Variables (cfg : build) (s : state) (L : list Z).
Hypothesis Inv : table_ok s L.

Lemma add_total node k fuel :
  caller_owned s node k -> (length L < fuel)%nat ->
  exists s' L',
    cds_lfht_add cfg fuel s node = Ok s' /\ table_ok s' L' /\
    node_added s s' node (bit_reverse_ulong (node_hash_of s k)).
Proof.
  intros Hown Hfuel. pose proof (caller_owned_not_in s L node k Inv Hown) as Hnin.
  destruct Hown as (Hal & Hmem & Hkey & _).
  set (r := bit_reverse_ulong (node_hash_of s k)).
  destruct (bucket_split (rh_class s r) s L (node_hash_of s k) Inv)
    as (l1 & mid & tail & EL & Hmid & Htail).
  subst L.
  destruct (cds_lfht_add_run cfg s node k Hal Hmem Hkey l1 mid tail fuel Inv Hnin Hmid)
    as (s' & Hrun & Inv' & Hadd); [| exact Hfuel | eauto].
  destruct tail as [| y tl]; [exact I |].
  destruct (rh_class_cases s r y); [contradiction | assumption].
Qed.

Lemma add_unique_total node k fuel :
  caller_owned s node k -> (length L < fuel)%nat ->
  exists s' L' ret,
    cds_lfht_add_unique cfg fuel s node = Ok (s', ret) /\ table_ok s' L' /\
    (forall a, is_Some (mem s' !! a) <-> is_Some (mem s !! a)).
Proof.
  intros Hown Hfuel. pose proof (caller_owned_not_in s L node k Inv Hown) as Hnin.
  destruct Hown as (Hal & Hmem & Hkey & _).
  set (r := bit_reverse_ulong (node_hash_of s k)).
  destruct (bucket_split (uniq_class s r node) s L (node_hash_of s k) Inv)
    as (l1 & mid & tail & EL & Hmid & Htail).
  subst L.
  assert (Hins : match tail with [] => True | y :: _ => uniq_class s r node y = W_stop end ->
    exists s' L' ret,
      cds_lfht_add_unique cfg fuel s node = Ok (s', ret) /\ table_ok s' L' /\
      (forall a, is_Some (mem s' !! a) <-> is_Some (mem s !! a))).
  { intros Hstop.
    destruct (cds_lfht_add_unique_insert cfg s node k Hal Hmem Hkey l1 mid tail fuel
                Inv Hnin Hmid Hstop Hfuel) as (s' & Hrun & Inv' & Hadd).
    exists s'. eexists. exists node. split; [exact Hrun |]. split; [exact Inv' |]. apply Hadd. }
  destruct tail as [| y tl]; [apply Hins; exact I |].
  destruct (uniq_class_cases s r node y) as [H | [H | H]];
    [contradiction | apply Hins; exact H |].
  destruct (cds_lfht_add_unique_hit cfg s node k Hal Hmem Hkey l1 mid y tl fuel
              Inv Hnin Hmid H Hfuel) as (s' & Hrun & Hsame).
  exists s', (l1 ++ daddr s (node_hash_of s k mod t_size s) :: mid ++ y :: tl), y.
  split; [exact Hrun |].
  destruct (store_rh_frame s _ node r Inv Hnin) as (Inv0 & _ & _ & Ho & _).
  split.
  - eapply table_ok_content; [apply same_table_content, Hsame | | exact Inv0].
    apply (counters_ok_same _ _ Hsame), (inv_counters _ _ _ _ Inv0).
  - intros a. rewrite (same_table_mem _ _ Hsame). cbn [mem set_mem].
    destruct (Z.eq_dec a node) as [-> | Hne].
    + rewrite lookup_insert_eq. split; [intros _; exact Hmem | eauto].
    + rewrite lookup_insert_ne by congruence. reflexivity.
Qed.

Lemma add_replace_total node k fuel :
  caller_owned s node k -> (S (length L) < fuel)%nat ->
  exists s' L' ret,
    cds_lfht_add_replace cfg fuel s node = Ok (s', ret) /\ table_ok s' L' /\
    (forall a, is_Some (mem s' !! a) <-> is_Some (mem s !! a)).
Proof.
  intros Hown Hfuel. pose proof (caller_owned_not_in s L node k Inv Hown) as Hnin.
  destruct Hown as (Hal & Hmem & Hkey & _).
  set (r := bit_reverse_ulong (node_hash_of s k)).
  destruct (bucket_split (uniq_class s r node) s L (node_hash_of s k) Inv)
    as (l1 & mid & tail & EL & Hmid & Htail).
  subst L.
  assert (Hins : match tail with [] => True | y :: _ => uniq_class s r node y = W_stop end ->
    exists s' L' ret,
      cds_lfht_add_replace cfg fuel s node = Ok (s', ret) /\ table_ok s' L' /\
      (forall a, is_Some (mem s' !! a) <-> is_Some (mem s !! a))).
  { intros Hstop.
    destruct (cds_lfht_add_replace_insert cfg s node k Hal Hmem Hkey l1 mid tail fuel
                Inv Hnin Hmid Hstop ltac:(lia)) as (s' & Hrun & Inv' & Hadd).
    exists s'. eexists. exists 0. split; [exact Hrun |]. split; [exact Inv' |]. apply Hadd. }
  destruct tail as [| y tl]; [apply Hins; exact I |].
  destruct (uniq_class_cases s r node y) as [H | [H | H]];
    [contradiction | apply Hins; exact H |].
  destruct (cds_lfht_add_replace_hit cfg s node k Hal Hmem Hkey l1 mid y tl fuel
              Inv Hnin Hmid H Hfuel) as (s' & Hrun & Inv' & Hrep).
  exists s'. eexists. exists y. split; [exact Hrun |]. split; [exact Inv' |]. apply Hrep.
Qed.

Lemma del_total it fuel :
  user_node s (iter_node it) -> (length L < fuel)%nat ->
  exists s' L',
    cds_lfht_del cfg fuel s it = Ok (s', 0) /\ table_ok s' L' /\
    node_deleted s s' (iter_node it).
Proof.
  intros [Hln Hd] Hfuel. apply (list_node_in _ _ _ _ _ Inv) in Hln.
  apply in_split in Hln as (l1 & l2 & EL). subst L.
  destruct (cds_lfht_del_run cfg s l1 (iter_node it) l2 it fuel Inv Hd eq_refl Hfuel)
    as (s' & Hrun & Inv' & Hdel).
  eauto.
Qed.

Lemma gc_bucket_total node fuel :
  user_node s node -> (length L < fuel)%nat ->
  _cds_lfht_gc_bucket cfg fuel s
    (daddr s (bit_reverse_ulong (rh s node) mod t_size s)) node = Ok s.
Proof.
  intros [Hln Hd] Hfuel. apply (list_node_in _ _ _ _ _ Inv) in Hln.
  destruct (table_ok_size _ _ Inv) as (k & Hk & Ek).
  assert (HD : forall idx, 0 <= idx < 2 ^ k -> 0 <= idx < t_size s)
    by (intros idx; rewrite Ek; auto).
  destruct (user_bucket_before _ _ s L k node Inv Hk HD Hln Hd) as (Hind & Hle & Hlt & _).
  rewrite <- Ek in Hind, Hle, Hlt.
  set (d := daddr s (bit_reverse_ulong (rh s node) mod t_size s)) in *.
  pose proof (inv_aligned _ _ _ _ Inv node Hln) as Han.
  pose proof (inv_aligned _ _ _ _ Inv d Hind) as Had.
  unfold _cds_lfht_gc_bucket.
  rewrite !c_assert_true by
    (rewrite ?is_dummy_aligned, ?is_removed_aligned by assumption; reflexivity).
  cbn [bind].
  apply in_split in Hind as (l1 & rest & EL).
  destruct fuel as [| fuel']; [lia |].
  rewrite EL in Inv.
  apply (gc_bucket_retry_clean cfg _ s l1 d rest node fuel' (S fuel') Inv).
  - apply (inv_in_mem _ _ _ _ Inv). rewrite <- EL. exact Hln.
  - exact Han.
  - intros _. split; [exact Hle |]. intros E. rewrite E in Hlt. lia.
  - rewrite EL, length_app in Hfuel. cbn [length] in Hfuel. lia.
Qed.

End Totals.

(** ** The invariant of the reachable states *)

Lemma new_guard cfg fuel alloc hash_fct compare_fct hash_seed init_size flags mask
  nprocs cpu s :
  0 <= init_size < 2 ^ 64 ->
  _cds_lfht_new cfg fuel alloc hash_fct compare_fct hash_seed init_size flags mask
    nprocs cpu = Ok (Some s) ->
  exists k, 0 <= k < 64 /\ Z.max init_size MIN_TABLE_SIZE = 2 ^ k /\
    (init_size = 0 \/ init_size = 2 ^ k).
Proof.
  intros Hr H. unfold _cds_lfht_new in H.
  destruct (Z.eqb_spec init_size 0) as [-> | Hne].
  - exists 0. split; [lia |]. split; [reflexivity | left; reflexivity].
  - cbn [negb andb] in H.
    destruct (Z.eqb_spec (Z.land init_size (ulong (init_size - 1))) 0) as [E | E];
      [| discriminate].
    rewrite ulong_small in E by lia.
    destruct (land_pred_pow2 init_size ltac:(lia) E) as (k & Hk & ->).
    exists k. pose proof (pow2_pos k Hk).
    split; [| split; [unfold MIN_TABLE_SIZE; lia | right; reflexivity]].
    split; [lia |]. apply (Z.pow_lt_mono_r_iff 2); lia.
Qed.

Lemma node_init_frame s L node init key key_len :
  table_ok s L -> mem s !! node = None ->
  table_ok (caller_node_init s node init key key_len) L.
Proof.
  intros Inv Hn.
  assert (Hne : forall a, In a L -> a <> node).
  { intros a Ha ->. destruct (inv_in_mem _ _ _ _ Inv node Ha) as [n E]. congruence. }
  apply (table_inv_frame _ _ s _ L Inv); try reflexivity.
  - intros a Ha. cbn. apply lookup_insert_ne. intros E. apply (Hne a Ha). congruence.
  - intros a Ha. cbn. apply lookup_insert_ne. intros E. apply (Hne a Ha). congruence.
  - exact (inv_size _ _ _ _ Inv).
  - exact (inv_counters _ _ _ _ Inv).
Qed.

Lemma migrate_frame s L cpu : table_ok s L -> table_ok (set_env_cpu cpu s) L.
Proof.
  intros Inv. apply (table_inv_frame _ _ s _ L Inv); try reflexivity.
  - exact (inv_size _ _ _ _ Inv).
  - exact (inv_counters _ _ _ _ Inv).
Qed.

Lemma dom_zero s s' :
  (forall a, is_Some (mem s' !! a) <-> is_Some (mem s !! a)) ->
  mem s !! 0 = None -> mem s' !! 0 = None.
Proof.
  intros Hdom H0. destruct (mem s' !! 0) as [n |] eqn:E; [| reflexivity].
  assert (H : is_Some (mem s !! 0)) by (apply Hdom; eauto).
  rewrite H0 in H. destruct H; discriminate.
Qed.

Theorem reachable_table_ok cfg s :
  reachable cfg s -> exists L, table_ok s L /\ mem s !! 0 = None.
Proof.
  induction 1 as
    [ fuel alloc hf cf seed init_size flags nprocs cpu s Hr Hnp Hal Hrun
    | s node init key key_len Hreach IH Han Hfresh
    | s cpu Hreach IH
    | s fuel node k s' Hreach IH Hown Hrun
    | s fuel node k s' ret Hreach IH Hown Hrun
    | s fuel node k s' ret Hreach IH Hown Hrun
    | s fuel it s' ret Hreach IH Hit Hrun
    | s fuel alloc new_size s' Hreach IH Hr Hal Hrun
    | s fuel alloc s' Hreach IH Hal Hrun
    | s fuel node s' Hreach IH Hun Hrun ].
  - destruct (new_guard _ _ _ _ _ _ _ _ _ _ _ _ Hr Hrun) as (k & Hk & Hmax & Hinit).
    pose proof (pow2_pos k ltac:(lia)) as Hp.
    set (fuel' := Nat.max fuel (Z.to_nat (2 ^ k))).
    pose proof (new_mono cfg alloc fuel fuel' hf cf seed init_size flags (-1) nprocs cpu
                  ltac:(lia) _ Hrun) as Hrun'.
    pose proof (cds_lfht_new_run cfg fuel' alloc hf cf seed init_size flags nprocs cpu k
                  Hk Hmax Hinit Hnp Hal ltac:(lia)) as Hnew.
    rewrite Hrun' in Hnew. destruct Hnew as (L & I1 & I2 & _). eauto.
  - destruct IH as (L & Inv & H0). exists L. split.
    + apply node_init_frame; assumption.
    + cbn. rewrite lookup_insert_ne; [exact H0 |]. destruct Han. lia.
  - destruct IH as (L & Inv & H0). exists L. split; [apply migrate_frame, Inv | exact H0].
  - destruct IH as (L & Inv & H0).
    set (fuel' := Nat.max fuel (S (length L))).
    pose proof (cds_lfht_add_mono cfg fuel fuel' s node ltac:(lia) _ Hrun) as Hrun'.
    destruct (add_total cfg s L Inv node k fuel' Hown ltac:(lia)) as (s2 & L2 & E & I1 & I2).
    rewrite Hrun' in E. inversion E; subst s2. exists L2. split; [exact I1 |].
    apply (dom_zero s); [apply I2 | exact H0].
  - destruct IH as (L & Inv & H0).
    set (fuel' := Nat.max fuel (S (length L))).
    pose proof (cds_lfht_add_unique_mono cfg fuel fuel' s node ltac:(lia) _ Hrun) as Hrun'.
    destruct (add_unique_total cfg s L Inv node k fuel' Hown ltac:(lia))
      as (s2 & L2 & r2 & E & I1 & I2).
    rewrite Hrun' in E. inversion E; subst s2 r2. exists L2. split; [exact I1 |].
    apply (dom_zero s); [apply I2 | exact H0].
  - destruct IH as (L & Inv & H0).
    set (fuel' := Nat.max fuel (S (S (length L)))).
    pose proof (cds_lfht_add_replace_mono cfg fuel fuel' s node ltac:(lia) _ Hrun) as Hrun'.
    destruct (add_replace_total cfg s L Inv node k fuel' Hown ltac:(lia))
      as (s2 & L2 & r2 & E & I1 & I2).
    rewrite Hrun' in E. inversion E; subst s2 r2. exists L2. split; [exact I1 |].
    apply (dom_zero s); [apply I2 | exact H0].
  - destruct IH as (L & Inv & H0). destruct Hit as [Hnil | Huser].
    + unfold cds_lfht_del, _cds_lfht_del in Hrun. rewrite Hnil in Hrun.
      cbn in Hrun. inversion Hrun; subst. eauto.
    + set (fuel' := Nat.max fuel (S (length L))).
      pose proof (cds_lfht_del_mono cfg fuel fuel' s it ltac:(lia) _ Hrun) as Hrun'.
      destruct (del_total cfg s L Inv it fuel' Huser ltac:(lia)) as (s2 & L2 & E & I1 & I2).
      rewrite Hrun' in E. inversion E; subst s2. exists L2. split; [exact I1 |].
      apply (dom_zero s); [apply I2 | exact H0].
  - destruct IH as (L & Inv & H0).
    set (fuel' := Nat.max fuel (Z.to_nat (2 ^ 62))).
    pose proof (cds_lfht_resize_mono cfg alloc fuel fuel' s new_size ltac:(lia) _ Hrun)
      as Hrun'.
    pose proof (cds_lfht_resize_inv cfg alloc fuel' s L new_size ltac:(lia) Inv H0 Hal) as Hi.
    rewrite Hrun' in Hi. exact Hi.
  - destruct IH as (L & Inv & H0).
    set (fuel' := Nat.max fuel (Z.to_nat (2 ^ 62))).
    pose proof (do_resize_cb_mono cfg alloc fuel fuel' s ltac:(lia) _ Hrun) as Hrun'.
    pose proof (do_resize_cb_inv cfg alloc fuel' s L ltac:(lia) Inv H0 Hal) as Hi.
    rewrite Hrun' in Hi. exact Hi.
  - destruct IH as (L & Inv & H0).
    set (fuel' := Nat.max fuel (S (length L))).
    pose proof (gc_bucket_mono cfg fuel fuel' s _ node ltac:(lia) _ Hrun) as Hrun'.
    rewrite (gc_bucket_total cfg s L Inv node fuel' Hun ltac:(lia)) in Hrun'.
    inversion Hrun'; subst. eauto.
Qed.

(** * What an insertion writes *)

(** ** Without automatic resize, only the memory of the nodes *)

Lemma mem_only_refl s : mem_only s s.
Proof. destruct s. reflexivity. Qed.

Lemma mem_only_trans s1 s2 s3 :
  mem_only s1 s2 -> mem_only s2 s3 -> mem_only s1 s3.
Proof. unfold mem_only. intros A B. rewrite B, A. reflexivity. Qed.

Lemma mem_only_set_mem m s : mem_only s (set_mem m s).
Proof. reflexivity. Qed.

Lemma mem_only_auto_off cfg s s' : mem_only s s' -> auto_off cfg s -> auto_off cfg s'.
Proof. unfold mem_only, auto_off. intros -> H. exact H. Qed.

(** Inversion of a run that returns. *)
Ltac run_inv H :=
  repeat
    (cbn [bind load fst snd] in H;
     match type of H with
     | bind ?m _ = Ok _ =>
       let E := fresh "E" in destruct m eqn:E; cbn [bind] in H; try discriminate H
     | match ?m with _ => _ end = Ok _ =>
       first [ is_var m; destruct m
             | let E := fresh "E" in destruct m eqn:E; try discriminate H ]
     | Abort = Ok _ => discriminate H
     | OutOfFuel = Ok _ => discriminate H
     end).

Lemma store_next_mem_only a v s s' : store_next a v s = Ok s' -> mem_only s s'.
Proof.
  unfold store_next. intros H. run_inv H. injection H as <-. apply mem_only_set_mem.
Qed.

Lemma store_reverse_hash_mem_only a v s s' :
  store_reverse_hash a v s = Ok s' -> mem_only s s'.
Proof.
  unfold store_reverse_hash. intros H. run_inv H. injection H as <-.
  apply mem_only_set_mem.
Qed.

Lemma cmpxchg_mem_only a o v s s' r :
  uatomic_cmpxchg_next a o v s = Ok (s', r) -> mem_only s s'.
Proof.
  unfold uatomic_cmpxchg_next. intros H. run_inv H.
  - injection H as <- _. eapply store_next_mem_only; eassumption.
  - injection H as <- _. apply mem_only_refl.
Qed.

Lemma check_resize_off cfg s size chain_len :
  auto_off cfg s -> check_resize cfg s size chain_len = s.
Proof. intros H. unfold check_resize. unfold auto_off in H. rewrite H. reflexivity. Qed.

Lemma add_walk_off cfg size node mode dummy : forall n s chain_len iter_prev iter s' e,
  auto_off cfg s ->
  add_walk cfg n s size node mode dummy chain_len iter_prev iter = Ok (s', e) ->
  s' = s.
Proof.
  induction n as [| n IH]; intros s chain_len iter_prev iter s' e Hoff H; [discriminate |].
  cbn [add_walk] in H.
  destruct (is_end iter); [injection H as <- _; reflexivity |].
  run_inv H; try (injection H as <- _; reflexivity).
  all: match goal with
       | E : (if ?b then _ else _) = (_, _) |- _ => destruct b; injection E as <- <-
       end.
  all: rewrite ?check_resize_off in H by exact Hoff.
  all: apply (IH _ _ _ _ _ _ Hoff H).
Qed.

Lemma gc_bucket_retry_mem_only cfg fuel dummy node : forall n s s',
  gc_bucket_retry cfg n fuel s dummy node = Ok s' -> mem_only s s'.
Proof.
  induction n as [| n IH]; intros s s' H; [discriminate |].
  cbn [gc_bucket_retry] in H. run_inv H.
  - injection H as <-. apply mem_only_refl.
  - match goal with
    | E : uatomic_cmpxchg_next _ _ _ _ = Ok ?p |- _ =>
      destruct p as [s1 r1]; apply cmpxchg_mem_only in E;
      apply (mem_only_trans s s1 s' E); apply IH; exact H
    end.
Qed.

Lemma gc_bucket_mem_only cfg fuel s dummy node s' :
  _cds_lfht_gc_bucket cfg fuel s dummy node = Ok s' -> mem_only s s'.
Proof.
  unfold _cds_lfht_gc_bucket. intros H. run_inv H.
  eapply gc_bucket_retry_mem_only; eassumption.
Qed.

Lemma replace_retry_mem_only cfg old_node new_node : forall n s old_next s' b,
  replace_retry cfg n s old_node old_next new_node = Ok (s', b) -> mem_only s s'.
Proof.
  induction n as [| n IH]; intros s old_next s' b H; [discriminate |].
  cbn [replace_retry] in H.
  destruct (is_removed old_next); [injection H as <- _; apply mem_only_refl |].
  run_inv H.
  all: repeat match goal with
       | E : store_next _ _ _ = Ok _ |- _ => apply store_next_mem_only in E
       | E : uatomic_cmpxchg_next _ _ _ _ = Ok (_, _) |- _ => apply cmpxchg_mem_only in E
       end.
  - injection H as <- _. eapply mem_only_trans; eassumption.
  - apply IH in H. eapply mem_only_trans; [| exact H].
    eapply mem_only_trans; eassumption.
Qed.

Lemma replace_mem_only cfg fuel s size old_node old_next new_node s' r :
  _cds_lfht_replace cfg fuel s size old_node old_next new_node = Ok (s', r) ->
  mem_only s s'.
Proof.
  unfold _cds_lfht_replace. intros H.
  destruct (old_node =? 0); [injection H as <- _; apply mem_only_refl |].
  run_inv H.
  all: repeat match goal with
       | E : replace_retry _ _ _ _ _ _ = Ok _ |- _ => apply replace_retry_mem_only in E
       | E : _cds_lfht_gc_bucket _ _ _ _ _ = Ok _ |- _ => apply gc_bucket_mem_only in E
       end.
  - injection H as <- _. eapply mem_only_trans; eassumption.
  - injection H as <- _. assumption.
Qed.

Lemma add_retry_mem_only cfg fuel size node mode dummy lookup : forall n s s' r,
  auto_off cfg s ->
  add_retry cfg n fuel s size node mode dummy lookup = Ok (s', r) -> mem_only s s'.
Proof.
  induction n as [| n IH]; intros s s' r Hoff H; [discriminate |].
  cbn [add_retry] in H. run_inv H.
  all: repeat match goal with
       | E : add_walk _ _ _ _ _ _ _ _ _ _ = Ok (_, _) |- _ =>
         apply (add_walk_off _ _ _ _ _ _ _ _ _ _ _ _ Hoff) in E; subst
       | E : store_next _ _ _ = Ok _ |- _ => apply store_next_mem_only in E
       | E : uatomic_cmpxchg_next _ _ _ _ = Ok (_, _) |- _ =>
         apply cmpxchg_mem_only in E
       | E : uatomic_cmpxchg_next _ _ _ _ = Ok ?p |- _ =>
         is_var p; destruct p; apply cmpxchg_mem_only in E
       | E : _cds_lfht_replace _ _ _ _ _ _ _ = Ok (_, _) |- _ =>
         apply replace_mem_only in E
       end.
  all: cbn [fst snd] in *.
  all: try (injection H as <- _).
  all: try (eapply mem_only_trans; eassumption).
  all: try assumption.
  all: try apply mem_only_refl.
  all: match goal with
       | H : add_retry _ _ _ ?s1 _ _ _ _ _ = Ok _ |- mem_only ?s _ =>
         assert (Hs1 : mem_only s s1)
           by (try assumption; eapply mem_only_trans; eassumption);
         apply (mem_only_trans s s1 _ Hs1);
         apply (IH _ _ _ (mem_only_auto_off cfg _ _ Hs1 Hoff) H)
       end.
Qed.

Lemma add_mem_only cfg fuel s size node mode dummy s' r :
  auto_off cfg s ->
  _cds_lfht_add cfg fuel s size node mode dummy = Ok (s', r) -> mem_only s s'.
Proof.
  unfold _cds_lfht_add. intros Hoff H. run_inv H.
  - match goal with E : store_next _ _ _ = Ok _ |- _ => apply store_next_mem_only in E end.
    injection H as <- _. assumption.
  - eapply add_retry_mem_only; eassumption.
Qed.

(** [cds_lfht_add_unique] that returns another node than the one it was
    given has not counted an addition. *)
Lemma add_unique_found_off cfg fuel s node s1 r1 :
  auto_off cfg s -> cds_lfht_add_unique cfg fuel s node = Ok (s1, r1) -> r1 <> node ->
  mem_only s s1.
Proof.
  unfold cds_lfht_add_unique. intros Hoff H Hne. run_inv H.
  - injection H as _ <-.
    match goal with E : (_ =? _) = true |- _ => apply Z.eqb_eq in E end.
    contradiction.
  - injection H as <- _.
    match goal with
    | E1 : store_reverse_hash _ _ _ = Ok ?s0, E2 : _cds_lfht_add _ _ _ _ _ _ _ = Ok _ |- _ =>
      apply store_reverse_hash_mem_only in E1;
      apply add_mem_only in E2; [| apply (mem_only_auto_off cfg _ _ E1 Hoff)];
      apply (mem_only_trans _ _ _ E1 E2)
    end.
Qed.

(** * The properties of the specification *)

(** ** The linked nodes of a concrete state *)

Lemma linked_walk_head n s a l : linked_walk n s a = Ok l -> In a l.
Proof.
  destruct n as [| n]; cbn [linked_walk]; [discriminate |].
  destruct (mem s !! a) as [nd |]; cbn [load bind]; [| discriminate].
  destruct (is_end (next nd)).
  - intros [= <-]. left. reflexivity.
  - destruct (linked_walk n s (clear_flag (next nd))); cbn [bind]; try discriminate.
    intros [= <-]. left. reflexivity.
Qed.

Lemma linked_walk_closed n s a0 l a nd :
  linked_walk n s a0 = Ok l -> In a l -> mem s !! a = Some nd ->
  is_end (next nd) = false -> In (clear_flag (next nd)) l.
Proof.
  revert a0 l. induction n as [| n IH]; intros a0 l; cbn [linked_walk]; [discriminate |].
  destruct (mem s !! a0) as [nd0 |] eqn:E0; cbn [load bind]; [| discriminate].
  destruct (is_end (next nd0)) eqn:Ee.
  - intros [= <-] [<- | []] Hm He. congruence.
  - destruct (linked_walk n s (clear_flag (next nd0))) as [l' | |] eqn:Ew;
      cbn [bind]; try discriminate.
    intros [= <-] [<- | Hin] Hm He.
    + right. assert (nd = nd0) by congruence. subst nd0.
      apply (linked_walk_head _ _ _ _ Ew).
    + right. apply (IH _ _ Ew Hin Hm He).
Qed.

(** A walk over the list finds every linked node. *)
Lemma linked_nodes_complete fuel s L a :
  linked_nodes fuel s = Ok L -> list_node s a -> In a L.
Proof.
  unfold linked_nodes. intros Hrun Ha.
  induction Ha as [level Hl | a n Ha IH Hn He].
  - rewrite Hl in Hrun. cbn [load bind] in Hrun. apply (linked_walk_head _ _ _ _ Hrun).
  - destruct (t_tbl s !! 0) as [level |]; cbn [load bind] in Hrun; [| discriminate].
    apply (linked_walk_closed _ _ _ _ _ _ Hrun IH Hn He).
Qed.

Lemma caller_owned_by_walk s node k fuel L :
  linked_nodes fuel s = Ok L -> ~ In node L -> aligned node ->
  is_Some (mem s !! node) -> node_keys s !! node = Some k ->
  caller_owned s node k.
Proof.
  intros Hrun Hnin Hal Hm Hk. repeat split; try assumption; try apply Hal.
  intros Hl. apply Hnin. apply (linked_nodes_complete _ _ _ _ Hrun Hl).
Qed.

(** The list of a table has no more nodes than the memory. *)
Lemma length_le_size s L : table_ok s L -> (length L <= size (mem s))%nat.
Proof.
  intros Inv.
  pose proof (inv_nodup _ _ _ _ Inv) as Hnd.
  assert (Hsub : (list_to_set L : gset Z) ⊆ dom (mem s)).
  { intros a Ha. apply elem_of_list_to_set in Ha. apply elem_of_dom.
    apply list_elem_of_In in Ha.
    apply (lseg_in_mem _ _ _ _ _ (inv_lseg _ _ _ _ Inv) Ha). }
  apply subseteq_size in Hsub.
  rewrite size_list_to_set in Hsub by (apply NoDup_ListNoDup; exact Hnd).
  rewrite size_dom in Hsub. exact Hsub.
Qed.

Lemma linked_walk_sound n s a0 l :
  linked_walk n s a0 = Ok l -> list_node s a0 -> forall x, In x l -> list_node s x.
Proof.
  revert a0 l. induction n as [| n IH]; intros a0 l; cbn [linked_walk]; [discriminate |].
  destruct (mem s !! a0) as [nd0 |] eqn:E0; cbn [load bind]; [| discriminate].
  destruct (is_end (next nd0)) eqn:Ee.
  - intros [= <-] H0 x [<- | []]. exact H0.
  - destruct (linked_walk n s (clear_flag (next nd0))) as [l' | |] eqn:Ew;
      cbn [bind]; try discriminate.
    intros [= <-] H0 x [<- | Hin]; [exact H0 |].
    apply (IH _ _ Ew); [| exact Hin].
    apply (list_node_next s a0 nd0 H0 E0 Ee).
Qed.

(** Every node that a walk over the list meets is linked. *)
Lemma linked_nodes_sound fuel s L a :
  linked_nodes fuel s = Ok L -> In a L -> list_node s a.
Proof.
  unfold linked_nodes. intros Hrun Ha.
  destruct (t_tbl s !! 0) as [level |] eqn:El; cbn [load bind] in Hrun; [| discriminate].
  apply (linked_walk_sound _ _ _ _ Hrun); [| exact Ha].
  apply list_node_head, El.
Qed.

(** ** The states of the examples *)

Lemma demo_alloc_ok : alloc_ok Demo.alloc Demo.blank 0 MAX_TABLE_ORDER.
Proof. apply (bool_decide_unpack _). vm_compute. exact I. Qed.

Lemma demo_new_reachable c init_size s :
  0 <= init_size < 2 ^ 64 -> Demo.new c init_size = Ok (Some s) -> reachable c s.
Proof.
  intros Hi Hrun.
  apply (reach_new c 8 Demo.alloc Demo.hash Demo.compare 0 init_size 1 1 0);
    [exact Hi | lia | exact demo_alloc_ok | exact Hrun].
Qed.

Lemma demo_table2_reachable : reachable Demo.cfg Demo.table2.
Proof. apply (demo_new_reachable _ 2); [lia | vm_compute; reflexivity]. Qed.

Lemma demo_withA_reachable : reachable Demo.cfg Demo.withA.
Proof.
  apply reach_node_init; [exact demo_table2_reachable | vm_compute; intuition discriminate |].
  vm_compute. reflexivity.
Qed.

Lemma demo_withA_owned : caller_owned Demo.withA Demo.nodeA (5, 1).
Proof.
  apply (caller_owned_by_walk _ _ _ 8 [4112; 4128]).
  - vm_compute. reflexivity.
  - vm_compute. intuition discriminate.
  - vm_compute. intuition discriminate.
  - vm_compute. eexists. reflexivity.
  - vm_compute. reflexivity.
Qed.

Lemma demo_hasA_reachable : reachable Demo.cfg Demo.hasA.
Proof.
  apply (reach_add Demo.cfg Demo.withA 8 Demo.nodeA (5, 1));
    [exact demo_withA_reachable | exact demo_withA_owned | vm_compute; reflexivity].
Qed.

(** ** C1: the list is sorted by reverse hash *)

Lemma reachable_adjacent cfg s a na :
  reachable cfg s -> list_node s a -> mem s !! a = Some na ->
  is_end (next na) = false ->
  exists nb, mem s !! clear_flag (next na) = Some nb /\
    list_node s (clear_flag (next na)) /\
    reverse_hash na <= reverse_hash nb.
Proof.
  intros Hr Ha Hna He.
  destruct (reachable_table_ok cfg s Hr) as (L & Inv & _).
  pose proof (list_node_in _ _ _ _ _ Inv Ha) as Hin.
  destruct (in_split _ _ Hin) as (l1 & l2 & E).
  destruct (inv_split _ _ _ _ Inv _ _ _ E) as [_ Hseg].
  rewrite (nxt_lookup _ _ _ Hna) in Hseg.
  destruct l2 as [| b l2].
  - cbn in Hseg. unfold is_end in He. rewrite Hseg in He. discriminate.
  - destruct Hseg as (Eb & nb & Hnb & _). rewrite Eb. exists nb.
    assert (Hbin : In b L) by (rewrite E; apply in_or_app; right; right; left; reflexivity).
    split; [exact Hnb |]. split; [apply (in_list_node _ _ _ _ _ Inv Hbin) |].
    pose proof (inv_sorted _ _ _ _ Inv) as Hs. rewrite E in Hs.
    apply sorted_by_app in Hs as (_ & Hs & _).
    destruct Hs as [Hle _]. specialize (Hle b (or_introl eq_refl)).
    apply skey_le_rh in Hle.
    rewrite (rh_lookup _ _ _ Hna), (rh_lookup _ _ _ Hnb) in Hle. exact Hle.
Qed.

(** C1. In every state of a table that one thread reaches by creating it
    and then running add, add_unique, add_replace, del, resize, queued
    resize callbacks and bucket garbage collection in any order: when a
    linked node [a] has a successor (its [next] is not the end marker), the
    successor [b] is a linked node too and
    [a.reverse_hash <= b.reverse_hash]. *)
Theorem C1_reverse_hash_order cfg s a na :
  reachable cfg s -> list_node s a -> mem s !! a = Some na ->
  is_end (next na) = false ->
  exists nb, mem s !! clear_flag (next na) = Some nb /\
    list_node s (clear_flag (next na)) /\
    reverse_hash na <= reverse_hash nb.
Proof. apply reachable_adjacent. Qed.

Lemma C1_reverse_hash_order_witness :
  exists nb, mem Demo.hasA !! clear_flag (next (mk_node 8194 9223372036854775808)) = Some nb /\
    list_node Demo.hasA (clear_flag (next (mk_node 8194 9223372036854775808))) /\
    reverse_hash (mk_node 8194 9223372036854775808) <= reverse_hash nb.
Proof.
  apply (C1_reverse_hash_order Demo.cfg Demo.hasA 4128).
  - exact demo_hasA_reachable.
  - apply (linked_nodes_sound 8 _ [4112; 4128; 8192]); [vm_compute; reflexivity |].
    vm_compute. intuition.
  - vm_compute. reflexivity.
  - vm_compute. reflexivity.
Defined.

(** ** C7: the bucket index *)

(** C7. For every hash [h] and every size [2^k], with [idx = h mod 2^k] and
    [order = msb_index idx]: [lookup_bucket] returns the node at position
    [idx - 2^(order-1)] of the level array of order [order] (position 0 of
    the array of order 0 when [idx = 0]); [order] is 0 exactly when [idx] is
    0; and for [order > 0] the mask of the code is [2^(order-1) - 1], with
    [idx & (2^(order-1) - 1) = idx - 2^(order-1)]. *)
Theorem C7_lookup_bucket_index cfg s h k level :
  0 <= k < 64 ->
  t_tbl s !! msb_index (h mod 2 ^ k) = Some level ->
  let idx := h mod 2 ^ k in
  let order := msb_index idx in
  lookup_bucket cfg s (2 ^ k) h =
    Ok (node_at level (if order =? 0 then 0 else idx - 2 ^ (order - 1))) /\
  (order = 0 <-> idx = 0) /\
  (0 < order ->
     2 ^ (order - 1) <= idx < 2 ^ order /\
     ulong (shl 1 (order - 1) - 1) = 2 ^ (order - 1) - 1 /\
     Z.land idx (2 ^ (order - 1) - 1) = idx - 2 ^ (order - 1)).
Proof.
  intros Hk Hl idx order.
  pose proof (pow2_pos k ltac:(lia)) as Hp.
  assert (Hp64 : 2 ^ k < 2 ^ 64) by (apply Z.pow_lt_mono_r; lia).
  assert (Hidx : 0 <= idx < 2 ^ k) by (apply Z.mod_pos_bound; lia).
  assert (Hfls : fls_ulong idx = order) by (apply fls_ulong_msb_index; lia).
  pose proof (bucket_pos_spec idx ltac:(lia)) as Hpos.
  unfold bucket_pos in Hpos. rewrite Hfls in Hpos.
  split; [| split].
  - unfold lookup_bucket, c_assert.
    replace (2 ^ k >? 0) with true by (symmetry; apply Z.gtb_lt; lia).
    replace (if NDEBUG cfg then Ok tt else Ok tt) with (Ok tt) by (destruct (NDEBUG cfg); reflexivity).
    cbn [bind]. rewrite bucket_index_mod by lia. fold idx. rewrite Hfls.
    change (t_tbl s !! order = Some level) in Hl. rewrite Hl. cbn [load bind]. rewrite Hpos. reflexivity.
  - unfold order, msb_index. destruct (Z.eqb_spec idx 0) as [E | E]; [tauto |].
    pose proof (Z.log2_nonneg idx). split; intros; lia.
  - intros Ho.
    assert (Hne : idx <> 0).
    { intros E. unfold order, msb_index in Ho. rewrite E in Ho. cbn in Ho. lia. }
    assert (Hlog : order = Z.log2 idx + 1).
    { unfold order, msb_index. destruct (Z.eqb_spec idx 0); [contradiction | reflexivity]. }
    assert (Ho64 : order <= 64).
    { pose proof (fls_ulong_range idx ltac:(lia)). lia. }
    destruct (Z.log2_spec idx ltac:(lia)) as [Hlo Hhi].
    replace (Z.succ (Z.log2 idx)) with order in Hhi by lia.
    replace (Z.log2 idx) with (order - 1) in Hlo by lia.
    split; [lia |].
    assert (Hmask : ulong (shl 1 (order - 1) - 1) = 2 ^ (order - 1) - 1).
    { pose proof (pow2_pos (order - 1) ltac:(lia)).
      assert (2 ^ (order - 1) < 2 ^ 64) by (apply Z.pow_lt_mono_r; lia).
      unfold shl. rewrite Z.shiftl_1_l. rewrite (ulong_small (2 ^ (order - 1))) by lia.
      apply ulong_small. lia. }
    split; [exact Hmask |].
    rewrite <- Hmask.
    replace (order =? 0) with false in Hpos by (symmetry; apply Z.eqb_neq; lia).
    exact Hpos.
Qed.

Lemma C7_lookup_bucket_index_witness :
  lookup_bucket Demo.cfg Demo.table2 (2 ^ 1) 5 =
    Ok (node_at 4128 (if msb_index (5 mod 2 ^ 1) =? 0 then 0
                      else 5 mod 2 ^ 1 - 2 ^ (msb_index (5 mod 2 ^ 1) - 1))) /\
  (msb_index (5 mod 2 ^ 1) = 0 <-> 5 mod 2 ^ 1 = 0) /\
  (0 < msb_index (5 mod 2 ^ 1) ->
     2 ^ (msb_index (5 mod 2 ^ 1) - 1) <= 5 mod 2 ^ 1 < 2 ^ msb_index (5 mod 2 ^ 1) /\
     ulong (shl 1 (msb_index (5 mod 2 ^ 1) - 1) - 1) = 2 ^ (msb_index (5 mod 2 ^ 1) - 1) - 1 /\
     Z.land (5 mod 2 ^ 1) (2 ^ (msb_index (5 mod 2 ^ 1) - 1) - 1) =
       5 mod 2 ^ 1 - 2 ^ (msb_index (5 mod 2 ^ 1) - 1)).
Proof.
  apply (C7_lookup_bucket_index Demo.cfg Demo.table2 5 1 4128).
  - lia.
  - vm_compute. reflexivity.
Defined.

(** ** C8: the chain-length heuristic *)



(** The heuristic at work in [cds_lfht_add]: in a table of one bucket that
    holds three user nodes of distinct reverse hashes, the add of a fourth
    node behind them counts a chain of 3 and requests a growth by
    [get_count_order_u32 3 = 2] orders; the queued callback then grows the
    table to 4 buckets. The add of the third node had counted 2 only. *)
Lemma demo_chain_schedules_grow :
  t_size Demo.chain3 = 1 /\ t_resize_target Demo.chain3 = 1 /\
  rcu_callbacks Demo.chain3 = 0%nat /\
  cds_lfht_add Demo.cfg 8 (caller_node_init Demo.chain3 8240 (mk_node 0 0) 7 1) 8240
    = Ok Demo.chain4 /\
  t_size Demo.chain4 = 1 /\ t_resize_target Demo.chain4 = shl 1 2 /\
  rcu_callbacks Demo.chain4 = 1%nat /\ t_resize_initiated Demo.chain4 = 1 /\
  t_size (Demo.after (do_resize_cb Demo.cfg 8 Demo.alloc Demo.chain4)) = 4.
Proof.
  do 8 (split; [vm_compute; reflexivity |]). vm_compute. reflexivity.
Qed.

(** ** C10: a nil iterator *)

(** C10. [cds_lfht_del] and [cds_lfht_replace] on an iterator whose node is
    [NULL], and the internal [_cds_lfht_del] and [_cds_lfht_replace] on a
    [NULL] node, return [-ENOENT] and leave the state as it is; no node is
    read, whatever the memory holds. *)
Theorem C10_nil_iterator cfg fuel s size next_ new_node dummy_removal :
  cds_lfht_del cfg fuel s (mk_iter 0 next_) = Ok (s, - ENOENT) /\
  cds_lfht_replace cfg fuel s (mk_iter 0 next_) new_node = Ok (s, - ENOENT) /\
  _cds_lfht_del cfg fuel s size 0 dummy_removal = Ok (s, - ENOENT) /\
  _cds_lfht_replace cfg fuel s size 0 next_ new_node = Ok (s, - ENOENT) /\
  - ENOENT <> 0.
Proof.
  unfold cds_lfht_del, cds_lfht_replace, _cds_lfht_del, _cds_lfht_replace.
  cbn [iter_node iter_next Z.eqb bind].
  change (- ENOENT =? 0) with false. cbv iota.
  repeat split. discriminate.
Qed.

(** ** C5: the initial size *)

Lemma not_pow2_land x :
  0 < x < 2 ^ 64 ->
  (Z.land x (ulong (x - 1)) = 0 <-> exists k, 0 <= k /\ x = 2 ^ k).
Proof.
  intros Hx. rewrite ulong_small by lia. split.
  - intros Hl. destruct (land_pred_pow2 x ltac:(lia) Hl) as (k & Hk & E).
    exists k. split; [lia | exact E].
  - intros (k & Hk & ->). apply land_pow2_pred. exact Hk.
Qed.

Lemma new_guard_spec init_size :
  0 <= init_size < 2 ^ 64 ->
  (negb (init_size =? 0) && negb (Z.land init_size (ulong (init_size - 1)) =? 0) = true
   <-> init_size <> 0 /\ ~ exists k, 0 <= k /\ init_size = 2 ^ k).
Proof.
  intros Hi. rewrite andb_true_iff, !negb_true_iff, !Z.eqb_neq.
  destruct (Z.eq_dec init_size 0) as [E | E]; [tauto |].
  pose proof (not_pow2_land init_size ltac:(lia)) as Hp. tauto.
Qed.

Lemma new_returns_null cfg fuel alloc hash_fct compare_fct hash_seed init_size flags
  mask nprocs cpu :
  _cds_lfht_new cfg fuel alloc hash_fct compare_fct hash_seed init_size flags
    mask nprocs cpu = Ok None <->
  negb (init_size =? 0) && negb (Z.land init_size (ulong (init_size - 1)) =? 0) = true.
Proof.
  unfold _cds_lfht_new.
  destruct (negb (init_size =? 0) && negb (Z.land init_size (ulong (init_size - 1)) =? 0)).
  - tauto.
  - destruct (alloc_per_cpu_items_count _) as [s cells].
    destruct (init_table _ _ _ _ _ _); cbn [bind]; split; intros; discriminate.
Qed.

(** C5. [_cds_lfht_new] returns [NULL] exactly when [init_size] is neither
    zero nor a power of two. When [init_size] is zero or a power of two and
    the level arrays are allocated, it returns a handle to a table whose
    published size is [max(init_size, MIN_TABLE_SIZE)]. *)
Theorem C5_new_init_size cfg fuel alloc hash_fct compare_fct hash_seed init_size flags
  nprocs cpu :
  0 <= init_size < 2 ^ 64 ->
  let r := _cds_lfht_new cfg fuel alloc hash_fct compare_fct hash_seed init_size
             flags (-1) nprocs cpu in
  (r = Ok None <-> init_size <> 0 /\ ~ exists k, 0 <= k /\ init_size = 2 ^ k) /\
  (init_size = 0 \/ (exists k, 0 <= k /\ init_size = 2 ^ k) ->
   nprocs <= 2 ^ 61 ->
   alloc_ok alloc (calloc_ht hash_fct compare_fct hash_seed (-1) nprocs cpu) 0
     MAX_TABLE_ORDER ->
   alloc_succeeds alloc 0 (order_of_size (Z.max init_size MIN_TABLE_SIZE)) ->
   Z.max init_size MIN_TABLE_SIZE <= Z.of_nat fuel ->
   exists s, r = Ok (Some s) /\ t_size s = Z.max init_size MIN_TABLE_SIZE).
Proof.
  intros Hi r. split.
  - unfold r. rewrite new_returns_null. apply new_guard_spec. exact Hi.
  - intros Hp Hn Hal Hsucc Hfuel.
    assert (Hk : exists k, 0 <= k < 64 /\ Z.max init_size MIN_TABLE_SIZE = 2 ^ k /\
                   (init_size = 0 \/ init_size = 2 ^ k)).
    { change MIN_TABLE_SIZE with 1. destruct Hp as [-> | (k & Hk & E)].
      - exists 0. split; [lia |]. split; [reflexivity | left; reflexivity].
      - exists k. pose proof (pow2_pos k Hk).
        assert (k < 64).
        { destruct (Z.lt_ge_cases k 64) as [? | Hge]; [assumption |].
          assert (2 ^ 64 <= 2 ^ k) by (apply Z.pow_le_mono_r; lia). lia. }
        split; [lia |]. split; [lia | right; exact E]. }
    destruct Hk as (k & Hk & Emax & Hcase).
    pose proof (cds_lfht_new_run cfg fuel alloc hash_fct compare_fct hash_seed init_size
      flags nprocs cpu k Hk Emax Hcase Hn Hal ltac:(lia)) as Hrun.
    fold r in Hrun. rewrite Emax in Hsucc. rewrite order_of_size_pow2 in Hsucc by exact Hk.
    rewrite alloc_succeeds_spec in Hsucc.
    destruct r as [[s |] | |].
    + destruct Hrun as (L & _ & _ & Hsz & _). exists s. split; [reflexivity |]. lia.
    + contradiction.
    + destruct Hrun as (j & Hj & Ej). exfalso. apply (Hsucc j); [lia | exact Ej].
    + contradiction.
Qed.

Lemma C5_new_init_size_witness :
  exists s, _cds_lfht_new Demo.cfg 8 Demo.alloc Demo.hash Demo.compare 0 4 1 (-1) 1 0
              = Ok (Some s) /\
    t_size s = Z.max 4 MIN_TABLE_SIZE.
Proof.
  apply (proj2 (C5_new_init_size Demo.cfg 8 Demo.alloc Demo.hash Demo.compare 0 4 1 1 0
                  ltac:(lia))).
  - right. exists 2. split; [lia | reflexivity].
  - lia.
  - exact demo_alloc_ok.
  - apply (bool_decide_unpack _). vm_compute. exact I.
  - vm_compute. discriminate.
Defined.

(** The claim fails at [init_size = 0]: zero is not a power of two, and the
    creation succeeds, with a table of one bucket. *)
Lemma C5_counterexample :
  ~ (Demo.new Demo.cfg 0 = Ok None <-> ~ exists k, 0 <= k /\ 0 = 2 ^ k).
Proof.
  intros [_ H].
  assert (E : Demo.new Demo.cfg 0 = Ok (Some Demo.table1_asserts))
    by (vm_compute; reflexivity).
  rewrite E in H.
  assert (Hn : ~ exists k, 0 <= k /\ 0 = 2 ^ k).
  { intros (k & Hk & Ek). pose proof (pow2_pos k Hk). lia. }
  specialize (H Hn). discriminate.
Qed.

(** ** C6: a resize to a size that is not a power of two *)

(** Once the table has 4 buckets and the target is 5, a pass of the
    [do ... while] loop of [_do_cds_lfht_resize] changes neither: [init_table]
    stops before the level of order 3, whose buckets end past the target. *)
Lemma resize_stuck n fuel s :
  t_size s = 4 -> t_resize_target s = 5 -> ht_in_progress_destroy s = 0 ->
  _do_cds_lfht_resize Demo.cfg_ndebug n fuel Demo.alloc s = OutOfFuel.
Proof.
  revert s. induction n as [| n IH]; intros s Hs Ht Hd; [reflexivity |].
  cbn [_do_cds_lfht_resize]. unfold c_assert. cbn [NDEBUG Demo.cfg_ndebug bind].
  rewrite Hd. cbn [Z.eqb negb].
  cbn [t_size t_resize_target set_resize_initiated]. rewrite Hs, Ht.
  change (4 <? 5) with true. cbv iota.
  unfold _do_cds_lfht_grow, c_assert. cbn [NDEBUG Demo.cfg_ndebug bind].
  change (ulong (get_count_order_ulong 4 + 1)) with 3.
  change (ulong (get_count_order_ulong 5 + 1)) with 4.
  change (ulong (4 - 3)) with 1.
  unfold init_table. change (Z.to_nat 1) with 1%nat. cbn [init_table_loop].
  cbn [t_resize_target set_resize_initiated]. rewrite Ht.
  change (5 <? (if 3 =? 0 then 1 else shl 1 3)) with true. cbv iota. cbn [bind].
  cbn [t_size t_resize_target set_resize_initiated]. rewrite Hs, Ht.
  change (negb (4 =? 5)) with true. cbv iota.
  apply IH; assumption.
Qed.

(** The first pass grows the table of one bucket to 4 buckets; the passes
    that follow change nothing. *)
Lemma resize_5_out_of_fuel fuel s s1 :
  ht_in_progress_destroy s = 0 -> t_size s = 1 ->
  (forall f, _do_cds_lfht_grow Demo.cfg_ndebug (S f) Demo.alloc
      (set_resize_initiated 1 (set_resize_initiated 1 (resize_target_update_count s 5)))
      1 5 = Ok s1) ->
  t_size s1 = 4 -> t_resize_target s1 = 5 -> ht_in_progress_destroy s1 = 0 ->
  cds_lfht_resize Demo.cfg_ndebug fuel Demo.alloc s 5 = OutOfFuel.
Proof.
  intros Hd Hs Hgrow Hs1 Ht1 Hd1.
  destruct fuel as [| fuel0]; [reflexivity |].
  unfold cds_lfht_resize.
  set (s0 := set_resize_initiated 1 (resize_target_update_count s 5)).
  assert (Hd0 : ht_in_progress_destroy (set_resize_initiated 1 s0) = 0) by exact Hd.
  assert (Hs0 : t_size (set_resize_initiated 1 s0) = 1) by exact Hs.
  assert (Ht0 : t_resize_target (set_resize_initiated 1 s0) = 5) by reflexivity.
  assert (Hd0' : ht_in_progress_destroy s0 = 0) by exact Hd.
  specialize (Hgrow fuel0). fold s0 in Hgrow.
  cbn [_do_cds_lfht_resize]. unfold c_assert. cbn [NDEBUG Demo.cfg_ndebug bind].
  rewrite Hd0'. cbn [Z.eqb negb]. cbv iota.
  rewrite Hs0, Ht0. change (1 <? 5) with true. cbv iota.
  rewrite Hgrow. cbn [bind].
  assert (Hs2 : t_size (set_resize_initiated 0 s1) = 4) by exact Hs1.
  assert (Ht2 : t_resize_target (set_resize_initiated 0 s1) = 5) by exact Ht1.
  assert (Hd2 : ht_in_progress_destroy (set_resize_initiated 0 s1) = 0) by exact Hd1.
  rewrite Hs2, Ht2. change (negb (4 =? 5)) with true. cbv iota.
  apply resize_stuck; assumption.
Qed.

Lemma resize_assert_fails fuel alloc s new_size :
  ht_in_progress_resize s = 0 ->
  cds_lfht_resize Demo.cfg (S fuel) alloc s new_size = Abort.
Proof.
  intros Ha. unfold cds_lfht_resize. cbn [_do_cds_lfht_resize]. unfold c_assert.
  cbn [NDEBUG Demo.cfg bind].
  cbn [ht_in_progress_resize set_resize_initiated resize_target_update_count set_resize_target].
  rewrite Ha. reflexivity.
Qed.

(** C6. [cds_lfht_resize(ht, 5)] on a table of one bucket does not complete.
    In the [NDEBUG] build the first pass of [_do_cds_lfht_resize] grows the
    table to 4 buckets, the target stays 5, and the call runs out of every
    amount of fuel: the loop [while (ht->t.size != ht->t.resize_target)]
    never exits. With the assertions compiled in, the call stops at
    [assert(ht->in_progress_resize)]. *)
Theorem C6_resize_to_5_does_not_complete fuel :
  cds_lfht_resize Demo.cfg_ndebug fuel Demo.alloc Demo.table1 5 = OutOfFuel /\
  _do_cds_lfht_grow Demo.cfg_ndebug (S fuel) Demo.alloc Demo.resize5_begin 1 5
    = Ok Demo.resize5_grown /\
  t_size Demo.resize5_grown = 4 /\ t_resize_target Demo.resize5_grown = 5 /\
  cds_lfht_resize Demo.cfg (S fuel) Demo.alloc Demo.table1_asserts 5 = Abort.
Proof.
  assert (Hgrow : forall f, _do_cds_lfht_grow Demo.cfg_ndebug (S f) Demo.alloc
                    Demo.resize5_begin 1 5 = Ok Demo.resize5_grown).
  { intros f. apply (grow_mono Demo.cfg_ndebug Demo.alloc 1 (S f)); [lia |].
    vm_compute. reflexivity. }
  assert (Es : t_size Demo.resize5_grown = 4) by (vm_compute; reflexivity).
  assert (Et : t_resize_target Demo.resize5_grown = 5) by (vm_compute; reflexivity).
  assert (Ed : ht_in_progress_destroy Demo.resize5_grown = 0) by (vm_compute; reflexivity).
  assert (Es0 : t_size Demo.table1 = 1) by (vm_compute; reflexivity).
  assert (Ed0 : ht_in_progress_destroy Demo.table1 = 0) by (vm_compute; reflexivity).
  assert (Ea : ht_in_progress_resize Demo.table1_asserts = 0) by (vm_compute; reflexivity).
  split; [| split; [apply Hgrow | split; [exact Es | split; [exact Et |]]]].
  - exact (resize_5_out_of_fuel fuel Demo.table1 Demo.resize5_grown Ed0 Es0 Hgrow Es Et Ed).
  - exact (resize_assert_fails fuel Demo.alloc Demo.table1_asserts 5 Ea).
Qed.

(** ** Where the nodes of one key are *)

Lemma nodup_mem_length (m : gmap Z _cds_lfht_node) (l : list Z) :
  List.NoDup l -> (forall a, In a l -> is_Some (m !! a)) -> (length l <= size m)%nat.
Proof.
  intros Hnd Hin.
  assert (Hsub : (list_to_set l : gset Z) ⊆ dom m).
  { intros a Ha. apply elem_of_list_to_set in Ha. apply elem_of_dom.
    apply list_elem_of_In in Ha. apply Hin, Ha. }
  apply subseteq_size in Hsub.
  rewrite size_list_to_set in Hsub by (apply NoDup_ListNoDup; exact Hnd).
  rewrite size_dom in Hsub. exact Hsub.
Qed.

(** With a node of the caller beside it, the list is shorter than the
    memory is large. *)
Lemma owned_length s L node k :
  table_ok s L -> caller_owned s node k -> (S (length L) <= size (mem s))%nat.
Proof.
  intros Inv Hown.
  pose proof (caller_owned_not_in s L node k Inv Hown) as Hnin.
  destruct Hown as (_ & Hmem & _).
  apply (nodup_mem_length (mem s) (node :: L)).
  - constructor; [exact Hnin | apply (inv_nodup _ _ _ _ Inv)].
  - intros a [<- | Ha]; [exact Hmem |].
    apply (lseg_in_mem _ _ _ _ _ (inv_lseg _ _ _ _ Inv) Ha).
Qed.

Lemma lookup_class_cases s key key_len r x :
  lookup_class s key key_len r x = W_next \/
  lookup_class s key key_len r x = W_stop \/
  lookup_class s key key_len r x = W_hit.
Proof.
  unfold lookup_class. destruct (rh s x >? r); [auto |].
  destruct (_ && _ && _ && _); auto.
Qed.

Lemma cmp_key_same s s' x key key_len :
  ht_compare_fct s' = ht_compare_fct s -> node_keys s' !! x = node_keys s !! x ->
  cmp_key s' x key key_len = cmp_key s x key key_len.
Proof. intros E1 E2. unfold cmp_key. rewrite E1, E2. reflexivity. Qed.

Lemma lookup_class_same (P : Z -> Prop) s s' key key_len r x :
  same_nodes P s s' -> P x ->
  lookup_class s' key key_len r x = lookup_class s key key_len r x.
Proof.
  intros (_ & _ & _ & Ec & _ & _ & Ha) Hx.
  destruct (Ha x Hx) as (E1 & E2 & E3 & E4 & _).
  unfold lookup_class. rewrite E1, E2, E3, (cmp_key_same s s' x key key_len Ec E4).
  reflexivity.
Qed.

Lemma uniq_class_same (P : Z -> Prop) s s' r n n' x :
  same_nodes P s s' -> P x ->
  node_keys s' !! n' = node_keys s !! n ->
  uniq_class s' r n' x = uniq_class s r n x.
Proof.
  intros (_ & _ & _ & Ec & _ & _ & Ha) Hx Hk.
  destruct (Ha x Hx) as (E1 & E2 & _ & E4 & _).
  unfold uniq_class, cmp_nodes. rewrite E1, E2, Ec, Hk, E4. reflexivity.
Qed.

(** A user node whose reverse hash is that of [h] comes after the dummy
    node of the bucket of [h]. *)
Lemma user_after_bucket s l1 rest h x :
  table_ok s (l1 ++ daddr s (h mod t_size s) :: rest) ->
  0 <= h < 2 ^ 64 ->
  In x (l1 ++ daddr s (h mod t_size s) :: rest) ->
  is_dummy (nxt s x) = false -> rh s x = bit_reverse_ulong h ->
  In x rest.
Proof.
  intros Inv Hh Hx Hd Hr.
  destruct (table_ok_size _ _ Inv) as (k & Hk & Ek).
  assert (HD : forall idx, 0 <= idx < 2 ^ k -> 0 <= idx < t_size s)
    by (intros idx; rewrite Ek; auto).
  destruct (user_bucket_before _ _ s _ k x Inv Hk HD Hx Hd) as (_ & _ & Hlt & _).
  rewrite Hr, bit_reverse_ulong_involutive, <- Ek in Hlt by exact Hh.
  apply (sorted_by_before (skey s) l1 _ rest x (inv_sorted _ _ _ _ Inv) Hx Hlt).
Qed.

(** Behind a node whose reverse hash exceeds [r], every reverse hash does. *)
Lemma after_stop s l1 y tl r x :
  table_ok s (l1 ++ y :: tl) -> r < rh s y -> In x (y :: tl) -> r < rh s x.
Proof.
  intros Inv Hy [<- | Hx]; [exact Hy |].
  pose proof (inv_sorted _ _ _ _ Inv) as Hs.
  apply sorted_by_app in Hs as (_ & Hs & _). destruct Hs as [Hle _].
  specialize (Hle x Hx). apply skey_le_rh in Hle. lia.
Qed.

(** When a traversal that looks for a match ends on a larger reverse hash,
    or on the end of the list, no linked node matches. *)
Lemma split_no_hit (cls : Z -> walk_class) s l1 mid tail h :
  let r := bit_reverse_ulong h in
  let L := l1 ++ daddr s (h mod t_size s) :: mid ++ tail in
  table_ok s L -> 0 <= h < 2 ^ 64 ->
  (forall x, cls x = W_hit -> is_dummy (nxt s x) = false /\ rh s x = r) ->
  (forall x, In x mid -> cls x = W_next) ->
  match tail with
  | [] => True
  | y :: _ => r < rh s y
  end ->
  forall x, In x L -> cls x <> W_hit.
Proof.
  intros r L Inv Hh Hhit Hmid Htail x Hx Hc.
  destruct (Hhit x Hc) as [Hd Hr].
  pose proof (user_after_bucket s l1 (mid ++ tail) h x Inv Hh Hx Hd Hr) as Hin.
  apply in_app_or in Hin as [Hin | Hin].
  - rewrite (Hmid x Hin) in Hc. discriminate.
  - destruct tail as [| y tl]; [destruct Hin |].
    assert (Inv' : table_ok s ((l1 ++ daddr s (h mod t_size s) :: mid) ++ y :: tl)).
    { rewrite <- app_assoc. exact Inv. }
    pose proof (after_stop s _ y tl r x Inv' Htail Hin). fold r in Hr. lia.
Qed.

Lemma lookup_class_hit s key key_len r x :
  lookup_class s key key_len r x = W_hit ->
  is_dummy (nxt s x) = false /\ rh s x = r.
Proof.
  unfold lookup_class. destruct (rh s x >? r); [discriminate |].
  destruct (is_removed (nxt s x)); cbn [negb andb]; [discriminate |].
  destruct (is_dummy (nxt s x)); cbn [negb andb]; [discriminate |].
  destruct (Z.eqb_spec (rh s x) r); cbn [andb]; [| discriminate].
  intros _. auto.
Qed.

Lemma uniq_class_hit s r node x :
  uniq_class s r node x = W_hit ->
  is_dummy (nxt s x) = false /\ rh s x = r /\ cmp_nodes s node x = 0.
Proof.
  unfold uniq_class. destruct (rh s x >? r); [discriminate |].
  destruct (is_dummy (nxt s x)); cbn [negb andb]; [discriminate |].
  destruct (Z.eqb_spec (rh s x) r); cbn [andb]; [| discriminate].
  destruct (Z.eqb_spec (cmp_nodes s node x) 0); [| discriminate].
  intros _. auto.
Qed.

Lemma lookup_class_stop s key key_len r x :
  lookup_class s key key_len r x = W_stop <-> r < rh s x.
Proof.
  unfold lookup_class. destruct (Z.gtb_spec (rh s x) r).
  - split; [lia | reflexivity].
  - split; [| lia]. destruct (_ && _ && _ && _); discriminate.
Qed.

Lemma uniq_class_stop s r node x : uniq_class s r node x = W_stop <-> r < rh s x.
Proof.
  unfold uniq_class. destruct (Z.gtb_spec (rh s x) r).
  - split; [lia | reflexivity].
  - split; [| lia]. destruct (_ && _ && _); discriminate.
Qed.

Lemma rh_class_stop s r x : rh_class s r x = W_stop <-> r < rh s x.
Proof.
  unfold rh_class. destruct (Z.gtb_spec (rh s x) r).
  - split; [lia | reflexivity].
  - split; [discriminate | lia].
Qed.

Lemma daddr_same s s' i : t_tbl s' = t_tbl s -> daddr s' i = daddr s i.
Proof. intros E. unfold daddr. rewrite E. reflexivity. Qed.

(** A lookup that finds nothing: no linked node matches the key. *)
Lemma key_absent_no_hit cfg s L key key_len fuel :
  table_ok s L -> (length L < fuel)%nat ->
  cds_lfht_lookup cfg fuel s key key_len = Ok (mk_iter 0 0) ->
  forall x, In x L ->
    lookup_class s key key_len
      (bit_reverse_ulong (ulong (ht_hash_fct s key key_len (ht_hash_seed s)))) x <> W_hit.
Proof.
  intros Inv Hfuel Hrun.
  set (h := ulong (ht_hash_fct s key key_len (ht_hash_seed s))).
  set (r := bit_reverse_ulong h).
  destruct (bucket_split (lookup_class s key key_len r) s L h Inv)
    as (l1 & mid & tail & EL & Hmid & Htail).
  subst L.
  assert (Hlen : (length mid < fuel)%nat).
  { rewrite length_app in Hfuel. cbn [length] in Hfuel. rewrite length_app in Hfuel. lia. }
  rewrite (lookup_run cfg s l1 mid tail key key_len fuel Inv Hmid Htail Hlen) in Hrun.
  injection Hrun as Hres. fold h r in Hres.
  apply (split_no_hit (lookup_class s key key_len r) s l1 mid tail h Inv).
  - apply ulong_range.
  - intros x Hx. apply (lookup_class_hit _ _ _ _ _ Hx).
  - exact Hmid.
  - destruct tail as [| y tl]; [exact I |].
    unfold lookup_result_of in Hres.
    destruct (lookup_class_cases s key key_len r y) as [H | [H | H]].
    + contradiction.
    + apply lookup_class_stop in H. exact H.
    + rewrite H in Hres. injection Hres as Hy _.
      assert (Hin : In y (l1 ++ daddr s (h mod t_size s) :: mid ++ y :: tl)).
      { apply in_or_app. right. right. apply in_or_app. right. left. reflexivity. }
      destruct (inv_aligned _ _ _ _ Inv y Hin) as [Hpos _]. lia.
Qed.

(** [add], [lookup], [del] and [lookup] again, for a key that the table
    does not hold. *)
Lemma add_del_lookup_run cfg s L node k kl fuel :
  table_ok s L -> caller_owned s node (k, kl) ->
  ht_compare_fct s k kl k kl = 0 ->
  cds_lfht_lookup cfg fuel s k kl = Ok (mk_iter 0 0) ->
  (S (length L) < fuel)%nat ->
  exists s1 it s2,
    cds_lfht_add cfg fuel s node = Ok s1 /\
    cds_lfht_lookup cfg fuel s1 k kl = Ok it /\ iter_node it = node /\
    cds_lfht_del cfg fuel s1 it = Ok (s2, 0) /\
    cds_lfht_lookup cfg fuel s2 k kl = Ok (mk_iter 0 0).
Proof.
  intros Inv Hown Hrefl Hnil Hfuel.
  pose proof (caller_owned_not_in s L node (k, kl) Inv Hown) as Hnin.
  destruct Hown as (Hal & Hmem & Hkey & _).
  assert (Hfuel0 : (length L < fuel)%nat) by lia.
  pose proof (key_absent_no_hit cfg s L k kl fuel Inv Hfuel0 Hnil) as Hnohit.
  set (h := node_hash_of s (k, kl)) in *.
  change (ulong (ht_hash_fct s k kl (ht_hash_seed s))) with h in Hnohit.
  set (r := bit_reverse_ulong h) in *.
  destruct (bucket_split (rh_class s r) s L h Inv) as (l1 & mid & tail & EL & Hmid & Htail).
  set (d := daddr s (h mod t_size s)) in *.
  assert (Htail' : match tail with [] => True | y :: _ => rh_class s r y = W_stop end).
  { destruct tail as [| y tl]; [exact I |].
    destruct (rh_class_cases s r y); [contradiction | assumption]. }
  subst L.
  destruct (cds_lfht_add_run cfg s node (k, kl) Hal Hmem Hkey l1 mid tail fuel Inv Hnin Hmid
              Htail' Hfuel0) as (s1 & Hrun1 & Inv1 & Hadd).
  fold h d r in Inv1, Hadd.
  destruct Hadd as (Hsn & Hrh & Hdm & Hrm & Hdom & Hkeys).
  pose proof Hsn as (Es & Et & Eh & Ec & Ese & Efl & _).
  (* the classes of the linked nodes of [s], in [s] *)
  assert (Hne : forall x, In x (l1 ++ d :: mid ++ tail) -> x <> node)
    by (intros x Hx ->; contradiction).
  assert (Hmid0 : forall x, In x mid -> lookup_class s k kl r x = W_next).
  { intros x Hx.
    assert (Hin : In x (l1 ++ d :: mid ++ tail)).
    { apply in_or_app. right. right. apply in_or_app. left. exact Hx. }
    destruct (lookup_class_cases s k kl r x) as [H | [H | H]]; [exact H | |].
    - apply lookup_class_stop in H. apply rh_class_stop in H.
      rewrite (Hmid x Hx) in H. discriminate.
    - destruct (Hnohit x Hin H). }
  assert (Htail0 : match tail with
                   | [] => True
                   | y :: _ => lookup_class s k kl r y = W_stop
                   end).
  { destruct tail as [| y tl]; [exact I |].
    apply lookup_class_stop. apply rh_class_stop. exact Htail'. }
  (* the lookup after the add *)
  assert (Eh1 : ulong (ht_hash_fct s1 k kl (ht_hash_seed s1)) = h).
  { rewrite Eh, Ese. reflexivity. }
  assert (Ed1 : daddr s1 (h mod t_size s1) = d).
  { rewrite Es. apply daddr_same, Et. }
  assert (Hhit : lookup_class s1 k kl r node = W_hit).
  { unfold lookup_class, cmp_key. rewrite Hrh, Hrm, Hdm, Hkeys, Hkey, Ec.
    cbn [fst snd]. rewrite Hrefl.
    replace (r >? r) with false by (symmetry; rewrite Z.gtb_ltb; apply Z.ltb_irrefl).
    rewrite Z.eqb_refl. reflexivity. }
  pose proof (lookup_run cfg s1 l1 mid (node :: tail) k kl fuel) as Hl1.
  cbv zeta in Hl1. rewrite Eh1, Ed1 in Hl1. fold r in Hl1.
  assert (Hmid1 : forall x, In x mid -> lookup_class s1 k kl r x = W_next).
  { intros x Hx.
    rewrite (lookup_class_same (fun a => a <> node) s s1 k kl r x Hsn); [apply Hmid0, Hx |].
    apply Hne. apply in_or_app. right. right. apply in_or_app. left. exact Hx. }
  specialize (Hl1 Inv1 Hmid1).
  rewrite Hhit in Hl1. specialize (Hl1 ltac:(discriminate)).
  assert (Hlen : (length mid < fuel)%nat).
  { rewrite length_app in Hfuel. cbn [length] in Hfuel. rewrite length_app in Hfuel. lia. }
  specialize (Hl1 Hlen). unfold lookup_result_of in Hl1. rewrite Hhit in Hl1.
  (* the removal *)
  assert (Inv1' : table_ok s1 ((l1 ++ d :: mid) ++ node :: tail)).
  { rewrite <- app_assoc. exact Inv1. }
  destruct (cds_lfht_del_run cfg s1 (l1 ++ d :: mid) node tail (mk_iter node (nxt s1 node))
              fuel Inv1' Hdm eq_refl) as (s2 & Hrun2 & Inv2 & Hdel).
  { rewrite <- app_assoc. cbn [app]. rewrite !length_app in *. cbn [length] in *.
    rewrite !length_app in *. cbn [length] in *. lia. }
  rewrite <- app_assoc in Inv2. cbn [app] in Inv2.
  destruct Hdel as (Hsn2 & _).
  pose proof Hsn2 as (Es2 & Et2 & Eh2 & Ec2 & Ese2 & Efl2 & _).
  (* the lookup after the removal *)
  assert (Eh2' : ulong (ht_hash_fct s2 k kl (ht_hash_seed s2)) = h).
  { rewrite Eh2, Ese2. exact Eh1. }
  assert (Ed2 : daddr s2 (h mod t_size s2) = d).
  { rewrite Es2, (daddr_same s1 s2 _ Et2). exact Ed1. }
  assert (Hcls2 : forall x, In x (l1 ++ d :: mid ++ tail) ->
            lookup_class s2 k kl r x = lookup_class s k kl r x).
  { intros x Hx.
    rewrite (lookup_class_same (fun a => a <> node) s1 s2 k kl r x Hsn2 (Hne x Hx)).
    apply (lookup_class_same (fun a => a <> node) s s1 k kl r x Hsn (Hne x Hx)). }
  pose proof (lookup_run cfg s2 l1 mid tail k kl fuel) as Hl2.
  cbv zeta in Hl2. rewrite Eh2', Ed2 in Hl2. fold r in Hl2.
  assert (Hmid2 : forall x, In x mid -> lookup_class s2 k kl r x = W_next).
  { intros x Hx. rewrite Hcls2; [apply Hmid0, Hx |].
    apply in_or_app. right. right. apply in_or_app. left. exact Hx. }
  assert (Htail2 : match tail with
                   | [] => True
                   | y :: _ => lookup_class s2 k kl r y = W_stop
                   end).
  { destruct tail as [| y tl]; [exact I |]. rewrite Hcls2; [exact Htail0 |].
    apply in_or_app. right. right. apply in_or_app. right. left. reflexivity. }
  assert (Hl2' : cds_lfht_lookup cfg fuel s2 k kl = Ok (mk_iter 0 0)).
  { rewrite (Hl2 Inv2 Hmid2); [| | exact Hlen].
    - unfold lookup_result_of. destruct tail as [| y tl]; [reflexivity |].
      rewrite Htail2. reflexivity.
    - destruct tail as [| y tl]; [exact I |]. rewrite Htail2. discriminate. }
  exists s1, (mk_iter node (nxt s1 node)), s2.
  split; [exact Hrun1 |]. split; [exact Hl1 |]. split; [reflexivity |].
  split; [exact Hrun2 | exact Hl2'].
Qed.

(** ** C2: add, delete, lookup *)

(** C2. For a key [k] that compares equal to itself and that a lookup on
    the table does not find: after [cds_lfht_add] of a node with key [k],
    [cds_lfht_lookup] of [k] returns an iterator on this node,
    [cds_lfht_del] on that iterator returns 0, and the lookup of [k] that
    follows returns the nil iterator. *)
Theorem C2_add_del_lookup cfg s node k kl fuel :
  reachable cfg s -> caller_owned s node (k, kl) ->
  ht_compare_fct s k kl k kl = 0 ->
  cds_lfht_lookup cfg fuel s k kl = Ok (mk_iter 0 0) ->
  (size (mem s) < fuel)%nat ->
  exists s1 it s2,
    cds_lfht_add cfg fuel s node = Ok s1 /\
    cds_lfht_lookup cfg fuel s1 k kl = Ok it /\ iter_node it = node /\
    cds_lfht_del cfg fuel s1 it = Ok (s2, 0) /\
    cds_lfht_lookup cfg fuel s2 k kl = Ok (mk_iter 0 0).
Proof.
  intros Hr Hown Hrefl Hnil Hfuel.
  destruct (reachable_table_ok cfg s Hr) as (L & Inv & _).
  pose proof (owned_length s L node (k, kl) Inv Hown) as Hlen.
  apply (add_del_lookup_run cfg s L node k kl fuel Inv Hown Hrefl Hnil). lia.
Qed.

Lemma C2_add_del_lookup_witness :
  exists s1 it s2,
    cds_lfht_add Demo.cfg 8 Demo.withA Demo.nodeA = Ok s1 /\
    cds_lfht_lookup Demo.cfg 8 s1 5 1 = Ok it /\ iter_node it = Demo.nodeA /\
    cds_lfht_del Demo.cfg 8 s1 it = Ok (s2, 0) /\
    cds_lfht_lookup Demo.cfg 8 s2 5 1 = Ok (mk_iter 0 0).
Proof.
  apply (C2_add_del_lookup Demo.cfg Demo.withA Demo.nodeA 5 1 8).
  - exact demo_withA_reachable.
  - exact demo_withA_owned.
  - vm_compute. reflexivity.
  - vm_compute. reflexivity.
  - vm_compute. lia.
Defined.

Lemma demo_hasA_withB_reachable : reachable Demo.cfg Demo.hasA_withB.
Proof.
  apply reach_node_init; [exact demo_hasA_reachable | vm_compute; intuition discriminate |].
  vm_compute. reflexivity.
Qed.

Lemma demo_hasA_withB_owned : caller_owned Demo.hasA_withB Demo.nodeB (5, 1).
Proof.
  apply (caller_owned_by_walk _ _ _ 8 [4112; 4128; 8192]).
  - vm_compute. reflexivity.
  - vm_compute. intuition discriminate.
  - vm_compute. intuition discriminate.
  - vm_compute. eexists. reflexivity.
  - vm_compute. reflexivity.
Qed.

(** The claim fails when the key is in the table already: [nodeA] and
    [nodeB] have the same key; after the add of [nodeB] the lookup returns
    [nodeA], the removal at this iterator succeeds, and the lookup that
    follows finds [nodeB]. *)
Lemma C2_counterexample :
  reachable Demo.cfg Demo.hasA_withB /\
  caller_owned Demo.hasA_withB Demo.nodeB (5, 1) /\
  cds_lfht_add Demo.cfg 8 Demo.hasA_withB Demo.nodeB = Ok Demo.hasAB /\
  cds_lfht_lookup Demo.cfg 8 Demo.hasAB 5 1 = Ok Demo.iterAB /\
  cds_lfht_del Demo.cfg 8 Demo.hasAB Demo.iterAB = Ok (Demo.hasB, 0) /\
  cds_lfht_lookup Demo.cfg 8 Demo.hasB 5 1 = Ok (mk_iter Demo.nodeB 0) /\
  mk_iter Demo.nodeB 0 <> mk_iter 0 0.
Proof.
  split; [exact demo_hasA_withB_reachable |].
  split; [exact demo_hasA_withB_owned |].
  do 4 (split; [vm_compute; reflexivity |]).
  discriminate.
Qed.

(** ** C3: add_unique *)

(** What [cds_lfht_add_unique] leaves when it finds a node with the key: the
    reverse hash is stored in the node of the caller, which is not linked. *)
Lemma unique_hit_frame s L node v s' :
  table_ok s L -> ~ In node L ->
  same_table (set_mem (<[node := mk_node (nxt s node) v]> (mem s)) s) s' ->
  table_ok s' L /\ same_nodes (fun a => a <> node) s s' /\ table_unchanged s s'.
Proof.
  intros Inv Hnin Hsame.
  destruct (store_rh_frame s L node v Inv Hnin) as (Inv0 & _ & _ & Ho & _).
  set (s0 := set_mem (<[node := mk_node (nxt s node) v]> (mem s)) s) in *.
  assert (Inv' : table_ok s' L).
  { eapply table_ok_content; [apply same_table_content, Hsame | | exact Inv0].
    apply (counters_ok_same _ _ Hsame), (inv_counters _ _ _ _ Inv0). }
  split; [exact Inv' |]. split.
  - apply (same_nodes_trans (fun a => a <> node) _ s s0 s'); [auto | |].
    + apply same_nodes_set_mem. intros a Ha. apply lookup_insert_ne. congruence.
    + apply same_table_same_nodes, Hsame.
  - destruct Hsame as (A1 & A2 & _ & _ & _ & _ & _ & A8 & A9 & _ & A11 & A12 & _).
    unfold table_unchanged. rewrite A1, A2, A12, A8, A9, A11.
    do 5 (split; [reflexivity |]). split.
    + intros a Ha. apply Ho. intros ->. apply Hnin.
      apply (list_node_in _ _ _ _ _ Inv Ha).
    + intros a. rewrite (list_node_iff _ _ _ _ a Inv'), (list_node_iff _ _ _ _ a Inv).
      reflexivity.
Qed.

Lemma uniq_class_is_hit s r node x :
  is_dummy (nxt s x) = false -> rh s x = r -> cmp_nodes s node x = 0 ->
  uniq_class s r node x = W_hit.
Proof.
  intros Hd Hr Hc. unfold uniq_class. rewrite Hd, Hr, Hc.
  replace (r >? r) with false by (symmetry; rewrite Z.gtb_ltb; apply Z.ltb_irrefl).
  rewrite Z.eqb_refl. reflexivity.
Qed.

(** Two calls of [cds_lfht_add_unique] with nodes of one key. *)
Lemma add_unique_twice_run cfg s L n1 n2 k kl fuel :
  table_ok s L ->
  caller_owned s n1 (k, kl) -> caller_owned s n2 (k, kl) -> n1 <> n2 ->
  ht_compare_fct s k kl k kl = 0 ->
  (S (length L) < fuel)%nat ->
  let r := bit_reverse_ulong (node_hash_of s (k, kl)) in
  exists s1 r1 s2,
    cds_lfht_add_unique cfg fuel s n1 = Ok (s1, r1) /\
    cds_lfht_add_unique cfg fuel s1 n2 = Ok (s2, r1) /\
    cds_lfht_count_nodes fuel s2 =
      Ok (count_users s L + (if r1 =? n1 then 1 else 0), 0) /\
    (r1 = n1 <-> ~ exists x, user_node s x /\ rh s x = r /\ cmp_nodes s n1 x = 0) /\
    (r1 <> n1 ->
       user_node s r1 /\ rh s r1 = r /\ cmp_nodes s n1 r1 = 0 /\ table_unchanged s s1 /\
       same_table (set_mem (<[n1 := mk_node (nxt s n1) r]> (mem s)) s) s1).
Proof.
  intros Inv Hown1 Hown2 Hn12 Hrefl Hfuel r.
  pose proof (caller_owned_not_in s L n1 (k, kl) Inv Hown1) as Hnin1.
  pose proof (caller_owned_not_in s L n2 (k, kl) Inv Hown2) as Hnin2.
  destruct Hown1 as (Hal1 & Hmem1 & Hkey1 & _).
  destruct Hown2 as (Hal2 & Hmem2 & Hkey2 & _).
  assert (Hfuel0 : (length L < fuel)%nat) by lia.
  set (h := node_hash_of s (k, kl)) in *.
  destruct (bucket_split (uniq_class s r n1) s L h Inv) as (l1 & mid & tail & EL & Hmid & Htail).
  set (d := daddr s (h mod t_size s)) in *.
  assert (Hcmp : forall s', ht_compare_fct s' = ht_compare_fct s ->
            node_keys s' = node_keys s -> cmp_nodes s' n2 n1 = 0).
  { intros s' E1 E2. unfold cmp_nodes. rewrite E1, E2, Hkey1, Hkey2. exact Hrefl. }
  assert (Hh : forall s', ht_hash_fct s' = ht_hash_fct s -> ht_hash_seed s' = ht_hash_seed s ->
            node_hash_of s' (k, kl) = h).
  { intros s' E1 E2. unfold h, node_hash_of. rewrite E1, E2. reflexivity. }
  assert (Hne1 : forall x, In x L -> x <> n1) by (intros x Hx ->; contradiction).
  assert (Hne2 : forall x, In x L -> x <> n2) by (intros x Hx ->; contradiction).
  assert (Hins : match tail with [] => True | y :: _ => uniq_class s r n1 y = W_stop end ->
    exists s1 r1 s2,
      cds_lfht_add_unique cfg fuel s n1 = Ok (s1, r1) /\
      cds_lfht_add_unique cfg fuel s1 n2 = Ok (s2, r1) /\
      cds_lfht_count_nodes fuel s2 =
        Ok (count_users s L + (if r1 =? n1 then 1 else 0), 0) /\
      (r1 = n1 <-> ~ exists x, user_node s x /\ rh s x = r /\ cmp_nodes s n1 x = 0) /\
      (r1 <> n1 ->
         user_node s r1 /\ rh s r1 = r /\ cmp_nodes s n1 r1 = 0 /\ table_unchanged s s1 /\
       same_table (set_mem (<[n1 := mk_node (nxt s n1) r]> (mem s)) s) s1)).
  { intros Hstop. rewrite EL in Inv, Hnin1, Hfuel0.
    destruct (cds_lfht_add_unique_insert cfg s n1 (k, kl) Hal1 Hmem1 Hkey1 l1 mid tail fuel
                Inv Hnin1 Hmid Hstop Hfuel0) as (s1 & Hrun1 & Inv1 & Hadd).
    fold h d r in Inv1, Hadd.
    destruct Hadd as (Hsn & Hrh & Hdm & Hrm & Hdom & Hkeys).
    pose proof Hsn as (Es & Et & Eh & Ec & Ese & Efl & _).
    assert (Hmem2' : is_Some (mem s1 !! n2)) by (apply Hdom; exact Hmem2).
    assert (Hkey2' : node_keys s1 !! n2 = Some (k, kl)) by (rewrite Hkeys; exact Hkey2).
    pose proof (cds_lfht_add_unique_hit cfg s1 n2 (k, kl) Hal2 Hmem2' Hkey2' l1 mid n1 tail fuel)
      as H2.
    cbv zeta in H2. rewrite (Hh s1 Eh Ese), Es, (daddr_same s s1 _ Et) in H2.
    fold d r in H2.
    assert (Hnin2' : ~ In n2 (l1 ++ d :: mid ++ n1 :: tail)).
    { intros Hin. apply in_app_or in Hin as [Hin | [Hin | Hin]].
      - apply Hnin2. rewrite EL. apply in_or_app. left. exact Hin.
      - apply Hnin2. rewrite EL. apply in_or_app. right. left. exact Hin.
      - apply in_app_or in Hin as [Hin | [Hin | Hin]].
        + apply Hnin2. rewrite EL. apply in_or_app. right. right. apply in_or_app.
          left. exact Hin.
        + congruence.
        + apply Hnin2. rewrite EL. apply in_or_app. right. right. apply in_or_app.
          right. exact Hin. }
    destruct (H2 Inv1 Hnin2') as (s2 & Hrun2 & Hsame2).
    { intros x Hx.
      rewrite (uniq_class_same (fun a => a <> n1) s s1 r n1 n2 x Hsn).
      - apply Hmid, Hx.
      - apply Hne1. rewrite EL. apply in_or_app. right. right. apply in_or_app. left. exact Hx.
      - rewrite Hkey2', Hkey1. reflexivity. }
    { apply (uniq_class_is_hit s1 r n2 n1 Hdm Hrh (Hcmp s1 Ec Hkeys)). }
    { rewrite !length_app in *. cbn [length] in *. rewrite !length_app in *.
      cbn [length] in *. rewrite EL in Hfuel. rewrite !length_app in Hfuel.
      cbn [length] in Hfuel. rewrite !length_app in Hfuel. lia. }
    destruct (unique_hit_frame s1 _ n2 r s2 Inv1 Hnin2' Hsame2) as (Inv2 & Hsn2 & _).
    exists s1, n1, s2. split; [exact Hrun1 |]. split; [exact Hrun2 |]. split; [| split].
    - rewrite (count_nodes_run s2 _ fuel Inv2).
      + f_equal. f_equal. rewrite Z.eqb_refl.
        rewrite (count_users_ext s1 s2).
        * rewrite EL.
          replace (l1 ++ d :: mid ++ n1 :: tail) with ((l1 ++ d :: mid) ++ n1 :: tail)
            by (rewrite <- app_assoc; reflexivity).
          replace (l1 ++ d :: mid ++ tail) with ((l1 ++ d :: mid) ++ tail)
            by (rewrite <- app_assoc; reflexivity).
          rewrite (count_users_app s1 (l1 ++ d :: mid) (n1 :: tail)),
            (count_users_app s (l1 ++ d :: mid) tail).
          cbn [count_users]. rewrite Hdm.
          assert (E1 : count_users s1 (l1 ++ d :: mid) = count_users s (l1 ++ d :: mid)).
          { apply count_users_ext. intros a Ha.
            destruct Hsn as (_ & _ & _ & _ & _ & _ & Hattr). apply Hattr.
            apply Hne1. rewrite EL. rewrite app_comm_cons, app_assoc.
            apply in_or_app. left. exact Ha. }
          assert (E2 : count_users s1 tail = count_users s tail).
          { apply count_users_ext. intros a Ha.
            destruct Hsn as (_ & _ & _ & _ & _ & _ & Hattr). apply Hattr.
            apply Hne1. rewrite EL. apply in_or_app. right. right. apply in_or_app.
            right. exact Ha. }
          rewrite E1, E2. lia.
        * intros a Ha. destruct Hsn2 as (_ & _ & _ & _ & _ & _ & Hattr). apply Hattr.
          intros ->. contradiction.
      + rewrite !length_app in *. cbn [length] in *. rewrite !length_app in *.
        cbn [length] in *. rewrite EL in Hfuel. rewrite !length_app in Hfuel.
        cbn [length] in Hfuel. rewrite !length_app in Hfuel. lia.
    - split; [| reflexivity]. intros _ (x & [Hlx Hdx] & Hrx & Hcx).
      pose proof (list_node_in _ _ _ _ _ Inv Hlx) as Hin.
      refine (split_no_hit (uniq_class s r n1) s l1 mid tail h Inv
                (node_hash_of_range s (k, kl)) _ Hmid _ x Hin _).
      + intros z Hz. destruct (uniq_class_hit _ _ _ _ Hz) as (A & B & _). auto.
      + destruct tail as [| y tl]; [exact I |]. apply uniq_class_stop in Hstop. exact Hstop.
      + apply uniq_class_is_hit; assumption.
    - intros Hc. contradiction. }
  destruct tail as [| y tl]; [apply Hins; exact I |].
  destruct (uniq_class_cases s r n1 y) as [H | [H | H]];
    [contradiction | apply Hins; exact H |].
  clear Hins. rewrite EL in Inv, Hnin1, Hfuel0.
  assert (Hy : In y L).
  { rewrite EL. apply in_or_app. right. right. apply in_or_app. right. left. reflexivity. }
  destruct (cds_lfht_add_unique_hit cfg s n1 (k, kl) Hal1 Hmem1 Hkey1 l1 mid y tl fuel
              Inv Hnin1 Hmid H Hfuel0) as (s1 & Hrun1 & Hsame1).
  fold h r in Hsame1.
  rewrite <- EL in Inv, Hnin1, Hfuel0.
  destruct (unique_hit_frame s L n1 r s1 Inv Hnin1 Hsame1) as (Inv1 & Hsn & Hunch).
  pose proof Hsn as (Es & Et & Eh & Ec & Ese & Efl & Hattr).
  assert (Hkeys : node_keys s1 = node_keys s) by apply Hunch.
  assert (Hmem2' : is_Some (mem s1 !! n2)).
  { destruct (Hattr n2 (not_eq_sym Hn12)) as (_ & _ & _ & _ & Hd). apply Hd. exact Hmem2. }
  assert (Hkey2' : node_keys s1 !! n2 = Some (k, kl)) by (rewrite Hkeys; exact Hkey2).
  pose proof (cds_lfht_add_unique_hit cfg s1 n2 (k, kl) Hal2 Hmem2' Hkey2' l1 mid y tl fuel)
    as H2.
  cbv zeta in H2. rewrite (Hh s1 Eh Ese), Es, (daddr_same s s1 _ Et) in H2.
  fold d r in H2. rewrite <- EL in H2.
  assert (Hcls : forall x, In x L -> uniq_class s1 r n2 x = uniq_class s r n1 x).
  { intros x Hx. apply (uniq_class_same (fun a => a <> n1) s s1 r n1 n2 x Hsn (Hne1 x Hx)).
    rewrite Hkey2', Hkey1. reflexivity. }
  destruct (H2 Inv1 Hnin2) as (s2 & Hrun2 & Hsame2).
  { intros x Hx. rewrite Hcls; [apply Hmid, Hx |].
    rewrite EL. apply in_or_app. right. right. apply in_or_app. left. exact Hx. }
  { rewrite Hcls by exact Hy. exact H. }
  { exact Hfuel0. }
  destruct (unique_hit_frame s1 L n2 r s2 Inv1 Hnin2 Hsame2) as (Inv2 & Hsn2 & _).
  destruct (uniq_class_hit _ _ _ _ H) as (Hyd & Hyr & Hyc).
  assert (Hyn : y <> n1) by (apply Hne1; exact Hy).
  exists s1, y, s2. split; [exact Hrun1 |]. split; [exact Hrun2 |]. split; [| split].
  - rewrite (count_nodes_run s2 L fuel Inv2) by lia.
    f_equal. f_equal. rewrite (proj2 (Z.eqb_neq _ _) Hyn).
    rewrite (count_users_ext s1 s2), (count_users_ext s s1); [lia | |].
    + intros a Ha. apply Hattr, Hne1, Ha.
    + intros a Ha. destruct Hsn2 as (_ & _ & _ & _ & _ & _ & Hattr2).
      apply Hattr2, Hne2, Ha.
  - split; [intros E; contradiction |]. intros Hno. exfalso. apply Hno. exists y.
    split; [| split; assumption].
    split; [apply (in_list_node _ _ _ _ _ Inv Hy) | exact Hyd].
  - intros _. split; [| split; [exact Hyr | split; [exact Hyc | split; [exact Hunch | exact Hsame1]]]].
    split; [apply (in_list_node _ _ _ _ _ Inv Hy) | exact Hyd].
Qed.

(** C3. Let [n1] and [n2] be two nodes of the caller with the key [k],
    which compares equal to itself. [cds_lfht_add_unique] of [n1] returns a
    node [r1], and [cds_lfht_add_unique] of [n2] right after returns the same
    [r1]. When the table holds a match (a linked user node with the reverse
    hash of [k] whose key compares equal to [k]; a linked user node with the
    key [k] is one), [r1] is a match, the one there is when there is one
    only, and the count of [cds_lfht_count_nodes] after the two calls is
    what it was. The first call then links nothing: the index, the linked
    nodes with their fields and keys and the counters are unchanged, and
    the state it leaves is [s0], the state before the call with the reverse
    hash of [k] stored in [n1], up to the four fields of a resize request
    (the resize target, [resize_initiated], [in_progress_resize] and the
    queued callbacks), which [check_resize] may write while the walk is on
    its way to the match. On a table without [CDS_LFHT_AUTO_RESIZE] the
    state is [s0] exactly. When the table holds no match, [r1] is [n1], the
    node of the first call, and the count after the two calls is larger by
    exactly 1. *)
Theorem C3_add_unique cfg s n1 n2 k kl fuel :
  reachable cfg s ->
  caller_owned s n1 (k, kl) -> caller_owned s n2 (k, kl) -> n1 <> n2 ->
  ht_compare_fct s k kl k kl = 0 ->
  (size (mem s) < fuel)%nat ->
  let r := bit_reverse_ulong (node_hash_of s (k, kl)) in
  let is_match x := user_node s x /\ rh s x = r /\ cmp_nodes s n1 x = 0 in
  let s0 := set_mem (<[n1 := mk_node (nxt s n1) r]> (mem s)) s in
  exists s1 r1 s2 c,
    cds_lfht_add_unique cfg fuel s n1 = Ok (s1, r1) /\
    cds_lfht_add_unique cfg fuel s1 n2 = Ok (s2, r1) /\
    cds_lfht_count_nodes fuel s = Ok (c, 0) /\
    (forall x, user_node s x -> node_keys s !! x = Some (k, kl) -> is_match x) /\
    ((exists x, is_match x) ->
       r1 <> n1 /\ is_match r1 /\ table_unchanged s s1 /\
       same_table s0 s1 /\ (auto_off cfg s -> s1 = s0) /\
       (forall x, is_match x -> (forall y, is_match y -> y = x) -> r1 = x) /\
       cds_lfht_count_nodes fuel s2 = Ok (c, 0)) /\
    ((~ exists x, is_match x) ->
       r1 = n1 /\ cds_lfht_count_nodes fuel s2 = Ok (c + 1, 0)).
Proof.
  intros Hr Hown1 Hown2 Hn12 Hrefl Hfuel r is_match s0.
  destruct (reachable_table_ok cfg s Hr) as (L & Inv & _).
  pose proof (owned_length s L n1 (k, kl) Inv Hown1) as Hlen.
  assert (Hfuel' : (S (length L) < fuel)%nat) by lia.
  destruct (add_unique_twice_run cfg s L n1 n2 k kl fuel Inv Hown1 Hown2 Hn12 Hrefl Hfuel')
    as (s1 & r1 & s2 & Hrun1 & Hrun2 & Hcnt & Hiff & Hhit).
  fold r in Hiff, Hhit. fold s0 in Hhit.
  exists s1, r1, s2, (count_users s L).
  split; [exact Hrun1 |]. split; [exact Hrun2 |].
  split; [apply (count_nodes_run s L fuel Inv); lia |].
  split; [| split].
  - intros x [Hlx Hdx] Hkx. split; [split; assumption |].
    pose proof (list_node_in _ _ _ _ _ Inv Hlx) as Hin.
    destruct (inv_user _ _ _ _ Inv x Hin Hdx) as (kk & Hkk & Hrx).
    rewrite Hkx in Hkk. injection Hkk as <-. split; [exact Hrx |].
    destruct Hown1 as (_ & _ & Hkey1 & _).
    unfold cmp_nodes. rewrite Hkey1, Hkx. exact Hrefl.
  - intros Hex.
    assert (Hne : r1 <> n1) by (intros E; apply (proj1 Hiff E); exact Hex).
    destruct (Hhit Hne) as (Hu1 & Hr1 & Hc1 & Hunch & Hsame).
    split; [exact Hne |]. split; [exact (conj Hu1 (conj Hr1 Hc1)) |].
    split; [exact Hunch |]. split; [exact Hsame |]. split; [| split].
    + intros Hoff.
      pose proof (add_unique_found_off cfg fuel s n1 s1 r1 Hoff Hrun1 Hne) as Hm.
      assert (Em : mem s1 = mem s0) by apply Hsame.
      unfold mem_only in Hm. rewrite Hm, Em. reflexivity.
    + intros x _ Huniq. apply Huniq. exact (conj Hu1 (conj Hr1 Hc1)).
    + rewrite Hcnt. rewrite (proj2 (Z.eqb_neq _ _) Hne). rewrite Z.add_0_r. reflexivity.
  - intros Hno. pose proof (proj2 Hiff Hno) as E. split; [exact E |].
    rewrite Hcnt, E, Z.eqb_refl. reflexivity.
Qed.

Lemma demo_hasA_withBC_reachable : reachable Demo.cfg Demo.hasA_withBC.
Proof.
  apply reach_node_init; [exact demo_hasA_withB_reachable | vm_compute; intuition discriminate |].
  vm_compute. reflexivity.
Qed.

Lemma demo_hasA_withBC_owned node :
  node = Demo.nodeB \/ node = Demo.nodeC -> caller_owned Demo.hasA_withBC node (5, 1).
Proof.
  intros [-> | ->]; apply (caller_owned_by_walk _ _ _ 8 [4112; 4128; 8192]);
    try (vm_compute; reflexivity); try (vm_compute; intuition discriminate);
    vm_compute; eexists; reflexivity.
Qed.

Lemma C3_add_unique_witness :
  let r := bit_reverse_ulong (node_hash_of Demo.hasA_withBC (5, 1)) in
  let is_match x :=
    user_node Demo.hasA_withBC x /\ rh Demo.hasA_withBC x = r /\
    cmp_nodes Demo.hasA_withBC Demo.nodeB x = 0 in
  let s0 :=
    set_mem (<[Demo.nodeB := mk_node (nxt Demo.hasA_withBC Demo.nodeB) r]>
               (mem Demo.hasA_withBC)) Demo.hasA_withBC in
  exists s1 r1 s2 c,
    cds_lfht_add_unique Demo.cfg 8 Demo.hasA_withBC Demo.nodeB = Ok (s1, r1) /\
    cds_lfht_add_unique Demo.cfg 8 s1 Demo.nodeC = Ok (s2, r1) /\
    cds_lfht_count_nodes 8 Demo.hasA_withBC = Ok (c, 0) /\
    (forall x, user_node Demo.hasA_withBC x ->
       node_keys Demo.hasA_withBC !! x = Some (5, 1) -> is_match x) /\
    ((exists x, is_match x) ->
       r1 <> Demo.nodeB /\ is_match r1 /\ table_unchanged Demo.hasA_withBC s1 /\
       same_table s0 s1 /\ (auto_off Demo.cfg Demo.hasA_withBC -> s1 = s0) /\
       (forall x, is_match x -> (forall y, is_match y -> y = x) -> r1 = x) /\
       cds_lfht_count_nodes 8 s2 = Ok (c, 0)) /\
    ((~ exists x, is_match x) ->
       r1 = Demo.nodeB /\ cds_lfht_count_nodes 8 s2 = Ok (c + 1, 0)).
Proof.
  apply (C3_add_unique Demo.cfg Demo.hasA_withBC Demo.nodeB Demo.nodeC 5 1 8).
  - exact demo_hasA_withBC_reachable.
  - apply demo_hasA_withBC_owned. left. reflexivity.
  - apply demo_hasA_withBC_owned. right. reflexivity.
  - vm_compute. discriminate.
  - vm_compute. reflexivity.
  - vm_compute. lia.
Defined.

Lemma demo_table1_asserts_reachable : reachable Demo.cfg Demo.table1_asserts.
Proof. apply (demo_new_reachable _ 1); [lia | vm_compute; reflexivity]. Qed.

Lemma demo_front1_reachable : reachable Demo.cfg Demo.front1.
Proof.
  apply (reach_add Demo.cfg (caller_node_init Demo.table1_asserts 8240 (mk_node 0 0) 7 1)
           8 8240 (7, 1)).
  - apply reach_node_init;
      [exact demo_table1_asserts_reachable | vm_compute; intuition discriminate |].
    vm_compute. reflexivity.
  - apply (caller_owned_by_walk _ _ _ 8 [4112]);
      try (vm_compute; reflexivity); try (vm_compute; intuition discriminate);
      vm_compute; eexists; reflexivity.
  - vm_compute. reflexivity.
Qed.

Lemma demo_front2_reachable : reachable Demo.cfg Demo.front2.
Proof.
  apply (reach_add Demo.cfg (caller_node_init Demo.front1 8224 (mk_node 0 0) 3 1)
           8 8224 (3, 1)).
  - apply reach_node_init;
      [exact demo_front1_reachable | vm_compute; intuition discriminate |].
    vm_compute. reflexivity.
  - apply (caller_owned_by_walk _ _ _ 8 [4112; 8240]);
      try (vm_compute; reflexivity); try (vm_compute; intuition discriminate);
      vm_compute; eexists; reflexivity.
  - vm_compute. reflexivity.
Qed.

Lemma demo_front3_reachable : reachable Demo.cfg Demo.front3.
Proof.
  apply (reach_add Demo.cfg (caller_node_init Demo.front2 8208 (mk_node 0 0) 1 1)
           8 8208 (1, 1)).
  - apply reach_node_init;
      [exact demo_front2_reachable | vm_compute; intuition discriminate |].
    vm_compute. reflexivity.
  - apply (caller_owned_by_walk _ _ _ 8 [4112; 8224; 8240]);
      try (vm_compute; reflexivity); try (vm_compute; intuition discriminate);
      vm_compute; eexists; reflexivity.
  - vm_compute. reflexivity.
Qed.

Lemma demo_front4_reachable : reachable Demo.cfg Demo.front4.
Proof.
  apply (reach_add Demo.cfg (caller_node_init Demo.front3 8192 (mk_node 0 0) 2 1)
           8 8192 (2, 1)).
  - apply reach_node_init;
      [exact demo_front3_reachable | vm_compute; intuition discriminate |].
    vm_compute. reflexivity.
  - apply (caller_owned_by_walk _ _ _ 8 [4112; 8208; 8224; 8240]);
      try (vm_compute; reflexivity); try (vm_compute; intuition discriminate);
      vm_compute; eexists; reflexivity.
  - vm_compute. reflexivity.
Qed.

(** The claim fails on a table with [CDS_LFHT_AUTO_RESIZE] when the match
    lies behind three nodes of distinct reverse hashes. The one bucket
    holds the keys 2, 1, 3 and 7 in this order and no resize is pending;
    [cds_lfht_add_unique] of a second node of key 7 returns the node that
    holds 7 (at 8240), but on its way [check_resize] has counted a chain
    of 3: the resize target is 4, [resize_initiated] and
    [in_progress_resize] are 1 and a callback is queued, which grows the
    table to 4 buckets when it runs. *)
Lemma C3_counterexample :
  reachable Demo.cfg Demo.front4_withD /\
  caller_owned Demo.front4_withD Demo.nodeD (7, 1) /\
  user_node Demo.front4_withD 8240 /\
  node_keys Demo.front4_withD !! 8240 = Some (7, 1) /\
  linked_nodes 8 Demo.front4_withD = Ok [4112; 8192; 8208; 8224; 8240] /\
  cds_lfht_add_unique Demo.cfg 8 Demo.front4_withD Demo.nodeD
    = Ok (Demo.front4_unique, 8240) /\
  (t_size Demo.front4_withD, t_resize_target Demo.front4_withD,
   t_resize_initiated Demo.front4_withD, ht_in_progress_resize Demo.front4_withD,
   rcu_callbacks Demo.front4_withD) = (1, 1, 0, 0, 0%nat) /\
  (t_size Demo.front4_unique, t_resize_target Demo.front4_unique,
   t_resize_initiated Demo.front4_unique, ht_in_progress_resize Demo.front4_unique,
   rcu_callbacks Demo.front4_unique) = (1, 4, 1, 1, 1%nat) /\
  t_size (Demo.after (do_resize_cb Demo.cfg 8 Demo.alloc Demo.front4_unique)) = 4.
Proof.
  split.
  { apply reach_node_init;
      [exact demo_front4_reachable | vm_compute; intuition discriminate |].
    vm_compute. reflexivity. }
  split.
  { apply (caller_owned_by_walk _ _ _ 8 [4112; 8192; 8208; 8224; 8240]);
      try (vm_compute; reflexivity); try (vm_compute; intuition discriminate);
      vm_compute; eexists; reflexivity. }
  split.
  { split; [| vm_compute; reflexivity].
    apply (linked_nodes_sound 8 _ [4112; 8192; 8208; 8224; 8240]);
      [vm_compute; reflexivity |].
    vm_compute. intuition. }
  do 5 (split; [vm_compute; reflexivity |]). vm_compute. reflexivity.
Qed.

(** ** C4: replace *)

(** A successor with the REMOVED flag in the iterator: [_cds_lfht_replace]
    leaves before its first compare-and-swap. *)
Lemma replace_removed cfg fuel s size x old_next n :
  aligned x -> aligned n -> n <> x -> is_removed old_next = true ->
  (0 < fuel)%nat ->
  _cds_lfht_replace cfg fuel s size x old_next n = Ok (s, - ENOENT).
Proof.
  intros Hx Hn Hne Hrm Hfuel. unfold _cds_lfht_replace.
  replace (x =? 0) with false by (symmetry; apply Z.eqb_neq; destruct Hx; lia).
  rewrite !c_assert_true by
    (rewrite ?is_dummy_aligned, ?is_removed_aligned by assumption; reflexivity).
  cbn [bind].
  rewrite c_assert_true by (apply negb_true_iff, Z.eqb_neq; exact Hne).
  cbn [bind].
  destruct fuel as [| fuel']; [lia |]. cbn [replace_retry]. rewrite Hrm.
  reflexivity.
Qed.





(** * Further properties of the code *)

(** ** Bit utilities and tagged pointers *)

(** X1. [bit_reverse_ulong] mirrors the 64 bits of a word: bit [i] of the
    result is bit [63 - i] of the argument, the result is a 64-bit word, and
    reversing twice gives the word back. *)
Theorem X1_bit_reverse_ulong_mirror x :
  0 <= x < 2 ^ 64 ->
  0 <= bit_reverse_ulong x < 2 ^ 64 /\
  (forall i, 0 <= i < 64 ->
     Z.testbit (bit_reverse_ulong x) i = Z.testbit x (63 - i)) /\
  bit_reverse_ulong (bit_reverse_ulong x) = x.
Proof.
  intros Hx. split; [apply bit_reverse_ulong_range |]. split.
  - intros i Hi. apply bit_reverse_ulong_bits, Hi.
  - apply bit_reverse_ulong_involutive, Hx.
Qed.

Lemma X1_bit_reverse_ulong_mirror_witness :
  0 <= bit_reverse_ulong 5 < 2 ^ 64 /\
  (forall i, 0 <= i < 64 ->
     Z.testbit (bit_reverse_ulong 5) i = Z.testbit 5 (63 - i)) /\
  bit_reverse_ulong (bit_reverse_ulong 5) = 5.
Proof. apply (X1_bit_reverse_ulong_mirror 5). lia. Defined.

(** X2. [fls_ulong] returns 0 for 0 and, for a nonzero word, the position
    of its most significant set bit counted from 1:
    [2^(fls-1) <= x < 2^fls]. [fls_u32] agrees with it on 32-bit words. *)
Theorem X2_fls_most_significant_bit x :
  0 < x < 2 ^ 64 ->
  fls_ulong 0 = 0 /\ fls_u32 0 = 0 /\
  1 <= fls_ulong x <= 64 /\
  2 ^ (fls_ulong x - 1) <= x < 2 ^ fls_ulong x /\
  (x < 2 ^ 32 -> fls_u32 x = fls_ulong x).
Proof.
  intros Hx. split; [reflexivity |]. split; [reflexivity |].
  rewrite fls_ulong_spec by lia.
  destruct (Z.eqb_spec x 0) as [E | _]; [lia |].
  pose proof (Z.log2_nonneg x) as Hn.
  destruct (Z.log2_spec x ltac:(lia)) as [Hlo Hhi].
  assert (Z.log2 x < 64) by (apply Z.log2_lt_pow2; lia).
  split; [lia |]. split.
  - replace (Z.log2 x + 1 - 1) with (Z.log2 x) by lia.
    replace (Z.log2 x + 1) with (Z.succ (Z.log2 x)) by lia. lia.
  - intros H32. rewrite fls_u32_spec by lia.
    destruct (Z.eqb_spec x 0); [lia | reflexivity].
Qed.

Lemma X2_fls_most_significant_bit_witness :
  fls_ulong 0 = 0 /\ fls_u32 0 = 0 /\
  1 <= fls_ulong 12 <= 64 /\
  2 ^ (fls_ulong 12 - 1) <= 12 < 2 ^ fls_ulong 12 /\
  (12 < 2 ^ 32 -> fls_u32 12 = fls_ulong 12).
Proof. apply (X2_fls_most_significant_bit 12). lia. Defined.

(** X3. [get_count_order_ulong] returns -1 for 0 and, for a nonzero word
    [x], the least order [k] with [x <= 2^k]; on a power of two [2^j] it
    returns [j]. *)
Theorem X3_get_count_order_ulong_least x :
  0 < x < 2 ^ 64 ->
  get_count_order_ulong 0 = -1 /\
  0 <= get_count_order_ulong x <= 64 /\
  x <= 2 ^ get_count_order_ulong x /\
  (forall j, 0 <= j -> x <= 2 ^ j -> get_count_order_ulong x <= j) /\
  (forall j, 0 <= j -> x = 2 ^ j -> get_count_order_ulong x = j).
Proof.
  intros Hx. split; [reflexivity |].
  destruct (get_count_order_ulong_spec x Hx) as (H1 & H2 & H3).
  split; [exact H1 |]. split; [exact H2 |]. split; [exact H3 |].
  intros j Hj ->.
  assert (j < 64).
  { destruct (Z.lt_ge_cases j 64) as [? | Hge]; [assumption |].
    assert (2 ^ 64 <= 2 ^ j) by (apply Z.pow_le_mono_r; lia). lia. }
  apply get_count_order_ulong_pow2. lia.
Qed.

Lemma X3_get_count_order_ulong_least_witness :
  get_count_order_ulong 0 = -1 /\
  0 <= get_count_order_ulong 5 <= 64 /\
  5 <= 2 ^ get_count_order_ulong 5 /\
  (forall j, 0 <= j -> 5 <= 2 ^ j -> get_count_order_ulong 5 <= j) /\
  (forall j, 0 <= j -> 5 = 2 ^ j -> get_count_order_ulong 5 = j).
Proof. apply (X3_get_count_order_ulong_least 5). lia. Defined.

(** X4. The two low bits of a [next] word are flags apart from the address:
    setting the REMOVED or the DUMMY flag on any word sets that flag, keeps
    the other one and keeps the address that [clear_flag] extracts; on the
    address of a node, which is 4-byte aligned, no flag is set and
    [clear_flag] gives the address back, also after both flags were set. *)
Theorem X4_pointer_flags p a :
  aligned a ->
  clear_flag (flag_removed p) = clear_flag p /\
  clear_flag (flag_dummy p) = clear_flag p /\
  is_removed (flag_removed p) = true /\ is_dummy (flag_removed p) = is_dummy p /\
  is_dummy (flag_dummy p) = true /\ is_removed (flag_dummy p) = is_removed p /\
  is_removed (clear_flag p) = false /\ is_dummy (clear_flag p) = false /\
  is_removed a = false /\ is_dummy a = false /\ is_end a = false /\
  clear_flag (flag_removed (flag_dummy a)) = a /\
  is_end (flag_dummy get_end) = true.
Proof.
  intros Ha.
  split; [apply clear_flag_flag_removed |]. split; [apply clear_flag_flag_dummy |].
  split; [apply is_removed_flag_removed |]. split; [apply is_dummy_flag_removed |].
  split; [apply is_dummy_flag_dummy |]. split; [apply is_removed_flag_dummy |].
  split; [apply is_removed_clear_flag |]. split; [apply is_dummy_clear_flag |].
  split; [apply is_removed_aligned, Ha |]. split; [apply is_dummy_aligned, Ha |].
  split; [apply is_end_aligned, Ha |]. split.
  - rewrite clear_flag_flag_removed, clear_flag_flag_dummy. apply clear_flag_aligned, Ha.
  - reflexivity.
Qed.

Lemma X4_pointer_flags_witness :
  clear_flag (flag_removed 8195) = clear_flag 8195 /\
  clear_flag (flag_dummy 8195) = clear_flag 8195 /\
  is_removed (flag_removed 8195) = true /\
  is_dummy (flag_removed 8195) = is_dummy 8195 /\
  is_dummy (flag_dummy 8195) = true /\
  is_removed (flag_dummy 8195) = is_removed 8195 /\
  is_removed (clear_flag 8195) = false /\ is_dummy (clear_flag 8195) = false /\
  is_removed 8192 = false /\ is_dummy 8192 = false /\ is_end 8192 = false /\
  clear_flag (flag_removed (flag_dummy 8192)) = 8192 /\
  is_end (flag_dummy get_end) = true.
Proof.
  apply (X4_pointer_flags 8195 8192). vm_compute. intuition discriminate.
Defined.

(** ** The table at rest *)

Lemma linked_walk_run s : forall l a fuel,
  lseg (mem s) a l 0 -> l <> [] -> (forall y, In y l -> y <> 0) ->
  (length l <= fuel)%nat ->
  linked_walk fuel s a = Ok l.
Proof.
  induction l as [| x l IH]; intros a fuel Hseg Hne Hnz Hfuel; [contradiction |].
  destruct Hseg as (-> & n & Hn & Hseg).
  destruct fuel as [| fuel]; [cbn in Hfuel; lia |].
  cbn [linked_walk]. rewrite Hn. cbn [load bind].
  destruct l as [| y l].
  - cbn in Hseg. unfold is_end. rewrite Hseg, Z.eqb_refl. reflexivity.
  - pose proof Hseg as (Ey & _).
    assert (Hend : is_end (next n) = false).
    { unfold is_end. rewrite Ey. apply Z.eqb_neq.
      apply Hnz. right. left. reflexivity. }
    rewrite Hend. rewrite (IH _ fuel Hseg); [reflexivity | discriminate | |].
    + intros z Hz. apply Hnz. right. exact Hz.
    + cbn [length] in *. lia.
Qed.

(** A walk over the list of a table at rest yields the list. *)
Lemma linked_nodes_run s L fuel :
  table_ok s L -> (length L <= fuel)%nat -> linked_nodes fuel s = Ok L.
Proof.
  intros Inv Hfuel.
  destruct (inv_head _ _ _ _ Inv) as [L' EL].
  destruct (inv_bucket _ _ _ _ Inv 0 (inv_D0 _ _ _ _ Inv)) as (_ & [lv Hlv] & _).
  change (fls_ulong 0) with 0 in Hlv.
  unfold linked_nodes. rewrite Hlv. cbn [load bind]. rewrite <- (daddr_0 _ _ Hlv).
  apply linked_walk_run.
  - apply (inv_lseg _ _ _ _ Inv).
  - rewrite EL. discriminate.
  - intros y Hy. apply (inv_nonzero _ _ _ _ _ Inv Hy).
  - exact Hfuel.
Qed.

Lemma reachable_list cfg s fuel :
  reachable cfg s -> (size (mem s) <= fuel)%nat ->
  exists L, table_ok s L /\ linked_nodes fuel s = Ok L /\ (length L <= size (mem s))%nat.
Proof.
  intros Hr Hfuel. destruct (reachable_table_ok cfg s Hr) as (L & Inv & _).
  pose proof (length_le_size s L Inv) as Hlen.
  exists L. split; [exact Inv |]. split; [| exact Hlen].
  apply linked_nodes_run; [exact Inv | lia].
Qed.






(** ** Lookup *)

Lemma filter_none (f : Z -> bool) l :
  (forall x, In x l -> f x = false) -> List.filter f l = [].
Proof.
  induction l as [| a l IH]; intros H; [reflexivity |].
  cbn [List.filter]. rewrite (H a (or_introl eq_refl)). apply IH.
  intros x Hx. apply H. right. exact Hx.
Qed.

Lemma key_match_class s L key key_len x :
  table_ok s L -> In x L ->
  key_match s key key_len x = true <->
  lookup_class s key key_len
    (bit_reverse_ulong (ulong (ht_hash_fct s key key_len (ht_hash_seed s)))) x = W_hit.
Proof.
  intros Inv Hx.
  assert (Hrm : is_removed (nxt s x) = false).
  { destruct (is_removed (nxt s x)) eqn:Er; [| reflexivity].
    destruct (proj1 (inv_removed _ _ _ _ Inv _ Hx) Er). }
  unfold key_match, lookup_class. rewrite Hrm. cbn [negb andb].
  set (r := bit_reverse_ulong _).
  destruct (is_dummy (nxt s x)); cbn [negb andb].
  - destruct (rh s x >? r); split; discriminate.
  - destruct (Z.eqb_spec (rh s x) r) as [E | E]; cbn [andb].
    + rewrite E. replace (r >? r) with false
        by (symmetry; rewrite Z.gtb_ltb; apply Z.ltb_irrefl).
      destruct (cmp_key s x key key_len =? 0); split; auto; discriminate.
    + destruct (rh s x >? r); split; discriminate.
Qed.

(** [cds_lfht_lookup] returns the first linked node that matches the key. *)
Lemma lookup_first_match cfg s L key key_len fuel :
  table_ok s L -> (length L < fuel)%nat ->
  cds_lfht_lookup cfg fuel s key key_len =
    Ok (match List.filter (key_match s key key_len) L with
        | [] => mk_iter 0 0
        | x :: _ => mk_iter x (nxt s x)
        end).
Proof.
  intros Inv Hfuel.
  set (h := ulong (ht_hash_fct s key key_len (ht_hash_seed s))).
  set (r := bit_reverse_ulong h).
  destruct (bucket_split (lookup_class s key key_len r) s L h Inv)
    as (l1 & mid & tail & EL & Hmid & Htail).
  set (d := daddr s (h mod t_size s)) in *.
  pose proof Inv as Inv0. rewrite EL in Inv.
  assert (Hlen : (length mid < fuel)%nat).
  { rewrite EL, length_app in Hfuel. cbn [length] in Hfuel. rewrite length_app in Hfuel. lia. }
  rewrite (lookup_run cfg s l1 mid tail key key_len fuel Inv Hmid Htail Hlen).
  fold h r. f_equal.
  assert (Hkm : forall x, In x L ->
            key_match s key key_len x = true <-> lookup_class s key key_len r x = W_hit).
  { intros x Hx. apply (key_match_class s L key key_len x Inv0 Hx). }
  assert (Hhead : List.filter (key_match s key key_len) (l1 ++ [d]) = []).
  { apply filter_none. intros x Hx.
    destruct (key_match s key key_len x) eqn:Ek; [exfalso | reflexivity].
    assert (HxL : In x L).
    { rewrite EL. apply in_app_or in Hx as [Hx | [<- | []]].
      - apply in_or_app. left. exact Hx.
      - apply in_elt. }
    pose proof (proj1 (Hkm x HxL) Ek) as Hc.
    destruct (lookup_class_hit _ _ _ _ _ Hc) as [Hd Hr].
    rewrite EL in HxL.
    pose proof (user_after_bucket s l1 (mid ++ tail) h x Inv (ulong_range _) HxL Hd Hr)
      as Hrest.
    pose proof (inv_nodup _ _ _ _ Inv) as Hnd.
    replace (l1 ++ d :: mid ++ tail) with ((l1 ++ [d]) ++ mid ++ tail) in Hnd
      by (rewrite <- app_assoc; reflexivity).
    apply NoDup_ListNoDup, NoDup_app in Hnd as (_ & Hdis & _).
    apply (Hdis x); apply list_elem_of_In; assumption. }
  assert (Hmid0 : List.filter (key_match s key key_len) mid = []).
  { apply filter_none. intros x Hx.
    destruct (key_match s key key_len x) eqn:Ek; [exfalso | reflexivity].
    assert (HxL : In x L).
    { rewrite EL. apply in_or_app. right. right. apply in_or_app. left. exact Hx. }
    pose proof (proj1 (Hkm x HxL) Ek) as Hc. rewrite (Hmid x Hx) in Hc. discriminate. }
  rewrite EL.
  replace (l1 ++ d :: mid ++ tail) with ((l1 ++ [d]) ++ mid ++ tail)
    by (rewrite <- app_assoc; reflexivity).
  rewrite (List.filter_app _ (l1 ++ [d]) (mid ++ tail)), Hhead, (List.filter_app _ mid tail), Hmid0. cbn [app].
  unfold lookup_result_of. destruct tail as [| y tl]; [reflexivity |].
  assert (HyL : In y L).
  { rewrite EL. apply in_or_app. right. right. apply in_or_app. right. left. reflexivity. }
  destruct (lookup_class_cases s key key_len r y) as [H | [H | H]]; [contradiction | |].
  - rewrite H. rewrite filter_none; [reflexivity |].
    intros x Hx.
    destruct (key_match s key key_len x) eqn:Ek; [exfalso | reflexivity].
    assert (HxL : In x L).
    { rewrite EL. apply in_or_app. right. right. apply in_or_app. right. exact Hx. }
    pose proof (proj1 (Hkm x HxL) Ek) as Hc.
    destruct (lookup_class_hit _ _ _ _ _ Hc) as [_ Hr].
    apply lookup_class_stop in H.
    assert (Inv' : table_ok s ((l1 ++ d :: mid) ++ y :: tl)).
    { rewrite <- app_assoc. exact Inv. }
    pose proof (after_stop s _ y tl r x Inv' H Hx). lia.
  - rewrite H. cbn [List.filter]. rewrite (proj2 (Hkm y HyL) H). reflexivity.
Qed.

(** X7. On every state that a run reaches, [cds_lfht_lookup] returns, and
    its iterator is on the first linked node, in list order, that is a user
    node with the reverse hash of the key and a key that [compare_fct] finds
    equal to it, together with the [next] word of that node; when no linked
    node is one, the iterator is nil. *)
Theorem X7_lookup_first_match cfg s key key_len fuel :
  reachable cfg s -> (size (mem s) < fuel)%nat ->
  exists L,
    linked_nodes fuel s = Ok L /\
    cds_lfht_lookup cfg fuel s key key_len =
      Ok (match List.filter (key_match s key key_len) L with
          | [] => mk_iter 0 0
          | x :: _ => mk_iter x (nxt s x)
          end).
Proof.
  intros Hr Hfuel.
  destruct (reachable_list cfg s fuel Hr ltac:(lia)) as (L & Inv & Hrun & Hlen).
  exists L. split; [exact Hrun |].
  apply lookup_first_match; [exact Inv | lia].
Qed.

Lemma X7_lookup_first_match_witness :
  exists L,
    linked_nodes 8 Demo.hasAB = Ok L /\
    cds_lfht_lookup Demo.cfg 8 Demo.hasAB 5 1 =
      Ok (match List.filter (key_match Demo.hasAB 5 1) L with
          | [] => mk_iter 0 0
          | x :: _ => mk_iter x (nxt Demo.hasAB x)
          end).
Proof.
  apply (X7_lookup_first_match Demo.cfg Demo.hasAB 5 1 8).
  - apply (reach_add Demo.cfg Demo.hasA_withB 8 Demo.nodeB (5, 1));
      [exact demo_hasA_withB_reachable | exact demo_hasA_withB_owned |
       vm_compute; reflexivity].
  - vm_compute. lia.
Defined.

(** ** Add and delete *)

Lemma count_users_insert s l1 l2 x :
  count_users s (l1 ++ x :: l2) =
  count_users s (l1 ++ l2) + (if is_dummy (nxt s x) then 0 else 1).
Proof. rewrite !count_users_app. cbn [count_users]. lia. Qed.

Lemma add_effect_run cfg s L node k kl fuel :
  table_ok s L -> caller_owned s node (k, kl) ->
  ht_compare_fct s k kl k kl = 0 ->
  (S (length L) < fuel)%nat ->
  exists s1 la lb it,
    cds_lfht_add cfg fuel s node = Ok s1 /\
    L = la ++ lb /\ table_ok s1 (la ++ node :: lb) /\
    same_nodes (fun a => a <> node) s s1 /\
    node_keys s1 = node_keys s /\
    count_users s1 (la ++ node :: lb) = count_users s L + 1 /\
    cds_lfht_lookup cfg fuel s1 k kl = Ok it /\
    In (iter_node it) (la ++ node :: lb) /\
    key_match s1 k kl (iter_node it) = true /\
    iter_next it = nxt s1 (iter_node it).
Proof.
  intros Inv Hown Hrefl Hfuel.
  pose proof (caller_owned_not_in s L node (k, kl) Inv Hown) as Hnin.
  destruct Hown as (Hal & Hmem & Hkey & _).
  set (h := node_hash_of s (k, kl)).
  set (r := bit_reverse_ulong h).
  destruct (bucket_split (rh_class s r) s L h Inv) as (l1 & mid & tail & EL & Hmid & Htail).
  set (d := daddr s (h mod t_size s)) in *.
  assert (Htail' : match tail with [] => True | y :: _ => rh_class s r y = W_stop end).
  { destruct tail as [| y tl]; [exact I |].
    destruct (rh_class_cases s r y); [contradiction | assumption]. }
  assert (Hfuel0 : (length L < fuel)%nat) by lia.
  rewrite EL in Inv, Hnin, Hfuel0.
  destruct (cds_lfht_add_run cfg s node (k, kl) Hal Hmem Hkey l1 mid tail fuel Inv Hnin Hmid
              Htail' Hfuel0) as (s1 & Hrun1 & Inv1 & Hadd).
  fold h d r in Inv1, Hadd.
  destruct Hadd as (Hsn & Hrh & Hdm & Hrm & Hdom & Hkeys).
  pose proof Hsn as (Es & Et & Eh & Ec & Ese & Efl & Hattr).
  assert (Inv1' : table_ok s1 ((l1 ++ d :: mid) ++ node :: tail)).
  { rewrite <- app_assoc. exact Inv1. }
  assert (EL' : L = (l1 ++ d :: mid) ++ tail).
  { rewrite EL, <- app_assoc. reflexivity. }
  assert (Hkm : key_match s1 k kl node = true).
  { unfold key_match, cmp_key. rewrite Hdm, Hrh, Hkeys, Hkey, Ec, Eh, Ese.
    cbn [fst snd negb andb]. fold (node_hash_of s (k, kl)). fold h r.
    rewrite Hrefl, Z.eqb_refl. reflexivity. }
  assert (Hlen1 : (length ((l1 ++ d :: mid) ++ node :: tail) < fuel)%nat).
  { rewrite EL' in Hfuel. rewrite !length_app in *. cbn [length] in *. lia. }
  pose proof (lookup_first_match cfg s1 _ k kl fuel Inv1' Hlen1) as Hlk.
  destruct (List.filter (key_match s1 k kl) ((l1 ++ d :: mid) ++ node :: tail))
    as [| x rest] eqn:Ef.
  { exfalso. assert (Hin : In node (List.filter (key_match s1 k kl)
                                      ((l1 ++ d :: mid) ++ node :: tail))).
    { apply filter_In. split; [apply in_elt | exact Hkm]. }
    rewrite Ef in Hin. destruct Hin. }
  assert (Hx : In x (List.filter (key_match s1 k kl) ((l1 ++ d :: mid) ++ node :: tail))).
  { rewrite Ef. left. reflexivity. }
  apply filter_In in Hx as [Hx1 Hx2].
  exists s1, (l1 ++ d :: mid), tail, (mk_iter x (nxt s1 x)).
  split; [exact Hrun1 |]. split; [exact EL' |]. split; [exact Inv1' |].
  split; [exact Hsn |]. split; [exact Hkeys |]. split.
  - rewrite count_users_insert, Hdm, EL'. f_equal.
    apply count_users_ext. intros a Ha. apply Hattr. intros ->. apply Hnin.
    rewrite <- EL, EL'. exact Ha.
  - split; [exact Hlk |]. split; [exact Hx1 |]. split; [exact Hx2 | reflexivity].
Qed.

(** X8. [cds_lfht_add] of a node of the caller, on every state that a run
    reaches: the node is linked at one place of the list, whose other nodes
    keep their order, reverse hash, flags and key; the count of
    [cds_lfht_count_nodes] grows by 1; and, the key comparing equal to
    itself, a lookup of the key then finds a linked node that matches it. *)
Theorem X8_add_links_node cfg s node k kl fuel :
  reachable cfg s -> caller_owned s node (k, kl) ->
  ht_compare_fct s k kl k kl = 0 ->
  (size (mem s) < fuel)%nat ->
  exists s1 la lb c it,
    cds_lfht_add cfg fuel s node = Ok s1 /\
    linked_nodes fuel s = Ok (la ++ lb) /\
    linked_nodes fuel s1 = Ok (la ++ node :: lb) /\
    (forall a, In a (la ++ lb) ->
       rh s1 a = rh s a /\ is_dummy (nxt s1 a) = is_dummy (nxt s a) /\
       is_removed (nxt s1 a) = is_removed (nxt s a) /\
       node_keys s1 !! a = node_keys s !! a) /\
    cds_lfht_count_nodes fuel s = Ok (c, 0) /\
    cds_lfht_count_nodes fuel s1 = Ok (c + 1, 0) /\
    cds_lfht_lookup cfg fuel s1 k kl = Ok it /\
    In (iter_node it) (la ++ node :: lb) /\
    key_match s1 k kl (iter_node it) = true.
Proof.
  intros Hr Hown Hrefl Hfuel.
  destruct (reachable_table_ok cfg s Hr) as (L & Inv & _).
  pose proof (owned_length s L node (k, kl) Inv Hown) as Hlen.
  pose proof (caller_owned_not_in s L node (k, kl) Inv Hown) as Hnin.
  destruct (add_effect_run cfg s L node k kl fuel Inv Hown Hrefl ltac:(lia))
    as (s1 & la & lb & it & Hrun & EL & Inv1 & Hsn & Hkeys & Hcnt & Hlk & Hin & Hkm & _).
  exists s1, la, lb, (count_users s L), it.
  split; [exact Hrun |].
  split; [rewrite <- EL; apply linked_nodes_run; [exact Inv | lia] |].
  split.
  { apply linked_nodes_run; [exact Inv1 |].
    rewrite EL in Hlen. rewrite !length_app in *. cbn [length]. lia. }
  split.
  { intros a Ha. destruct Hsn as (_ & _ & _ & _ & _ & _ & Hattr).
    destruct (Hattr a) as (A1 & A2 & A3 & A4 & _).
    - intros ->. apply Hnin. rewrite EL. exact Ha.
    - auto. }
  split; [apply count_nodes_run; [exact Inv | lia] |].
  split.
  { rewrite <- Hcnt. apply count_nodes_run; [exact Inv1 |].
    rewrite EL in Hlen. rewrite !length_app in *. cbn [length]. lia. }
  split; [exact Hlk |]. split; [exact Hin | exact Hkm].
Qed.

Lemma X8_add_links_node_witness :
  exists s1 la lb c it,
    cds_lfht_add Demo.cfg 8 Demo.hasA_withB Demo.nodeB = Ok s1 /\
    linked_nodes 8 Demo.hasA_withB = Ok (la ++ lb) /\
    linked_nodes 8 s1 = Ok (la ++ Demo.nodeB :: lb) /\
    (forall a, In a (la ++ lb) ->
       rh s1 a = rh Demo.hasA_withB a /\
       is_dummy (nxt s1 a) = is_dummy (nxt Demo.hasA_withB a) /\
       is_removed (nxt s1 a) = is_removed (nxt Demo.hasA_withB a) /\
       node_keys s1 !! a = node_keys Demo.hasA_withB !! a) /\
    cds_lfht_count_nodes 8 Demo.hasA_withB = Ok (c, 0) /\
    cds_lfht_count_nodes 8 s1 = Ok (c + 1, 0) /\
    cds_lfht_lookup Demo.cfg 8 s1 5 1 = Ok it /\
    In (iter_node it) (la ++ Demo.nodeB :: lb) /\
    key_match s1 5 1 (iter_node it) = true.
Proof.
  apply (X8_add_links_node Demo.cfg Demo.hasA_withB Demo.nodeB 5 1 8).
  - exact demo_hasA_withB_reachable.
  - exact demo_hasA_withB_owned.
  - vm_compute. reflexivity.
  - vm_compute. lia.
Defined.

(** X9. [cds_lfht_del] at an iterator on a linked user node, on every state
    that a run reaches: it returns 0; the node is unlinked, the other nodes
    keep their order, reverse hash, flags and key; the node stays allocated
    with the REMOVED flag in its [next] word; and the count of
    [cds_lfht_count_nodes] drops by 1. *)
Theorem X9_del_unlinks_node cfg s it fuel :
  reachable cfg s -> user_node s (iter_node it) ->
  (size (mem s) < fuel)%nat ->
  exists s1 la lb c,
    cds_lfht_del cfg fuel s it = Ok (s1, 0) /\
    linked_nodes fuel s = Ok (la ++ iter_node it :: lb) /\
    linked_nodes fuel s1 = Ok (la ++ lb) /\
    ~ In (iter_node it) (la ++ lb) /\
    (forall a, In a (la ++ lb) ->
       rh s1 a = rh s a /\ is_dummy (nxt s1 a) = is_dummy (nxt s a) /\
       is_removed (nxt s1 a) = false /\
       node_keys s1 !! a = node_keys s !! a) /\
    is_Some (mem s1 !! iter_node it) /\
    is_removed (nxt s1 (iter_node it)) = true /\
    cds_lfht_count_nodes fuel s = Ok (c, 0) /\
    cds_lfht_count_nodes fuel s1 = Ok (c - 1, 0).
Proof.
  intros Hr [Hlx Hdx] Hfuel. set (x := iter_node it) in *.
  destruct (reachable_table_ok cfg s Hr) as (L & Inv & _).
  pose proof (length_le_size s L Inv) as Hlen.
  pose proof (list_node_in _ _ _ _ _ Inv Hlx) as Hin.
  destruct (in_split _ _ Hin) as (l1 & l2 & EL).
  pose proof Inv as Inv0. rewrite EL in Inv.
  destruct (cds_lfht_del_run cfg s l1 x l2 it fuel Inv Hdx eq_refl)
    as (s1 & Hrun & Inv1 & Hdel).
  { rewrite <- EL. lia. }
  destruct Hdel as (Hsn & Hrm & _ & _ & Hdom & _).
  pose proof (inv_nodup _ _ _ _ Inv) as Hnd. apply NoDup_remove_2 in Hnd.
  assert (Hlen1 : (length (l1 ++ l2) <= size (mem s))%nat).
  { rewrite EL in Hlen. rewrite !length_app in *. cbn [length] in Hlen. lia. }
  exists s1, l1, l2, (count_users s L).
  split; [exact Hrun |].
  split; [rewrite <- EL; apply linked_nodes_run; [exact Inv0 | lia] |].
  split; [apply linked_nodes_run; [exact Inv1 | lia] |].
  split; [exact Hnd |]. split.
  { intros a Ha. destruct Hsn as (_ & _ & _ & _ & _ & _ & Hattr).
    destruct (Hattr a) as (A1 & A2 & A3 & A4 & _).
    - intros ->. contradiction.
    - split; [exact A1 |]. split; [exact A2 |]. split; [| exact A4].
      destruct (is_removed (nxt s1 a)) eqn:Er; [| reflexivity].
      destruct (proj1 (inv_removed _ _ _ _ Inv1 _ Ha) Er). }
  split.
  { apply Hdom. apply (lseg_in_mem _ _ _ _ _ (inv_lseg _ _ _ _ Inv0) Hin). }
  split; [exact Hrm |].
  split; [apply count_nodes_run; [exact Inv0 | lia] |].
  rewrite (count_nodes_run s1 _ fuel Inv1) by lia. f_equal. f_equal.
  rewrite EL, count_users_insert, Hdx.
  rewrite (count_users_ext s s1 (l1 ++ l2)); [lia |].
  intros a Ha. destruct Hsn as (_ & _ & _ & _ & _ & _ & Hattr).
  apply Hattr. intros ->. contradiction.
Qed.

Lemma demo_hasAB_reachable : reachable Demo.cfg Demo.hasAB.
Proof.
  apply (reach_add Demo.cfg Demo.hasA_withB 8 Demo.nodeB (5, 1));
    [exact demo_hasA_withB_reachable | exact demo_hasA_withB_owned |
     vm_compute; reflexivity].
Qed.

Lemma demo_hasAB_user : user_node Demo.hasAB (iter_node Demo.iterAB).
Proof.
  split.
  - apply (linked_nodes_sound 8 _ [4112; 4128; 8192; 8208]); [vm_compute; reflexivity |].
    vm_compute. intuition.
  - vm_compute. reflexivity.
Qed.

Lemma X9_del_unlinks_node_witness :
  exists s1 la lb c,
    cds_lfht_del Demo.cfg 8 Demo.hasAB Demo.iterAB = Ok (s1, 0) /\
    linked_nodes 8 Demo.hasAB = Ok (la ++ iter_node Demo.iterAB :: lb) /\
    linked_nodes 8 s1 = Ok (la ++ lb) /\
    ~ In (iter_node Demo.iterAB) (la ++ lb) /\
    (forall a, In a (la ++ lb) ->
       rh s1 a = rh Demo.hasAB a /\
       is_dummy (nxt s1 a) = is_dummy (nxt Demo.hasAB a) /\
       is_removed (nxt s1 a) = false /\
       node_keys s1 !! a = node_keys Demo.hasAB !! a) /\
    is_Some (mem s1 !! iter_node Demo.iterAB) /\
    is_removed (nxt s1 (iter_node Demo.iterAB)) = true /\
    cds_lfht_count_nodes 8 Demo.hasAB = Ok (c, 0) /\
    cds_lfht_count_nodes 8 s1 = Ok (c - 1, 0).
Proof.
  apply (X9_del_unlinks_node Demo.cfg Demo.hasAB Demo.iterAB 8).
  - exact demo_hasAB_reachable.
  - exact demo_hasAB_user.
  - vm_compute. lia.
Defined.

(** X10. An iterator on a node that was deleted or replaced already, that
    is, whose [next] word carries the REMOVED flag: [cds_lfht_del] returns
    [-ENOENT] and leaves the state as it is. [cds_lfht_replace] returns
    [-ENOENT] too; when the successor that the iterator holds is not
    flagged, it has stored this successor in the [next] of the new node
    before its compare-and-swap failed, and changed nothing else. *)
Theorem X10_stale_iterator cfg fuel s it nd n nn :
  aligned (iter_node it) -> mem s !! iter_node it = Some nd ->
  is_removed (next nd) = true ->
  aligned n -> n <> iter_node it -> mem s !! n = Some nn ->
  (NDEBUG cfg = false ->
     is_dummy (iter_next it) = false /\ n <> clear_flag (iter_next it)) ->
  (1 < fuel)%nat ->
  cds_lfht_del cfg fuel s it = Ok (s, - ENOENT) /\
  cds_lfht_replace cfg fuel s it n =
    Ok (if is_removed (iter_next it) then s
        else set_mem (<[n := mk_node (clear_flag (iter_next it)) (reverse_hash nn)]>
                        (mem s)) s,
        - ENOENT).
Proof.
  intros Hx Hnd Hrm Hn Hne Hnn Hdbg Hfuel. set (x := iter_node it) in *.
  assert (Ex0 : (x =? 0) = false) by (apply Z.eqb_neq; destruct Hx; lia).
  split.
  - unfold cds_lfht_del, _cds_lfht_del. fold x. rewrite Ex0.
    rewrite !c_assert_true by
      (rewrite ?is_dummy_aligned, ?is_removed_aligned by assumption; reflexivity).
    cbn [bind]. rewrite Hnd. cbn [load bind].
    destruct fuel as [| fuel']; [lia |]. cbn [del_retry]. rewrite Hrm.
    cbn [bind]. reflexivity.
  - destruct (is_removed (iter_next it)) eqn:Eo.
    + unfold cds_lfht_replace. fold x. apply replace_removed; try assumption. lia.
    + unfold cds_lfht_replace, _cds_lfht_replace. fold x. rewrite Ex0.
      rewrite !c_assert_true by
        (rewrite ?is_dummy_aligned, ?is_removed_aligned by assumption; reflexivity).
      cbn [bind].
      rewrite c_assert_true by (apply negb_true_iff, Z.eqb_neq; exact Hne).
      cbn [bind].
      destruct fuel as [| [| fuel']]; [lia | lia |].
      cbn [replace_retry]. rewrite Eo.
      assert (Hasserts : c_assert cfg (negb (is_dummy (iter_next it))) = Ok tt /\
                c_assert cfg (negb (n =? clear_flag (iter_next it))) = Ok tt).
      { unfold c_assert. destruct (NDEBUG cfg) eqn:En; [auto |].
        destruct (Hdbg eq_refl) as [H1 H2]. rewrite H1.
        rewrite (proj2 (Z.eqb_neq _ _) H2). auto. }
      destruct Hasserts as [-> ->]. cbn [bind].
      unfold store_next at 1. rewrite Hnn. cbn [load bind].
      unfold uatomic_cmpxchg_next. cbn [mem set_mem].
      rewrite lookup_insert_ne by congruence. rewrite Hnd. cbn [load bind].
      assert (Eneq : (next nd =? iter_next it) = false).
      { apply Z.eqb_neq. intros E. rewrite E in Hrm. congruence. }
      rewrite Eneq. cbn [bind]. rewrite Eneq. cbn [replace_retry]. rewrite Hrm.
      cbn [bind]. reflexivity.
Qed.

Lemma X10_stale_iterator_witness :
  let s := caller_node_init Demo.hasB Demo.nodeC (mk_node 0 0) 5 1 in
  cds_lfht_del Demo.cfg 8 s Demo.iterAB = Ok (s, - ENOENT) /\
  cds_lfht_replace Demo.cfg 8 s Demo.iterAB Demo.nodeC =
    Ok (if is_removed (iter_next Demo.iterAB) then s
        else set_mem (<[Demo.nodeC :=
                          mk_node (clear_flag (iter_next Demo.iterAB))
                            (reverse_hash (mk_node 0 0))]> (mem s)) s,
        - ENOENT).
Proof.
  apply (X10_stale_iterator Demo.cfg 8
           (caller_node_init Demo.hasB Demo.nodeC (mk_node 0 0) 5 1) Demo.iterAB
           (mk_node 8209 11529215046068469760) Demo.nodeC (mk_node 0 0)).
  - vm_compute. intuition discriminate.
  - vm_compute. reflexivity.
  - vm_compute. reflexivity.
  - vm_compute. intuition discriminate.
  - vm_compute. discriminate.
  - vm_compute. reflexivity.
  - intros _. vm_compute. split; [reflexivity | discriminate].
  - lia.
Defined.

(** ** Add-replace *)

(** With a comparison that is symmetric on the key, the traversal of an
    add of a node with this key and the traversal of a lookup of the key
    do the same at every linked node. *)
Lemma uniq_class_lookup_class s L n k kl x :
  table_ok s L -> In x L -> node_keys s !! n = Some (k, kl) ->
  (forall k' l', ht_compare_fct s k kl k' l' = 0 <-> ht_compare_fct s k' l' k kl = 0) ->
  uniq_class s (bit_reverse_ulong (node_hash_of s (k, kl))) n x =
  lookup_class s k kl (bit_reverse_ulong (node_hash_of s (k, kl))) x.
Proof.
  intros Inv Hx Hkey Hsym.
  assert (Hrm : is_removed (nxt s x) = false).
  { destruct (is_removed (nxt s x)) eqn:Er; [| reflexivity].
    destruct (proj1 (inv_removed _ _ _ _ Inv _ Hx) Er). }
  unfold uniq_class, lookup_class. rewrite Hrm. cbn [negb andb].
  assert (Hc : (cmp_nodes s n x =? 0) = (cmp_key s x k kl =? 0)).
  { unfold cmp_nodes, cmp_key. rewrite Hkey. cbn [fst snd].
    destruct (node_keys s !! x) as [[k' l'] |]; [| reflexivity]. cbn [fst snd].
    specialize (Hsym k' l').
    destruct (Z.eqb_spec (ht_compare_fct s k kl k' l') 0) as [E | E];
      destruct (Z.eqb_spec (ht_compare_fct s k' l' k kl) 0) as [E' | E'];
      try reflexivity; tauto. }
  rewrite Hc. reflexivity.
Qed.

Lemma add_replace_run cfg s L n k kl fuel :
  table_ok s L -> caller_owned s n (k, kl) ->
  ht_compare_fct s k kl k kl = 0 ->
  (forall k' l', ht_compare_fct s k kl k' l' = 0 <-> ht_compare_fct s k' l' k kl = 0) ->
  (S (S (length L)) < fuel)%nat ->
  exists s1 it la lb,
    cds_lfht_lookup cfg fuel s k kl = Ok it /\
    cds_lfht_add_replace cfg fuel s n = Ok (s1, iter_node it) /\
    cds_lfht_lookup cfg fuel s1 k kl = Ok (mk_iter n (nxt s1 n)) /\
    L = la ++ (if iter_node it =? 0 then [] else [iter_node it]) ++ lb /\
    table_ok s1 (la ++ n :: lb) /\
    count_users s1 (la ++ n :: lb) =
      count_users s L + (if iter_node it =? 0 then 1 else 0) /\
    (iter_node it <> 0 ->
       is_dummy (nxt s (iter_node it)) = false /\
       nxt s1 (iter_node it) = flag_removed n) /\
    same_nodes (fun a => a <> iter_node it /\ a <> n) s s1.
Proof.
  intros Inv Hown Hrefl Hsym Hfuel.
  pose proof (caller_owned_not_in s L n (k, kl) Inv Hown) as Hnin.
  destruct Hown as (Hal & Hmem & Hkey & _).
  set (h := node_hash_of s (k, kl)).
  set (r := bit_reverse_ulong h).
  destruct (bucket_split (uniq_class s r n) s L h Inv) as (l1 & mid & tail & EL & Hmid & Htail).
  set (d := daddr s (h mod t_size s)) in *.
  assert (Hcls : forall x, In x L -> uniq_class s r n x = lookup_class s k kl r x).
  { intros x Hx. apply (uniq_class_lookup_class s L n k kl x Inv Hx Hkey Hsym). }
  assert (Hne : forall x, In x L -> x <> n) by (intros x Hx ->; contradiction).
  assert (HmidL : forall x, In x mid -> In x L).
  { intros x Hx. rewrite EL. apply in_or_app. right. right. apply in_or_app. left. exact Hx. }
  assert (Hlen : (length mid < fuel)%nat).
  { rewrite EL in Hfuel. rewrite length_app in Hfuel. cbn [length] in Hfuel.
    rewrite length_app in Hfuel. lia. }
  assert (Hf1 : forall l, L = l -> (length l < fuel)%nat) by (intros l <-; lia).
  assert (Hf2 : forall l, L = l -> (S (length l) < fuel)%nat) by (intros l <-; lia).
  (* the lookup before *)
  pose proof Inv as Inv0. rewrite EL in Inv.
  assert (Hlk0 : cds_lfht_lookup cfg fuel s k kl = Ok (lookup_result_of s k kl r tail)).
  { apply (lookup_run cfg s l1 mid tail k kl fuel Inv).
    - intros x Hx. rewrite <- Hcls by (apply HmidL, Hx). apply Hmid, Hx.
    - destruct tail as [| y tl]; [exact I |]. rewrite <- Hcls; [exact Htail |].
      rewrite EL. apply in_or_app. right. right. apply in_or_app. right. left. reflexivity.
    - exact Hlen. }
  (* what the lookup after finds, given the new state *)
  assert (Hafter : forall s1 tl,
            table_ok s1 (l1 ++ d :: mid ++ n :: tl) ->
            same_nodes (fun a => In a mid) s s1 ->
            rh s1 n = r -> is_dummy (nxt s1 n) = false -> is_removed (nxt s1 n) = false ->
            node_keys s1 = node_keys s ->
            cds_lfht_lookup cfg fuel s1 k kl = Ok (mk_iter n (nxt s1 n))).
  { intros s1 tl Inv1 Hsn Hrh Hdm Hrm Hkeys.
    pose proof Hsn as (Es & Et & Eh & Ec & Ese & Efl & _).
    pose proof (lookup_run cfg s1 l1 mid (n :: tl) k kl fuel) as Hl1.
    cbv zeta in Hl1.
    assert (Eh1 : ulong (ht_hash_fct s1 k kl (ht_hash_seed s1)) = h)
      by (rewrite Eh, Ese; reflexivity).
    rewrite Eh1, Es, (daddr_same s s1 _ Et) in Hl1. fold d r in Hl1.
    assert (Hhit : lookup_class s1 k kl r n = W_hit).
    { unfold lookup_class, cmp_key. rewrite Hrh, Hrm, Hdm, Hkeys, Hkey, Ec.
      cbn [fst snd]. rewrite Hrefl.
      replace (r >? r) with false by (symmetry; rewrite Z.gtb_ltb; apply Z.ltb_irrefl).
      rewrite Z.eqb_refl. reflexivity. }
    rewrite (Hl1 Inv1).
    - unfold lookup_result_of. rewrite Hhit. reflexivity.
    - intros x Hx.
      rewrite (lookup_class_same (fun a => In a mid) s s1 k kl r x Hsn Hx).
      rewrite <- Hcls by (apply HmidL, Hx). apply Hmid, Hx.
    - rewrite Hhit. discriminate.
    - exact Hlen. }
  assert (Hins : match tail with [] => True | y :: _ => uniq_class s r n y = W_stop end ->
    exists s1 it la lb,
      cds_lfht_lookup cfg fuel s k kl = Ok it /\
      cds_lfht_add_replace cfg fuel s n = Ok (s1, iter_node it) /\
      cds_lfht_lookup cfg fuel s1 k kl = Ok (mk_iter n (nxt s1 n)) /\
      L = la ++ (if iter_node it =? 0 then [] else [iter_node it]) ++ lb /\
      table_ok s1 (la ++ n :: lb) /\
      count_users s1 (la ++ n :: lb) =
        count_users s L + (if iter_node it =? 0 then 1 else 0) /\
      (iter_node it <> 0 ->
         is_dummy (nxt s (iter_node it)) = false /\
         nxt s1 (iter_node it) = flag_removed n) /\
      same_nodes (fun a => a <> iter_node it /\ a <> n) s s1).
  { intros Hstop. rewrite EL in Hnin.
    destruct (cds_lfht_add_replace_insert cfg s n (k, kl) Hal Hmem Hkey l1 mid tail fuel
                Inv Hnin Hmid Hstop) as (s1 & Hrun1 & Inv1 & Hadd).
    { apply Hf1. exact EL. }
    fold h d r in Inv1, Hadd.
    destruct Hadd as (Hsn & Hrh & Hdm & Hrm & Hdom & Hkeys).
    assert (Enil : lookup_result_of s k kl r tail = mk_iter 0 0).
    { unfold lookup_result_of. destruct tail as [| y tl]; [reflexivity |].
      rewrite <- Hcls, Hstop; [reflexivity |].
      rewrite EL. apply in_or_app. right. right. apply in_or_app. right. left. reflexivity. }
    rewrite Enil in Hlk0.
    exists s1, (mk_iter 0 0), (l1 ++ d :: mid), tail. cbn [iter_node Z.eqb app].
    split; [exact Hlk0 |]. split; [exact Hrun1 |]. split.
    { apply (Hafter s1 tail Inv1); try assumption.
      apply (same_nodes_weaken (fun a => a <> n)); [| exact Hsn].
      intros a Ha. apply Hne, HmidL, Ha. }
    split; [rewrite EL, <- app_assoc; reflexivity |].
    split; [rewrite <- app_assoc; exact Inv1 |].
    split.
    { rewrite count_users_insert, Hdm, EL.
      replace (l1 ++ d :: mid ++ tail) with ((l1 ++ d :: mid) ++ tail)
        by (rewrite <- app_assoc; reflexivity).
      f_equal. apply count_users_ext. intros a Ha.
      destruct Hsn as (_ & _ & _ & _ & _ & _ & Hattr). apply Hattr.
      intros ->. apply Hnin. rewrite <- app_assoc in Ha. exact Ha. }
    split; [intros H; contradiction |].
    apply (same_nodes_weaken (fun a => a <> n)); [tauto | exact Hsn]. }
  destruct tail as [| y tl]; [apply Hins; exact I |].
  destruct (uniq_class_cases s r n y) as [H | [H | H]];
    [contradiction | apply Hins; exact H |].
  clear Hins.
  assert (HyL : In y L).
  { rewrite EL. apply in_or_app. right. right. apply in_or_app. right. left. reflexivity. }
  rewrite EL in Hnin.
  destruct (cds_lfht_add_replace_hit cfg s n (k, kl) Hal Hmem Hkey l1 mid y tl fuel
              Inv Hnin Hmid H) as (s1 & Hrun1 & Inv1 & Hrep).
  { apply Hf2. exact EL. }
  fold h d r in Inv1, Hrep.
  destruct Hrep as (Hnx & Hsn & Hrh & Hdm & Hrm & Hdom & Hkeys).
  destruct (uniq_class_hit _ _ _ _ H) as (Hyd & Hyr & Hyc).
  assert (Ehit : lookup_result_of s k kl r (y :: tl) = mk_iter y (nxt s y)).
  { unfold lookup_result_of. rewrite <- Hcls, H by exact HyL. reflexivity. }
  rewrite Ehit in Hlk0.
  assert (Hy0 : (y =? 0) = false).
  { apply Z.eqb_neq. destruct (inv_aligned _ _ _ _ Inv0 y HyL) as [Hp _]. lia. }
  pose proof (inv_nodup _ _ _ _ Inv) as Hnd.
  replace (l1 ++ d :: mid ++ y :: tl) with ((l1 ++ d :: mid) ++ y :: tl) in Hnd
    by (rewrite <- app_assoc; reflexivity).
  apply NoDup_remove_2 in Hnd.
  exists s1, (mk_iter y (nxt s y)), (l1 ++ d :: mid), tl. cbn [iter_node]. rewrite Hy0.
  split; [exact Hlk0 |]. split; [exact Hrun1 |]. split.
  { apply (Hafter s1 tl Inv1); try assumption.
    apply (same_nodes_weaken (fun a => a <> y /\ a <> n)); [| exact Hsn].
    intros a Ha. split; [| apply Hne, HmidL, Ha].
    intros ->. apply Hnd. apply in_or_app. left. apply in_or_app. right. right. exact Ha. }
  split; [rewrite EL, <- app_assoc; reflexivity |].
  split; [rewrite <- app_assoc; exact Inv1 |].
  split.
  { rewrite count_users_insert, Hdm, EL.
    replace (l1 ++ d :: mid ++ y :: tl) with ((l1 ++ d :: mid) ++ y :: tl)
      by (rewrite <- app_assoc; reflexivity).
    rewrite (count_users_insert s _ tl y), Hyd.
    rewrite (count_users_ext s s1 ((l1 ++ d :: mid) ++ tl)); [lia |].
    intros a Ha. destruct Hsn as (_ & _ & _ & _ & _ & _ & Hattr). apply Hattr.
    split.
    - intros ->. contradiction.
    - intros ->. apply Hnin. rewrite <- app_assoc in Ha. cbn [app] in Ha.
      apply in_app_or in Ha as [Ha | [Ha | Ha]].
      + apply in_or_app. left. exact Ha.
      + apply in_or_app. right. left. exact Ha.
      + apply in_or_app. right. right. apply in_app_or in Ha as [Ha | Ha];
          apply in_or_app; [left | right; right]; exact Ha. }
  split; [intros _; split; [exact Hyd | exact Hnx] | exact Hsn].
Qed.

Lemma demo_compare_sym s k kl :
  ht_compare_fct s = Demo.compare ->
  forall k' l', ht_compare_fct s k kl k' l' = 0 <-> ht_compare_fct s k' l' k kl = 0.
Proof.
  intros -> k' l'. unfold Demo.compare.
  rewrite (Z.eqb_sym k k'), (Z.eqb_sym kl l'). tauto.
Qed.

(** X11. [cds_lfht_add_replace] of a node of the caller, on every state that
    a run reaches, with a comparison that is symmetric on the key: it returns
    the node that a lookup of the key finds before the call (NULL when the
    lookup finds none); the new node takes this node's place in the list, or
    is inserted when there was none, so that the count of
    [cds_lfht_count_nodes] stays, or grows by 1; the node returned has its
    [next] word set to the new node with the REMOVED flag; and a lookup of the
    key then finds the new node. *)
Theorem X11_add_replace_swaps cfg s n k kl fuel :
  reachable cfg s -> caller_owned s n (k, kl) ->
  ht_compare_fct s k kl k kl = 0 ->
  (forall k' l', ht_compare_fct s k kl k' l' = 0 <-> ht_compare_fct s k' l' k kl = 0) ->
  (S (size (mem s)) < fuel)%nat ->
  exists s1 it la lb c,
    cds_lfht_lookup cfg fuel s k kl = Ok it /\
    cds_lfht_add_replace cfg fuel s n = Ok (s1, iter_node it) /\
    linked_nodes fuel s =
      Ok (la ++ (if iter_node it =? 0 then [] else [iter_node it]) ++ lb) /\
    linked_nodes fuel s1 = Ok (la ++ n :: lb) /\
    cds_lfht_count_nodes fuel s = Ok (c, 0) /\
    cds_lfht_count_nodes fuel s1 =
      Ok (c + (if iter_node it =? 0 then 1 else 0), 0) /\
    (iter_node it <> 0 -> nxt s1 (iter_node it) = flag_removed n) /\
    cds_lfht_lookup cfg fuel s1 k kl = Ok (mk_iter n (nxt s1 n)).
Proof.
  intros Hr Hown Hrefl Hsym Hfuel.
  destruct (reachable_table_ok cfg s Hr) as (L & Inv & _).
  pose proof (owned_length s L n (k, kl) Inv Hown) as Hlen.
  destruct (add_replace_run cfg s L n k kl fuel Inv Hown Hrefl Hsym ltac:(lia))
    as (s1 & it & la & lb & Hlk & Hrun & Hlk1 & EL & Inv1 & Hcnt & Hold & _).
  assert (Hlen1 : (length (la ++ n :: lb) <= fuel)%nat).
  { rewrite EL in Hlen. rewrite !length_app in *. cbn [length].
    destruct (iter_node it =? 0); cbn [length] in Hlen; lia. }
  exists s1, it, la, lb, (count_users s L).
  split; [exact Hlk |]. split; [exact Hrun |].
  split; [rewrite <- EL; apply linked_nodes_run; [exact Inv | lia] |].
  split; [apply linked_nodes_run; [exact Inv1 | exact Hlen1] |].
  split; [apply count_nodes_run; [exact Inv | lia] |].
  split; [rewrite <- Hcnt; apply count_nodes_run; [exact Inv1 | exact Hlen1] |].
  split; [intros H; apply Hold, H | exact Hlk1].
Qed.

Lemma X11_add_replace_swaps_witness :
  exists s1 it la lb c,
    cds_lfht_lookup Demo.cfg 8 Demo.hasA_withB 5 1 = Ok it /\
    cds_lfht_add_replace Demo.cfg 8 Demo.hasA_withB Demo.nodeB = Ok (s1, iter_node it) /\
    linked_nodes 8 Demo.hasA_withB =
      Ok (la ++ (if iter_node it =? 0 then [] else [iter_node it]) ++ lb) /\
    linked_nodes 8 s1 = Ok (la ++ Demo.nodeB :: lb) /\
    cds_lfht_count_nodes 8 Demo.hasA_withB = Ok (c, 0) /\
    cds_lfht_count_nodes 8 s1 =
      Ok (c + (if iter_node it =? 0 then 1 else 0), 0) /\
    (iter_node it <> 0 -> nxt s1 (iter_node it) = flag_removed Demo.nodeB) /\
    cds_lfht_lookup Demo.cfg 8 s1 5 1 = Ok (mk_iter Demo.nodeB (nxt s1 Demo.nodeB)).
Proof.
  apply (X11_add_replace_swaps Demo.cfg Demo.hasA_withB Demo.nodeB 5 1 8).
  - exact demo_hasA_withB_reachable.
  - exact demo_hasA_withB_owned.
  - vm_compute. reflexivity.
  - apply demo_compare_sym. vm_compute. reflexivity.
  - vm_compute. lia.
Defined.

(** ** Traversal *)

Lemma next_walk_run s : forall l a fuel,
  lseg (mem s) a l 0 ->
  (forall y, In y l -> aligned y /\ is_removed (nxt s y) = false) ->
  (length l < fuel)%nat ->
  next_walk fuel s a =
  Ok (match user_list s l with [] => mk_iter 0 0 | x :: _ => mk_iter x (nxt s x) end).
Proof.
  induction l as [| x l IH]; intros a fuel Hseg Hok Hfuel;
    (destruct fuel as [| fuel]; [cbn in Hfuel; lia |]); cbn [next_walk].
  - cbn in Hseg. subst a. reflexivity.
  - destruct Hseg as (-> & n & Hn & Hseg).
    destruct (Hok x (or_introl eq_refl)) as [Hal Hrm].
    rewrite (is_end_aligned x Hal), Hn. cbn [load bind].
    rewrite (nxt_lookup s x n Hn) in Hrm.
    unfold user_list. cbn [List.filter]. rewrite (nxt_lookup s x n Hn), Hrm.
    cbn [negb andb].
    destruct (is_dummy (next n)); cbn [negb];
      [| rewrite (nxt_lookup s x n Hn); reflexivity].
    apply (IH _ fuel Hseg).
    + intros y Hy. apply Hok. right. exact Hy.
    + cbn [length] in Hfuel. lia.
Qed.

Lemma iter_assert_user cfg s (l : list Z) :
  (forall y, In y l -> is_Some (mem s !! y)) ->
  iter_assert cfg s
    (match user_list s l with [] => mk_iter 0 0 | x :: _ => mk_iter x (nxt s x) end) =
  Ok tt.
Proof.
  intros Hmem. unfold iter_assert.
  destruct (user_list s l) as [| x u] eqn:E; [reflexivity |]. cbn [iter_node].
  assert (Hx : In x (user_list s l)) by (rewrite E; left; reflexivity).
  apply List.filter_In in Hx as [Hx Hd].
  destruct (Hmem x Hx) as [n Hn].
  destruct (x =? 0); [reflexivity |]. rewrite Hn. cbn [load bind].
  rewrite (nxt_lookup s x n Hn) in Hd. rewrite Hd.
  unfold c_assert. destruct (NDEBUG cfg); reflexivity.
Qed.

Lemma next_run cfg s l fuel it :
  lseg (mem s) (clear_flag (iter_next it)) l 0 ->
  (forall y, In y l -> aligned y /\ is_removed (nxt s y) = false) ->
  (length l < fuel)%nat ->
  cds_lfht_next cfg fuel s it =
  Ok (match user_list s l with [] => mk_iter 0 0 | x :: _ => mk_iter x (nxt s x) end).
Proof.
  intros Hseg Hok Hfuel. unfold cds_lfht_next.
  rewrite (next_walk_run s l _ fuel Hseg Hok Hfuel). cbn [bind].
  rewrite iter_assert_user; [reflexivity |].
  intros y Hy. apply (lseg_in_mem _ _ _ _ y Hseg Hy).
Qed.

Lemma nodup_split_eq {A : Type} (x : A) : forall a1 b1 a2 b2,
  List.NoDup (a1 ++ x :: b1) -> a1 ++ x :: b1 = a2 ++ x :: b2 -> a1 = a2 /\ b1 = b2.
Proof.
  induction a1 as [| y a1 IH]; intros b1 a2 b2 Hnd E.
  - destruct a2 as [| z a2]; cbn [app] in E.
    + injection E as E. split; [reflexivity | exact E].
    + injection E as E1 E2. subst z. apply List.NoDup_cons_iff in Hnd as [Hn _].
      exfalso. apply Hn. rewrite E2. apply in_or_app. right. left. reflexivity.
  - destruct a2 as [| z a2]; cbn [app] in E.
    + injection E as E1 E2. subst y. cbn [app] in Hnd.
      apply List.NoDup_cons_iff in Hnd as [Hn _].
      exfalso. apply Hn. apply in_or_app. right. left. reflexivity.
    + injection E as E1 E2. subst z. cbn [app] in Hnd.
      apply List.NoDup_cons_iff in Hnd as [_ Hnd].
      destruct (IH b1 a2 b2 Hnd E2) as [-> ->]. split; reflexivity.
Qed.

(** The nodes that follow a user node [x] of the list: the split of the
    user nodes around [x] is the one of the list. *)
Lemma user_list_split s L ua x ub :
  List.NoDup L -> user_list s L = ua ++ x :: ub ->
  exists la lb, L = la ++ x :: lb /\ user_list s la = ua /\ user_list s lb = ub /\
                is_dummy (nxt s x) = false.
Proof.
  intros Hnd E.
  assert (Hx : In x (user_list s L)).
  { rewrite E. apply in_or_app. right. left. reflexivity. }
  apply List.filter_In in Hx as [Hx Hd]. apply negb_true_iff in Hd.
  destruct (in_split x L Hx) as (la & lb & EL).
  exists la, lb. split; [exact EL |].
  assert (Hnu : List.NoDup (user_list s L)) by (apply List.NoDup_filter, Hnd).
  rewrite EL in E, Hnu. unfold user_list in E, Hnu.
  rewrite List.filter_app in E, Hnu. cbn [List.filter] in E, Hnu.
  rewrite Hd in E, Hnu. cbn [negb] in E, Hnu.
  destruct (nodup_split_eq x _ _ _ _ Hnu E) as [E1 E2].
  split; [exact E1 |]. split; [exact E2 | exact Hd].
Qed.

Lemma first_next_run cfg s L fuel :
  table_ok s L -> (length L < fuel)%nat ->
  (forall it0,
     cds_lfht_first cfg fuel s it0 =
     Ok (match user_list s L with [] => mk_iter 0 0 | x :: _ => mk_iter x (nxt s x) end)) /\
  (forall ua x ub, user_list s L = ua ++ x :: ub ->
     cds_lfht_next cfg fuel s (mk_iter x (nxt s x)) =
     Ok (match ub with [] => mk_iter 0 0 | y :: _ => mk_iter y (nxt s y) end)).
Proof.
  intros Inv Hfuel.
  assert (Hok : forall y, In y L -> aligned y /\ is_removed (nxt s y) = false).
  { intros y Hy. split; [apply (inv_aligned _ _ _ _ Inv y Hy) |].
    destruct (is_removed (nxt s y)) eqn:Er; [| reflexivity].
    destruct (proj1 (inv_removed _ _ _ _ Inv _ Hy) Er). }
  split.
  - intros it0.
    destruct (inv_head _ _ _ _ Inv) as [L' EL].
    destruct (inv_bucket _ _ _ _ Inv 0 (inv_D0 _ _ _ _ Inv)) as (_ & [lv Hlv] & _ & Hd0 & _).
    change (fls_ulong 0) with 0 in Hlv.
    pose proof (inv_lseg _ _ _ _ Inv) as Hseg. rewrite EL in Hseg.
    destruct Hseg as (_ & n & Hn & Hseg).
    unfold cds_lfht_first. rewrite Hlv. cbn [load bind].
    rewrite <- (daddr_0 _ _ Hlv), Hn. cbn [load bind].
    rewrite (next_run cfg s L' fuel); cbn [iter_next].
    + rewrite EL. unfold user_list. cbn [List.filter]. rewrite Hd0. reflexivity.
    + exact Hseg.
    + intros y Hy. apply Hok. rewrite EL. right. exact Hy.
    + rewrite EL in Hfuel. cbn [length] in Hfuel. lia.
  - intros ua x ub E.
    destruct (user_list_split s L ua x ub (inv_nodup _ _ _ _ Inv) E)
      as (la & lb & EL & _ & Eb & _).
    pose proof (inv_lseg _ _ _ _ Inv) as Hseg. rewrite EL in Hseg.
    apply lseg_app in Hseg as (m & _ & Hseg).
    destruct Hseg as (_ & n & Hn & Hseg).
    rewrite (next_run cfg s lb fuel); cbn [iter_next].
    + rewrite Eb. reflexivity.
    + rewrite (nxt_lookup s x n Hn). exact Hseg.
    + intros y Hy. apply Hok. rewrite EL. apply in_or_app. right. right. exact Hy.
    + rewrite EL, length_app in Hfuel. cbn [length] in Hfuel. lia.
Qed.

(** X12. Traversal of a table, on every state that a run reaches:
    [cds_lfht_first] yields the first user node of the list (the nil iterator
    when the table holds none), and [cds_lfht_next] from the iterator on a
    user node yields the user node that follows it in the list, the nil
    iterator after the last one. So [first] and then [next] repeated visit
    every user node once, in the order of the list, and skip the dummy
    nodes. *)
Theorem X12_first_next_enumerate cfg s fuel :
  reachable cfg s -> (size (mem s) < fuel)%nat ->
  exists L,
    linked_nodes fuel s = Ok L /\
    (forall it0,
       cds_lfht_first cfg fuel s it0 =
       Ok (match user_list s L with [] => mk_iter 0 0 | x :: _ => mk_iter x (nxt s x) end)) /\
    (forall ua x ub, user_list s L = ua ++ x :: ub ->
       cds_lfht_next cfg fuel s (mk_iter x (nxt s x)) =
       Ok (match ub with [] => mk_iter 0 0 | y :: _ => mk_iter y (nxt s y) end)).
Proof.
  intros Hr Hfuel.
  destruct (reachable_table_ok cfg s Hr) as (L & Inv & _).
  pose proof (length_le_size s L Inv) as Hlen.
  exists L. split; [apply linked_nodes_run; [exact Inv | lia] |].
  apply first_next_run; [exact Inv | lia].
Qed.

Lemma X12_first_next_enumerate_witness :
  exists L,
    linked_nodes 8 Demo.hasAB = Ok L /\
    (forall it0,
       cds_lfht_first Demo.cfg 8 Demo.hasAB it0 =
       Ok (match user_list Demo.hasAB L with
           | [] => mk_iter 0 0
           | x :: _ => mk_iter x (nxt Demo.hasAB x)
           end)) /\
    (forall ua x ub, user_list Demo.hasAB L = ua ++ x :: ub ->
       cds_lfht_next Demo.cfg 8 Demo.hasAB (mk_iter x (nxt Demo.hasAB x)) =
       Ok (match ub with [] => mk_iter 0 0 | y :: _ => mk_iter y (nxt Demo.hasAB y) end)).
Proof.
  apply (X12_first_next_enumerate Demo.cfg Demo.hasAB 8).
  - exact demo_hasAB_reachable.
  - vm_compute. lia.
Defined.

Lemma iter_assert_filter cfg s (f : Z -> bool) (l : list Z) :
  (forall y, f y = true -> is_dummy (nxt s y) = false) ->
  (forall y, In y l -> is_Some (mem s !! y)) ->
  iter_assert cfg s
    (match List.filter f l with [] => mk_iter 0 0 | x :: _ => mk_iter x (nxt s x) end) =
  Ok tt.
Proof.
  intros Hf Hmem. unfold iter_assert.
  destruct (List.filter f l) as [| x u] eqn:E; [reflexivity |]. cbn [iter_node].
  assert (Hx : In x (List.filter f l)) by (rewrite E; left; reflexivity).
  apply List.filter_In in Hx as [Hx Hd]. apply Hf in Hd.
  destruct (Hmem x Hx) as [n Hn].
  destruct (x =? 0); [reflexivity |]. rewrite Hn. cbn [load bind].
  rewrite (nxt_lookup s x n Hn) in Hd. rewrite Hd.
  unfold c_assert. destruct (NDEBUG cfg); reflexivity.
Qed.

Lemma next_duplicate_walk_run s k kl r : forall l a fuel,
  lseg (mem s) a l 0 ->
  (forall y, In y l -> aligned y /\ is_removed (nxt s y) = false /\
     (is_dummy (nxt s y) = false -> is_Some (node_keys s !! y))) ->
  sorted_by (skey s) l ->
  (length l < fuel)%nat ->
  next_duplicate_walk fuel s k kl r a =
  Ok (match List.filter (fun y => negb (is_dummy (nxt s y)) && (rh s y <=? r) &&
                                  (cmp_key s y k kl =? 0)) l with
      | [] => mk_iter 0 0
      | x :: _ => mk_iter x (nxt s x)
      end).
Proof.
  induction l as [| x l IH]; intros a fuel Hseg Hok Hs Hfuel;
    (destruct fuel as [| fuel]; [cbn in Hfuel; lia |]); cbn [next_duplicate_walk].
  - cbn in Hseg. subst a. reflexivity.
  - destruct Hseg as (-> & n & Hn & Hseg).
    destruct (Hok x (or_introl eq_refl)) as (Hal & Hrm & Hkey).
    destruct Hs as [Hle Hs].
    rewrite (is_end_aligned x Hal), Hn. cbn [load bind].
    rewrite <- (rh_lookup s x n Hn), <- (nxt_lookup s x n Hn), Hrm.
    assert (Hrec : next_duplicate_walk fuel s k kl r (clear_flag (nxt s x)) =
              Ok (match List.filter (fun y => negb (is_dummy (nxt s y)) && (rh s y <=? r) &&
                                  (cmp_key s y k kl =? 0)) l with
                  | [] => mk_iter 0 0
                  | x :: _ => mk_iter x (nxt s x)
                  end)).
    { rewrite (nxt_lookup s x n Hn). apply (IH _ fuel Hseg).
      - intros y Hy. apply Hok. right. exact Hy.
      - exact Hs.
      - cbn [length] in Hfuel. lia. }
    destruct (Z.gtb_spec (rh s x) r) as [Hgt | Hngt].
    + rewrite filter_none; [reflexivity |].
      intros y Hy.
      assert (Hry : r < rh s y).
      { destruct Hy as [<- | Hy]; [lia |].
        specialize (Hle y Hy). apply skey_le_rh in Hle. lia. }
      replace (rh s y <=? r) with false by (symmetry; apply Z.leb_gt; exact Hry).
      rewrite andb_false_r. reflexivity.
    + cbn [List.filter negb andb].
      replace (rh s x <=? r) with true by (symmetry; apply Z.leb_le; lia).
      destruct (is_dummy (nxt s x)) eqn:Ed; cbn [negb andb bind].
      * exact Hrec.
      * destruct (Hkey eq_refl) as [kx Hkx]. rewrite Hkx. cbn [load bind].
        unfold cmp_key at 1. rewrite Hkx.
        destruct (ht_compare_fct s (fst kx) (snd kx) k kl =? 0); [reflexivity | exact Hrec].
Qed.

Lemma next_duplicate_run cfg s la x lb k kl fuel :
  table_ok s (la ++ x :: lb) -> is_dummy (nxt s x) = false ->
  node_keys s !! x = Some (k, kl) ->
  (length (la ++ x :: lb) < fuel)%nat ->
  cds_lfht_next_duplicate cfg fuel s (mk_iter x (nxt s x)) =
  Ok (match List.filter (key_match s k kl) lb with
      | [] => mk_iter 0 0
      | y :: _ => mk_iter y (nxt s y)
      end).
Proof.
  intros Inv Hd Hkey Hfuel.
  assert (Hx : In x (la ++ x :: lb)) by (apply in_or_app; right; left; reflexivity).
  destruct (inv_user _ _ _ _ Inv x Hx Hd) as (kx & Hkx & Hrh).
  rewrite Hkey in Hkx. injection Hkx as <-.
  pose proof (inv_lseg _ _ _ _ Inv) as Hseg.
  apply lseg_app in Hseg as (m & _ & Hseg).
  destruct Hseg as (_ & n & Hn & Hseg).
  pose proof (inv_sorted _ _ _ _ Inv) as Hs.
  apply sorted_by_app in Hs as (_ & Hs & _). destruct Hs as [Hle Hs].
  assert (HinL : forall y, In y lb -> In y (la ++ x :: lb)).
  { intros y Hy. apply in_or_app. right. right. exact Hy. }
  unfold cds_lfht_next_duplicate. cbn [iter_node iter_next].
  rewrite Hn, Hkey. cbn [load bind fst snd].
  rewrite (nxt_lookup s x n Hn).
  rewrite (next_duplicate_walk_run s k kl (reverse_hash n) lb _ fuel Hseg).
  - cbn [bind].
    assert (Ef : List.filter (fun y => negb (is_dummy (nxt s y)) &&
                   (rh s y <=? reverse_hash n) && (cmp_key s y k kl =? 0)) lb =
                 List.filter (key_match s k kl) lb).
    { apply List.filter_ext_in. intros y Hy. unfold key_match.
      f_equal. f_equal. rewrite <- (rh_lookup s x n Hn).
      unfold node_hash_of in Hrh. cbn [fst snd] in Hrh. rewrite <- Hrh.
      specialize (Hle y Hy). apply skey_le_rh in Hle.
      destruct (Z.leb_spec (rh s y) (rh s x)); destruct (Z.eqb_spec (rh s y) (rh s x));
        try reflexivity; lia. }
    rewrite Ef. rewrite iter_assert_filter; [reflexivity | |].
    + intros y Hy. unfold key_match in Hy.
      apply andb_true_iff in Hy as [Hy _]. apply andb_true_iff in Hy as [Hy _].
      apply negb_true_iff in Hy. exact Hy.
    + intros y Hy. apply (lseg_in_mem _ _ _ _ y Hseg Hy).
  - intros y Hy. split; [apply (inv_aligned _ _ _ _ Inv y (HinL y Hy)) |]. split.
    + destruct (is_removed (nxt s y)) eqn:Er; [| reflexivity].
      destruct (proj1 (inv_removed _ _ _ _ Inv _ (HinL y Hy)) Er).
    + intros Hdy. destruct (inv_user _ _ _ _ Inv y (HinL y Hy) Hdy) as (ky & Hky & _).
      exists ky. exact Hky.
  - exact Hs.
  - rewrite length_app in Hfuel. cbn [length] in Hfuel. lia.
Qed.

(** X13. [cds_lfht_next_duplicate] from the iterator on a linked user node
    with key [k], on every state that a run reaches: it yields the first node
    behind this node in the list that matches [k] (a user node with the
    reverse hash of [k] whose key compares equal to [k]), and the nil
    iterator when no node behind it does. On an iterator whose node is
    [NULL] it reads the fields of the [NULL] node: the call does not
    return. *)
Theorem X13_next_duplicate cfg s x k kl fuel :
  reachable cfg s -> user_node s x -> node_keys s !! x = Some (k, kl) ->
  (size (mem s) < fuel)%nat ->
  exists la lb,
    linked_nodes fuel s = Ok (la ++ x :: lb) /\
    cds_lfht_next_duplicate cfg fuel s (mk_iter x (nxt s x)) =
      Ok (match List.filter (key_match s k kl) lb with
          | [] => mk_iter 0 0
          | y :: _ => mk_iter y (nxt s y)
          end) /\
    forall next_, cds_lfht_next_duplicate cfg fuel s (mk_iter 0 next_) = Abort.
Proof.
  intros Hr [Hx Hd] Hkey Hfuel.
  destruct (reachable_table_ok cfg s Hr) as (L & Inv & H0).
  pose proof (length_le_size s L Inv) as Hlen.
  apply (list_node_in _ _ _ _ _ Inv) in Hx.
  destruct (in_split x L Hx) as (la & lb & EL).
  exists la, lb.
  split; [rewrite <- EL; apply linked_nodes_run; [exact Inv | lia] |].
  split.
  - rewrite EL in Inv, Hlen. apply (next_duplicate_run cfg s la x lb k kl fuel Inv Hd Hkey). lia.
  - intros next_. unfold cds_lfht_next_duplicate. cbn [iter_node]. rewrite H0. reflexivity.
Qed.

Lemma X13_next_duplicate_witness :
  exists la lb,
    linked_nodes 8 Demo.hasAB = Ok (la ++ iter_node Demo.iterAB :: lb) /\
    cds_lfht_next_duplicate Demo.cfg 8 Demo.hasAB
      (mk_iter (iter_node Demo.iterAB) (nxt Demo.hasAB (iter_node Demo.iterAB))) =
      Ok (match List.filter (key_match Demo.hasAB 5 1) lb with
          | [] => mk_iter 0 0
          | y :: _ => mk_iter y (nxt Demo.hasAB y)
          end) /\
    forall next_, cds_lfht_next_duplicate Demo.cfg 8 Demo.hasAB (mk_iter 0 next_) = Abort.
Proof.
  apply (X13_next_duplicate Demo.cfg Demo.hasAB (iter_node Demo.iterAB) 5 1 8).
  - exact demo_hasAB_reachable.
  - exact demo_hasAB_user.
  - vm_compute. reflexivity.
  - vm_compute. lia.
Defined.

(** * Destruction of a table *)

Lemma delete_dummy_walk_run cfg s : forall l a fuel,
  lseg (mem s) (clear_flag a) l 0 -> l <> [] ->
  (forall y, In y l -> aligned y /\ is_removed (nxt s y) = false) ->
  (length l <= fuel)%nat ->
  delete_dummy_walk cfg fuel s a =
  Ok (forallb (fun y => is_dummy (nxt s y)) l).
Proof.
  induction l as [| x l IH]; intros a fuel Hseg Hne Hok Hfuel; [contradiction |].
  destruct fuel as [| fuel]; [cbn in Hfuel; lia |].
  destruct Hseg as (Ea & n & Hn & Hseg).
  destruct (Hok x (or_introl eq_refl)) as [Hal Hrm].
  cbn [delete_dummy_walk forallb]. rewrite Ea, Hn. cbn [load bind].
  rewrite (nxt_lookup s x n Hn) in *.
  destruct (is_dummy (next n)); cbn [negb andb]; [| reflexivity].
  rewrite Hrm. cbn [negb].
  replace (c_assert cfg true) with (Ok tt) by (unfold c_assert; destruct (NDEBUG cfg); reflexivity).
  cbn [bind].
  destruct l as [| y l].
  - cbn in Hseg. unfold is_end, END_VALUE. rewrite Hseg. reflexivity.
  - pose proof Hseg as (Ey & _).
    destruct (Hok y (or_intror (or_introl eq_refl))) as [Haly _].
    assert (He : is_end (next n) = false).
    { unfold is_end, END_VALUE. rewrite Ey. apply Z.eqb_neq. destruct Haly. lia. }
    rewrite He. cbn [negb].
    apply (IH (next n) fuel Hseg); [discriminate | |].
    + intros z Hz. apply Hok. right. exact Hz.
    + cbn [length] in *. lia.
Qed.

Lemma forallb_dummy_user_list s l :
  forallb (fun y => is_dummy (nxt s y)) l = true <-> user_list s l = [].
Proof.
  unfold user_list. induction l as [| x l IH]; cbn [forallb List.filter]; [tauto |].
  destruct (is_dummy (nxt s x)); cbn [negb andb]; [exact IH |].
  split; discriminate.
Qed.

(** The state that [cds_lfht_destroy] hands to [cds_lfht_delete_dummy]
    differs from the table [s] by the destroy flag only. *)
Lemma delete_dummy_eperm cfg s s1 L fuel :
  table_ok s L -> mem s1 = mem s -> t_tbl s1 = t_tbl s ->
  (length L <= fuel)%nat -> user_list s L <> [] ->
  cds_lfht_delete_dummy cfg fuel s1 = Ok (s1, - EPERM).
Proof.
  intros Inv Em Et Hfuel Hu.
  destruct (inv_head _ _ _ _ Inv) as [L' EL].
  destruct (inv_bucket _ _ _ _ Inv 0 (inv_D0 _ _ _ _ Inv)) as (_ & [lv Hlv] & _).
  change (fls_ulong 0) with 0 in Hlv.
  unfold cds_lfht_delete_dummy. rewrite Et, Hlv. cbn [load bind].
  rewrite (delete_dummy_walk_run cfg s1 L _ fuel).
  - assert (E : forallb (fun y => is_dummy (nxt s1 y)) L = false).
    { destruct (forallb (fun y => is_dummy (nxt s1 y)) L) eqn:E; [| reflexivity].
      exfalso. apply Hu. apply forallb_dummy_user_list.
      rewrite <- E. unfold nxt. rewrite Em. reflexivity. }
    rewrite E. reflexivity.
  - rewrite Em, <- (daddr_0 _ _ Hlv).
    rewrite clear_flag_aligned by (apply (inv_aligned _ _ _ _ Inv), (inv_head_in _ _ _ _ Inv)).
    apply (inv_lseg _ _ _ _ Inv).
  - rewrite EL. discriminate.
  - intros y Hy. split; [apply (inv_aligned _ _ _ _ Inv y Hy) |].
    unfold nxt. rewrite Em. fold (nxt s y).
    destruct (is_removed (nxt s y)) eqn:Er; [| reflexivity].
    destruct (proj1 (inv_removed _ _ _ _ Inv _ Hy) Er).
  - exact Hfuel.
Qed.

Lemma c_assert_holds cfg : c_assert cfg true = Ok tt.
Proof. unfold c_assert. destruct (NDEBUG cfg); reflexivity. Qed.

(** The dummy nodes of distinct buckets are distinct nodes. *)
Lemma daddr_inj s L idx idx' :
  table_ok s L -> 0 <= idx < t_size s -> 0 <= idx' < t_size s ->
  daddr s idx = daddr s idx' -> idx = idx'.
Proof.
  intros Inv Hi Hi' E.
  destruct (inv_bucket _ _ _ _ Inv idx Hi) as (Hr & _ & _ & _ & Hrh).
  destruct (inv_bucket _ _ _ _ Inv idx' Hi') as (Hr' & _ & _ & _ & Hrh').
  rewrite E, Hrh' in Hrh.
  rewrite <- (bit_reverse_ulong_involutive idx), <- (bit_reverse_ulong_involutive idx') by lia.
  rewrite Hrh. reflexivity.
Qed.

(** The node [i] of the level array of order [o] is the dummy node of a
    bucket below [2 ^ o]. *)
Lemma level_node_bucket s o i level :
  0 <= o < 64 -> 0 <= i < level_len o -> t_tbl s !! o = Some level ->
  exists idx, 0 <= idx < 2 ^ o /\ (o = 0 \/ 2 ^ (o - 1) <= idx) /\
              node_at level i = daddr s idx.
Proof.
  intros Ho Hi Hl. destruct (Z.eq_dec o 0) as [-> | Hne].
  - change (level_len 0) with 1 in Hi. assert (i = 0) by lia. subst i.
    exists 0. split; [lia |]. split; [left; reflexivity |].
    symmetry. apply daddr_0, Hl.
  - rewrite level_len_val in Hi by lia.
    exists (2 ^ (o - 1) + i). split; [rewrite (pow2_double o) by lia; lia |].
    split; [right; lia |].
    symmetry. apply daddr_level; [lia | lia | exact Hl].
Qed.

Lemma delete_dummy_empty cfg s s1 L fuel :
  table_ok s L -> mem s1 = mem s -> t_tbl s1 = t_tbl s -> t_size s1 = t_size s ->
  (length L <= fuel)%nat -> user_list s L = [] ->
  exists s', cds_lfht_delete_dummy cfg fuel s1 = Ok (s', 0) /\
             forall a, is_Some (mem s' !! a) -> is_Some (mem s !! a).
Proof.
  intros Inv Em Et Es Hfuel Hu.
  destruct (inv_head _ _ _ _ Inv) as [L' EL].
  destruct (inv_bucket _ _ _ _ Inv 0 (inv_D0 _ _ _ _ Inv)) as (_ & [lv Hlv] & _).
  change (fls_ulong 0) with 0 in Hlv.
  destruct (table_ok_size _ _ Inv) as (k & Hk & Ek).
  pose proof (pow2_lt_64 k Hk) as Hp.
  unfold cds_lfht_delete_dummy. rewrite Et, Hlv. cbn [load bind].
  rewrite (delete_dummy_walk_run cfg s1 L _ fuel).
  2: { rewrite Em, <- (daddr_0 _ _ Hlv).
       rewrite clear_flag_aligned by (apply (inv_aligned _ _ _ _ Inv), (inv_head_in _ _ _ _ Inv)).
       apply (inv_lseg _ _ _ _ Inv). }
  2: { rewrite EL. discriminate. }
  2: { intros y Hy. split; [apply (inv_aligned _ _ _ _ Inv y Hy) |].
       unfold nxt. rewrite Em. fold (nxt s y).
       destruct (is_removed (nxt s y)) eqn:Er; [| reflexivity].
       destruct (proj1 (inv_removed _ _ _ _ Inv _ Hy) Er). }
  2: exact Hfuel.
  assert (E : forallb (fun y => is_dummy (nxt s1 y)) L = true).
  { unfold nxt. rewrite Em. apply (forallb_dummy_user_list s L). exact Hu. }
  rewrite E. cbn [negb bind]. rewrite Es, Ek.
  rewrite get_count_order_ulong_pow2 by exact Hk.
  rewrite (ulong_small (k + 1)) by lia.
  set (P := fun (o : Z) (st : state) =>
              t_tbl st = t_tbl s /\
              (forall idx, 0 <= idx < 2 ^ k -> o = 0 \/ 2 ^ (o - 1) <= idx ->
                 mem st !! daddr s idx = mem s !! daddr s idx) /\
              (forall a, is_Some (mem st !! a) -> is_Some (mem s !! a))).
  destruct (for_range_inv P (delete_dummy_level cfg) (Z.to_nat (k + 1)) 0 s1)
    as (s' & Hrun & _ & _ & Hsub).
  - split; [exact Et |]. split; [intros idx _ _; rewrite Em; reflexivity |].
    intros a. rewrite Em. auto.
  - intros o st Ho (Pt & Pm & Ps).
    rewrite Z2Nat.id in Ho by lia.
    assert (Ho64 : 0 <= o < 64) by lia.
    (* the level array of order [o] *)
    set (idx0 := if o =? 0 then 0 else 2 ^ (o - 1)).
    assert (Hidx0 : 0 <= idx0 < t_size s /\ fls_ulong idx0 = o).
    { unfold idx0. destruct (Z.eqb_spec o 0) as [-> | Hne].
      - split; [lia | reflexivity].
      - pose proof (pow2_pos (o - 1) ltac:(lia)).
        assert (2 ^ (o - 1) < 2 ^ k) by (apply Z.pow_lt_mono_r; lia).
        split; [lia |].
        replace (2 ^ (o - 1)) with (2 ^ (o - 1) + 0) by lia.
        apply level_index_fls; lia. }
    destruct Hidx0 as [Hidx0 Hfls].
    destruct (inv_bucket _ _ _ _ Inv idx0 Hidx0) as (_ & [level Hlevel] & _).
    rewrite Hfls in Hlevel.
    unfold delete_dummy_level. change (if o =? 0 then 1 else shl 1 (o - 1)) with (level_len o).
    rewrite Pt, Hlevel. cbn [load bind].
    pose proof (level_len_pos o Ho64) as Hlen.
    assert (Hle : 2 ^ o <= 2 ^ k) by (apply Z.pow_le_mono_r; lia).
    destruct (for_range_inv (fun _ s2 => s2 = st)
                (fun i s0 => nd <- load (mem s0 !! node_at level i);;
                             _ <- c_assert cfg (is_dummy (next nd));; Ok s0)
                (Z.to_nat (level_len o)) 0 st eq_refl) as (s2 & Hin & ->).
    { intros i s0 Hi ->. rewrite Z2Nat.id in Hi by lia.
      assert (Hi' : 0 <= i < level_len o) by lia.
      destruct (level_node_bucket s o i level Ho64 Hi' Hlevel)
        as (idx & Hidx & Hlow & Enode).
      rewrite Enode, (Pm idx ltac:(lia) Hlow).
      assert (HD : 0 <= idx < t_size s) by lia.
      destruct (inv_bucket _ _ _ _ Inv idx HD) as (_ & _ & Hin & Hd & _).
      destruct (lseg_in_mem _ _ _ _ _ (inv_lseg _ _ _ _ Inv) Hin) as [n Hn].
      rewrite Hn. cbn [load bind].
      rewrite (nxt_lookup s _ n Hn) in Hd. rewrite Hd, c_assert_holds. cbn [bind].
      exists st. split; reflexivity. }
    rewrite Hin. cbn [bind].
    exists (free_level level (level_len o) st). split; [reflexivity |].
    set (n := Z.to_nat (ulong (level_len o * sizeof_node) / sizeof_node)).
    assert (Hn : Z.of_nat n <= level_len o).
    { unfold n, sizeof_node. pose proof (ulong_range (level_len o * 16)).
      rewrite Z2Nat.id by (apply Z.div_pos; lia).
      apply Z.div_le_upper_bound; [lia |].
      unfold ulong.
      pose proof (Z.mod_le (level_len o * 16) (2 ^ 64) ltac:(lia) ltac:(lia)). lia. }
    assert (Hm : mem (free_level level (level_len o) st) = unmap level n (mem st))
      by reflexivity.
    split; [exact Pt |]. split.
    + intros idx Hidx Hlow. rewrite Hm.
      assert (Hge : 2 ^ o <= idx).
      { destruct Hlow as [H | H]; [lia |]. replace (o + 1 - 1) with o in H by lia. exact H. }
      rewrite unmap_other.
      * apply Pm; [exact Hidx |]. destruct (Z.eq_dec o 0) as [-> | Hne]; [left; reflexivity |].
        right. assert (2 ^ (o - 1) <= 2 ^ o) by (apply Z.pow_le_mono_r; lia). lia.
      * intros j Hj Ed.
        assert (Hj' : 0 <= j < level_len o) by lia.
        destruct (level_node_bucket s o j level Ho64 Hj' Hlevel)
          as (idx' & Hidx' & _ & Enode).
        rewrite Enode in Ed.
        apply (daddr_inj s L idx idx' Inv) in Ed; lia.
    + intros a. rewrite Hm.
      destruct (classic_node a level n) as [(j & Hj & ->) | Hno].
      * rewrite unmap_node by exact Hj. intros [? ?]. discriminate.
      * rewrite unmap_other by exact Hno. apply Ps.
  - rewrite Hrun. cbn [bind]. exists s'. split; [reflexivity | exact Hsub].
Qed.

Lemma destroy_wait_run n s :
  destroy_wait n s =
  if ht_in_progress_resize s =? 0 then match n with O => OutOfFuel | S _ => Ok tt end
  else OutOfFuel.
Proof.
  induction n as [| n IH]; cbn [destroy_wait].
  - destruct (ht_in_progress_resize s =? 0); reflexivity.
  - rewrite IH. destruct (ht_in_progress_resize s =? 0); reflexivity.
Qed.

(** X14. [cds_lfht_destroy], on every state that a run reaches: while a
    resize is in flight it waits (no other thread runs: it never returns);
    otherwise, when the list holds a user node, it returns [-EPERM] and
    leaves the table as it is but for [in_progress_destroy], which stays at
    1; and when the list holds dummy nodes only, the sanity checks of the
    level arrays pass, the table is freed and the call returns 0. *)
Theorem X14_destroy cfg s fuel :
  reachable cfg s -> (size (mem s) < fuel)%nat ->
  exists L,
    linked_nodes fuel s = Ok L /\
    cds_lfht_destroy cfg fuel s =
    if ht_in_progress_resize s =? 0 then
      Ok (match user_list s L with
          | [] => (None, 0)
          | _ :: _ => (Some (set_in_progress_destroy 1 s), - EPERM)
          end)
    else OutOfFuel.
Proof.
  intros Hr Hfuel.
  destruct (reachable_table_ok cfg s Hr) as (L & Inv & _).
  pose proof (length_le_size s L Inv) as Hlen.
  exists L. split; [apply linked_nodes_run; [exact Inv | lia] |].
  unfold cds_lfht_destroy. rewrite destroy_wait_run.
  change (ht_in_progress_resize (set_in_progress_destroy 1 s))
    with (ht_in_progress_resize s).
  destruct (ht_in_progress_resize s =? 0); [| reflexivity].
  destruct fuel as [| fuel]; [lia |]. cbn [bind].
  destruct (user_list s L) as [| u ul] eqn:Eu.
  - destruct (delete_dummy_empty cfg s (set_in_progress_destroy 1 s) L (S fuel) Inv
                eq_refl eq_refl eq_refl ltac:(lia) Eu) as (s' & Hrun & _).
    rewrite Hrun. reflexivity.
  - rewrite (delete_dummy_eperm cfg s (set_in_progress_destroy 1 s) L (S fuel) Inv
               eq_refl eq_refl ltac:(lia)); [reflexivity |].
    rewrite Eu. discriminate.
Qed.

Lemma X14_destroy_witness :
  exists L,
    linked_nodes 8 Demo.hasA = Ok L /\
    cds_lfht_destroy Demo.cfg 8 Demo.hasA =
    if ht_in_progress_resize Demo.hasA =? 0 then
      Ok (match user_list Demo.hasA L with
          | [] => (None, 0)
          | _ :: _ => (Some (set_in_progress_destroy 1 Demo.hasA), - EPERM)
          end)
    else OutOfFuel.
Proof.
  apply (X14_destroy Demo.cfg Demo.hasA 8).
  - exact demo_hasA_reachable.
  - vm_compute. lia.
Defined.

(** ** A table that was just created *)

Lemma no_keys_no_users s L :
  table_ok s L -> node_keys s = ∅ -> user_list s L = [].
Proof.
  intros Inv Hk. unfold user_list. apply filter_none. intros x Hx.
  destruct (is_dummy (nxt s x)) eqn:Ed; [reflexivity |].
  destruct (inv_user _ _ _ _ Inv x Hx Ed) as (kx & Hkx & _).
  rewrite Hk, lookup_empty in Hkx. discriminate.
Qed.

Lemma count_users_user_list s l : count_users s l = Z.of_nat (length (user_list s l)).
Proof.
  unfold user_list. induction l as [| x l IH]; cbn [count_users List.filter]; [reflexivity |].
  destruct (is_dummy (nxt s x)); cbn [negb length]; lia.
Qed.

(** X15. [_cds_lfht_new] with an [init_size] that is zero or a power of two,
    the level arrays being allocated: the table it returns is empty. Its
    list holds no user node, [cds_lfht_count_nodes] counts 0 nodes and 0
    removed nodes, [cds_lfht_first] yields the nil iterator, and so does
    [cds_lfht_lookup] of every key. *)
Theorem X15_new_table_empty cfg fuel alloc hash_fct compare_fct hash_seed init_size flags
  nprocs cpu :
  init_size = 0 \/ (exists k, 0 <= k < 64 /\ init_size = 2 ^ k) ->
  nprocs <= 2 ^ 61 ->
  alloc_ok alloc (calloc_ht hash_fct compare_fct hash_seed (-1) nprocs cpu) 0
    MAX_TABLE_ORDER ->
  alloc_succeeds alloc 0 (order_of_size (Z.max init_size MIN_TABLE_SIZE)) ->
  Z.max init_size MIN_TABLE_SIZE <= Z.of_nat fuel ->
  exists s,
    _cds_lfht_new cfg fuel alloc hash_fct compare_fct hash_seed init_size flags
      (-1) nprocs cpu = Ok (Some s) /\
    forall fuel', (size (mem s) < fuel')%nat ->
      (exists L, linked_nodes fuel' s = Ok L /\ user_list s L = []) /\
      cds_lfht_count_nodes fuel' s = Ok (0, 0) /\
      (forall it0, cds_lfht_first cfg fuel' s it0 = Ok (mk_iter 0 0)) /\
      (forall key key_len, cds_lfht_lookup cfg fuel' s key key_len = Ok (mk_iter 0 0)).
Proof.
  intros Hp Hn Hal Hsucc Hfuel.
  assert (Hk : exists k, 0 <= k < 64 /\ Z.max init_size MIN_TABLE_SIZE = 2 ^ k /\
                 (init_size = 0 \/ init_size = 2 ^ k)).
  { change MIN_TABLE_SIZE with 1. destruct Hp as [-> | (k & Hk & E)].
    - exists 0. split; [lia |]. split; [reflexivity | left; reflexivity].
    - exists k. pose proof (pow2_pos k ltac:(lia)).
      split; [lia |]. split; [lia | right; exact E]. }
  destruct Hk as (k & Hk & Emax & Hcase).
  pose proof (cds_lfht_new_run cfg fuel alloc hash_fct compare_fct hash_seed init_size
    flags nprocs cpu k Hk Emax Hcase Hn Hal ltac:(lia)) as Hrun.
  rewrite Emax in Hsucc. rewrite order_of_size_pow2 in Hsucc by exact Hk.
  rewrite alloc_succeeds_spec in Hsucc.
  destruct (_cds_lfht_new cfg fuel alloc hash_fct compare_fct hash_seed init_size flags
              (-1) nprocs cpu) as [[s |] | |].
  2: contradiction.
  2: { destruct Hrun as (j & Hj & Ej). exfalso. apply (Hsucc j); [lia | exact Ej]. }
  2: contradiction.
  destruct Hrun as (L & Inv & _ & _ & Hkeys & _).
  exists s. split; [reflexivity |]. intros fuel' Hf.
  pose proof (length_le_size s L Inv) as Hlen.
  pose proof (no_keys_no_users s L Inv Hkeys) as Hu.
  split; [exists L; split; [apply linked_nodes_run; [exact Inv | lia] | exact Hu] |].
  split.
  { rewrite (count_nodes_run s L fuel' Inv ltac:(lia)), count_users_user_list, Hu.
    reflexivity. }
  split.
  { intros it0.
    rewrite (proj1 (first_next_run cfg s L fuel' Inv ltac:(lia)) it0), Hu. reflexivity. }
  intros key key_len.
  rewrite (lookup_first_match cfg s L key key_len fuel' Inv ltac:(lia)).
  rewrite filter_none; [reflexivity |].
  intros x Hx. unfold key_match.
  assert (Hd : is_dummy (nxt s x) = true).
  { destruct (is_dummy (nxt s x)) eqn:Ed; [reflexivity |].
    assert (Hin : In x (user_list s L)).
    { apply List.filter_In. split; [exact Hx | rewrite Ed; reflexivity]. }
    rewrite Hu in Hin. destruct Hin. }
  rewrite Hd. reflexivity.
Qed.

Lemma X15_new_table_empty_witness :
  exists s,
    _cds_lfht_new Demo.cfg 8 Demo.alloc Demo.hash Demo.compare 0 4 1 (-1) 1 0
      = Ok (Some s) /\
    forall fuel', (size (mem s) < fuel')%nat ->
      (exists L, linked_nodes fuel' s = Ok L /\ user_list s L = []) /\
      cds_lfht_count_nodes fuel' s = Ok (0, 0) /\
      (forall it0, cds_lfht_first Demo.cfg fuel' s it0 = Ok (mk_iter 0 0)) /\
      (forall key key_len,
         cds_lfht_lookup Demo.cfg fuel' s key key_len = Ok (mk_iter 0 0)).
Proof.
  apply (X15_new_table_empty Demo.cfg 8 Demo.alloc Demo.hash Demo.compare 0 4 1 1 0).
  - right. exists 2. split; [lia | reflexivity].
  - lia.
  - exact demo_alloc_ok.
  - apply (bool_decide_unpack _). vm_compute. exact I.
  - vm_compute. discriminate.
Defined.

(** * The registry of reader threads *)

Section Registry.

Import Urcu.

Lemma cells_written (cells : list (option reader_registry)) :
  (forall i, (i < length cells)%nat -> exists r, cells !! i = Some (Some r)) ->
  cells = map Some (omap id cells).
Proof.
  induction cells as [| c cells IH]; intros H; [reflexivity |].
  destruct (H 0%nat ltac:(cbn; lia)) as [r Hr]. cbn in Hr. injection Hr as ->.
  cbn. f_equal. apply IH. intros i Hi.
  apply (H (S i)). cbn. lia.
Qed.

Lemma omap_map_Some (rs : list reader_registry) : omap id (map Some rs) = rs.
Proof. induction rs as [| r rs IH]; [reflexivity |]. cbn. f_equal. exact IH. Qed.

(** A registry that is there is the array of its readers followed by the
    cells that are free. *)
Lemma registry_repr st cells :
  registry st = Some cells -> registry_ok st ->
  exists rest,
    cells = map Some (readers st) ++ rest /\
    Z.of_nat (length (readers st)) = num_readers st /\
    Z.of_nat (length cells) = alloc_readers st /\ 0 < alloc_readers st.
Proof.
  intros Hreg Hok. unfold registry_ok, readers in *. rewrite Hreg in *.
  destruct Hok as (Hlen & Hnum & Hpos & Hcells).
  set (n := Z.to_nat (num_readers st)) in *.
  assert (Hn : (n <= length cells)%nat) by lia.
  assert (Ht : take n cells = map Some (omap id (take n cells))).
  { apply cells_written. intros i Hi. rewrite length_take in Hi.
    rewrite lookup_take_lt by lia. apply Hcells. lia. }
  exists (drop n cells). split; [| split; [| split]].
  - rewrite <- Ht. symmetry. apply take_drop.
  - rewrite <- (length_map Some), <- Ht, length_take. lia.
  - exact Hlen.
  - exact Hpos.
Qed.

Lemma readers_repr rs rest a :
  readers (mk_urcu (Some (map Some rs ++ rest)) (Z.of_nat (length rs)) a) = rs.
Proof.
  unfold readers. cbn [registry num_readers]. rewrite Nat2Z.id.
  rewrite <- (length_map Some rs), take_app_length. apply omap_map_Some.
Qed.

Lemma registry_ok_repr rs rest a :
  Z.of_nat (length (map Some rs ++ rest)) = a -> 0 < a ->
  registry_ok (mk_urcu (Some (map Some rs ++ rest)) (Z.of_nat (length rs)) a).
Proof.
  intros Hlen Hpos. unfold registry_ok. cbn [registry num_readers alloc_readers].
  split; [exact Hlen |]. rewrite length_app, length_map in Hlen.
  split; [lia |]. split; [exact Hpos |].
  intros i Hi. rewrite Nat2Z.id in Hi.
  destruct (lookup_lt_is_Some_2 rs i Hi) as [r Hr].
  exists r. rewrite lookup_app_l by (rewrite length_map; exact Hi).
  rewrite list_lookup_fmap, Hr. reflexivity.
Qed.

Lemma sint_small x : - 2 ^ 31 <= x < 2 ^ 31 -> sint x = x.
Proof. intros H. unfold sint. rewrite Z.mod_small by lia. lia. Qed.

Lemma malloc_registry_small n :
  0 <= n < 2 ^ 59 -> malloc_registry n = repeat None (Z.to_nat n).
Proof.
  intros Hn. unfold malloc_registry, sizeof_reader_registry.
  rewrite ulong_small by lia. rewrite (Z.mul_comm 16), Z.div_mul by lia. reflexivity.
Qed.

Lemma store_cell_next rs c rest' r :
  store_cell (map Some rs ++ c :: rest') (Z.of_nat (length rs)) r =
  Ok (map Some (rs ++ [r]) ++ rest').
Proof.
  unfold store_cell.
  replace (0 <=? Z.of_nat (length rs)) with true by (symmetry; apply Z.leb_le; lia).
  replace (Z.of_nat (length rs) <? Z.of_nat (length (map Some rs ++ c :: rest')))
    with true
    by (symmetry; apply Z.ltb_lt; rewrite length_app, length_map; cbn [length]; lia).
  cbn [andb]. rewrite Nat2Z.id. f_equal.
  replace (length rs) with (length (map Some rs) + 0)%nat by (rewrite length_map; lia).
  rewrite (insert_app_r (map Some rs) (c :: rest') 0). cbn.
  rewrite map_app, <- app_assoc. reflexivity.
Qed.

Lemma skipn_repeat_add {A : Type} (x : A) a b : skipn a (repeat x (a + b)) = repeat x b.
Proof.
  rewrite repeat_app. rewrite <- (repeat_length x a) at 1. apply drop_app_length.
Qed.

Lemma add_reader_run id tls st :
  registry_ok st -> alloc_readers st < 2 ^ 30 ->
  exists st',
    urcu_add_reader id tls st = Ok st' /\ registry_ok st' /\
    readers st' = readers st ++ [mk_reader id tls] /\
    alloc_readers st' =
      match registry st with
      | None => INIT_NUM_THREADS
      | Some _ =>
        if num_readers st =? alloc_readers st then 2 * alloc_readers st
        else alloc_readers st
      end.
Proof.
  intros Hok Hsmall. unfold urcu_add_reader.
  destruct (registry st) as [cells |] eqn:Hreg.
  - destruct (registry_repr st cells Hreg Hok) as (rest & Ec & Hnum & Hlen & Hpos).
    set (rs := readers st) in *.
    assert (Hrest : Z.of_nat (length rs) + Z.of_nat (length rest) = alloc_readers st).
    { rewrite <- Hlen, Ec, length_app, length_map. lia. }
    rewrite <- Hnum. rewrite sint_small by lia.
    destruct (Z.ltb_spec (alloc_readers st) (Z.of_nat (length rs) + 1)) as [Hfull | Hroom].
    + assert (Erest : rest = []) by (destruct rest; [reflexivity | cbn [length] in Hrest; lia]).
      subst rest. rewrite app_nil_r in Ec. cbn [length] in Hrest.
      rewrite Hreg. cbn [load bind].
      rewrite Z.shiftl_mul_pow2 by lia. change (2 ^ 1) with 2.
      rewrite sint_small by lia.
      rewrite malloc_registry_small by lia.
      unfold memcpy_cells, sizeof_reader_registry.
      rewrite ulong_small by lia. rewrite (Z.mul_comm 16), Z.div_mul by lia.
      assert (En : Z.to_nat (alloc_readers st) = length cells) by lia.
      rewrite En.
      replace (Z.to_nat (alloc_readers st * 2)) with (length cells + length cells)%nat by lia.
      rewrite repeat_length, Nat.leb_refl.
      replace (length cells <=? length cells + length cells)%nat with true
        by (symmetry; apply Nat.leb_le; lia).
      cbn [andb bind]. rewrite firstn_all, skipn_repeat_add.
      cbn [registry num_readers alloc_readers].
      destruct (length cells) as [| n] eqn:El; [lia |]. cbn [repeat].
      cbn [load bind]. rewrite Ec, store_cell_next. cbn [bind].
      rewrite sint_small by lia.
      replace (Z.of_nat (length rs) + 1) with (Z.of_nat (length (rs ++ [mk_reader id tls])))
        by (rewrite length_app; cbn [length]; lia).
      eexists. split; [reflexivity |]. split; [| split].
      * apply registry_ok_repr; [| lia].
        rewrite length_app, length_map, length_app, repeat_length. cbn [length].
        rewrite Ec, length_map in El. lia.
      * apply readers_repr.
      * cbn [alloc_readers].
        destruct (Z.eqb_spec (Z.of_nat (length rs)) (alloc_readers st)); lia.
    + cbn [bind]. rewrite Hreg. cbn [load bind].
      destruct rest as [| c rest']; [cbn [length] in Hrest; lia |].
      rewrite <- ?Hnum. rewrite Ec, store_cell_next. cbn [bind].
      rewrite sint_small by lia.
      replace (Z.of_nat (length rs) + 1) with (Z.of_nat (length (rs ++ [mk_reader id tls])))
        by (rewrite length_app; cbn [length]; lia).
      eexists. split; [reflexivity |]. split; [| split].
      * apply registry_ok_repr; [| lia].
        rewrite length_app, length_map, length_app. cbn [length] in *. lia.
      * apply readers_repr.
      * cbn [alloc_readers]. cbn [length] in Hrest.
        destruct (Z.eqb_spec (Z.of_nat (length rs)) (alloc_readers st)); lia.
  - exists (mk_urcu (Some (map Some [mk_reader id tls] ++ repeat None 3))
              (Z.of_nat (length [mk_reader id tls])) INIT_NUM_THREADS).
    split; [vm_compute; reflexivity |]. split; [| split].
    + apply registry_ok_repr; reflexivity.
    + rewrite readers_repr. unfold readers. rewrite Hreg. reflexivity.
    + reflexivity.
Qed.

Lemma load_cell_repr rs rest i r :
  rs !! i = Some r -> load_cell (map Some rs ++ rest) (Z.of_nat i) = Ok r.
Proof.
  intros Hr. unfold load_cell.
  replace (0 <=? Z.of_nat i) with true by (symmetry; apply Z.leb_le; lia).
  rewrite Nat2Z.id.
  rewrite lookup_app_l by (rewrite length_map; apply (lookup_lt_Some _ _ _ Hr)).
  rewrite list_lookup_fmap, Hr. reflexivity.
Qed.

Lemma last_cons_default {A : Type} (l : list A) : forall x r, List.last (x :: l) r = List.last l x.
Proof.
  induction l as [| y l IH]; intros x r; [reflexivity |].
  change (List.last (x :: y :: l) r) with (List.last (y :: l) r).
  rewrite (IH y r), (IH y x). reflexivity.
Qed.

Lemma lookup_last_cell {A : Type} (l : list A) :
  forall r, (r :: l) !! length l = Some (List.last l r).
Proof.
  induction l as [| x l IH]; intros r; [reflexivity |].
  change ((r :: x :: l) !! length (x :: l)) with ((x :: l) !! length l).
  rewrite (IH x), last_cons_default. reflexivity.
Qed.

Lemma store_cell_middle l1 r l2 rest v :
  store_cell (map Some (l1 ++ r :: l2) ++ rest) (Z.of_nat (length l1)) v =
  Ok (map Some (l1 ++ v :: l2) ++ rest).
Proof.
  rewrite map_app, <- app_assoc. cbn [map app].
  rewrite (store_cell_next l1 (Some r) (map Some l2 ++ rest) v).
  rewrite !map_app, <- !app_assoc. reflexivity.
Qed.

(** The loop of [urcu_remove_reader] passes the cells of other threads. *)
Lemma remove_reader_loop_skip id st rs rest : forall l1b l1a tl n,
  rs = l1a ++ l1b ++ tl -> Forall (fun r => tid r <> id) l1b ->
  remove_reader_loop (length l1b + n) (Z.of_nat (length l1a)) id st
    (map Some rs ++ rest) =
  remove_reader_loop n (Z.of_nat (length l1a + length l1b)) id st
    (map Some rs ++ rest).
Proof.
  induction l1b as [| r0 l1b IH]; intros l1a tl n Ers Hall.
  - cbn [length]. rewrite !Nat.add_0_r, Nat.add_0_l. reflexivity.
  - apply Forall_cons in Hall as [Hr0 Hall].
    cbn [length Nat.add remove_reader_loop].
    rewrite (load_cell_repr rs rest (length l1a) r0).
    2: { rewrite Ers. rewrite lookup_app_r by lia. rewrite Nat.sub_diag. reflexivity. }
    cbn [bind]. rewrite (proj2 (Z.eqb_neq (tid r0) id) Hr0).
    replace (Z.of_nat (length l1a) + 1) with (Z.of_nat (length (l1a ++ [r0])))
      by (rewrite length_app; cbn [length]; lia).
    rewrite (IH (l1a ++ [r0]) tl n).
    + rewrite length_app. cbn [length]. f_equal. lia.
    + rewrite Ers, <- app_assoc. reflexivity.
    + exact Hall.
Qed.

Lemma remove_reader_found cfg id st l1 r l2 :
  registry_ok st -> alloc_readers st < 2 ^ 31 ->
  readers st = l1 ++ r :: l2 -> tid r = id -> Forall (fun x => tid x <> id) l1 ->
  exists st',
    urcu_remove_reader cfg id st = Ok st' /\ registry_ok st' /\
    readers st' = l1 ++ removelast (List.last l2 r :: l2) /\
    alloc_readers st' = alloc_readers st.
Proof.
  intros Hok Hsmall Ers Htid Hall.
  destruct (registry st) as [cells |] eqn:Hreg.
  2: { unfold readers in Ers. rewrite Hreg in Ers. destruct l1; discriminate. }
  destruct (registry_repr st cells Hreg Hok) as (rest & Ec & Hnum & Hlen & Hpos).
  rewrite Ers in Ec, Hnum.
  assert (Hn : Z.to_nat (num_readers st) = (length l1 + S (length l2))%nat).
  { rewrite <- Hnum, Nat2Z.id, length_app. reflexivity. }
  unfold urcu_remove_reader. rewrite Hreg, c_assert_holds. cbn [bind].
  rewrite Hn, Ec.
  pose proof (remove_reader_loop_skip id st (l1 ++ r :: l2) rest l1 [] (r :: l2)
                (S (length l2)) eq_refl Hall) as Hskip.
  cbn [length Nat.add] in Hskip. change (Z.of_nat 0) with 0 in Hskip. rewrite Hskip.
  cbn [remove_reader_loop].
  rewrite (load_cell_repr _ rest (length l1) r)
    by (rewrite lookup_app_r by lia; rewrite Nat.sub_diag; reflexivity).
  cbn [bind]. rewrite (proj2 (Z.eqb_eq (tid r) id) Htid).
  replace (num_readers st - 1) with (Z.of_nat (length l1 + length l2))
    by (rewrite <- Hnum, length_app; cbn [length]; lia).
  rewrite (load_cell_repr _ rest (length l1 + length l2) (List.last l2 r)).
  2: { rewrite lookup_app_r by lia.
       replace (length l1 + length l2 - length l1)%nat with (length l2) by lia.
       apply lookup_last_cell. }
  cbn [bind]. rewrite store_cell_middle. cbn [bind].
  set (rs' := l1 ++ List.last l2 r :: l2).
  assert (Hsplit : rs' = removelast rs' ++ [List.last rs' r]).
  { apply app_removelast_last. unfold rs'. destruct l1; discriminate. }
  assert (Hlen' : length (removelast rs') = (length l1 + length l2)%nat).
  { assert (H : length rs' = S (length (removelast rs'))).
    { rewrite Hsplit at 1. rewrite length_app. cbn [length]. lia. }
    unfold rs' in H at 1. rewrite length_app in H. cbn [length] in H. lia. }
  rewrite Hsplit, map_app, <- app_assoc. cbn [map app].
  rewrite <- Hlen', store_cell_next. cbn [bind].
  assert (Hbound : Z.of_nat (length (removelast rs')) < 2 ^ 31).
  { rewrite Hlen'. rewrite Ec, length_app, length_map, length_app in Hlen.
    cbn [length] in Hlen. lia. }
  rewrite sint_small by lia.
  replace (map Some (removelast rs' ++ [mk_reader 0 0]) ++ rest)
    with (map Some (removelast rs') ++ Some (mk_reader 0 0) :: rest)
    by (rewrite map_app, <- app_assoc; reflexivity).
  eexists. split; [reflexivity |]. split; [| split].
  - apply registry_ok_repr; [| exact Hpos].
    rewrite <- Hlen, Ec, !length_app, !length_map, length_app. cbn [length]. lia.
  - rewrite readers_repr. unfold rs'. apply removelast_app. discriminate.
  - reflexivity.
Qed.

Lemma remove_reader_missing cfg id st :
  registry_ok st -> Forall (fun x => tid x <> id) (readers st) ->
  urcu_remove_reader cfg id st =
  if NDEBUG cfg then
    match registry st with
    | Some _ => Ok st
    | None => if num_readers st <=? 0 then Ok st else Abort
    end
  else Abort.
Proof.
  intros Hok Hall. unfold urcu_remove_reader.
  destruct (registry st) as [cells |] eqn:Hreg.
  - destruct (registry_repr st cells Hreg Hok) as (rest & Ec & Hnum & Hlen & Hpos).
    rewrite c_assert_holds. cbn [bind].
    replace (Z.to_nat (num_readers st)) with (length (readers st) + 0)%nat by lia.
    rewrite Ec.
    pose proof (remove_reader_loop_skip id st (readers st) rest (readers st) [] [] 0%nat
                  ltac:(rewrite app_nil_r; reflexivity) Hall) as Hskip.
    cbn [length Nat.add] in Hskip. change (Z.of_nat 0) with 0 in Hskip. rewrite Hskip.
    cbn [remove_reader_loop bind]. unfold c_assert.
    destruct (NDEBUG cfg); reflexivity.
  - unfold c_assert. destruct (NDEBUG cfg); cbn [bind]; [| reflexivity].
    destruct (num_readers st <=? 0); reflexivity.
Qed.

Lemma three_readers_ok : registry_ok three_readers.
Proof.
  exact (registry_ok_repr [mk_reader 11 100; mk_reader 12 200; mk_reader 13 300]
           [None] 4 eq_refl eq_refl).
Qed.

(** X16. [urcu_add_reader] on a registry as the code keeps it, of fewer than
    [2 ^ 30] cells: the reader is appended behind the registered readers,
    which keep their order. A registry that is [NULL] is allocated with
    [INIT_NUM_THREADS] cells, one that is full is copied into an array of
    twice the size, and otherwise the array stays as large as it is. *)
Theorem X16_urcu_add_reader id tls st :
  registry_ok st -> alloc_readers st < 2 ^ 30 ->
  exists st',
    urcu_add_reader id tls st = Ok st' /\ registry_ok st' /\
    readers st' = readers st ++ [mk_reader id tls] /\
    alloc_readers st' =
      match registry st with
      | None => INIT_NUM_THREADS
      | Some _ =>
        if num_readers st =? alloc_readers st then 2 * alloc_readers st
        else alloc_readers st
      end.
Proof. apply add_reader_run. Qed.

Lemma X16_urcu_add_reader_witness :
  exists st',
    urcu_add_reader 14 400 three_readers = Ok st' /\ registry_ok st' /\
    readers st' = readers three_readers ++ [mk_reader 14 400] /\
    alloc_readers st' =
      match registry three_readers with
      | None => INIT_NUM_THREADS
      | Some _ =>
        if num_readers three_readers =? alloc_readers three_readers
        then 2 * alloc_readers three_readers
        else alloc_readers three_readers
      end.
Proof.
  apply (X16_urcu_add_reader 14 400 three_readers).
  - exact three_readers_ok.
  - vm_compute. reflexivity.
Defined.

(** X17. [urcu_remove_reader] of a thread that is registered, on a registry
    as the code keeps it: the first cell that holds the thread id is
    overwritten with the last registered reader, and the count drops by one.
    So the readers before that cell stay, the last reader takes the place of
    the one removed, and the order of the readers is not kept. The array is
    not shrunk. *)
Theorem X17_urcu_remove_reader cfg id st l1 r l2 :
  registry_ok st -> alloc_readers st < 2 ^ 31 ->
  readers st = l1 ++ r :: l2 -> tid r = id -> Forall (fun x => tid x <> id) l1 ->
  exists st',
    urcu_remove_reader cfg id st = Ok st' /\ registry_ok st' /\
    readers st' = l1 ++ removelast (List.last l2 r :: l2) /\
    alloc_readers st' = alloc_readers st.
Proof. apply remove_reader_found. Qed.

Lemma X17_urcu_remove_reader_witness :
  exists st',
    urcu_remove_reader (mk_build false 1) 11 three_readers = Ok st' /\
    registry_ok st' /\
    readers st' =
      [] ++ removelast (List.last [mk_reader 12 200; mk_reader 13 300] (mk_reader 11 100)
                          :: [mk_reader 12 200; mk_reader 13 300]) /\
    alloc_readers st' = alloc_readers three_readers.
Proof.
  apply (X17_urcu_remove_reader (mk_build false 1) 11 three_readers
           [] (mk_reader 11 100) [mk_reader 12 200; mk_reader 13 300]).
  - exact three_readers_ok.
  - vm_compute. reflexivity.
  - vm_compute. reflexivity.
  - reflexivity.
  - constructor.
Defined.

(** X18. [urcu_remove_reader] of a thread that is not registered: with
    assertions compiled in the call aborts, on [assert(registry != NULL)]
    when there is no registry and on [assert(0)] otherwise; with [NDEBUG]
    it returns and leaves a registry that is there as it is. *)
Theorem X18_urcu_remove_unregistered cfg id st :
  registry_ok st -> Forall (fun x => tid x <> id) (readers st) ->
  urcu_remove_reader cfg id st =
  if NDEBUG cfg then
    match registry st with
    | Some _ => Ok st
    | None => if num_readers st <=? 0 then Ok st else Abort
    end
  else Abort.
Proof. apply remove_reader_missing. Qed.

Lemma X18_urcu_remove_unregistered_witness :
  urcu_remove_reader (mk_build false 1) 14 three_readers =
  if NDEBUG (mk_build false 1) then
    match registry three_readers with
    | Some _ => Ok three_readers
    | None => if num_readers three_readers <=? 0 then Ok three_readers else Abort
    end
  else Abort.
Proof.
  apply (X18_urcu_remove_unregistered (mk_build false 1) 14 three_readers).
  - exact three_readers_ok.
  - repeat constructor; vm_compute; discriminate.
Defined.

(** X19. Registering a thread that is not registered and unregistering it
    again leaves the registered readers as they were, in the same order. *)
Theorem X19_urcu_register_unregister cfg id tls st :
  registry_ok st -> alloc_readers st < 2 ^ 30 ->
  Forall (fun x => tid x <> id) (readers st) ->
  exists st1 st2,
    urcu_add_reader id tls st = Ok st1 /\
    urcu_remove_reader cfg id st1 = Ok st2 /\
    registry_ok st2 /\ readers st2 = readers st.
Proof.
  intros Hok Hsmall Hall.
  destruct (add_reader_run id tls st Hok Hsmall) as (st1 & Hadd & Hok1 & Hrs1 & Hal1).
  assert (Hsmall1 : alloc_readers st1 < 2 ^ 31).
  { rewrite Hal1. destruct (registry st); [| reflexivity].
    destruct (num_readers st =? alloc_readers st); lia. }
  destruct (remove_reader_found cfg id st1 (readers st) (mk_reader id tls) []
              Hok1 Hsmall1 Hrs1 eq_refl Hall) as (st2 & Hrm & Hok2 & Hrs2 & _).
  exists st1, st2. split; [exact Hadd |]. split; [exact Hrm |].
  split; [exact Hok2 |]. rewrite Hrs2. cbn [List.last removelast]. apply app_nil_r.
Qed.

Lemma X19_urcu_register_unregister_witness :
  exists st1 st2,
    urcu_add_reader 14 400 three_readers = Ok st1 /\
    urcu_remove_reader (mk_build false 1) 14 st1 = Ok st2 /\
    registry_ok st2 /\ readers st2 = readers three_readers.
Proof.
  apply (X19_urcu_register_unregister (mk_build false 1) 14 400 three_readers).
  - exact three_readers_ok.
  - vm_compute. reflexivity.
  - repeat constructor; vm_compute; discriminate.
Defined.

End Registry.

(** * The approximate count *)

Lemma slong_congr x y : (x - y) mod 2 ^ 64 = 0 -> slong x = slong y.
Proof.
  intros H. unfold slong. f_equal.
  apply Z.mod_divide in H; [| lia]. destruct H as [q Hq].
  replace (x + 2 ^ 63) with (y + 2 ^ 63 + q * 2 ^ 64) by lia.
  apply Z.mod_add. lia.
Qed.

Lemma slong_mod x : (slong x - x) mod 2 ^ 64 = 0.
Proof.
  unfold slong. rewrite (Z.mod_eq (x + 2 ^ 63) (2 ^ 64)) by lia.
  replace (x + 2 ^ 63 - 2 ^ 64 * ((x + 2 ^ 63) / 2 ^ 64) - 2 ^ 63 - x)
    with ((- ((x + 2 ^ 63) / 2 ^ 64)) * 2 ^ 64) by lia.
  apply Z.mod_mul. lia.
Qed.

Lemma ulong_mod x : (ulong x - x) mod 2 ^ 64 = 0.
Proof.
  unfold ulong. rewrite (Z.mod_eq x (2 ^ 64)) by lia.
  replace (x - 2 ^ 64 * (x / 2 ^ 64) - x) with ((- (x / 2 ^ 64)) * 2 ^ 64) by lia.
  apply Z.mod_mul. lia.
Qed.

Lemma mod0_add a b : a mod 2 ^ 64 = 0 -> b mod 2 ^ 64 = 0 -> (a + b) mod 2 ^ 64 = 0.
Proof.
  intros Ha Hb. rewrite Z.add_mod, Ha, Hb by lia. reflexivity.
Qed.

Lemma slong_step acc a d : slong (slong (acc + a) - d) = slong (acc + a - d).
Proof.
  apply slong_congr.
  replace (slong (acc + a) - d - (acc + a - d)) with (slong (acc + a) - (acc + a)) by lia.
  apply slong_mod.
Qed.

Lemma approx_loop_run cells : forall n i acc,
  (i + n <= length cells)%nat ->
  approx_loop cells n i acc =
  Ok (match n with
      | O => acc
      | S _ => slong (acc + items_total (take n (drop i cells)))
      end).
Proof.
  induction n as [| n IH]; intros i acc Hlen; [reflexivity |].
  cbn [approx_loop].
  assert (Hi : (i < length cells)%nat) by lia.
  destruct (lookup_lt_is_Some_2 cells i Hi) as [c Hc].
  rewrite Hc. cbn [load bind].
  rewrite (IH (S i)) by lia. f_equal.
  rewrite (drop_S cells c i Hc). cbn [take items_total fold_right].
  fold (items_total (take n (drop (S i) cells))).
  rewrite slong_step.
  destruct n as [| n].
  - rewrite take_0. cbn [items_total fold_right]. apply (f_equal slong). lia.
  - apply slong_congr.
    match goal with |- (slong ?u + ?t - ?v) mod _ = 0 =>
      replace (slong u + t - v) with (slong u - u) by lia
    end.
    apply slong_mod.
Qed.

(** The approximate count is the total of the cells, as a [long]. *)
Lemma approx_count_run s cells :
  ht_percpu_count s = Some cells -> 0 <= nr_cpus_mask s ->
  Z.of_nat (length cells) = nr_cpus_mask s + 1 ->
  approx_count s = Ok (slong (items_total cells)).
Proof.
  intros Hc Hm Hlen. unfold approx_count.
  rewrite (proj2 (Z.geb_le _ _) Hm), Hc.
  assert (En : Z.to_nat (nr_cpus_mask s + 1) = length cells) by lia.
  rewrite En.
  rewrite (approx_loop_run cells (length cells) 0 0) by lia.
  rewrite drop_0, firstn_all.
  destruct cells as [| c cells]; [cbn [length] in Hlen; lia |].
  reflexivity.
Qed.

Lemma items_total_app l1 l2 : items_total (l1 ++ l2) = items_total l1 + items_total l2.
Proof.
  induction l1 as [| c l1 IH]; [reflexivity |].
  cbn [app items_total fold_right]. fold (items_total (l1 ++ l2)). fold (items_total l1).
  rewrite IH. lia.
Qed.

Lemma items_total_insert cells i c c' :
  cells !! i = Some c ->
  items_total (<[i := c']> cells) =
  items_total cells + (add c' - del c') - (add c - del c).
Proof.
  intros Hc.
  rewrite <- (take_drop_middle cells i c Hc) at 2.
  rewrite <- (take_drop_middle cells i c Hc) at 1.
  assert (Hl : length (take i cells) = i).
  { rewrite length_take. apply lookup_lt_Some in Hc. lia. }
  rewrite <- Hl at 1. rewrite insert_app_r_alt by lia. rewrite Nat.sub_diag.
  cbn [insert list_insert]. rewrite !items_total_app.
  cbn [items_total fold_right]. fold (items_total (drop (S i) cells)). lia.
Qed.

Lemma approx_count_fields s s' :
  nr_cpus_mask s' = nr_cpus_mask s -> ht_percpu_count s' = ht_percpu_count s ->
  approx_count s' = approx_count s.
Proof. intros Hm Hc. unfold approx_count. rewrite Hm, Hc. reflexivity. Qed.

Lemma same_table_counters s s' :
  same_table s s' ->
  nr_cpus_mask s' = nr_cpus_mask s /\ ht_percpu_count s' = ht_percpu_count s.
Proof.
  intros (_ & _ & _ & _ & _ & _ & _ & _ & Hp & Hm & _). split; assumption.
Qed.

(** The cell that the current cpu updates. *)
Lemma cpu_cell s cells :
  counters_ok s -> ht_percpu_count s = Some cells -> 0 <= env_cpu s ->
  0 <= nr_cpus_mask s /\ Z.of_nat (length cells) = nr_cpus_mask s + 1 /\
  0 <= Z.land (env_cpu s) (nr_cpus_mask s) /\
  exists c, cells !! Z.to_nat (Z.land (env_cpu s) (nr_cpus_mask s)) = Some c.
Proof.
  intros (_ & Hm & Hc) Hcells Hcpu. destruct (Hc _ Hcells) as [Hm0 Hlen].
  destruct Hm as [Hm | (k & Hk & Hm)]; [lia |].
  assert (Hr : 0 <= Z.land (env_cpu s) (nr_cpus_mask s) < 2 ^ k).
  { rewrite Hm, land_mask_pow2 by lia. apply Z.mod_pos_bound. lia. }
  split; [exact Hm0 |]. split; [exact Hlen |]. split; [lia |].
  apply lookup_lt_is_Some_2. lia.
Qed.

Lemma ht_count_add_cells cfg s size cells :
  counters_ok s -> ht_percpu_count s = Some cells -> 0 <= env_cpu s ->
  exists s' c,
    ht_count_add cfg s size = Ok s' /\
    cells !! Z.to_nat (Z.land (env_cpu s) (nr_cpus_mask s)) = Some c /\
    ht_percpu_count s' =
      Some (<[Z.to_nat (Z.land (env_cpu s) (nr_cpus_mask s)) :=
               mk_items_count (ulong (add c + 1)) (del c)]> cells) /\
    nr_cpus_mask s' = nr_cpus_mask s.
Proof.
  intros Hc Hcells Hcpu.
  destruct (cpu_cell s cells Hc Hcells Hcpu) as (Hm0 & Hlen & Hland & c & Hcell).
  unfold ht_count_add, ht_get_cpu. rewrite Hcells.
  rewrite c_assert_true by (apply Z.geb_le; lia). cbn [bind].
  rewrite (proj2 (Z.ltb_ge (env_cpu s) 0)) by lia. cbn [bind].
  rewrite (proj2 (Z.ltb_ge _ 0)) by lia.
  rewrite Hcell. cbn [load bind].
  set (s1 := set_percpu_count _ s).
  exists (if Z.land (ulong (add c + 1)) (shl 1 COUNT_COMMIT_ORDER - 1) =? 0 then
            let count := slong (ht_count s1 + shl 1 COUNT_COMMIT_ORDER) in
            let s2 := set_count count s1 in
            if Z.land count (slong (count - 1)) =? 0 then
              if ulong (Z.shiftr count CHAIN_LEN_RESIZE_THRESHOLD) <? size then s2
              else cds_lfht_resize_lazy_count cfg s2 size
                     (ulong (Z.shiftr count (CHAIN_LEN_TARGET - 1)))
            else s2
          else s1), c.
  split.
  { cbv zeta. destruct (Z.land _ _ =? 0); [| reflexivity].
    destruct (Z.land _ _ =? 0); [| reflexivity].
    destruct (_ <? size); reflexivity. }
  split; [reflexivity |].
  cbv zeta. destruct (Z.land _ _ =? 0); [| split; reflexivity].
  destruct (Z.land _ _ =? 0); [| split; reflexivity].
  destruct (_ <? size); [split; reflexivity |].
  match goal with |- context [cds_lfht_resize_lazy_count cfg ?s2 ?a ?b] =>
    destruct (same_table_counters _ _ (cds_lfht_resize_lazy_count_same cfg s2 a b))
      as [E1 E2]; rewrite E1, E2
  end.
  split; reflexivity.
Qed.

Lemma ht_count_del_cells cfg s size cells :
  counters_ok s -> ht_percpu_count s = Some cells -> 0 <= env_cpu s ->
  exists s' c,
    ht_count_del cfg s size = Ok s' /\
    cells !! Z.to_nat (Z.land (env_cpu s) (nr_cpus_mask s)) = Some c /\
    ht_percpu_count s' =
      Some (<[Z.to_nat (Z.land (env_cpu s) (nr_cpus_mask s)) :=
               mk_items_count (add c) (ulong (del c + 1))]> cells) /\
    nr_cpus_mask s' = nr_cpus_mask s.
Proof.
  intros Hc Hcells Hcpu.
  destruct (cpu_cell s cells Hc Hcells Hcpu) as (Hm0 & Hlen & Hland & c & Hcell).
  unfold ht_count_del, ht_get_cpu. rewrite Hcells.
  rewrite c_assert_true by (apply Z.geb_le; lia). cbn [bind].
  rewrite (proj2 (Z.ltb_ge (env_cpu s) 0)) by lia. cbn [bind].
  rewrite (proj2 (Z.ltb_ge _ 0)) by lia.
  rewrite Hcell. cbn [load bind].
  set (s1 := set_percpu_count _ s).
  exists (if Z.land (ulong (del c + 1)) (shl 1 COUNT_COMMIT_ORDER - 1) =? 0 then
            let count := slong (ht_count s1 - shl 1 COUNT_COMMIT_ORDER) in
            let s2 := set_count count s1 in
            if Z.land count (slong (count - 1)) =? 0 then
              if ulong (Z.shiftr count CHAIN_LEN_RESIZE_THRESHOLD) >=? size then s2
              else if ulong count <?
                      ulong (shl 1 COUNT_COMMIT_ORDER * (nr_cpus_mask s2 + 1))
              then s2
              else cds_lfht_resize_lazy_count cfg s2 size
                     (ulong (Z.shiftr count (CHAIN_LEN_TARGET - 1)))
            else s2
          else s1), c.
  split.
  { cbv zeta. destruct (Z.land _ _ =? 0); [| reflexivity].
    destruct (Z.land _ _ =? 0); [| reflexivity].
    destruct (_ >=? size); [reflexivity |].
    destruct (_ <? _); reflexivity. }
  split; [reflexivity |].
  cbv zeta. destruct (Z.land _ _ =? 0); [| split; reflexivity].
  destruct (Z.land _ _ =? 0); [| split; reflexivity].
  destruct (_ >=? size); [split; reflexivity |].
  destruct (_ <? _); [split; reflexivity |].
  match goal with |- context [cds_lfht_resize_lazy_count cfg ?s2 ?a ?b] =>
    destruct (same_table_counters _ _ (cds_lfht_resize_lazy_count_same cfg s2 a b))
      as [E1 E2]; rewrite E1, E2
  end.
  split; reflexivity.
Qed.

Lemma ht_count_skip cfg s size :
  env_cpu s < 0 ->
  (0 <= nr_cpus_mask s \/ NDEBUG cfg = true \/ ht_percpu_count s = None) ->
  ht_count_add cfg s size = Ok s /\ ht_count_del cfg s size = Ok s.
Proof.
  intros Hcpu Hm. unfold ht_count_add, ht_count_del, ht_get_cpu.
  destruct (ht_percpu_count s) as [cells |]; [| split; reflexivity].
  assert (Ha : c_assert cfg (nr_cpus_mask s >=? 0) = Ok tt).
  { unfold c_assert. destruct Hm as [Hm | [Hm | Hm]]; [| rewrite Hm; reflexivity | discriminate].
    rewrite (proj2 (Z.geb_le _ _) Hm). destruct (NDEBUG cfg); reflexivity. }
  rewrite Ha. cbn [bind].
  rewrite (proj2 (Z.ltb_lt (env_cpu s) 0) Hcpu). cbn [bind].
  rewrite (proj2 (Z.ltb_lt (env_cpu s) 0) Hcpu). split; reflexivity.
Qed.

(** X20. The split counters behind the approximate count of
    [cds_lfht_count_nodes], on a table whose counters are allocated:
    [ht_count_add] raises the approximate count by one and [ht_count_del]
    lowers it by one, in the arithmetic of [long]; when [sched_getcpu] fails
    (a negative cpu number) both return without counting, so that the
    approximate count stays as it is. *)
Theorem X20_approx_count_step cfg s size cells :
  counters_ok s -> ht_percpu_count s = Some cells ->
  exists a s1 s2,
    approx_count s = Ok a /\
    ht_count_add cfg s size = Ok s1 /\
    ht_count_del cfg s size = Ok s2 /\
    approx_count s1 = Ok (if env_cpu s <? 0 then a else slong (a + 1)) /\
    approx_count s2 = Ok (if env_cpu s <? 0 then a else slong (a - 1)).
Proof.
  intros Hc Hcells.
  pose proof Hc as (_ & _ & Hlen). destruct (Hlen _ Hcells) as [Hm0 Hl].
  pose proof (approx_count_run s cells Hcells Hm0 Hl) as Ha.
  exists (slong (items_total cells)).
  destruct (Z.ltb_spec (env_cpu s) 0) as [Hneg | Hpos].
  - destruct (ht_count_skip cfg s size Hneg (or_introl Hm0)) as [E1 E2].
    exists s, s. auto.
  - destruct (ht_count_add_cells cfg s size cells Hc Hcells Hpos)
      as (s1 & c & Hadd & Hcell & Hp1 & Hm1).
    destruct (ht_count_del_cells cfg s size cells Hc Hcells Hpos)
      as (s2 & c' & Hdel & Hcell' & Hp2 & Hm2).
    rewrite Hcell in Hcell'. injection Hcell' as <-.
    exists s1, s2. split; [exact Ha |]. split; [exact Hadd |]. split; [exact Hdel |].
    split.
    + rewrite (approx_count_run s1 _ Hp1) by (rewrite ?length_insert, Hm1; lia).
      f_equal. rewrite (items_total_insert cells _ c _ Hcell). cbn [add del].
      apply slong_congr.
      match goal with |- (?t + (ulong ?u - ?d) - (?a - ?d) - (slong ?t + 1)) mod _ = 0 =>
        replace (t + (ulong u - d) - (a - d) - (slong t + 1))
          with ((ulong u - u) + - (slong t - t)) by lia
      end.
      apply mod0_add; [apply ulong_mod |].
      rewrite Z.mod_opp_l_z; [reflexivity | lia | apply slong_mod].
    + rewrite (approx_count_run s2 _ Hp2) by (rewrite ?length_insert, Hm2; lia).
      f_equal. rewrite (items_total_insert cells _ c _ Hcell). cbn [add del].
      apply slong_congr.
      match goal with |- (?t + (?a - ulong ?u) - (?a - ?d) - (slong ?t - 1)) mod _ = 0 =>
        replace (t + (a - ulong u) - (a - d) - (slong t - 1))
          with (- (ulong u - u) + - (slong t - t)) by lia
      end.
      apply mod0_add; (rewrite Z.mod_opp_l_z; [reflexivity | lia |]);
        [apply ulong_mod | apply slong_mod].
Qed.

Lemma demo_hasA_counters : counters_ok Demo.hasA.
Proof.
  destruct (reachable_table_ok Demo.cfg Demo.hasA demo_hasA_reachable) as (L & Inv & _).
  exact (inv_counters _ _ _ _ Inv).
Qed.

Lemma X20_approx_count_step_witness :
  exists a s1 s2,
    approx_count Demo.hasA = Ok a /\
    ht_count_add Demo.cfg Demo.hasA 2 = Ok s1 /\
    ht_count_del Demo.cfg Demo.hasA 2 = Ok s2 /\
    approx_count s1 = Ok (if env_cpu Demo.hasA <? 0 then a else slong (a + 1)) /\
    approx_count s2 = Ok (if env_cpu Demo.hasA <? 0 then a else slong (a - 1)).
Proof.
  apply (X20_approx_count_step Demo.cfg Demo.hasA 2 [mk_items_count 1 0]).
  - exact demo_hasA_counters.
  - vm_compute. reflexivity.
Defined.

(** * Resizing a table whose automatic resize is off *)

(** ** The resize target is left alone *)

Lemma same_target_refl s : same_target s s.
Proof. split; reflexivity. Qed.

Lemma same_target_trans s1 s2 s3 :
  same_target s1 s2 -> same_target s2 s3 -> same_target s1 s3.
Proof. intros [A1 A2] [B1 B2]. split; congruence. Qed.

Lemma same_target_set_mem m s : same_target s (set_mem m s).
Proof. split; reflexivity. Qed.

Lemma mem_only_target s s' : mem_only s s' -> same_target s s'.
Proof. unfold mem_only. intros ->. split; reflexivity. Qed.

Lemma store_reverse_hash_target a v s s' :
  store_reverse_hash a v s = Ok s' -> same_target s s'.
Proof. intros H. apply mem_only_target. eapply store_reverse_hash_mem_only, H. Qed.

Lemma auto_off_target cfg s s' : same_target s s' -> auto_off cfg s -> auto_off cfg s'.
Proof. intros [_ E] H. unfold auto_off in *. rewrite E. exact H. Qed.

Lemma add_target cfg fuel s size node mode dummy s' r :
  auto_off cfg s ->
  _cds_lfht_add cfg fuel s size node mode dummy = Ok (s', r) -> same_target s s'.
Proof. intros Hoff H. apply mem_only_target. eapply add_mem_only; eassumption. Qed.

Lemma for_range_target cfg (body : Z -> state -> result state) :
  (forall j s s', auto_off cfg s -> body j s = Ok s' -> same_target s s') ->
  forall n j s s', auto_off cfg s -> for_range n j body s = Ok s' -> same_target s s'.
Proof.
  intros Hbody. induction n as [| n IH]; intros j s s' Hoff H.
  - injection H as <-. apply same_target_refl.
  - cbn [for_range] in H. run_inv H.
    match goal with E : body _ _ = Ok ?s1 |- _ =>
      pose proof (Hbody _ _ _ Hoff E) as H1;
      apply (same_target_trans s s1 s' H1);
      apply (IH _ _ _ (auto_off_target cfg _ _ H1 Hoff) H)
    end.
Qed.

Lemma populate_partition_target cfg fuel i start len s s' :
  auto_off cfg s ->
  init_table_populate_partition cfg fuel i start len s = Ok s' -> same_target s s'.
Proof.
  unfold init_table_populate_partition. apply (for_range_target cfg).
  clear. intros j s s' Hoff H. run_inv H.
  match goal with
  | E1 : store_reverse_hash _ _ _ = Ok ?s1, E2 : _cds_lfht_add _ _ _ _ _ _ _ = Ok ?p |- _ =>
    destruct p as [s2 r2]; cbn [fst] in H;
    apply store_reverse_hash_target in E1;
    apply add_target in E2; [| apply (auto_off_target cfg _ _ E1 Hoff)];
    injection H as <-; apply (same_target_trans _ _ _ E1 E2)
  end.
Qed.

Lemma init_table_populate_target cfg fuel s i len s' :
  auto_off cfg s ->
  init_table_populate cfg fuel s i len = Ok s' -> same_target s s'.
Proof.
  unfold init_table_populate, partition_resize_helper. intros Hoff H. run_inv H.
  - eapply populate_partition_target; eassumption.
  - revert H. apply (for_range_target cfg); [| exact Hoff].
    intros j s1 s2 Hoff1. apply populate_partition_target. exact Hoff1.
Qed.

Lemma init_table_loop_target cfg fuel alloc : forall n i s s',
  auto_off cfg s ->
  init_table_loop cfg n fuel alloc i s = Ok s' -> same_target s s'.
Proof.
  induction n as [| n IH]; intros i s s' Hoff H.
  - injection H as <-. apply same_target_refl.
  - cbn [init_table_loop] in H.
    destruct (t_resize_target s <? _); [injection H as <-; apply same_target_refl |].
    destruct (negb (i <? MAX_TABLE_ORDER)); [discriminate |].
    run_inv H.
    all: match goal with
         | E : init_table_populate _ _ ?s1 _ _ = Ok ?s2 |- _ =>
           assert (H1 : same_target s s1) by (split; destruct (alloc i =? 0); reflexivity);
           apply init_table_populate_target in E;
             [| apply (auto_off_target cfg _ _ H1 Hoff)];
           assert (H2 : same_target s s2) by (apply (same_target_trans _ _ _ H1 E))
         end.
    + injection H as <-. exact H2.
    + apply IH in H.
      * apply (same_target_trans _ _ _ H2). exact H.
      * apply (auto_off_target cfg s); [exact H2 | exact Hoff].
Qed.

(** ** Growing *)

Lemma grow_total cfg alloc fuel s L k m :
  table_ok s L -> mem s !! 0 = None -> auto_off cfg s ->
  t_size s = 2 ^ k -> t_resize_target s = 2 ^ m -> 0 <= k < m -> m < 64 ->
  alloc_ok alloc s (k + 1) MAX_TABLE_ORDER -> alloc_succeeds alloc (k + 1) (m + 1) ->
  Z.of_nat (length L) + 2 ^ m - 2 ^ k <= Z.of_nat fuel ->
  exists s' L',
    _do_cds_lfht_grow cfg fuel alloc s (2 ^ k) (2 ^ m) = Ok s' /\
    table_ok s' L' /\ t_size s' = 2 ^ m /\ same_target s s' /\
    keeps_users s s' L L' /\ node_keys s' = node_keys s /\
    ht_hash_fct s' = ht_hash_fct s /\ ht_compare_fct s' = ht_compare_fct s /\
    ht_hash_seed s' = ht_hash_seed s /\ mem s' !! 0 = None.
Proof.
  intros Inv Hm0 Hoff Hsz Htg Hk Hm Hal Hsucc Hfuel.
  unfold _do_cds_lfht_grow.
  rewrite !get_count_order_ulong_pow2 by lia.
  rewrite (ulong_small (k + 1)), (ulong_small (m + 1)) by lia.
  rewrite (ulong_small (m + 1 - (k + 1))) by lia.
  assert (Hlt : 2 ^ k < 2 ^ m) by (apply Z.pow_lt_mono_r; lia).
  rewrite c_assert_true by (apply Z.gtb_lt; exact Hlt). cbn [bind].
  unfold init_table.
  pose proof (init_table_loop_run cfg alloc fuel (Z.to_nat (m + 1 - (k + 1))) (k + 1) s L
                ltac:(lia) Inv) as Hloop.
  replace (k + 1 - 1) with k in Hloop by lia.
  rewrite Z2Nat.id in Hloop by lia.
  replace (k + 1 + (m + 1 - (k + 1)) - 1) with m in Hloop by lia.
  specialize (Hloop Hsz Hm0 Hal (or_introl Hfuel)).
  destruct (init_table_loop cfg (Z.to_nat (m + 1 - (k + 1))) fuel alloc (k + 1) s)
    as [s' | |] eqn:Erun.
  - destruct Hloop as (L' & j & I1 & I2 & I3 & I4 & I5 & I6 & I7 & I8 & I9 & I10 & I11 &
                       I12 & I13 & I14).
    pose proof (init_table_loop_target cfg fuel alloc _ _ _ _ Hoff Erun) as Htf.
    assert (Hj : j = m + 1).
    { destruct (Z.eq_dec j (m + 1)) as [E | Hne]; [exact E | exfalso].
      specialize (I7 ltac:(lia)).
      assert (2 ^ j <= 2 ^ m) by (apply Z.pow_le_mono_r; lia). lia. }
    subst j. replace (m + 1 - 1) with m in I3 by lia.
    exists s', L'. split; [reflexivity |]. split; [exact I1 |]. split; [exact I3 |].
    split; [exact Htf |]. split; [exact I14 |]. split; [exact I8 |].
    split; [exact I10 |]. split; [exact I11 |]. split; [exact I12 | exact I4].
  - exfalso. destruct Hloop as (j & Hj & [Hmax | H0]).
    + unfold MAX_TABLE_ORDER in Hmax. lia.
    + rewrite alloc_succeeds_spec in Hsucc. apply (Hsucc j); [lia | exact H0].
  - contradiction.
Qed.

(** ** Shrinking *)

Lemma shrink_total cfg fuel s L k m :
  table_ok s L -> t_size s = 2 ^ k -> t_resize_target s = 2 ^ m -> 0 <= m < k ->
  (length L < fuel)%nat ->
  exists s' L',
    _do_cds_lfht_shrink cfg fuel s (2 ^ k) (2 ^ m) = Ok s' /\
    table_ok s' L' /\ t_size s' = 2 ^ m /\ same_target s s' /\
    keeps_users s s' L L' /\ node_keys s' = node_keys s /\
    ht_hash_fct s' = ht_hash_fct s /\ ht_compare_fct s' = ht_compare_fct s /\
    ht_hash_seed s' = ht_hash_seed s /\
    (forall a, is_Some (mem s' !! a) -> is_Some (mem s !! a)).
Proof.
  intros Inv Hsz Htg Hm Hfuel.
  destruct (table_ok_size _ _ Inv) as (k' & Hk' & Ek').
  assert (k' = k) by (apply pow2_inj; [lia | lia | congruence]). subst k'.
  pose proof (pow2_pos m ltac:(lia)) as Hpm.
  assert (Hlt : 2 ^ m < 2 ^ k) by (apply Z.pow_lt_mono_r; lia).
  unfold _do_cds_lfht_shrink.
  replace (Z.max (2 ^ m) MIN_TABLE_SIZE) with (2 ^ m) by (unfold MIN_TABLE_SIZE; lia).
  rewrite !get_count_order_ulong_pow2 by lia.
  rewrite (ulong_small (k + 1)), (ulong_small (m + 1)) by lia.
  rewrite (ulong_small (k + 1 - (m + 1))) by lia.
  rewrite c_assert_true by (apply Z.ltb_lt; exact Hlt). cbn [bind].
  unfold fini_table.
  replace (m + 1 + (k + 1 - (m + 1))) with (k + 1) by lia.
  rewrite (ulong_small (k + 1)) by lia.
  rewrite c_assert_true by (apply Z.gtb_lt; lia). cbn [bind].
  replace (k + 1 - 1) with k by lia.
  pose proof (fini_table_loop_run cfg fuel (Z.to_nat (k + 1 - (m + 1))) k None s L
                ltac:(lia) Inv Hsz I ltac:(lia) Hfuel) as Hloop.
  destruct (fini_table_loop cfg (Z.to_nat (k + 1 - (m + 1))) fuel k None s)
    as [[s1 free1] | |]; [| destruct Hloop ..].
  cbn [bind fst snd].
  destruct Hloop as (L' & I1 & I2 & I3 & I4 & I5 & I6 & I7).
  destruct (pending_free_opt s1 L' free1 I1 I2) as (J1 & J2 & J3 & J4).
  set (sf := free_by_rcu_opt free1 s1) in *.
  assert (Etg1 : t_resize_target s1 = 2 ^ m) by (rewrite I3; cbn; exact Htg).
  assert (Esz1 : t_size s1 = 2 ^ m).
  { destruct I6 as [E | Hlt2].
    - rewrite E. f_equal. lia.
    - destruct (table_ok_size _ _ I1) as (j & Hj & Ej).
      rewrite Etg1 in I4, Hlt2. rewrite Ej in *.
      assert (Hjm : m <= j).
      { destruct (Z.le_gt_cases m j) as [H | H]; [exact H |].
        assert (2 ^ j < 2 ^ m) by (apply Z.pow_lt_mono_r; lia). lia. }
      assert (Hjm' : j < m + 1).
      { destruct (Z.lt_ge_cases j (m + 1)) as [H | H]; [exact H |].
        assert (2 ^ (m + 1) <= 2 ^ j) by (apply Z.pow_le_mono_r; lia).
        rewrite (pow2_double (m + 1)) in * by lia.
        replace (m + 1 - 1) with m in * by lia. lia. }
      f_equal. lia. }
  exists sf, L'. split; [reflexivity |]. split; [exact J1 |].
  split; [rewrite J3; cbn; exact Esz1 |].
  split; [split; rewrite J3; cbn; rewrite I3; reflexivity |].
  split.
  { apply (keeps_users_trans s s1 sf L L' L' I7).
    apply keeps_users_frame. intros a Ha.
    assert (Ek : node_keys sf = node_keys s1) by (rewrite J3; reflexivity).
    unfold attrs_eq, rh, nxt. rewrite (J4 a Ha), Ek. repeat split; auto. }
  split; [rewrite J3; cbn; rewrite I3; reflexivity |].
  split; [rewrite J3; cbn; rewrite I3; reflexivity |].
  split; [rewrite J3; cbn; rewrite I3; reflexivity |].
  split; [rewrite J3; cbn; rewrite I3; reflexivity |].
  intros a Ha. apply I5, J2, Ha.
Qed.

(** ** The resize loop *)

Lemma keeps_users_mem s0 s s1 s1' L L' :
  mem s0 = mem s -> node_keys s0 = node_keys s ->
  mem s1' = mem s1 -> node_keys s1' = node_keys s1 ->
  keeps_users s s1 L L' -> keeps_users s0 s1' L L'.
Proof.
  unfold keeps_users, user_list, attrs_eq, nxt, rh.
  intros -> -> -> ->. auto.
Qed.

Lemma resize_total cfg alloc fuel s L k m :
  table_ok s L -> mem s !! 0 = None -> auto_off cfg s ->
  NDEBUG cfg = true \/ ht_in_progress_resize s <> 0 ->
  t_size s = 2 ^ k -> 0 <= m < 64 ->
  (k < m -> alloc_ok alloc s (k + 1) MAX_TABLE_ORDER /\
            alloc_succeeds alloc (k + 1) (m + 1)) ->
  Z.of_nat (length L) + 2 ^ m < Z.of_nat fuel ->
  exists s' L',
    cds_lfht_resize cfg fuel alloc s (2 ^ m) = Ok s' /\
    table_ok s' L' /\ t_size s' = 2 ^ m /\ keeps_users s s' L L' /\
    node_keys s' = node_keys s /\
    ht_hash_fct s' = ht_hash_fct s /\ ht_compare_fct s' = ht_compare_fct s /\
    ht_hash_seed s' = ht_hash_seed s.
Proof.
  intros Inv Hm0 Hoff Hdbg Hsz Hm Halloc Hfuel.
  destruct (table_ok_size _ _ Inv) as (k' & Hk' & Ek').
  assert (k' = k) by (apply pow2_inj; [lia | | congruence];
    destruct (Z.lt_ge_cases k 0) as [Hneg | ?]; [| lia];
    rewrite (Z.pow_neg_r 2 k Hneg) in Hsz; pose proof (pow2_pos k' ltac:(lia)); lia).
  subst k'.
  pose proof (pow2_pos m ltac:(lia)) as Hpm.
  pose proof (pow2_pos k ltac:(lia)) as Hpk.
  unfold cds_lfht_resize, resize_target_update_count.
  replace (Z.max (2 ^ m) MIN_TABLE_SIZE) with (2 ^ m) by (unfold MIN_TABLE_SIZE; lia).
  set (s1 := set_resize_initiated 1 (set_resize_target (2 ^ m) s)).
  destruct fuel as [| n]; [lia |].
  cbn [_do_cds_lfht_resize].
  assert (Hassert : c_assert cfg (negb (ht_in_progress_resize s1 =? 0)) = Ok tt).
  { unfold c_assert. destruct Hdbg as [-> | Hne]; [reflexivity |].
    change (ht_in_progress_resize s1) with (ht_in_progress_resize s).
    rewrite (proj2 (Z.eqb_neq _ _) Hne). destruct (NDEBUG cfg); reflexivity. }
  rewrite Hassert. cbn [bind].
  change (ht_in_progress_destroy s1) with (ht_in_progress_destroy s).
  rewrite (proj1 (inv_counters _ _ _ _ Inv)). cbn [Z.eqb negb].
  set (s2 := set_resize_initiated 1 s1).
  change (t_size s2) with (t_size s). change (t_resize_target s2) with (2 ^ m).
  rewrite Hsz.
  assert (Inv2 : table_ok s2 L).
  { apply (table_inv_same _ _ s); [repeat split | exact Inv]. }
  assert (Hfin : forall s3 L3,
            table_ok s3 L3 -> t_size s3 = 2 ^ m -> same_target s2 s3 ->
            keeps_users s2 s3 L L3 -> node_keys s3 = node_keys s2 ->
            ht_hash_fct s3 = ht_hash_fct s2 -> ht_compare_fct s3 = ht_compare_fct s2 ->
            ht_hash_seed s3 = ht_hash_seed s2 ->
            exists s' L',
              (let s := set_resize_initiated 0 s3 in
               if negb (t_size s =? t_resize_target s)
               then _do_cds_lfht_resize cfg n (S n) alloc s else Ok s) = Ok s' /\
              table_ok s' L' /\ t_size s' = 2 ^ m /\ keeps_users s s' L L' /\
              node_keys s' = node_keys s /\
              ht_hash_fct s' = ht_hash_fct s /\ ht_compare_fct s' = ht_compare_fct s /\
              ht_hash_seed s' = ht_hash_seed s).
  { intros s3 L3 I3 Hsz3 [Htg3 _] Hku3 K1 K2 K3 K4. cbv zeta.
    change (t_size (set_resize_initiated 0 s3)) with (t_size s3).
    change (t_resize_target (set_resize_initiated 0 s3)) with (t_resize_target s3).
    rewrite Hsz3, Htg3. change (t_resize_target s2) with (2 ^ m).
    rewrite Z.eqb_refl. cbn [negb].
    exists (set_resize_initiated 0 s3), L3. split; [reflexivity |].
    split; [apply (table_inv_same _ _ s3); [repeat split | exact I3] |].
    split; [exact Hsz3 |].
    split; [apply (keeps_users_mem s s2 s3 _ L L3); try reflexivity; exact Hku3 |].
    cbn. auto. }
  destruct (Z.ltb_spec (2 ^ k) (2 ^ m)) as [Hlt | Hge].
  - assert (Hkm : k < m).
    { destruct (Z.lt_ge_cases k m) as [H | H]; [exact H |].
      assert (2 ^ m <= 2 ^ k) by (apply Z.pow_le_mono_r; lia). lia. }
    destruct (Halloc Hkm) as [Hal Hsucc].
    destruct (grow_total cfg alloc (S n) s2 L k m Inv2 Hm0 Hoff Hsz eq_refl
                ltac:(lia) ltac:(lia) Hal Hsucc ltac:(lia))
      as (s3 & L3 & Hrun & I3 & Hsz3 & Htf3 & Hku3 & K1 & K2 & K3 & K4 & _).
    rewrite Hrun. cbn [bind]. apply (Hfin s3 L3); assumption.
  - destruct (Z.gtb_spec (2 ^ k) (2 ^ m)) as [Hgt | Hle].
    + assert (Hkm : m < k).
      { destruct (Z.lt_ge_cases m k) as [H | H]; [exact H |].
        assert (2 ^ k <= 2 ^ m) by (apply Z.pow_le_mono_r; lia). lia. }
      destruct (shrink_total cfg (S n) s2 L k m Inv2 Hsz eq_refl ltac:(lia) ltac:(lia))
        as (s3 & L3 & Hrun & I3 & Hsz3 & Htf3 & Hku3 & K1 & K2 & K3 & K4 & _).
      rewrite Hrun. cbn [bind]. apply (Hfin s3 L3); assumption.
    + cbn [bind]. apply (Hfin s2 L).
      * exact Inv2.
      * change (t_size s2) with (t_size s). lia.
      * apply same_target_refl.
      * apply keeps_users_refl.
      * reflexivity.
      * reflexivity.
      * reflexivity.
      * reflexivity.
Qed.

(** ** Lookups after a resize *)

Lemma filter_filter_impl {A : Type} (f g : A -> bool) (l : list A) :
  (forall x, f x = true -> g x = true) ->
  List.filter f (List.filter g l) = List.filter f l.
Proof.
  intros H. induction l as [| x l IH]; [reflexivity |].
  cbn [List.filter]. destruct (g x) eqn:Eg; cbn [List.filter].
  - rewrite IH. reflexivity.
  - destruct (f x) eqn:Ef; [rewrite (H x Ef) in Eg; discriminate | exact IH].
Qed.

Lemma key_match_users s key key_len l :
  List.filter (key_match s key key_len) (user_list s l) =
  List.filter (key_match s key key_len) l.
Proof.
  apply filter_filter_impl. intros x Hx. unfold key_match in Hx.
  apply andb_true_iff in Hx as [Hx _]. apply andb_true_iff in Hx as [Hx _]. exact Hx.
Qed.

Lemma key_match_kept s s' L L' key key_len :
  keeps_users s s' L L' ->
  ht_hash_fct s' = ht_hash_fct s -> ht_compare_fct s' = ht_compare_fct s ->
  ht_hash_seed s' = ht_hash_seed s ->
  List.filter (key_match s' key key_len) L' = List.filter (key_match s key key_len) L.
Proof.
  intros [Eu Hat] Eh Ec Es.
  rewrite <- (key_match_users s' key key_len L'), <- (key_match_users s key key_len L), Eu.
  apply List.filter_ext_in. intros a Ha.
  destruct (Hat a Ha) as (A1 & A2 & _ & A4 & _).
  unfold key_match, cmp_key. rewrite A1, A2, A4, Eh, Ec, Es. reflexivity.
Qed.

Lemma lookup_kept cfg s s' L L' key key_len fuel :
  table_ok s L -> table_ok s' L' -> keeps_users s s' L L' ->
  ht_hash_fct s' = ht_hash_fct s -> ht_compare_fct s' = ht_compare_fct s ->
  ht_hash_seed s' = ht_hash_seed s ->
  (length L < fuel)%nat -> (length L' < fuel)%nat ->
  exists it it',
    cds_lfht_lookup cfg fuel s key key_len = Ok it /\
    cds_lfht_lookup cfg fuel s' key key_len = Ok it' /\
    iter_node it' = iter_node it.
Proof.
  intros Inv Inv' Hku Eh Ec Es Hf Hf'.
  rewrite (lookup_first_match cfg s L key key_len fuel Inv Hf).
  rewrite (lookup_first_match cfg s' L' key key_len fuel Inv' Hf').
  rewrite (key_match_kept s s' L L' key key_len Hku Eh Ec Es).
  eexists. eexists. split; [reflexivity |]. split; [reflexivity |].
  destruct (List.filter (key_match s key key_len) L); reflexivity.
Qed.

(** X21. [cds_lfht_resize] to a power of two, on every state that a run
    reaches of a table created without [CDS_LFHT_AUTO_RESIZE], in a build
    with [NDEBUG] or while a resize is accounted for in [in_progress_resize],
    the level arrays being allocated when the table grows: the call returns,
    the table has the size asked for, and the user nodes are those of before,
    in the same order and with the same reverse hash, flags and key. A
    lookup of any key then finds the node that it found before. *)
Theorem X21_resize_keeps_nodes cfg alloc fuel s m :
  reachable cfg s -> auto_off cfg s ->
  NDEBUG cfg = true \/ ht_in_progress_resize s <> 0 ->
  0 <= m < 64 ->
  (t_size s < 2 ^ m ->
   alloc_ok alloc s (order_of_size (t_size s)) MAX_TABLE_ORDER /\
   alloc_succeeds alloc (order_of_size (t_size s)) (m + 1)) ->
  Z.of_nat (size (mem s)) + 2 ^ m < Z.of_nat fuel ->
  exists s' L L',
    cds_lfht_resize cfg fuel alloc s (2 ^ m) = Ok s' /\
    t_size s' = 2 ^ m /\
    linked_nodes fuel s = Ok L /\
    keeps_users s s' L L' /\
    forall fuel', (size (mem s) < fuel')%nat -> (size (mem s') < fuel')%nat ->
      linked_nodes fuel' s' = Ok L' /\
      forall key key_len, exists it it',
        cds_lfht_lookup cfg fuel' s key key_len = Ok it /\
        cds_lfht_lookup cfg fuel' s' key key_len = Ok it' /\
        iter_node it' = iter_node it.
Proof.
  intros Hr Hoff Hdbg Hm Halloc Hfuel.
  destruct (reachable_table_ok cfg s Hr) as (L & Inv & Hm0).
  pose proof (length_le_size s L Inv) as Hlen.
  destruct (table_ok_size _ _ Inv) as (k & Hk & Ek).
  destruct (resize_total cfg alloc fuel s L k m Inv Hm0 Hoff Hdbg Ek Hm)
    as (s' & L' & Hrun & Inv' & Hsz' & Hku & K1 & K2 & K3 & K4).
  { intros Hkm. rewrite Ek, order_of_size_pow2 in Halloc by lia. apply Halloc.
    apply Z.pow_lt_mono_r; lia. }
  { lia. }
  exists s', L, L'. split; [exact Hrun |]. split; [exact Hsz' |].
  split; [apply linked_nodes_run; [exact Inv | lia] |].
  split; [exact Hku |].
  intros fuel' Hf Hf'.
  pose proof (length_le_size s' L' Inv') as Hlen'.
  split; [apply linked_nodes_run; [exact Inv' | lia] |].
  intros key key_len.
  apply (lookup_kept cfg s s' L L' key key_len fuel' Inv Inv' Hku K2 K3 K4); lia.
Qed.

Lemma demo_plain2_hasA_reachable : reachable Demo.cfg_ndebug Demo.plain2_hasA.
Proof.
  assert (H2 : reachable Demo.cfg_ndebug Demo.plain2).
  { apply (reach_new Demo.cfg_ndebug 8 Demo.alloc Demo.hash Demo.compare 0 2 0 1 0);
      [lia | lia | exact demo_alloc_ok | vm_compute; reflexivity]. }
  assert (HA : reachable Demo.cfg_ndebug Demo.plain2_withA).
  { apply reach_node_init; [exact H2 | vm_compute; intuition discriminate |].
    vm_compute. reflexivity. }
  apply (reach_add Demo.cfg_ndebug Demo.plain2_withA 8 Demo.nodeA (5, 1));
    [exact HA | | vm_compute; reflexivity].
  apply (caller_owned_by_walk _ _ _ 8 [4112; 4128]).
  - vm_compute. reflexivity.
  - vm_compute. intuition discriminate.
  - vm_compute. intuition discriminate.
  - vm_compute. eexists. reflexivity.
  - vm_compute. reflexivity.
Qed.

Lemma X21_resize_keeps_nodes_witness :
  exists s' L L',
    cds_lfht_resize Demo.cfg_ndebug 16 Demo.alloc Demo.plain2_hasA (2 ^ 2) = Ok s' /\
    t_size s' = 2 ^ 2 /\
    linked_nodes 16 Demo.plain2_hasA = Ok L /\
    keeps_users Demo.plain2_hasA s' L L' /\
    forall fuel', (size (mem Demo.plain2_hasA) < fuel')%nat -> (size (mem s') < fuel')%nat ->
      linked_nodes fuel' s' = Ok L' /\
      forall key key_len, exists it it',
        cds_lfht_lookup Demo.cfg_ndebug fuel' Demo.plain2_hasA key key_len = Ok it /\
        cds_lfht_lookup Demo.cfg_ndebug fuel' s' key key_len = Ok it' /\
        iter_node it' = iter_node it.
Proof.
  apply (X21_resize_keeps_nodes Demo.cfg_ndebug Demo.alloc 16 Demo.plain2_hasA 2).
  - exact demo_plain2_hasA_reachable.
  - vm_compute. reflexivity.
  - left. reflexivity.
  - lia.
  - intros _. split; apply (bool_decide_unpack _); vm_compute; exact I.
  - vm_compute. reflexivity.
Defined.

(** * A level array that cannot be allocated *)

(** The loop of [init_table] aborts at the first order whose [calloc]
    fails: on [assert(ht->t.tbl[i])], or with [NDEBUG] on the store to the
    first node of the null array. *)
Lemma init_table_loop_alloc_fail cfg alloc fuel : forall n i s L j,
  1 <= i -> table_ok s L -> t_size s = 2 ^ (i - 1) -> mem s !! 0 = None ->
  alloc_ok alloc s i MAX_TABLE_ORDER ->
  Z.of_nat (length L) + 2 ^ (i + Z.of_nat n - 1) - 2 ^ (i - 1) <= Z.of_nat fuel \/
  2 ^ 62 <= Z.of_nat fuel ->
  i <= j < i + Z.of_nat n -> j < 64 -> alloc j = 0 -> 2 ^ j <= t_resize_target s ->
  init_table_loop cfg n fuel alloc i s = Abort.
Proof.
  induction n as [| n IH]; intros i s L j Hi Inv Hsz Hm0 Hal Hfuel Hj Hj64 Hfail Htg;
    [lia |].
  cbn [init_table_loop].
  change (if i =? 0 then 1 else shl 1 (i - 1)) with (level_len i).
  rewrite (proj2 (Z.eqb_neq i 0)) by lia.
  rewrite (shl_1_small i) by lia.
  assert (Hij : 2 ^ i <= 2 ^ j) by (apply Z.pow_le_mono_r; lia).
  rewrite (proj2 (Z.ltb_ge (t_resize_target s) (2 ^ i))) by lia.
  rewrite (proj2 (Z.ltb_lt i MAX_TABLE_ORDER)) by (unfold MAX_TABLE_ORDER; lia).
  cbn [negb].
  pose proof (proj1 (alloc_ok_spec _ _ _ _) Hal i ltac:(unfold MAX_TABLE_ORDER; lia))
    as [H0 | [Hblock Hapart]].
  { rewrite H0. cbn [Z.eqb negb].
    unfold c_assert. destruct (NDEBUG cfg); cbn [bind]; [| reflexivity].
    rewrite populate_null;
      [reflexivity | lia | exact (inv_counters _ _ _ _ Inv) | apply lookup_insert_eq
      | exact Hm0]. }
  assert (Hnz : alloc i <> 0) by (destruct Hblock; lia).
  assert (Hlt : i < j) by (destruct (Z.eq_dec i j) as [-> | ?]; [contradiction | lia]).
  rewrite (proj2 (Z.eqb_neq _ _) Hnz).
  rewrite c_assert_true by reflexivity. cbn [bind].
  assert (Hpow : 2 ^ (i - 1) <= 2 ^ (i + Z.of_nat (S n) - 1) - 2 ^ (i - 1)).
  { assert (2 ^ i <= 2 ^ (i + Z.of_nat (S n) - 1)) by (apply Z.pow_le_mono_r; lia).
    rewrite (pow2_double i) in H by lia. lia. }
  destruct (init_table_level cfg alloc s L i fuel ltac:(lia) Inv Hsz Hblock ltac:(lia))
    as (s1 & L1 & Hrun & Inv1 & Hlen1 & Hdom1 & Hk1 & Htg1 & _).
  rewrite Hrun. cbn [bind].
  set (s2 := set_size (2 ^ i) s1) in *.
  assert (Hd : ht_in_progress_destroy s2 = 0) by apply (inv_counters _ _ _ _ Inv1).
  rewrite Hd. cbn [Z.eqb negb].
  assert (Hm2 : mem s2 !! 0 = None).
  { destruct (mem s2 !! 0) as [n0 |] eqn:E0; [| reflexivity].
    destruct (proj1 (Hdom1 0) ltac:(eauto)) as [H | (j' & Hj' & E)].
    - rewrite Hm0 in H. destruct H; discriminate.
    - destruct Hblock as (B1 & _). unfold sizeof_node in E. lia. }
  assert (Hal2 : alloc_ok alloc s2 (i + 1) MAX_TABLE_ORDER).
  { apply (alloc_ok_next alloc s s2 i); [exact Hal | exact Hnz |].
    intros a Ha. apply Hdom1. exact Ha. }
  apply (IH (i + 1) s2 L1 j); try assumption; try lia.
  - replace (i + 1 - 1) with i by lia. reflexivity.
  - replace (i + 1 + Z.of_nat n) with (i + Z.of_nat (S n)) by lia.
    replace (i + 1 - 1) with i by lia.
    rewrite (pow2_double i) by lia. lia.
  - change (t_resize_target s2) with (t_resize_target s1). lia.
Qed.

Lemma new_alloc_fail cfg fuel alloc hash_fct compare_fct hash_seed init_size flags
  nprocs cpu k j :
  0 <= k < 64 -> Z.max init_size MIN_TABLE_SIZE = 2 ^ k ->
  init_size = 0 \/ init_size = 2 ^ k ->
  nprocs <= 2 ^ 61 ->
  alloc_ok alloc (calloc_ht hash_fct compare_fct hash_seed (-1) nprocs cpu) 0
    MAX_TABLE_ORDER ->
  2 ^ k <= Z.of_nat fuel ->
  0 <= j <= k -> alloc j = 0 ->
  _cds_lfht_new cfg fuel alloc hash_fct compare_fct hash_seed init_size flags
    (-1) nprocs cpu = Abort.
Proof.
  intros Hk Hmax Hinit Hnp Hal Hfuel Hj Hfail.
  pose proof (pow2_lt_64 k Hk) as Hp.
  unfold _cds_lfht_new.
  assert (Hguard : andb (negb (init_size =? 0))
                     (negb (Z.land init_size (ulong (init_size - 1)) =? 0)) = false).
  { destruct Hinit as [-> | ->]; [reflexivity |].
    rewrite size_mask, land_pow2_pred by lia. apply andb_false_r. }
  rewrite Hguard, Hmax.
  set (sc := calloc_ht hash_fct compare_fct hash_seed (-1) nprocs cpu) in *.
  destruct (alloc_per_cpu_counters sc eq_refl Hnp eq_refl) as [Hc Hsp].
  destruct (alloc_per_cpu_items_count sc) as [sp cells]. cbn [fst snd] in Hc, Hsp.
  rewrite get_count_order_ulong_pow2 by lia.
  rewrite (ulong_small (k + 1)) by lia.
  replace (k + 1 - 1) with k by lia. rewrite shl_1_small by lia.
  set (si := set_resize_target (2 ^ k) (set_flags flags (set_percpu_count cells sp))).
  assert (Hci : counters_ok si) by exact Hc.
  assert (Hmi : mem si = ∅) by (unfold si; rewrite Hsp; reflexivity).
  assert (Hki : node_keys si = ∅) by (unfold si; rewrite Hsp; reflexivity).
  unfold init_table. replace (Z.to_nat (k + 1)) with (S (Z.to_nat k)) by lia.
  cbn [init_table_loop Z.eqb].
  assert (Htg : (t_resize_target si <? 1) = false) by (apply Z.ltb_ge; cbn; lia).
  rewrite Htg. change (negb (0 <? MAX_TABLE_ORDER)) with false. cbv iota.
  pose proof (proj1 (alloc_ok_spec _ _ _ _) Hal 0 ltac:(unfold MAX_TABLE_ORDER; lia))
    as [H0 | [Hblock _]].
  { rewrite H0. cbn [Z.eqb negb].
    unfold c_assert. destruct (NDEBUG cfg); cbn [bind]; [| reflexivity].
    rewrite (populate_null cfg fuel _ 0); [reflexivity | lia | exact Hci
                                          | apply lookup_insert_eq |].
    change (mem si !! 0 = None). rewrite Hmi. apply lookup_empty. }
  assert (Hnz : alloc 0 <> 0) by (destruct Hblock; lia).
  assert (Hj1 : 1 <= j) by (destruct (Z.eq_dec j 0) as [-> | ?]; [contradiction | lia]).
  rewrite (proj2 (Z.eqb_neq _ _) Hnz).
  rewrite c_assert_true by reflexivity. cbn [bind].
  assert (Hblock' : block_ok si (alloc 0) 1).
  { unfold block_ok in *. rewrite Hmi. exact Hblock. }
  destruct (init_level0 cfg alloc fuel si Hmi Hki Hci Hblock')
    as (s1 & Hrun & Inv1 & Hdom1 & Hk1 & Htg1 & Htb1 & F1 & F2 & F3 & F4).
  rewrite Hrun. cbn [bind].
  set (s2 := set_size 1 s1) in *.
  assert (Hd : ht_in_progress_destroy s2 = 0) by exact (proj1 (inv_counters _ _ _ _ Inv1)).
  rewrite Hd. cbn [Z.eqb negb Z.add].
  assert (Hm2 : mem s2 !! 0 = None).
  { destruct (mem s2 !! 0) as [n0 |] eqn:E0; [| reflexivity].
    assert (0 = alloc 0) by (apply Hdom1; eauto). congruence. }
  assert (Hal2 : alloc_ok alloc s2 (0 + 1) MAX_TABLE_ORDER).
  { apply (alloc_ok_next alloc sc s2 0); [exact Hal | exact Hnz |].
    intros a Ha. right. exists 0. split; [change (level_len 0) with 1; lia |].
    apply Hdom1 in Ha. unfold sizeof_node. lia. }
  change (0 + 1) with 1 in *.
  rewrite (init_table_loop_alloc_fail cfg alloc fuel (Z.to_nat k) 1 s2 [alloc 0] j);
    try assumption; try reflexivity; try lia.
  - left. cbn [length]. rewrite Z2Nat.id by lia.
    replace (1 + k - 1) with k by lia. change (2 ^ (1 - 1)) with 1. lia.
  - change (t_resize_target s2) with (t_resize_target s1). rewrite Htg1.
    change (t_resize_target si) with (2 ^ k). apply Z.pow_le_mono_r; lia.
Qed.

(** X22. [_cds_lfht_new] has no error return for a failed allocation: with
    an [init_size] that is zero or a power of two, it returns a table when
    [calloc] gives every level array up to the order of the size, and it
    aborts when [calloc] fails for one of them (on [assert(ht->t.tbl[i])],
    or with [NDEBUG] on the store to the null array); it never returns
    [NULL] then. *)
Theorem X22_new_alloc_failure cfg fuel alloc hash_fct compare_fct hash_seed init_size
  flags nprocs cpu k :
  0 <= k < 64 -> Z.max init_size MIN_TABLE_SIZE = 2 ^ k ->
  init_size = 0 \/ init_size = 2 ^ k ->
  nprocs <= 2 ^ 61 ->
  alloc_ok alloc (calloc_ht hash_fct compare_fct hash_seed (-1) nprocs cpu) 0
    MAX_TABLE_ORDER ->
  2 ^ k <= Z.of_nat fuel ->
  let r := _cds_lfht_new cfg fuel alloc hash_fct compare_fct hash_seed init_size flags
             (-1) nprocs cpu in
  (r = Abort <-> exists j, 0 <= j <= k /\ alloc j = 0) /\
  ((exists s, r = Ok (Some s)) <-> forall j, 0 <= j <= k -> alloc j <> 0).
Proof.
  intros Hk Hmax Hinit Hnp Hal Hfuel r.
  pose proof (cds_lfht_new_run cfg fuel alloc hash_fct compare_fct hash_seed init_size
                flags nprocs cpu k Hk Hmax Hinit Hnp Hal Hfuel) as Hrun.
  fold r in Hrun.
  assert (Hfail : forall j, 0 <= j <= k -> alloc j = 0 -> r = Abort).
  { intros j Hj H0. apply (new_alloc_fail cfg fuel alloc hash_fct compare_fct hash_seed
                             init_size flags nprocs cpu k j); assumption. }
  split; [split |split].
  - intros E. rewrite E in Hrun. exact Hrun.
  - intros (j & Hj & H0). apply (Hfail j Hj H0).
  - intros [s E] j Hj H0. rewrite (Hfail j Hj H0) in E. discriminate.
  - intros Hall. destruct r as [[s |] | |].
    + exists s. reflexivity.
    + contradiction.
    + destruct Hrun as (j & Hj & H0). destruct (Hall j Hj H0).
    + contradiction.
Qed.

Lemma X22_new_alloc_failure_witness :
  let r := _cds_lfht_new Demo.cfg 8 Demo.alloc Demo.hash Demo.compare 0 4 1 (-1) 1 0 in
  (r = Abort <-> exists j, 0 <= j <= 2 /\ Demo.alloc j = 0) /\
  ((exists s, r = Ok (Some s)) <-> forall j, 0 <= j <= 2 -> Demo.alloc j <> 0).
Proof.
  apply (X22_new_alloc_failure Demo.cfg 8 Demo.alloc Demo.hash Demo.compare 0 4 1 1 0 2).
  - lia.
  - reflexivity.
  - right. reflexivity.
  - lia.
  - exact demo_alloc_ok.
  - vm_compute. discriminate.
Defined.
